(* ===== verification/_CoqProject ===== *)
-Q . S2P
Prelude.v
Async.v
Tokens.v
Proto.v
Common.v
FileSystem.v
ServerConfig.v
Queue.v
Metrics.v
Db.v
TokenCache.v
App.v
Logs.v
Dispatch.v
Handler.v
Lifecycle.v
Coherence.v
Refinement.v
DbRoles.v
DbCredentials.v
DbUsers.v
DbChannels.v
Auth.v
Channels.v
Components.v
Login.v
AuthRoutes.v
LoginSpec.v
Admin.v
WorkerAdmin.v
TokenSpec.v
AdminSpec.v
ChannelRoutes.v
Routes.v
Submission.v
Recovery.v
Exclusive.v
TagFormat.v
Scheduler.v
PeriodicRoutes.v
LogsSpec.v
LogReaders.v
LogReadersSpec.v
Periodic.v
System.v
DispatchSpec.v
Startup.v
HandlerSpec.v
RoutesSpec.v
PeriodicRoutesSpec.v
Integrity.v
Unpack.v
UnpackSpec.v
Blocking.v
Supervisor.v
WorkerOutput.v
WorkerConfig.v
WorkerHandler.v
WorkerMetrics.v
WorkerSpec.v
WorkerRuns.v
WorkerSamples.v
Samples.v
Witnesses.v
AdminWitnesses.v
Cbc.v
CbcBuilds.v
CbcLogs.v
CbcPeriodic.v
CbcWorkers.v
CbcChannels.v
CbcRoles.v
CbcRobots.v
CbcMain.v
CbcSpec.v
CbcConfigSpec.v
CbcNamesSpec.v
CbcWitnesses.v
EndToEnd.v
MetricsWitnesses.v
