(* ===== verification/Prelude.v ===== *)
(** * Verification of the build service of cbsd-rs

    cbsd-rs (src/cbsd-rs/) is a build service: users and periodic tasks submit
    builds to a server, the server queues them and dispatches them to workers
    over WebSocket connections, follows their life through the messages of the
    workers, and keeps everything in an SQLite database. A worker unpacks the
    component archive of a build, runs it in a subprocess, streams its output
    back and survives disconnections. Users work with a command-line client. This
    development models the server crate (cbsd-server), the worker crate
    (cbsd-worker), the client (cbc) and the wire protocol (cbsd-proto) and
    proves what they guarantee.

    ** The program, and the files that model it

    - Wire protocol (cbsd-proto/src/arch.rs, build.rs, ws.rs): Proto.v. The
      enums and structs with the source's constructors and the spellings of
      serde and Display.
    - Build queue (queue/mod.rs, ws/liveness.rs): Queue.v. Three lanes of
      pending builds, the active map and the connected workers, with one
      definition per method. The iteration order of a HashMap is a parameter
      (class [HashIter]): any permutation of its entries.
    - Database (db/*.rs, migrations/): Db.v for the tables and the statements on
      builds, logs and workers, DbRoles.v, DbUsers.v, DbChannels.v for roles,
      users and channels, DbCredentials.v for session tokens, API keys and
      robots, the first part of Scheduler.v for periodic tasks. A table is a finite map or a set of
      rows, a statement ([stmt]) a function of the time and the tables to a
      result and the tables, constraints of the migrations included.
    - Asynchronous code: Async.v. An async function is a program ([prog])
      whose atomic actions are what happens between two points where another
      task can run: a critical section, a statement, a send. [run] executes a
      program alone; [pool_step] interleaves a pool of programs action by
      action. App.v defines the shared state and its actions. Every call that
      can fail takes the next flag of a schedule of failures kept in the state,
      so a theorem about all states is a theorem about all failures, and one
      with [faults s = []] is about a run without any. A statement that fails
      has no effect. A transaction ([query_tx]) is one action with one flag: its
      body commits as a whole or not at all.
    - Dispatch engine (ws/dispatch.rs, components/tarball.rs): Dispatch.v.
    - Connection handler (ws/handler.rs): Handler.v. The frames that arrive on a
      connection until its loop ends are an argument; the loop also ends when
      the outbound channel is dropped, which is one more way for the list to
      end early.
    - Logs (logs/writer.rs, tail.rs, gc.rs, sse.rs): Logs.v and LogReaders.v. The
      reader of a log (a follower) is a loop of turns; its fuel is the number of
      turns until the client leaves.
    - Permissions (scopes.rs, auth/extractors.rs): Auth.v.
    - Credentials: TokenCache.v (the cache of verified tokens with its indices by
      prefix and by owner, auth/token_cache.rs), Login.v (generation and
      verification of API keys, robot tokens and PASETO tokens, the extractor
      that authenticates a request), AuthRoutes.v (the OAuth login and the routes
      of tokens and keys, auth/oauth.rs, routes/auth.rs). The map behind the cache
      is an interface ([LruCrate]), hashes and sealed tokens another
      ([TokenCrates]), Google's endpoints a third ([WebCrates]).
    - Administration (routes/admin.rs, permissions.rs, robots.rs, workers.rs,
      channels.rs, periodic.rs, components.rs): Admin.v, WorkerAdmin.v,
      ChannelRoutes.v, PeriodicRoutes.v; Common.v has what all routes share.
    - Configuration (config.rs): ServerConfig.v, over FileSystem.v.
    - Start, draining and shutdown (db/seed.rs, main.rs): Startup.v.
    - Channel resolution (channels/mod.rs): Channels.v.
    - Components (components/mod.rs, validator.rs): Components.v, the scan of the
      component directory over FileSystem.v and the validation of descriptors.
    - Build endpoints (routes/builds.rs): Routes.v.
    - Startup recovery (queue/recovery.rs): Recovery.v.
    - Scheduler (scheduler/): TagFormat.v and Scheduler.v.
    - The whole server: System.v. A [Job] is anything the server is asked to do
      (a connection, a spawned task, a submission, a revocation, a sweep, a
      pass of the scheduler).
    - Worker, component archives (cbsd-worker/src/build/component.rs): Unpack.v,
      over FileSystem.v, a model of std::path and of a POSIX file system with
      symbolic and hard links, where every call can fail.
    - Worker, supervisor of the active build (build/supervisor.rs):
      Supervisor.v. Its tasks block on an async mutex and on a bounded channel;
      Blocking.v has programs whose actions may have to wait, their runs, their
      interleavings and what a deadlock is.
    - Worker, output and executor (build/output.rs, build/executor.rs):
      WorkerOutput.v and the first part of WorkerHandler.v.
    - Worker, configuration (config.rs, cbsd-common/src/env.rs, the worker token
      of cbsd-proto/src/lib.rs): WorkerConfig.v.
    - Worker, connection (ws/handler.rs, ws/connection.rs, main.rs, signal.rs):
      WorkerHandler.v, from one message to the reconnection loop. The branches
      that select! takes are an argument of the message loop.
    - Client (cbc/src/): Cbc.v for requests, the configuration file and tables
      (client.rs, config.rs, error.rs, table.rs), then a file per group of
      commands: CbcBuilds.v (builds.rs), CbcLogs.v (logs.rs), CbcPeriodic.v
      (periodic.rs), CbcWorkers.v (worker.rs), CbcChannels.v (channels.rs,
      admin/channels.rs, admin/queue.rs), CbcRoles.v (admin/roles.rs,
      admin/users.rs), CbcRobots.v (admin/robots.rs); CbcMain.v has the login and
      the choice of the command (main.rs, admin/mod.rs). A command is a program
      over the files, the terminal and the requests made so far ([World]). What
      the network answers to them, and the redirects that the HTTP library follows
      before it answers ([on_wire]), are an interface ([HttpCrate]).
    - Metrics: Metrics.v for the server (cbsd-server/src/metrics/), as the calls
      that a recorder gets, WorkerMetrics.v for what a worker counts and samples
      (cbsd-worker/src/metrics/, the escalation of build/executor.rs). The recorder
      of the metrics crates is an interface with its documented behaviour
      ([Recorder], [RecorderLaws]).
    - Text and JSON values of several crates: the second part of Common.v.

    ** What the theorems show

    - Refinement. Lifecycle.v is the specification: the transitions of one
      build ([lifecycle]) and the agreement [coh] between the states in the
      database and the queue. Coherence.v, Refinement.v, Submission.v and
      Periodic.v prove that each handler, run alone without failures, keeps
      [coh] and follows the lifecycle; System.v composes them to
      [server_refines_lifecycle].
    - Exclusivity under any interleaving. Tokens.v has a method for programs
      that own a build for a while ([balanced]); Exclusive.v proves with it that
      no handler ever puts a build in two places, whatever fails, whatever is
      scheduled in between, and even when tasks are dropped half-way:
      [queue_exclusive_always]. It also makes every such state recoverable:
      [crash_recovery], and with it the whole next start ([next_start_comes_up]).
    - Functional behaviour: DispatchSpec.v (the decision of a dispatch, the
      authority of the assigned worker, timers, rollback, termination of the
      sweep), HandlerSpec.v (dead workers, migration, reconnection, handshake),
      RoutesSpec.v (submission, listing, access, revocation), Components.v (what
      the directory says is what the server knows, [load_components_outcome]),
      Channels.v, Auth.v, TagFormat.v, Periodic.v, Integrity.v (channels and roles).
    - Logs. LogsSpec.v: every logged line can be found again; LogReadersSpec.v:
      a follower gets every line once, one that comes back in the middle of a log
      that still grows the lines after it, and any other one the whole log again
      ([follow_delivers_log]), a tail the last lines ([tail_is_last_lines]), and the
      collector removes exactly the expired logs ([gc_removes_exactly_expired]).
    - Credentials. TokenSpec.v has the invariant of the cache ([sound]): every
      cached token has a live row. All requests keep it, one after the other, so
      only live tokens are accepted ([accepted_token_is_live]). LoginSpec.v: the
      token of a login stands for the account until it is revoked or expires, as
      long as the account is active ([login_token_accepted]).
      AdminSpec.v: a registered worker can connect ([registered_worker_connects])
      and a deactivation leaves an administrator ([last_admin_stays]).
    - Tasks and start-up. PeriodicRoutesSpec.v: stored tasks pass the checks of
      their creation in every interleaving ([stored_tasks_stay_valid]), which is
      less than that they can be run ([empty_braces_never_a_tag]), and what a manual
      trigger does ([manual_trigger_outcome]). Startup.v: the first start makes the
      administrator that is configured, if there is one ([seed_establishes_admin]).
    - The worker. UnpackSpec.v: an archive without symbolic links changes
      nothing outside its directory ([unpack_contained]) and the decompressor
      is capped, and never silently ([decompression_capped]). WorkerSpec.v: the record of the active
      build is well formed in every interleaving
      ([supervisor_record_well_formed]). WorkerRuns.v: what a connection does
      with a dispatch ([dispatch_answered]) and with what was kept while it was
      down, if it fits in the spool and nothing fails
      ([disconnected_output_replayed]). WorkerOutput.v: no output is lost
      or renumbered ([stream_output_complete]). WorkerConfig.v:
      [resolved_config_safe].
    - The client. CbcSpec.v: no request is made for a scheme or without a check
      of certificates that the options do not allow; of the redirects that the
      library follows this holds for the certificates only
      ([requests_follow_options]).
      CbcConfigSpec.v: the configuration is replaced in one step
      ([save_atomic]) and a login keeps a token that the server accepts
      ([login_saves_token]). CbcNamesSpec.v: the short ids of tasks
      ([listed_id_resolves]).
    - The three programs together. EndToEnd.v: what a build prints is what the
      client shows, line by line, through the worker, the server with its log file
      and event stream, and the client ([output_reaches_terminal]). The two
      libraries at the ends of the stream are an interface ([EventWire]) that is
      only assumed to deliver texts that are not empty and have no line feed and no
      carriage return, over a connection that is not cut.
    - Metrics. Metrics.v: the gauges are the numbers of the queue and the pool
      ([gauges_match_queue]) and the exits of a worker the largest that it has
      reported ([exits_are_largest_report]). WorkerMetrics.v: the sampler
      accounts for every tick while the mutex of the supervisor is free
      ([sampler_accounts_for_ticks]) and a host sample is
      in range ([sample_bounds]).
    - Deviations. Some theorems state what the code does where it differs from
      what it says: a failed statement loses a queued build
      ([dispatch_db_failure_loses_build]), a timer undoes a revocation
      ([ack_timeout_undoes_revocation]), an idle report leaves the builds of the
      worker in flight ([idle_report_keeps_own_builds]), stale reports are not
      answered ([stale_report_not_answered]), a revoked queued build keeps an
      unfinished log ([queued_build_revoked]), and a deleted default channel is
      retried ([deleted_default_is_retried]); a verification that overlaps a
      revocation caches the revoked key ([revocation_race]), some routes check
      for the last administrator after they have removed it
      ([last_admin_removed]), a draining shutdown overwrites the result of a
      build that ends meanwhile ([drain_overwrites_result]), whoever
      registered a worker cannot renew its token ([registrant_cannot_regenerate]),
      a user who may view no builds can tell which ids exist
      ([foreign_builds_hidden]), a client that was caught up with a log is sent all
      of it again ([follow_delivers_log]), and a tag format is accepted that never
      gives a tag ([empty_braces_never_a_tag]).

      On the worker: symbolic links of an archive reach outside its directory
      ([symlinks_escape]), a result is lost when its delivery fails
      ([failed_delivery_loses_result]), a full outbound channel can deadlock the
      worker ([revoke_deadlocks_on_full_channel]), a signal can be missed
      ([missed_shutdown_signal]), and a connection that fails at the start of a
      build leaves it running unread ([failed_start_strands_build]); a full channel
      stops the sampler too ([full_channel_stalls_sampler]). In the
      server, a component whose directory has another name is accepted and cannot
      be packed ([renamed_component_cannot_be_packed]). In the client, changing a
      task drops the repositories of its components ([update_drops_repositories]), and a
      redirect can leave https ([redirects_are_not_bound]).

    Samples.v builds a concrete server and Witnesses.v applies every theorem with
    hypotheses to it; AdminWitnesses.v does so for credentials, logs, tasks and
    start-up, WorkerSamples.v for the worker, CbcWitnesses.v for the client,
    the end of EndToEnd.v for the three together and MetricsWitnesses.v for
    metrics.

    ** Conventions and bounds

    - Integers are [Z]. Database ids and times are 64-bit in the code and do not
      overflow in practice; the log writer, where numbers come from the worker,
      wraps at 64 bits ([wrap_u64], [cast_i64]).
    - Strings are byte strings; [to_lowercase] is ASCII.
    - The section of [try_dispatch] under the queue lock awaits one statement and
      the lock of the watchers. It is one atomic action ([dispatch_under_lock]):
      whatever another task does in between does not touch the queue, and
      commutes with the statement on the row of the popped build. The same holds
      for recovery, which runs before the server accepts connections.
    - The loop of the sweep has fuel; one unit more than there are pending builds
      is enough ([sweep_terminates]).
    - Third-party code is a parameter: uuid, tar, sha2 ([Env]), serde_json
      ([Serde], [Codec], [JsonValue]), croner and chrono ([Chrono]), tar, flate2
      and sha2 on the worker ([TarCrates]), metrics ([Recorder]), the YAML parser
      and the order of a directory ([ComponentCrates]); for the client url
      ([UrlCrate]), reqwest ([HttpCrate]), reqwest_eventsource
      ([EventSourceCrate]), serde ([Serialize], [Deserialize], [Codecs],
      [JsonMore]), chrono ([ClientChrono]), base64 ([Base64]) and the host
      ([Host]). The laws assumed of them are those of [HashIter] and of a
      directory (a permutation), of [LruCrate] (a bounded map) and of [Recorder]
      (its documented calls), and, in the
      theorems that say so, that argon2 and PASETO accept what they produced, that
      joining a relative path to a URL keeps its scheme, that a redirect is followed
      with the same check of certificates, that an event stream delivers plain
      texts, and that serde reads what it has written.
    - A file that is open while the collector unlinks it is not modelled: a
      reader looks its file up in every turn.

    ** Not modelled

    Log output; which handler records which event, the loop that refreshes the
    gauges, and the readings of the sysinfo crate; frames the server writes on a
    socket before the outbound channel exists ([send_json] keeps only whether the
    write failed); the HTTP layer around the handlers, with the parsing of bodies and the
    wiring of the router; the parsing of YAML, the listeners and the tracing
    set-up at start; the TLS connector of the worker; in the client the parsing of the command line by clap, the opening of the
    browser, whose result the code ignores, and the reconnections inside the
    event source.

    This file holds what all of them share: results, the iterator and string
    functions of Rust's standard library, automation and generic lemmas. *)

From stdpp Require Import prelude gmap strings list.

(** ** Rust's [Result] *)

Inductive result (T E : Type) : Type :=
| Ok (t : T)
| Err (e : E).
Arguments Ok {_ _} _.
Arguments Err {_ _} _.

Definition is_ok {T E} (r : result T E) : bool :=
  match r with Ok _ => true | Err _ => false end.

(** ** Iterator functions of the Rust standard library on lists *)

(** [Iterator::find]. *)
Fixpoint find_first {A} (p : A → bool) (l : list A) : option A :=
  match l with
  | [] => None
  | x :: l => if p x then Some x else find_first p l
  end.

(** [Iterator::find_map]. *)
Fixpoint find_map {A B} (f : A → option B) (l : list A) : option B :=
  match l with
  | [] => None
  | x :: l => match f x with Some y => Some y | None => find_map f l end
  end.

(** [Iterator::position]. *)
Fixpoint position {A} (p : A → bool) (l : list A) : option nat :=
  match l with
  | [] => None
  | x :: l => if p x then Some 0 else S <$> position p l
  end.

(** [VecDeque::remove]: the removed element and the rest, [None] out of range. *)
Definition remove_at {A} (n : nat) (l : list A) : option (A * list A) :=
  match l !! n with
  | Some x => Some (x, take n l ++ drop (S n) l)
  | None => None
  end.

(** The order of a key. *)
Definition on_key {A B} (R : B → B → Prop) (f : A → B) (x y : A) : Prop := R (f x) (f y).
#[global] Typeclasses Opaque on_key.
#[global] Instance on_key_dec {A B} (R : B → B → Prop) (f : A → B) `{HR : ∀ x y, Decision (R x y)} x y :
  Decision (on_key R f x y) := HR (f x) (f y).

(** ** Rust [str] functions, on byte strings *)

(** [str::starts_with]. *)
Definition starts_with (p s : string) : bool := String.prefix p s.

(** [str::strip_suffix] with a one-character ASCII pattern. *)
Fixpoint strip_suffix_char (c : Ascii.ascii) (s : string) : option string :=
  match s with
  | EmptyString => None
  | String a EmptyString => if Ascii.eqb a c then Some EmptyString else None
  | String a s => String a <$> strip_suffix_char c s
  end.

(** [str::strip_prefix] and [str::strip_suffix]. *)
Definition strip_prefix (p s : string) : option string :=
  if String.prefix p s
  then Some (String.substring (String.length p) (String.length s - String.length p) s) else None.
Definition strip_suffix (p s : string) : option string :=
  let n := String.length s - String.length p in
  if (String.length p <=? String.length s) && String.eqb (String.substring n (String.length p) s) p
  then Some (String.substring 0 n s) else None.

(** [str::chars] on UTF-8: a character is a lead byte with its continuation
    bytes. *)
Definition is_continuation_byte (c : Ascii.ascii) : bool :=
  let n := Ascii.nat_of_ascii c in (128 <=? n) && (n <? 192).
Fixpoint chars_aux (s : string) : string * list string :=
  match s with
  | EmptyString => (EmptyString, [])
  | String c s =>
      let '(pending, l) := chars_aux s in
      if is_continuation_byte c then (String c pending, l) else (EmptyString, String c pending :: l)
  end.
Definition chars (s : string) : list string := (chars_aux s).2.

(** [str::contains] with a string pattern. *)
Fixpoint contains (p s : string) : bool :=
  String.prefix p s ||
  match s with EmptyString => false | String _ s => contains p s end.

(** The part of [s] before the first occurrence of [c], all of [s] without
    one: [s.split(c).next().unwrap_or(s)]. *)
Fixpoint split_head (c : Ascii.ascii) (s : string) : string :=
  match s with
  | EmptyString => EmptyString
  | String a s => if Ascii.eqb a c then EmptyString else String a (split_head c s)
  end.

(** [str::replace] with a non-empty pattern: non-overlapping occurrences, left
    to right. [skip] counts the characters of a matched occurrence still to be
    dropped. *)
Fixpoint replace_aux (p r : string) (skip : nat) (s : string) : string :=
  match s with
  | EmptyString => EmptyString
  | String a s' =>
      match skip with
      | S n => replace_aux p r n s'
      | O => if String.prefix p s
             then r +:+ replace_aux p r (Nat.pred (String.length p)) s'
             else String a (replace_aux p r 0 s')
      end
  end.

Definition str_replace (p r s : string) : string := replace_aux p r 0 s.

Definition ascii_lower (c : Ascii.ascii) : Ascii.ascii :=
  let n := Ascii.nat_of_ascii c in
  if (65 <=? n) && (n <=? 90) then Ascii.ascii_of_nat (n + 32) else c.

(** [str::to_lowercase] on ASCII. A non-ASCII character never lowers to a
    sequence that completes the ASCII word the callers look for. *)
Fixpoint to_lowercase (s : string) : string :=
  match s with
  | EmptyString => EmptyString
  | String a s => String (ascii_lower a) (to_lowercase s)
  end.

(** ** Automation *)

Create HintDb cbs.

(** Case analysis on every [match] of the goal and of the hypotheses, with the
    resulting equations simplified. *)
Ltac split_matches :=
  repeat (case_match; simplify_eq/=).

(** ** Generic lemmas *)

Lemma find_first_Some {A} (p : A → bool) l x :
  find_first p l = Some x → x ∈ l ∧ p x = true.
Proof.
  induction l as [|y l IH]; simpl; intros Hf; [done|].
  destruct (p y) eqn:E; simplify_eq; set_solver.
Qed.

Lemma find_first_None {A} (p : A → bool) l x :
  find_first p l = None → x ∈ l → p x = false.
Proof.
  induction l as [|y l IH]; simpl; intros Hf Hx; [set_solver|].
  destruct (p y) eqn:E; simplify_eq; set_solver.
Qed.

Lemma find_first_is_Some {A} (p : A → bool) l x :
  x ∈ l → p x = true → is_Some (find_first p l).
Proof.
  intros Hx Hp. destruct (find_first p l) eqn:E; [done|].
  by rewrite (find_first_None _ _ _ E Hx) in Hp.
Qed.

Lemma find_map_Some {A B} (f : A → option B) l y :
  find_map f l = Some y → ∃ x, x ∈ l ∧ f x = Some y.
Proof.
  induction l as [|a l IH]; simpl; intros Hf; [done|].
  destruct (f a) eqn:E; simplify_eq.
  - exists a. set_solver.
  - destruct (IH Hf) as (x & ? & ?). exists x. set_solver.
Qed.

Lemma find_map_None {A B} (f : A → option B) l x :
  find_map f l = None → x ∈ l → f x = None.
Proof.
  induction l as [|a l IH]; simpl; intros Hf Hx; [set_solver|].
  destruct (f a) eqn:E; simplify_eq; set_solver.
Qed.

(** An invariant of a left fold. *)
Lemma foldl_ind {A B} (P : B → Prop) (f : B → A → B) b l :
  P b → (∀ b a, P b → P (f b a)) → P (foldl f b l).
Proof. revert b. induction l as [|a l IH]; intros b Hb Hf; [done|]. apply IH; [by apply Hf|done]. Qed.

Lemma existsb_spec {A} (p : A → bool) l :
  existsb p l = true ↔ ∃ x, x ∈ l ∧ p x = true.
Proof.
  rewrite existsb_exists. split; intros (x & Hx & Hp); exists x; split; try done;
    by apply list_elem_of_In.
Qed.
#[export] Hint Resolve find_first_Some : cbs.

(** [position] then [remove_at] takes out the first element that satisfies the
    predicate and keeps the order of the rest. *)
Lemma position_remove_at {A} (p : A → bool) (l : list A) n :
  position p l = Some n →
  ∃ l1 x l2, l = l1 ++ x :: l2 ∧ remove_at n l = Some (x, l1 ++ l2) ∧
             p x = true ∧ Forall (λ y, p y = false) l1.
Proof.
  revert n. induction l as [|y l IH]; intros n Hn; simplify_eq/=.
  destruct (p y) eqn:Hp; simplify_eq/=.
  { by exists [], y, l. }
  destruct (position p l) as [m|]; simplify_eq/=.
  destruct (IH m eq_refl) as (l1 & x & l2 & -> & Hr & Hx & Hf).
  exists (y :: l1), x, l2. split_and!; [done| |done|by constructor].
  unfold remove_at in *. simpl. destruct ((l1 ++ x :: l2) !! m) as [z|]; [|done].
  injection Hr as -> Hr. by rewrite Hr.
Qed.

Lemma position_None {A} (p : A → bool) (l : list A) :
  position p l = None ↔ Forall (λ y, p y = false) l.
Proof.
  induction l as [|y l IH]; simpl; [done|].
  rewrite Forall_cons. destruct (p y); [naive_solver|].
  destruct (position p l); naive_solver.
Qed.

(** ** Lemmas on strings *)

Lemma string_prefix_app p s : String.prefix p (p +:+ s) = true.
Proof.
  induction p as [|a p IH]; [by destruct s|]. simpl.
  by destruct (Ascii.ascii_dec a a).
Qed.

Lemma string_prefix_spec p s : String.prefix p s = true ↔ ∃ t, s = p +:+ t.
Proof.
  split; [|by intros [t ->]; apply string_prefix_app].
  revert s. induction p as [|a p IH]; intros s H; [by exists s|].
  destruct s as [|b s]; simpl in H; [done|].
  destruct (Ascii.ascii_dec a b) as [->|]; [|done].
  destruct (IH _ H) as [t ->]. by exists t.
Qed.

Lemma string_app_assoc (a b c : string) : a +:+ (b +:+ c) = (a +:+ b) +:+ c.
Proof. induction a as [|x a IH]; [done|]. exact (f_equal (String x) IH). Qed.

Lemma string_app_nil_r (a : string) : a +:+ "" = a.
Proof. induction a as [|x a IH]; [done|]. exact (f_equal (String x) IH). Qed.

Lemma string_app_length (a b : string) :
  String.length (a +:+ b) = String.length a + String.length b.
Proof. induction a as [|x a IH]; [done|]. exact (f_equal S IH). Qed.

Lemma strip_suffix_char_app c t : strip_suffix_char c (t +:+ String c "") = Some t.
Proof.
  induction t as [|a t IH]; [by simpl; rewrite Ascii.eqb_refl|].
  change (strip_suffix_char c (String a (t +:+ String c "")) = Some (String a t)).
  destruct (t +:+ String c "") as [|b u] eqn:E; [by destruct t|].
  change (String a <$> strip_suffix_char c (String b u) = Some (String a t)).
  by rewrite IH.
Qed.

Lemma strip_suffix_char_Some c s t :
  strip_suffix_char c s = Some t → s = t +:+ String c "".
Proof.
  revert t. induction s as [|a s IH]; intros t H; [done|].
  destruct s as [|b s].
  - simpl in H. destruct (Ascii.eqb_spec a c) as [->|]; by simplify_eq.
  - change (String a <$> strip_suffix_char c (String b s) = Some t) in H.
    apply fmap_Some in H as (x & Hx & ->). apply IH in Hx. by rewrite Hx.
Qed.

(** [strip_prefix] undoes the concatenation of a prefix. *)
Lemma string_app_inj_suffix (a b c : string) : a +:+ c = b +:+ c → a = b.
Proof.
  intros Heq. assert (String.length a = String.length b) as Hlen.
  { apply (f_equal String.length) in Heq. rewrite !string_app_length in Heq. lia. }
  revert b Heq Hlen. induction a as [|x a IH]; intros [|y b] Heq Hlen; try done.
  injection Heq as -> Heq. f_equal. apply IH; [done|]. by injection Hlen.
Qed.

Lemma substring_full s : String.substring 0 (String.length s) s = s.
Proof. induction s as [|c s IH]; simpl; [done|]. by rewrite IH. Qed.

Lemma substring_drop p s : String.substring (String.length p) (String.length s) (p +:+ s) = s.
Proof. induction p as [|c p IH]; [apply substring_full|done]. Qed.

Lemma substring_length a n s : a + n ≤ String.length s → String.length (String.substring a n s) = n.
Proof.
  revert a n. induction s as [|c s IH]; intros [|a] [|n] Hle; simpl in *; try lia; try done.
  - f_equal. apply IH. lia.
  - apply IH. lia.
  - apply IH. lia.
Qed.

Lemma substring_split a s : a ≤ String.length s →
  String.substring 0 a s +:+ String.substring a (String.length s - a) s = s.
Proof.
  revert a. induction s as [|c s IH]; intros [|a] Ha; simpl in *; try lia; [done|..].
  - by rewrite substring_full.
  - change (String c (String.substring 0 a s +:+ String.substring a (String.length s - a) s) = String c s).
    by rewrite IH by lia.
Qed.

Lemma strip_prefix_app p s : strip_prefix p (p +:+ s) = Some s.
Proof.
  unfold strip_prefix. rewrite string_prefix_app, string_app_length.
  replace (String.length p + String.length s - String.length p) with (String.length s) by lia.
  by rewrite substring_drop.
Qed.
