(* ===== verification/Async.v ===== *)
(** * Asynchronous code as resumptions

    The server is written with [async] functions that share one state behind
    mutexes and a database pool. A function is modelled as a program whose
    atomic actions are what runs between two points where another task can be
    scheduled: a critical section of a mutex, one SQL statement, one send on a
    channel. [run] executes a program alone, and a pool of programs steps in
    any interleaving. *)

From stdpp Require Import prelude list relations.
From S2P Require Import Prelude.

Inductive prog (S A : Type) : Type :=
| Ret (a : A)
| Step {R : Type} (act : S → R * S) (k : R → prog S A).
Arguments Ret {_ _} _.
Arguments Step {_ _ _} _ _.

Fixpoint bind {S A B} (m : prog S A) (f : A → prog S B) : prog S B :=
  match m with
  | Ret a => f a
  | Step act k => Step act (λ r, bind (k r) f)
  end.

Declare Scope async_scope.
Delimit Scope async_scope with async.
Notation "'let*' x ':=' m 'in' k" := (bind m (fun x => k))
  (at level 10, x pattern, m at level 100, k at level 200,
   format "'[v' 'let*'  x  ':='  m  'in' '/' k ']'") : async_scope.
Notation "'do*' m 'in' k" := (bind m (fun _ => k))
  (at level 10, m at level 100, k at level 200,
   format "'[v' 'do*'  m  'in' '/' k ']'") : async_scope.
Open Scope async_scope.

(** [m.map_err(f)?] before the rest of the function. *)
Definition or_fail {S A B E E'} (m : prog S (result A E)) (f : E → E')
    (k : A → prog S (result B E')) : prog S (result B E') :=
  let* r := m in
  match r with Ok a => k a | Err e => Ret (Err (f e)) end.

Notation "'let?' x ':=' m 'map_err' f 'in' k" := (or_fail m f (fun x => k))
  (at level 10, x pattern, m at level 100, f at level 100, k at level 200,
   format "'[v' 'let?'  x  ':='  m  'map_err'  f  'in' '/' k ']'") : async_scope.
Notation "'do?' m 'map_err' f 'in' k" := (or_fail m f (fun _ => k))
  (at level 10, m at level 100, f at level 100, k at level 200,
   format "'[v' 'do?'  m  'map_err'  f  'in' '/' k ']'") : async_scope.

(** One atomic action. *)
Definition atomic {S R} (act : S → R * S) : prog S R := Step act Ret.

(** A [for] loop over a list. *)
Fixpoint for_each {S A} (l : list A) (f : A → prog S unit) : prog S unit :=
  match l with
  | [] => Ret ()
  | x :: l => do* f x in for_each l f
  end.

(** Execution with no other task scheduled in between. *)
Fixpoint run {S A} (m : prog S A) (s : S) : A * S :=
  match m with
  | Ret a => (a, s)
  | Step act k => let '(r, s') := act s in run (k r) s'
  end.

(** ** A pool of tasks

    One step runs one atomic action of one task. *)

Inductive pool_step {S} : S * list (prog S unit) → S * list (prog S unit) → Prop :=
| pool_step_intro s ts1 ts2 (R : Type) (act : S → R * S) k :
    pool_step (s, ts1 ++ Step act k :: ts2)
              ((act s).2, ts1 ++ k (act s).1 :: ts2).

(** [safe I m Q]: every atomic action of [m] preserves the invariant [I] of the
    shared state, whatever the other tasks do in between as long as they
    preserve [I] too, and the value [m] returns satisfies [Q]. *)
Fixpoint safe {S A} (I : S → Prop) (m : prog S A) (Q : A → Prop) : Prop :=
  match m with
  | Ret a => Q a
  | Step act k => ∀ s, I s → I (act s).2 ∧ safe I (k (act s).1) Q
  end.

(** [preserves I m]: the same with no claim on the result. *)
Definition preserves {S A} (I : S → Prop) (m : prog S A) : Prop := safe I m (λ _, True).

Create HintDb async.
Create Rewrite HintDb run.

(** ** Execution alone *)

Lemma run_bind {S A B} (m : prog S A) (f : A → prog S B) s :
  run (bind m f) s = run (f (run m s).1) (run m s).2.
Proof.
  revert s. induction m as [a|R act k IH]; intros s; [done|].
  simpl. destruct (act s) as [r s']. apply IH.
Qed.

Lemma run_or_fail {S A B E E'} (m : prog S (result A E)) (f : E → E')
    (k : A → prog S (result B E')) s :
  run (or_fail m f k) s =
  match (run m s).1 with
  | Ok a => run (k a) (run m s).2
  | Err e => (Err (f e), (run m s).2)
  end.
Proof. unfold or_fail. rewrite run_bind. by destruct (run m s) as [[a|e] s']. Qed.

Lemma run_atomic {S R} (act : S → R * S) s : run (atomic act) s = act s.
Proof. unfold atomic. simpl. by destruct (act s). Qed.

Lemma run_for_each_nil {S A} (f : A → prog S unit) s : run (for_each [] f) s = ((), s).
Proof. done. Qed.

Lemma run_for_each_cons {S A} x (l : list A) (f : A → prog S unit) s :
  run (for_each (x :: l) f) s = run (for_each l f) (run (f x) s).2.
Proof. simpl. apply run_bind. Qed.

Lemma run_ret {S A} (a : A) (s : S) : run (Ret a) s = (a, s).
Proof. done. Qed.

(** An invariant of the loop body is an invariant of the loop. *)
Lemma run_for_each_inv {S A} (I : S → Prop) (l : list A) (f : A → prog S unit) s :
  (∀ x s, x ∈ l → I s → I (run (f x) s).2) → I s → I (run (for_each l f) s).2.
Proof.
  revert s. induction l as [|x l IH]; intros s Hf Hs; [done|].
  rewrite run_for_each_cons. apply IH; [set_solver|]. apply Hf; [set_solver|done].
Qed.

Lemma bind_assoc {S A B C} (m : prog S A) (f : A → prog S B) (g : B → prog S C) s :
  run (bind (bind m f) g) s = run (bind m (λ a, bind (f a) g)) s.
Proof. by rewrite !run_bind. Qed.

(** ** Triples of programs executed alone *)

Definition triple {S A} (P : S → Prop) (m : prog S A) (Q : A → S → Prop) : Prop :=
  ∀ s, P s → Q (run m s).1 (run m s).2.

(** [keeps I m]: executed alone, [m] keeps [I]. *)
Definition keeps {S A} (I : S → Prop) (m : prog S A) : Prop := triple I m (λ _, I).

Lemma triple_bind {S A B} (P : S → Prop) (m : prog S A) (f : A → prog S B) Q R :
  triple P m Q → (∀ a, triple (Q a) (f a) R) → triple P (bind m f) R.
Proof. intros Hm Hf s Hs. rewrite run_bind. apply Hf, Hm, Hs. Qed.

Lemma triple_ret {S A} (P : S → Prop) (a : A) (Q : A → S → Prop) :
  (∀ s, P s → Q a s) → triple P (Ret a) Q.
Proof. intros H s Hs. by apply H. Qed.

Lemma triple_conseq {S A} (P P' : S → Prop) (m : prog S A) (Q Q' : A → S → Prop) :
  triple P' m Q' → (∀ s, P s → P' s) → (∀ a s, Q' a s → Q a s) → triple P m Q.
Proof. intros Hm HP HQ s Hs. by apply HQ, Hm, HP. Qed.

Lemma triple_or_fail {S A B E E'} (P : S → Prop) (m : prog S (result A E)) (f : E → E')
    (k : A → prog S (result B E')) Q R :
  triple P m Q → (∀ a, triple (Q (Ok a)) (k a) R) → (∀ e s, Q (Err e) s → R (Err (f e)) s) →
  triple P (or_fail m f k) R.
Proof.
  intros Hm Hk He. unfold or_fail. eapply triple_bind; [exact Hm|].
  intros [a|e]; [apply Hk|]. apply triple_ret, He.
Qed.

Lemma keeps_bind {S A B} (I : S → Prop) (m : prog S A) (f : A → prog S B) :
  keeps I m → (∀ a, keeps I (f a)) → keeps I (bind m f).
Proof. intros Hm Hf. eapply triple_bind; [exact Hm|done]. Qed.

Lemma keeps_or_fail {S A B E E'} (I : S → Prop) (m : prog S (result A E)) (f : E → E')
    (k : A → prog S (result B E')) :
  keeps I m → (∀ a, keeps I (k a)) → keeps I (or_fail m f k).
Proof. intros Hm Hk. eapply triple_or_fail; [exact Hm|done|done]. Qed.

Lemma keeps_ret {S A} (I : S → Prop) (a : A) : keeps I (Ret a).
Proof. by apply triple_ret. Qed.

Lemma keeps_atomic {S R} (I : S → Prop) (act : S → R * S) :
  (∀ s, I s → I (act s).2) → keeps I (atomic act).
Proof. intros H s Hs. rewrite run_atomic. by apply H. Qed.

(** ** Interleavings *)

Lemma safe_mono {S A} (I : S → Prop) (m : prog S A) (Q R : A → Prop) :
  safe I m Q → (∀ a, Q a → R a) → safe I m R.
Proof.
  intros Hm HQ. induction m as [a|T act k IH]; simpl in *; [by apply HQ|].
  intros s Hs. destruct (Hm s Hs) as [H1 H2]. split; [done|]. by apply IH.
Qed.

Lemma safe_bind {S A B} (I : S → Prop) (m : prog S A) (f : A → prog S B) Q R :
  safe I m Q → (∀ a, Q a → safe I (f a) R) → safe I (bind m f) R.
Proof.
  intros Hm Hf. induction m as [a|T act k IH]; simpl in *; [by apply Hf|].
  intros s Hs. destruct (Hm s Hs) as [H1 H2]. split; [done|]. by apply IH.
Qed.

Lemma preserves_bind {S A B} (I : S → Prop) (m : prog S A) (f : A → prog S B) :
  preserves I m → (∀ a, preserves I (f a)) → preserves I (bind m f).
Proof. intros Hm Hf. eapply safe_bind; [exact Hm|]. intros a _. apply Hf. Qed.

Lemma preserves_ret {S A} (I : S → Prop) (a : A) : preserves I (Ret a).
Proof. exact Logic.I. Qed.

Lemma preserves_atomic {S R} (I : S → Prop) (act : S → R * S) :
  (∀ s, I s → I (act s).2) → preserves I (atomic act).
Proof. intros H s Hs. split; [by apply H|exact Logic.I]. Qed.

Lemma preserves_for_each {S A} (I : S → Prop) (l : list A) (f : A → prog S unit) :
  (∀ x, preserves I (f x)) → preserves I (for_each l f).
Proof.
  intros Hf. induction l as [|x l IH]; simpl; [apply preserves_ret|].
  by apply preserves_bind.
Qed.

(** A program that preserves [I] atomically also preserves it when run alone. *)
Lemma safe_run {S A} (I : S → Prop) (m : prog S A) Q s :
  safe I m Q → I s → I (run m s).2 ∧ Q (run m s).1.
Proof.
  revert s. induction m as [a|R act k IH]; intros s Hm Hs; simpl in *; [done|].
  destruct (Hm s Hs) as [H1 H2]. destruct (act s) as [r s']. by apply IH.
Qed.

Lemma preserves_run {S A} (I : S → Prop) (m : prog S A) s :
  preserves I m → I s → I (run m s).2.
Proof. intros Hm Hs. by apply (safe_run _ _ _ _ Hm Hs). Qed.

Lemma preserves_keeps {S A} (I : S → Prop) (m : prog S A) : preserves I m → keeps I m.
Proof. intros Hm s Hs. by apply preserves_run. Qed.

(** If every task of a pool preserves [I], so does every interleaving. *)
Lemma pool_step_preserves {S} (I : S → Prop) (c c' : S * list (prog S unit)) :
  pool_step c c' → I c.1 → Forall (preserves I) c.2 →
  I c'.1 ∧ Forall (preserves I) c'.2.
Proof.
  intros [s ts1 ts2 R act k] Hs Hts. simpl in *.
  apply Forall_app in Hts as [H1 H2]. apply Forall_cons in H2 as [Hm H2].
  destruct (Hm s Hs) as [Hs' Hk]. split; [done|].
  apply Forall_app. split; [done|]. by constructor.
Qed.

Lemma pool_steps_preserve {S} (I : S → Prop) (c c' : S * list (prog S unit)) :
  rtc pool_step c c' → I c.1 → Forall (preserves I) c.2 →
  I c'.1 ∧ Forall (preserves I) c'.2.
Proof.
  induction 1 as [|c1 c2 c3 Hstep _ IH]; intros Hs Hts; [done|].
  destruct (pool_step_preserves _ _ _ Hstep Hs Hts) as [??]. by apply IH.
Qed.

(** Running one task alone is one of the interleavings. *)
Lemma run_is_schedule {S} (m : prog S unit) s ts1 ts2 :
  rtc pool_step (s, ts1 ++ m :: ts2) ((run m s).2, ts1 ++ Ret (run m s).1 :: ts2).
Proof.
  revert s. induction m as [a|R act k IH]; intros s; simpl; [done|].
  eapply rtc_l; [apply pool_step_intro|].
  destruct (act s) as [r s']. apply IH.
Qed.

(** ** One task of a pool *)

Inductive task_step {S A} : prog S A * S → prog S A * S → Prop :=
| task_step_intro R (act : S → R * S) k s :
    task_step (Step act k, s) (k (act s).1, (act s).2).

Lemma task_steps_run {S A} (m : prog S A) s : rtc task_step (m, s) (Ret (run m s).1, (run m s).2).
Proof.
  revert s. induction m as [a|R act k IH]; intros s; [done|].
  eapply rtc_l; [apply task_step_intro|]. simpl. destruct (act s) as [r s']. apply IH.
Qed.

Lemma task_steps_bind {S A B} (m m' : prog S A) (f : A → prog S B) s s' :
  rtc task_step (m, s) (m', s') → rtc task_step (bind m f, s) (bind m' f, s').
Proof.
  intros Hm. change m with (m, s).1. change s with (m, s).2 at 2. change m' with (m', s').1.
  change s' with (m', s').2 at 2. revert Hm. generalize (m, s), (m', s').
  induction 1 as [|x y z Hxy _ IH]; [done|]. eapply rtc_l, IH. destruct Hxy as [R act k s0].
  exact (task_step_intro R act (λ r, bind (k r) f) s0).
Qed.

(** Run the first part of a task to its end. *)
Lemma task_steps_first {S A B} (m : prog S A) (f : A → prog S B) s a s' :
  run m s = (a, s') → rtc task_step (bind m f, s) (f a, s').
Proof.
  intros Hr. pose proof (task_steps_bind _ _ f _ _ (task_steps_run m s)) as H. by rewrite Hr in H.
Qed.

Lemma task_steps_pool {S} (m m' : prog S unit) s s' ts1 ts2 :
  rtc task_step (m, s) (m', s') → rtc pool_step (s, ts1 ++ m :: ts2) (s', ts1 ++ m' :: ts2).
Proof.
  intros Hm. change m with (m, s).1. change s with (m, s).2 at 1. change m' with (m', s').1.
  change s' with (m', s').2 at 1. revert Hm. generalize (m, s), (m', s').
  induction 1 as [|x y z Hxy _ IH]; [done|]. eapply rtc_l, IH. destruct Hxy as [R act k s0].
  exact (pool_step_intro s0 ts1 ts2 R act k).
Qed.

(** ** The states on the way

    The states that a program run alone goes through, which is what a task that
    only reads can see of it. *)

Fixpoint states_of {S A} (m : prog S A) (s : S) : list S :=
  match m with
  | Ret _ => [s]
  | Step act k => s :: states_of (k (act s).1) (act s).2
  end.

Lemma states_bind {S A B} (P : S → Prop) (m : prog S A) (f : A → prog S B) s :
  Forall P (states_of m s) → Forall P (states_of (f (run m s).1) (run m s).2) →
  Forall P (states_of (bind m f) s).
Proof.
  revert s. induction m as [a|R act k IH]; intros s; simpl; [done|].
  destruct (act s) as [r s']. simpl. intros [Hs Hm]%Forall_cons Hf. constructor; [done|]. by apply IH.
Qed.

Lemma states_or_fail {S A B E E'} (P : S → Prop) (m : prog S (result A E)) (f : E → E')
    (k : A → prog S (result B E')) s :
  Forall P (states_of m s) →
  (∀ a, (run m s).1 = Ok a → Forall P (states_of (k a) (run m s).2)) →
  P (run m s).2 →
  Forall P (states_of (or_fail m f k) s).
Proof.
  intros Hm Hk Hs. apply states_bind; [done|]. destruct (run m s) as [[a|e] s']; simpl in *; [by apply Hk|].
  by repeat constructor.
Qed.

Lemma states_ret {S A} (P : S → Prop) (a : A) s : P s → Forall P (states_of (Ret a) s).
Proof. by repeat constructor. Qed.

Lemma states_atomic {S R} (P : S → Prop) (act : S → R * S) s :
  P s → P (run (atomic act) s).2 → Forall P (states_of (atomic act) s).
Proof. rewrite run_atomic. intros H1 H2. by repeat constructor. Qed.

#[export] Hint Rewrite @run_bind @run_atomic @run_ret @run_for_each_nil : run.
#[export] Hint Resolve preserves_bind preserves_ret preserves_atomic preserves_for_each : async.

(** Programs stay readable under [simpl]. *)
#[global] Arguments bind : simpl never.
#[global] Arguments run : simpl never.
#[global] Arguments states_of : simpl never.
