(* ===== verification/Tokens.v ===== *)
(** * Interleavings with owned tokens

    A task can be half-way through moving something between two places of the
    shared state. The tasks of a pool then own disjoint sets of tokens for what
    they have in hand, the invariant of the state speaks about all tokens in
    anyone's hand, and each atomic action may take or give back tokens of its
    own task only. *)

From stdpp Require Import prelude gmap sets list relations.
From S2P Require Import Async.

(** ** Disjoint families of tokens *)

Section Disjoint.
Context {K : Type} `{Countable K}.

Fixpoint disjoint_all (Ts : list (gset K)) : Prop :=
  match Ts with
  | [] => True
  | T :: Ts => T ## ⋃ Ts ∧ disjoint_all Ts
  end.

Lemma disjoint_all_middle Ts1 T Ts2 :
  disjoint_all (Ts1 ++ T :: Ts2) ↔ T ## ⋃ (Ts1 ++ Ts2) ∧ disjoint_all (Ts1 ++ Ts2).
Proof.
  induction Ts1 as [|T1 Ts1 IH]; simpl; [done|]. rewrite IH, !union_list_app. simpl. set_solver.
Qed.

Lemma union_list_middle (Ts1 : list (gset K)) T Ts2 : ⋃ (Ts1 ++ T :: Ts2) = T ∪ ⋃ (Ts1 ++ Ts2).
Proof. rewrite !union_list_app_L. simpl. set_solver. Qed.

End Disjoint.

(** ** Programs that own tokens *)

Section Tokens.
Context {S : Type} {K : Type} `{Countable K} (I : gset K → S → Prop).

(** [owned T m Q]: started with the tokens [T], every action of [m] keeps the
    invariant for whatever the others own, and [m] ends with tokens and a result
    that satisfy [Q]. *)
Fixpoint owned {A} (T : gset K) (m : prog S A) (Q : gset K → A → Prop) : Prop :=
  match m with
  | Ret a => Q T a
  | Step act k => ∀ s F, T ## F → I (T ∪ F) s →
      ∃ T', T' ## F ∧ I (T' ∪ F) (act s).2 ∧ owned T' (k (act s).1) Q
  end.

(** A program that ends with the tokens it started with. *)
Definition balanced {A} (m : prog S A) : Prop := ∀ T, owned T m (λ T' _, T' = T).

(** An action that keeps the invariant without touching the tokens. *)
Definition neutral {R} (act : S → R * S) : Prop := ∀ T s, I T s → I T (act s).2.

Lemma owned_mono {A} T (m : prog S A) Q R :
  owned T m Q → (∀ T' a, Q T' a → R T' a) → owned T m R.
Proof.
  revert T. induction m as [a|X act k IH]; intros T Hm HQ; simpl in *; [by apply HQ|].
  intros s F HF Hs. destruct (Hm s F HF Hs) as (T' & HF' & Hs' & Hk). exists T'. eauto.
Qed.

Lemma owned_bind {A B} T (m : prog S A) (f : A → prog S B) Q :
  owned T m (λ T' a, owned T' (f a) Q) → owned T (bind m f) Q.
Proof.
  revert T. induction m as [a|X act k IH]; intros T Hm; simpl in *; [done|].
  change (∀ s F, T ## F → I (T ∪ F) s → ∃ T', T' ## F ∧ I (T' ∪ F) (act s).2 ∧
            owned T' (bind (k (act s).1) f) Q).
  intros s F HF Hs. destruct (Hm s F HF Hs) as (T' & HF' & Hs' & Hk). exists T'. eauto.
Qed.

Lemma balanced_ret {A} (a : A) : balanced (Ret a).
Proof. by intros T. Qed.

Lemma balanced_atomic {R} (act : S → R * S) : neutral act → balanced (atomic act).
Proof. intros Ha T s F HF Hs. exists T. split_and!; [done|by apply Ha|done]. Qed.

Lemma balanced_bind {A B} (m : prog S A) (f : A → prog S B) :
  balanced m → (∀ a, balanced (f a)) → balanced (bind m f).
Proof.
  intros Hm Hf T. apply owned_bind. eapply owned_mono; [apply Hm|]. intros T' a ->. apply Hf.
Qed.

Lemma balanced_for_each {A} (l : list A) (f : A → prog S unit) :
  (∀ x, balanced (f x)) → balanced (for_each l f).
Proof.
  intros Hf. induction l as [|x l IH]; simpl; [apply balanced_ret|]. by apply balanced_bind.
Qed.

(** ** Pools *)

(** Every task owns its tokens, and the invariant holds of all of them. *)
Definition pool_ok (c : S * list (prog S unit)) : Prop :=
  ∃ Ts, Forall2 (λ T m, owned T m (λ _ _, True)) Ts c.2 ∧ disjoint_all Ts ∧ I (⋃ Ts) c.1.

Lemma pool_ok_step c c' : pool_step c c' → pool_ok c → pool_ok c'.
Proof.
  intros [s ts1 ts2 R act k] (Ts & HTs & Hd & Hs). simpl in *.
  apply Forall2_app_inv_r in HTs as (Ts1 & Ts' & H1 & H2 & ->).
  apply Forall2_cons_inv_r in H2 as (T & Ts2 & Hm & H2 & ->).
  apply disjoint_all_middle in Hd as [HF Hd]. rewrite union_list_middle in Hs.
  destruct (Hm s _ HF Hs) as (T' & HF' & Hs' & Hk).
  exists (Ts1 ++ T' :: Ts2). split_and!.
  - apply Forall2_app; [done|]. by constructor.
  - by apply disjoint_all_middle.
  - by rewrite union_list_middle.
Qed.

(** A new task starts with no tokens. *)
Lemma pool_ok_spawn s ts m : balanced m → pool_ok (s, ts) → pool_ok (s, ts ++ [m]).
Proof.
  intros Hm (Ts & HTs & Hd & Hs). exists (Ts ++ [∅]). simpl in *. split_and!.
  - apply Forall2_app; [done|]. constructor; [|constructor].
    eapply owned_mono; [apply Hm|done].
  - apply (disjoint_all_middle Ts ∅ []). rewrite app_nil_r. split; [set_solver|done].
  - rewrite union_list_app_L. simpl. replace (⋃ Ts ∪ (∅ ∪ ∅)) with (⋃ Ts) by set_solver. done.
Qed.

(** A task that is dropped gives up its tokens, if the invariant lets it. *)
Lemma pool_ok_abort s ts1 m ts2 :
  (∀ T T' s, T' ⊆ T → I T s → I T' s) →
  pool_ok (s, ts1 ++ m :: ts2) → pool_ok (s, ts1 ++ ts2).
Proof.
  intros Hmono (Ts & HTs & Hd & Hs). simpl in *.
  apply Forall2_app_inv_r in HTs as (Ts1 & Ts' & H1 & H2 & ->).
  apply Forall2_cons_inv_r in H2 as (T & Ts2 & Hm & H2 & ->).
  apply disjoint_all_middle in Hd as [HF Hd]. exists (Ts1 ++ Ts2). split_and!.
  - by apply Forall2_app.
  - done.
  - eapply Hmono; [|exact Hs]. rewrite union_list_middle. set_solver.
Qed.

(** A change of the state that no task makes. *)
Lemma pool_ok_env s s' ts : (∀ T, I T s → I T s') → pool_ok (s, ts) → pool_ok (s', ts).
Proof. intros Hs (Ts & HTs & Hd & Hi). exists Ts. simpl in *. auto. Qed.

End Tokens.

Create HintDb own.
#[export] Hint Resolve balanced_ret balanced_bind balanced_for_each balanced_atomic : own.
