(* ===== verification/Proto.v ===== *)
(** * The wire protocol (cbsd-proto)

    The data types that the server and the workers exchange, with the
    spellings that serde and [Display] give their variants. A [w]-bit integer
    is a [Z]; an [f64] is an IEEE-754 [spec_float]; a JSON value that the
    server only stores or forwards is its text. *)

From Stdlib Require Import SpecFloat.
From stdpp Require Import prelude countable strings list.

Definition f64 := spec_float.

(** [u64 as f64]. *)
Definition f64_of_u64 (z : Z) : f64 := binary_normalize 53 1024 z 0 false.

(** ** arch.rs *)

Inductive Arch := X86_64 | Aarch64.

(** [impl Display for Arch], also the serde spelling. *)
Definition arch_to_string (a : Arch) : string :=
  match a with X86_64 => "x86_64" | Aarch64 => "aarch64" end.

(** serde's [Deserialize]: the canonical names and the alias [arm64]. *)
Definition arch_of_string (s : string) : option Arch :=
  if bool_decide (s = "x86_64") then Some X86_64
  else if bool_decide (s = "aarch64") then Some Aarch64
  else if bool_decide (s = "arm64") then Some Aarch64
  else None.

(** ** build.rs *)

Record BuildId := mkBuildId { build_id_0 : Z }.

Inductive Priority := High | Normal | Low.

(** serde's [rename_all = "lowercase"]. *)
Definition priority_to_string (p : Priority) : string :=
  match p with High => "high" | Normal => "normal" | Low => "low" end.

Inductive BuildState :=
  Queued | Dispatched | Started | Revoking | Success | Failure | Revoked.

(** [impl Display for BuildState], also the serde spelling and the values of
    the [builds.state] column. *)
Definition build_state_to_string (s : BuildState) : string :=
  match s with
  | Queued => "queued"
  | Dispatched => "dispatched"
  | Started => "started"
  | Revoking => "revoking"
  | Success => "success"
  | Failure => "failure"
  | Revoked => "revoked"
  end.

Definition all_build_states : list BuildState :=
  [Queued; Dispatched; Started; Revoking; Success; Failure; Revoked].

(** serde's [Deserialize] for [BuildState]. *)
Definition build_state_of_string (s : string) : option BuildState :=
  List.find (λ st, bool_decide (build_state_to_string st = s)) all_build_states.

Inductive VersionType := Release | Dev | Test | Ci.

Definition version_type_to_string (v : VersionType) : string :=
  match v with Release => "release" | Dev => "dev" | Test => "test" | Ci => "ci" end.

Record BuildSignedOffBy := mkSignedOffBy { so_user : string; so_email : string }.

Record BuildDestImage := mkDestImage { di_name : string; di_tag : string }.

Record BuildComponent := mkComponent {
  bc_name : string;
  bc_git_ref : string;
  bc_repo : option string
}.

Record BuildTarget := mkTarget {
  bt_distro : string;
  bt_os_version : string;
  bt_artifact_type : string;
  bt_arch : Arch
}.

Definition default_artifact_type : string := "rpm".
Definition default_arch : Arch := X86_64.

Record BuildDescriptor := mkDescriptor {
  bd_version : string;
  bd_channel : option string;
  bd_version_type : option VersionType;
  bd_signed_off_by : BuildSignedOffBy;
  bd_dst_image : BuildDestImage;
  bd_components : list BuildComponent;
  bd_build : BuildTarget
}.

(** ** ws.rs *)

Inductive WorkerBuildAction :=
  ActWorkerStatus | ActBuildAccepted | ActBuildStarted
| ActBuildOutput | ActBuildFinished | ActBuildRejected.

Inductive UnauthorizedBuildReason := NotAssigned.

Inductive BuildRevokeReason := Admin | MigrationSupersede | UnauthorizedAction.

Inductive ServerMessage :=
| BuildNew (build_id : BuildId) (trace_id : string) (priority : Priority)
           (descriptor : BuildDescriptor) (component_sha256 : string)
| BuildRevoke (build_id : BuildId) (reason : option BuildRevokeReason)
| Welcome (protocol_version : Z) (connection_id : string)
          (grace_period_secs : Z) (accepts_metrics : bool)
| ErrorMsg (reason : string) (min_version max_version : option Z)
| UnauthorizedBuildAction (build_id : BuildId) (action : WorkerBuildAction)
                          (reason : UnauthorizedBuildReason).

Inductive WorkerReportedState := Idle | Building.

Inductive BuildFinishedStatus := FinSuccess | FinFailure | FinRevoked.

Record FilesystemUsage := mkFilesystemUsage {
  fs_mount : string; fs_total_bytes : Z; fs_used_bytes : Z
}.

Record HostMetrics := mkHostMetrics {
  cpu_busy_ratio : f64;
  load1 : f64;
  mem_total_bytes : Z;
  mem_used_bytes : Z;
  mem_available_bytes : Z;
  swap_total_bytes : Z;
  swap_used_bytes : Z;
  filesystems : list FilesystemUsage;
  disk_read_bytes_total : Z;
  disk_written_bytes_total : Z
}.

Record CcacheMetrics := mkCcacheMetrics {
  cc_size_bytes : Z; cc_max_bytes : Z; cc_hit_ratio : f64
}.

Record SubprocessExitCounts := mkSubprocessExitCounts {
  ex_success : Z; ex_failure : Z; ex_revoked : Z
}.

Record AppMetrics := mkAppMetrics {
  ccache : option CcacheMetrics;
  subprocess_exits : SubprocessExitCounts;
  spool_bytes : Z;
  push_drops_total : Z;
  sigkill_escalations_total : Z
}.

Inductive WorkerMessage :=
| Hello (protocol_version : Z) (arch : Arch) (cores_total ram_total_mb : Z)
        (version : option string)
| WorkerStatus (state : WorkerReportedState) (build_id : option BuildId)
| BuildAccepted (build_id : BuildId)
| BuildRejected (build_id : BuildId) (reason : string)
| BuildStarted (build_id : BuildId)
| BuildOutput (build_id : BuildId) (start_seq : Z) (lines : list string)
| BuildFinished (build_id : BuildId) (status : BuildFinishedStatus)
                (error : option string) (build_report : option string)
| WorkerStopping (reason : string)
| Metrics (uptime_secs : Z) (host : HostMetrics) (app : AppMetrics).

(** ** Decidable equality *)

#[global] Instance Arch_eq_dec : EqDecision Arch.
Proof. solve_decision. Defined.
#[global] Instance BuildId_eq_dec : EqDecision BuildId.
Proof. solve_decision. Defined.
#[global] Instance Priority_eq_dec : EqDecision Priority.
Proof. solve_decision. Defined.
#[global] Instance BuildState_eq_dec : EqDecision BuildState.
Proof. solve_decision. Defined.
#[global] Instance VersionType_eq_dec : EqDecision VersionType.
Proof. solve_decision. Defined.
#[global] Instance WorkerBuildAction_eq_dec : EqDecision WorkerBuildAction.
Proof. solve_decision. Defined.
#[global] Instance BuildFinishedStatus_eq_dec : EqDecision BuildFinishedStatus.
Proof. solve_decision. Defined.

(** ** Spellings *)

Lemma arch_roundtrip a : arch_of_string (arch_to_string a) = Some a.
Proof. by destruct a. Qed.

Lemma build_state_roundtrip s : build_state_of_string (build_state_to_string s) = Some s.
Proof. by destruct s. Qed.

Lemma build_state_of_string_Some x s :
  build_state_of_string x = Some s ↔ build_state_to_string s = x.
Proof.
  split; [|intros <-; apply build_state_roundtrip].
  intros H. apply List.find_some in H as [_ H]. by apply bool_decide_eq_true_1 in H.
Qed.

Lemma elem_of_all_build_states s : s ∈ all_build_states.
Proof. unfold all_build_states. destruct s; set_solver. Qed.

(** ** Countable keys *)

#[global] Instance Arch_countable : Countable Arch.
Proof.
  refine (inj_countable' (λ a, match a with X86_64 => true | Aarch64 => false end)
                         (λ b : bool, if b then X86_64 else Aarch64) _).
  by intros [].
Defined.

#[global] Instance Priority_countable : Countable Priority.
Proof.
  refine (inj_countable' (λ p, match p with High => 0 | Normal => 1 | Low => 2 end)
                         (λ n, match n with 0 => High | 1 => Normal | _ => Low end) _).
  by intros [].
Defined.

(** ** cbsd-proto/src/lib.rs *)

Record WorkerToken := mkWorkerToken {
  wt_worker_id : string;
  wt_worker_name : string;
  wt_api_key : string;
  wt_arch : string
}.
