(* ===== verification/Common.v ===== *)
(** * What the crates share (cbsd-common, env.rs, limits.rs; cbsd-server,
    auth/mod.rs)

    The accepted spellings of a set environment variable, the limits of the
    WebSocket protocol, the canonical form of an email, text and JSON. *)

From stdpp Require Import prelude strings list.
From S2P Require Import Prelude Proto.

(** ** cbsd-common/src/env.rs *)

Definition TRUTHY_VALUES : list string := ["1"; "true"; "yes"; "on"].

Definition is_truthy (value : string) : bool :=
  let lower := to_lowercase value in existsb (λ t, bool_decide (t = lower)) TRUTHY_VALUES.

(** The environment: [None] for a variable that is unset or not UTF-8. *)
Definition Environment := string → option string.

Definition is_truthy_env (env : Environment) (name : string) : bool :=
  match env name with Some v => is_truthy v | None => false end.

Lemma is_truthy_spec v : is_truthy v = true ↔ to_lowercase v ∈ TRUTHY_VALUES.
Proof.
  unfold is_truthy. rewrite existsb_spec. split.
  - by intros (t & Ht & ->%bool_decide_eq_true_1).
  - intros H. exists (to_lowercase v). by rewrite bool_decide_eq_true.
Qed.

(** ** cbsd-common/src/limits.rs *)

Definition REQUEST_BODY_MAX_BYTES : Z := 1024 * 1024.
Definition WS_MAX_MESSAGE_BYTES : Z := 8 * 1024 * 1024.
Definition WS_MAX_FRAME_BYTES : Z := 1024 * 1024.

(** ** auth/mod.rs *)

(** [char::is_whitespace] on ASCII. *)
Definition is_space (c : Ascii.ascii) : bool :=
  let n := Ascii.nat_of_ascii c in (n =? 32) || ((9 <=? n) && (n <=? 13)).

Fixpoint trim_start (s : string) : string :=
  match s with
  | String c t => if is_space c then trim_start t else s
  | EmptyString => EmptyString
  end.

Fixpoint trim_end (s : string) : string :=
  match s with
  | String c t =>
      match trim_end t with
      | EmptyString => if is_space c then EmptyString else String c EmptyString
      | t => String c t
      end
  | EmptyString => EmptyString
  end.

Definition trim (s : string) : string := trim_end (trim_start s).

Definition normalize_email (email : string) : string := to_lowercase (trim email).

(** The canonical form is a fixed point: normalizing twice is normalizing once. *)

Lemma ascii_lower_idem c : ascii_lower (ascii_lower c) = ascii_lower c.
Proof. by destruct c as [[] [] [] [] [] [] [] []]. Qed.

Lemma to_lowercase_idem s : to_lowercase (to_lowercase s) = to_lowercase s.
Proof. induction s as [|c s IH]; simpl; [done|]. by rewrite ascii_lower_idem, IH. Qed.

Lemma is_space_lower c : is_space (ascii_lower c) = is_space c.
Proof. by destruct c as [[] [] [] [] [] [] [] []]. Qed.

Lemma trim_start_lower s : trim_start (to_lowercase s) = to_lowercase (trim_start s).
Proof. induction s as [|c s IH]; simpl; [done|]. rewrite is_space_lower. by destruct (is_space c). Qed.

Lemma trim_end_lower s : trim_end (to_lowercase s) = to_lowercase (trim_end s).
Proof.
  induction s as [|c s IH]; simpl; [done|]. rewrite IH, is_space_lower.
  destruct (trim_end s); simpl; [by destruct (is_space c)|done].
Qed.

Lemma trim_start_idem s : trim_start (trim_start s) = trim_start s.
Proof. induction s as [|c s IH]; simpl; [done|]. destruct (is_space c) eqn:E; simpl; [done|by rewrite E]. Qed.

Lemma trim_end_idem s : trim_end (trim_end s) = trim_end s.
Proof.
  induction s as [|c s IH]; simpl; [done|]. destruct (trim_end s) as [|c' t] eqn:E.
  - destruct (is_space c) eqn:Hc; simpl; [done|by rewrite Hc].
  - change (trim_end (String c (String c' t)))
      with (match trim_end (String c' t) with
            | EmptyString => if is_space c then EmptyString else String c EmptyString
            | t => String c t end).
    by rewrite IH.
Qed.

(** Trimming the end keeps a trimmed start. *)
Lemma trim_start_end s : trim_start s = s → trim_start (trim_end s) = trim_end s.
Proof.
  destruct s as [|c s]; simpl; [done|]. destruct (is_space c) eqn:Hc.
  - intros H. exfalso. assert (String.length (trim_start s) ≤ String.length s) as Hl.
    { clear. induction s as [|c s IH]; simpl; [done|]. destruct (is_space c); simpl; lia. }
    apply (f_equal String.length) in H. simpl in H. lia.
  - intros _. destruct (trim_end s); simpl; by rewrite Hc.
Qed.

Lemma normalize_email_idem email : normalize_email (normalize_email email) = normalize_email email.
Proof.
  unfold normalize_email, trim. rewrite trim_start_lower, trim_end_lower, to_lowercase_idem.
  f_equal. rewrite trim_start_end by apply trim_start_idem. apply trim_end_idem.
Qed.

(** ** Text and JSON

    Functions of the standard library on text that several crates use, and the
    view of a JSON value. *)

Definition lf : Ascii.ascii := Ascii.ascii_of_nat 10.

(** The well-formed byte sequences of Unicode (table 3-7), by lead byte. *)
Definition byte_in (lo hi : nat) (c : Ascii.ascii) : bool :=
  (lo <=? Ascii.nat_of_ascii c) && (Ascii.nat_of_ascii c <=? hi).

Definition second_byte_ok (lead second : Ascii.ascii) : bool :=
  let n := Ascii.nat_of_ascii lead in
  if n =? 224 then byte_in 160 191 second
  else if n =? 237 then byte_in 128 159 second
  else if n =? 240 then byte_in 144 191 second
  else if n =? 244 then byte_in 128 143 second
  else byte_in 128 191 second.

(** The longest valid prefix: the whole text if [str::from_utf8] accepts it, the
    bytes before [valid_up_to] otherwise. *)
Fixpoint valid_prefix (s : string) : string :=
  match s with
  | EmptyString => EmptyString
  | String a s1 =>
      if byte_in 0 127 a then String a (valid_prefix s1)
      else
        match s1 with
        | EmptyString => EmptyString
        | String b s2 =>
            if byte_in 194 223 a && is_continuation_byte b then String a (String b (valid_prefix s2))
            else
              match s2 with
              | EmptyString => EmptyString
              | String c s3 =>
                  if byte_in 224 239 a && second_byte_ok a b && is_continuation_byte c
                  then String a (String b (String c (valid_prefix s3)))
                  else
                    match s3 with
                    | EmptyString => EmptyString
                    | String d s4 =>
                        if byte_in 240 244 a && second_byte_ok a b && is_continuation_byte c
                           && is_continuation_byte d
                        then String a (String b (String c (String d (valid_prefix s4))))
                        else EmptyString
                    end
              end
        end
  end.

Definition valid_utf8 (s : string) : bool := bool_decide (valid_prefix s = s).

(** [str::split_once] with an ASCII character. *)
Fixpoint split_once (c : Ascii.ascii) (s : string) : option (string * string) :=
  match s with
  | EmptyString => None
  | String a s =>
      if Ascii.eqb a c then Some (EmptyString, s)
      else (λ p : string * string, (String a p.1, p.2)) <$> split_once c s
  end.

(** serde_json's [Value], a third-party type: its constructors' views, its text,
    and reading a descriptor from it. *)
Class JsonValue := {
  Value : Type;
  value_string : string → Value;
  is_object : Value → bool;
  value_get : Value → string → option Value;
  as_array : Value → option (list Value);
  as_str : Value → option string;
  value_to_string : Value → string;
  value_from_str : string → option Value;
  descriptor_from_value : Value → result BuildDescriptor string
}.
