(* ===== verification/FileSystem.v ===== *)
(** * Paths and the file system (std::path and std::fs)

    The part of Rust's standard library on which the unpacking of component
    archives rests: paths as sequences of components, and a POSIX file system
    with directories, regular files, symbolic links and hard links. A path is
    resolved as the kernel does it, following at most [MAXSYMLINKS] symbolic
    links, so no bound of the model is visible. Every call can also fail for a
    reason outside the model (no space, no permission): it takes the next flag
    of a schedule of failures. *)

From Stdlib Require Import Strings.Byte.
From stdpp Require Import prelude gmap strings list.
From S2P Require Import Prelude.

(** ** std::path *)

(** [std::path::Component]; a path prefix exists on Windows only. *)
Inductive Component := RootDir | CurDir | ParentDir | Normal (name : string).

#[global] Instance Component_eq_dec : EqDecision Component.
Proof. solve_decision. Defined.

(** A [Path] up to [Path]'s own equality, which compares components. *)
Definition Path := list Component.

Definition slash : Ascii.ascii := Ascii.ascii_of_nat 47.

(** The pieces of a string between separators. *)
Fixpoint split_on (c : Ascii.ascii) (s : string) : list string :=
  match s with
  | EmptyString => [EmptyString]
  | String a s =>
      match split_on c s with
      | [] => [EmptyString]
      | w :: ws => if Ascii.eqb a c then EmptyString :: w :: ws else String a w :: ws
      end
  end.

Definition component_of (piece : string) : option Component :=
  if bool_decide (piece = "") then None
  else if bool_decide (piece = ".") then None
  else if bool_decide (piece = "..") then Some ParentDir
  else Some (Normal piece).

(** [Path::components]: empty pieces and [.] are dropped, except a [.] at the
    start of a relative path. *)
Definition components (s : string) : Path :=
  match split_on slash s with
  | "" :: p :: ps => RootDir :: omap component_of (p :: ps)
  | "." :: ps => CurDir :: omap component_of ps
  | ps => omap component_of ps
  end.

Definition is_absolute (p : Path) : bool :=
  match p with RootDir :: _ => true | _ => false end.

Definition not_cur_dir (c : Component) : bool := negb (bool_decide (c = CurDir)).

(** [Path::join]: an absolute path replaces the base. *)
Definition join (base p : Path) : Path :=
  if is_absolute p then p
  else match base with [] => p | _ => base ++ List.filter not_cur_dir p end.

(** [Path::parent]: [None] of the root and of the empty path. *)
Definition parent (p : Path) : option Path :=
  match last p with
  | None | Some RootDir => None
  | Some _ => Some (removelast p)
  end.

(** [Path::starts_with], by components. *)
Fixpoint path_starts_with (p base : Path) {struct base} : bool :=
  match base, p with
  | [], _ => true
  | _ :: _, [] => false
  | b :: base, c :: p => bool_decide (b = c) && path_starts_with p base
  end.

(** [Path::display]. *)
Definition component_text (c : Component) : string :=
  match c with RootDir => "" | CurDir => "." | ParentDir => ".." | Normal s => s end.

Definition display (p : Path) : string :=
  match p with [RootDir] => "/" | _ => String.concat "/" (component_text <$> p) end.

(** The absolute path of a location. *)
Definition of_location (l : list string) : Path := RootDir :: (Normal <$> l).

(** ** The tree of files *)

Inductive Node :=
| Dir
| Link (target : Path)
| File (ino : nat).

#[global] Instance Node_eq_dec : EqDecision Node.
Proof. solve_decision. Defined.

Record Inode := mkInode { i_mode : Z; i_data : list byte }.

(** What the calls can fail with. [Faulty] is a failure that the tree does not
    explain. *)
Inductive Errno :=
| ENOENT | ENOTDIR | EEXIST | EISDIR | ELOOP | EPERM | Faulty.

(** A location is the list of names from the root, which always exists. *)
Record Fs := mkFs {
  fs_names : gmap (list string) Node;
  fs_inodes : gmap nat Inode;
  fs_next_ino : nat;
  fs_faults : list bool
}.

Definition set_names (n : gmap (list string) Node) (f : Fs) : Fs :=
  mkFs n (fs_inodes f) (fs_next_ino f) (fs_faults f).
Definition set_inodes (i : gmap nat Inode) (f : Fs) : Fs :=
  mkFs (fs_names f) i (fs_next_ino f) (fs_faults f).

Definition node_at (f : Fs) (l : list string) : option Node :=
  match l with [] => Some Dir | _ => fs_names f !! l end.

(** Linux follows at most 40 symbolic links. *)
Definition MAXSYMLINKS : nat := 40.

(** The result of resolving a path: an existing location, or a missing one in
    an existing directory. *)
Inductive Resolved :=
| Found (l : list string) (n : Node)
| Missing (l : list string)
| Failed (e : Errno).

(** Resolution of the components [cs] from the directory [cur]; [nofollow] is
    whether a link at the last component stays unresolved. *)
Fixpoint walk (links : nat) (f : Fs) (nofollow : bool) : list string → Path → Resolved :=
  fix go (cur : list string) (cs : Path) : Resolved :=
    match cs with
    | [] => Found cur Dir
    | RootDir :: cs => go [] cs
    | CurDir :: cs => go cur cs
    | ParentDir :: cs => go (removelast cur) cs
    | Normal name :: cs =>
        let l := cur ++ [name] in
        match node_at f l with
        | None => match cs with [] => Missing l | _ => Failed ENOENT end
        | Some Dir => go l cs
        | Some (File ino) => match cs with [] => Found l (File ino) | _ => Failed ENOTDIR end
        | Some (Link target) =>
            match cs, nofollow with
            | [], true => Found l (Link target)
            | _, _ => match links with
                      | O => Failed ELOOP
                      | S links => walk links f nofollow cur (target ++ cs)
                      end
            end
        end
    end.

(** Relative paths of the model are not used: every path the callers resolve
    is absolute. *)
Definition resolve (f : Fs) (nofollow : bool) (p : Path) : Resolved :=
  walk MAXSYMLINKS f nofollow [] p.

Definition is_normal (c : Component) : bool := match c with Normal _ => true | _ => false end.

(** [Path::file_name] is [None]. *)
Definition lacks_file_name (p : Path) : bool :=
  match last p with Some c => negb (is_normal c) | None => true end.

(** [Path::exists]. *)
Definition path_exists (f : Fs) (p : Path) : bool :=
  match resolve f false p with Found _ _ => true | _ => false end.

(** ** std::fs *)

(** A call that reads and changes the file system. *)
Definition io (A : Type) : Type := Fs → result A Errno * Fs.

Definition syscall {A} (m : io A) : io A :=
  λ f, match fs_faults f with
       | true :: fl => (Err Faulty, mkFs (fs_names f) (fs_inodes f) (fs_next_ino f) fl)
       | false :: fl => m (mkFs (fs_names f) (fs_inodes f) (fs_next_ino f) fl)
       | [] => m f
       end.

(** [Path::canonicalize]. *)
Definition canonicalize (p : Path) : io Path :=
  syscall (λ f, match resolve f false p with
                | Found l _ => (Ok (of_location l), f)
                | Missing _ => (Err ENOENT, f)
                | Failed e => (Err e, f)
                end).

(** mkdir(2). *)
Definition mkdir (p : Path) : io unit :=
  syscall (λ f, match resolve f true p with
                | Found _ _ => (Err EEXIST, f)
                | Missing l => (Ok (), set_names (<[l := Dir]> (fs_names f)) f)
                | Failed e => (Err e, f)
                end).

(** [Path::is_dir]; a failing stat counts as no. *)
Definition is_dir (f : Fs) (p : Path) : bool :=
  match resolve f false p with Found _ Dir => true | _ => false end.

(** [create_dir_all]: [DirBuilder::create_dir_all] of the standard library on
    the first [n] components of [p], which tries the whole path first and then
    its parent. *)
Fixpoint create_dir_all_upto (n : nat) (p : Path) : io unit :=
  λ f,
    match n with
    | O => (Ok (), f)
    | S n' =>
        match mkdir (take n p) f with
        | (Ok _, f) => (Ok (), f)
        | (Err ENOENT, f) =>
            match parent (take n p) with
            | None => (Err Faulty, f)
            | Some _ =>
                match create_dir_all_upto n' p f with
                | (Err e, f) => (Err e, f)
                | (Ok _, f) =>
                    match mkdir (take n p) f with
                    | (Ok _, f) => (Ok (), f)
                    | (Err e, f) => if is_dir f (take n p) then (Ok (), f) else (Err e, f)
                    end
                end
            end
        | (Err e, f) => if is_dir f (take n p) then (Ok (), f) else (Err e, f)
        end
    end.

Definition create_dir_all (p : Path) : io unit := create_dir_all_upto (length p) p.

(** [File::create]: open(2) with O_CREAT and O_TRUNC, which follows a link at
    the last component. The result is the open file. *)
Definition file_create (p : Path) : io nat :=
  syscall (λ f, match resolve f false p with
                | Found _ (File ino) =>
                    (Ok ino, set_inodes (alter (λ i, mkInode (i_mode i) []) ino (fs_inodes f)) f)
                | Found _ _ => (Err EISDIR, f)
                | Missing l =>
                    let ino := fs_next_ino f in
                    (Ok ino, mkFs (<[l := File ino]> (fs_names f))
                               (<[ino := mkInode 420 []]> (fs_inodes f)) (S ino) (fs_faults f))
                | Failed e => (Err e, f)
                end).

(** [Write::write_all] on an open file, at its end. *)
Definition file_write (ino : nat) (data : list byte) : io unit :=
  syscall (λ f, (Ok (), set_inodes
    (alter (λ i, mkInode (i_mode i) (i_data i ++ data)) ino (fs_inodes f)) f)).

(** [File::set_permissions] (fchmod). *)
Definition file_set_mode (ino : nat) (mode : Z) : io unit :=
  syscall (λ f, (Ok (), set_inodes (alter (λ i, mkInode mode (i_data i)) ino (fs_inodes f)) f)).

(** symlink(2): an empty target is refused. *)
Definition symlink (target dest : Path) : io unit :=
  syscall (λ f, match target, resolve f true dest with
                | [], _ => (Err ENOENT, f)
                | _, Found _ _ => (Err EEXIST, f)
                | _, Missing l => (Ok (), set_names (<[l := Link target]> (fs_names f)) f)
                | _, Failed e => (Err e, f)
                end).

(** [std::fs::hard_link]: linkat(2), which does not follow a link at the last
    component of the source. *)
Definition hard_link (src dest : Path) : io unit :=
  syscall (λ f, match resolve f true src with
                | Found _ Dir => (Err EPERM, f)
                | Found _ n =>
                    match resolve f true dest with
                    | Found _ _ => (Err EEXIST, f)
                    | Missing l => (Ok (), set_names (<[l := n]> (fs_names f)) f)
                    | Failed e => (Err e, f)
                    end
                | Missing _ => (Err ENOENT, f)
                | Failed e => (Err e, f)
                end).

(** [remove_dir_all]: everything below the location goes. A link at the last
    component is removed itself. *)
Definition remove_dir_all (p : Path) : io unit :=
  syscall (λ f, match resolve f true p with
                | Found l Dir => (Ok (), set_names (filter (λ kv, ¬ l `prefix_of` kv.1) (fs_names f)) f)
                | Found l (Link _) => (Ok (), set_names (delete l (fs_names f)) f)
                | Found _ (File _) => (Err ENOTDIR, f)
                | Missing _ => (Err ENOENT, f)
                | Failed e => (Err e, f)
                end).

(** ** Paths *)

Lemma path_starts_with_spec p base : path_starts_with p base = true ↔ base `prefix_of` p.
Proof.
  revert p. induction base as [|b base IH]; intros p; simpl.
  { split; [intros _; apply prefix_nil|done]. }
  destruct p as [|c p].
  { split; [done|]. intros H. by apply prefix_nil_not in H. }
  rewrite andb_true_iff, bool_decide_eq_true, IH. split.
  - intros [-> H]. by apply prefix_cons.
  - intros H. split; [by apply prefix_cons_inv_1 in H|by apply prefix_cons_inv_2 in H].
Qed.

Lemma of_location_prefix l l' : of_location l `prefix_of` of_location l' ↔ l `prefix_of` l'.
Proof.
  unfold of_location. split.
  - intros H%prefix_cons_inv_2. revert l' H. induction l as [|x l IH]; intros l' H.
    { apply prefix_nil. }
    destruct l' as [|y l']; [by apply prefix_nil_not in H|]. rewrite !fmap_cons in H.
    pose proof (prefix_cons_inv_1 _ _ _ _ H) as [= ->].
    apply prefix_cons, IH. by apply prefix_cons_inv_2 in H.
  - intros [k ->]. apply prefix_cons. rewrite fmap_app. by eexists.
Qed.

(** ** Resolution where no link is in the way *)

(** No component below [cur] on the way along [names] is a symbolic link. *)
Definition no_link_on (f : Fs) (l : list string) : Prop :=
  ∀ k t, k `prefix_of` l → node_at f k ≠ Some (Link t).

Lemma walk_nil links f nofollow cur : walk links f nofollow cur [] = Found cur Dir.
Proof. by destruct links. Qed.

Lemma walk_root links f nofollow cur cs :
  walk links f nofollow cur (RootDir :: cs) = walk links f nofollow [] cs.
Proof. by destruct links. Qed.

Lemma walk_name links f nofollow cur name cs :
  walk links f nofollow cur (Normal name :: cs) =
  match node_at f (cur ++ [name]) with
  | None => match cs with [] => Missing (cur ++ [name]) | _ => Failed ENOENT end
  | Some Dir => walk links f nofollow (cur ++ [name]) cs
  | Some (File ino) =>
      match cs with [] => Found (cur ++ [name]) (File ino) | _ => Failed ENOTDIR end
  | Some (Link target) =>
      match cs, nofollow with
      | [], true => Found (cur ++ [name]) (Link target)
      | _, _ => match links with
                | O => Failed ELOOP
                | S links => walk links f nofollow cur (target ++ cs)
                end
      end
  end.
Proof. by destruct links. Qed.

Lemma walk_normal links f nofollow cur names :
  no_link_on f (cur ++ names) →
  match walk links f nofollow cur (Normal <$> names) with
  | Found l n => l = cur ++ names ∧ (node_at f l = Some n ∨ names = [] ∧ n = Dir)
  | Missing l => l = cur ++ names ∧ node_at f l = None
  | Failed _ => True
  end.
Proof.
  revert cur. induction names as [|x names IH]; intros cur Hn.
  { rewrite walk_nil, app_nil_r. auto. }
  assert (Hx : ∀ t, node_at f (cur ++ [x]) ≠ Some (Link t)).
  { intros t. apply Hn. exists names. by rewrite <- app_assoc. }
  specialize (IH (cur ++ [x])). rewrite <- app_assoc in IH. specialize (IH Hn).
  rewrite fmap_cons, walk_name.
  destruct (node_at f (cur ++ [x])) as [[|t|ino]|] eqn:E; [|by destruct (Hx t)| |].
  - destruct names as [|y names]; [rewrite walk_nil; auto|].
    destruct (walk _ _ _ _ _) as [l n|l|e]; [|done|done].
    destruct IH as [-> [H|[[=] ?]]]; auto.
  - destruct names; naive_solver.
  - destruct names; naive_solver.
Qed.

(** The root component starts over, and the rest is resolved from there. *)
Lemma resolve_location f nofollow l :
  no_link_on f l →
  match resolve f nofollow (of_location l) with
  | Found l' n => l' = l ∧ node_at f l = Some n
  | Missing l' => l' = l ∧ node_at f l = None
  | Failed _ => True
  end.
Proof.
  intros Hn. unfold resolve, of_location. rewrite walk_root.
  pose proof (walk_normal MAXSYMLINKS f nofollow [] l Hn) as H.
  destruct (walk _ _ _ _ _) as [l' n|l'|]; [|by destruct H as [-> H]|done].
  destruct H as [-> [H|[-> ->]]]; done.
Qed.
