(* ===== verification/ServerConfig.v ===== *)
(** * Configuration of the server (cbsd-server, config.rs)

    The configuration with its defaults, its validation, which panics with a
    message, and the normalization at load time. A path is kept as its text.
    Reading YAML is third-party code. *)

From stdpp Require Import prelude strings list pretty.
From S2P Require Import Prelude Proto FileSystem Common.

Definition WEB_SESSION_IDLE_SECS : Z := 7 * 24 * 3600.

Record SecretsConfig := mkSecrets { token_secret_key : string; max_token_ttl_seconds : Z }.

Record OAuthConfig := mkOAuthConfig {
  secrets_file : string;
  allowed_domains : list string;
  allow_any_google_account : bool
}.

Record TimeoutsConfig := mkTimeouts {
  dispatch_ack_timeout_secs : Z;
  liveness_grace_secs : Z;
  backoff_ceiling : Z;
  revoke_ack_timeout_secs : Z;
  sigkill_escalation_secs : Z
}.

Definition timeouts_default : TimeoutsConfig := mkTimeouts 15 90 30 30 15.

Record LogRetentionConfig := mkLogRetention { log_retention_days : Z }.
Definition log_retention_default : LogRetentionConfig := mkLogRetention 30.

Record SeedConfig := mkSeed { seed_admin : option string }.

Record DevSeedWorker := mkSeedWorker { dsw_name : string; dsw_arch : Arch; dsw_api_key : string }.

Record DevConfig := mkDev { dev_enabled : bool; seed_workers : list DevSeedWorker }.

Record ServerLoggingConfig := mkServerLogging { sl_level : string; sl_log_file : option string }.
Definition server_logging_default : ServerLoggingConfig := mkServerLogging "info" None.

Record MetricsConfig := mkMetrics {
  met_enabled : bool;
  met_bind : option string;
  stale_after_secs : Z;
  gauge_refresh_secs : Z
}.

Definition server_metrics_default : MetricsConfig := mkMetrics true (Some "0.0.0.0:9090") 45 5.

Record ServerConfig := mkServerConfig {
  listen_addr : string;
  tls_cert_path : option string;
  tls_key_path : option string;
  db_path : string;
  log_dir : string;
  components_dir : string;
  secrets : SecretsConfig;
  oauth : OAuthConfig;
  timeouts : TimeoutsConfig;
  log_retention : LogRetentionConfig;
  seed : SeedConfig;
  dev : DevConfig;
  logging : ServerLoggingConfig;
  metrics : MetricsConfig
}.

(** ** [SocketAddr::from_str]

    An IPv4 address with a port, or an IPv6 address in brackets, with an optional
    scope, and a port. *)

Definition is_digit (c : Ascii.ascii) : bool :=
  let n := Ascii.nat_of_ascii c in (48 <=? n) && (n <=? 57).

Definition is_hexdigit (c : Ascii.ascii) : bool :=
  let n := Ascii.nat_of_ascii c in
  is_digit c || ((97 <=? n) && (n <=? 102)) || ((65 <=? n) && (n <=? 70)).

Fixpoint all_chars (p : Ascii.ascii → bool) (s : string) : bool :=
  match s with EmptyString => true | String c s => p c && all_chars p s end.

Fixpoint decimal (acc : Z) (s : string) : Z :=
  match s with
  | EmptyString => acc
  | String c s => decimal (10 * acc + (Z.of_nat (Ascii.nat_of_ascii c) - 48)) s
  end.

(** A decimal number of at least one digit, below a bound. *)
Definition is_number (bound : Z) (s : string) : bool :=
  negb (bool_decide (s = "")) && all_chars is_digit s && (decimal 0 s <? bound)%Z.

(** An octet: up to three digits, without a leading zero. *)
Definition is_octet (s : string) : bool :=
  is_number 256 s && (String.length s <=? 3)
  && ((String.length s =? 1) || negb (starts_with "0" s)).

Definition char_of (n : nat) : Ascii.ascii := Ascii.ascii_of_nat n.

(** [str::split] on a character. *)
Fixpoint split_char (c : Ascii.ascii) (s : string) : list string :=
  match s with
  | EmptyString => [EmptyString]
  | String d s =>
      if Ascii.eqb c d then EmptyString :: split_char c s
      else match split_char c s with
           | w :: ws => String d w :: ws
           | [] => [String d EmptyString]
           end
  end.

Definition is_ipv4 (s : string) : bool :=
  match split_char (char_of 46) s with
  | [a; b; c; d] => is_octet a && is_octet b && is_octet c && is_octet d
  | _ => false
  end.

Definition is_group (s : string) : bool :=
  (1 <=? String.length s) && (String.length s <=? 4) && all_chars is_hexdigit s.

(** The number of 16-bit groups of a colon-separated list, whose last element
    may be an IPv4 address when that is allowed. *)
Fixpoint count_groups (ipv4_last : bool) (l : list string) : option nat :=
  match l with
  | [] => Some 0
  | [g] => if is_group g then Some 1
           else if ipv4_last && is_ipv4 g then Some 2 else None
  | g :: l => if is_group g then S <$> count_groups ipv4_last l else None
  end.

Definition groups_of (ipv4_last : bool) (s : string) : option nat :=
  match s with
  | EmptyString => Some 0
  | _ => count_groups ipv4_last (split_char (char_of 58) s)
  end.

(** Split at the first [::]. *)
Fixpoint split_double_colon (s : string) : option (string * string) :=
  match s with
  | EmptyString => None
  | String c s' =>
      match strip_prefix "::" s with
      | Some rest => Some (EmptyString, rest)
      | None => '(a, b) ← split_double_colon s'; Some (String c a, b)
      end
  end.

Definition is_ipv6 (s : string) : bool :=
  match split_double_colon s with
  | None => bool_decide (groups_of true s = Some 8)
  | Some (head, tail) =>
      match groups_of false head, groups_of true tail with
      | Some h, Some t => h + t <=? 7
      | _, _ => false
      end
  end.

(** Split at the last occurrence of a character. *)
Fixpoint rsplit_once (c : Ascii.ascii) (s : string) : option (string * string) :=
  match s with
  | EmptyString => None
  | String d s' =>
      match rsplit_once c s' with
      | Some (a, b) => Some (String d a, b)
      | None => if Ascii.eqb c d then Some (EmptyString, s') else None
      end
  end.

Definition is_socket_addr (s : string) : bool :=
  match rsplit_once (char_of 58) s with
  | None => false
  | Some (host, port) =>
      is_number 65536 port
      && (is_ipv4 host
          || match strip_prefix "[" host ≫= strip_suffix "]" with
             | None => false
             | Some inner =>
                 match rsplit_once (char_of 37) inner with
                 | Some (a, scope) => is_ipv6 a && is_number (2 ^ 32) scope
                 | None => is_ipv6 inner
                 end
             end)
  end.

(** ** Validation

    The message of the panic, if there is one. *)

Definition check_metrics_invariants (m : MetricsConfig) (listen_addr : string) : option string :=
  if negb (met_enabled m) then None
  else if (stale_after_secs m <=? gauge_refresh_secs m)%Z then
    Some ("config error: metrics.gauge-refresh-secs (" +:+ pretty (gauge_refresh_secs m)
          +:+ ") must be less than metrics.stale-after-secs (" +:+ pretty (stale_after_secs m) +:+ ")")
  else match met_bind m with
       | None => None
       | Some bind =>
           if bool_decide (bind = listen_addr) then
             Some ("config error: metrics.bind (" +:+ bind +:+ ") must differ from listen-addr ("
                   +:+ listen_addr +:+ ") — the metrics endpoint needs its own listener, or "
                   +:+ "set metrics.bind: null to serve it on the main listener")
           else if negb (is_socket_addr bind) then
             Some ("config error: metrics.bind (" +:+ bind
                   +:+ ") is not a valid socket address: invalid socket address syntax")
           else None
       end.

Definition check_server_log_file (f : Fs) (path : string) : option string :=
  let p := components path in
  if negb (is_absolute p) then
    Some ("config error: logging.log-file must be an absolute path, got '" +:+ path +:+ "'")
  else if lacks_file_name p then
    Some ("config error: logging.log-file has no filename component: '" +:+ path +:+ "'")
  else match parent p with
       | Some dir =>
           if negb (bool_decide (dir = [])) && negb (path_exists f dir) then
             Some ("config error: logging.log-file parent directory does not exist: '"
                   +:+ display dir +:+ "'")
           else None
       | None => None
       end.

Fixpoint check_seed_workers (i : nat) (ws : list DevSeedWorker) : option string :=
  match ws with
  | [] => None
  | w :: ws =>
      if negb (String.length (dsw_api_key w) =? 69) || negb (starts_with "cbsk_" (dsw_api_key w)) then
        Some ("config error: dev.seed_workers[" +:+ pretty i +:+ "].api_key must be 'cbsk_' + 64 hex "
              +:+ "chars (69 characters total), got " +:+ pretty (String.length (dsw_api_key w))
              +:+ " characters")
      else if negb (all_chars is_hexdigit (String.substring 5 64 (dsw_api_key w))) then
        Some ("config error: dev.seed_workers[" +:+ pretty i +:+ "].api_key contains non-hex "
              +:+ "characters after 'cbsk_' prefix")
      else check_seed_workers (S i) ws
  end.

(** The first check that fires. *)
Definition first_panic (l : list (option string)) : option string := find_map id l.

Definition validate (env : Environment) (f : Fs) (c : ServerConfig) : option string :=
  let is_dev := is_truthy_env env "CBSD_DEV" in
  first_panic [
    (if negb (dev_enabled (dev c)) && bool_decide (allowed_domains (oauth c) = [])
        && negb (allow_any_google_account (oauth c)) then
       Some ("config error: oauth.allowed_domains is empty and "
             +:+ "oauth.allow_any_google_account is not true — "
             +:+ "this would allow any Google account to authenticate")
     else None);
    (if (liveness_grace_secs (timeouts c) <=? backoff_ceiling (timeouts c))%Z then
       Some ("config error: reconnect_backoff_ceiling_secs (" +:+ pretty (backoff_ceiling (timeouts c))
             +:+ ") must be less than liveness_grace_period_secs ("
             +:+ pretty (liveness_grace_secs (timeouts c)) +:+ ")")
     else None);
    (if (max_token_ttl_seconds (secrets c) <? WEB_SESSION_IDLE_SECS)%Z then
       Some ("config error: max-token-ttl-seconds (" +:+ pretty (max_token_ttl_seconds (secrets c))
             +:+ ") must be >= " +:+ pretty WEB_SESSION_IDLE_SECS
             +:+ " (web session idle timeout is 7 days)")
     else None);
    (if negb (bool_decide (length (seed_workers (dev c)) = 0)) && negb (dev_enabled (dev c)) then
       Some ("config error: dev.seed_workers is configured but dev.enabled is false — "
             +:+ "set dev.enabled: true or remove dev.seed_workers")
     else None);
    check_metrics_invariants (metrics c) (listen_addr c);
    (if negb is_dev && bool_decide (sl_log_file (logging c) = None) then
       Some ("config error: logging.log-file is required when CBSD_DEV is not set — "
             +:+ "in production mode there is no console output, so a log file path must be configured")
     else None);
    (sl_log_file (logging c) ≫= check_server_log_file f);
    check_seed_workers 0 (seed_workers (dev c))
  ].

(** ** Loading *)

(** serde_saphyr and the reading of the file. *)
Class ConfigFile := { read_config : result ServerConfig string }.

(** The normalization before the validation. *)
Definition normalized (c : ServerConfig) : ServerConfig :=
  mkServerConfig (listen_addr c) (tls_cert_path c) (tls_key_path c) (db_path c) (log_dir c)
    (components_dir c) (secrets c)
    (mkOAuthConfig (secrets_file (oauth c))
       ((λ d, to_lowercase (trim d)) <$> allowed_domains (oauth c)) (allow_any_google_account (oauth c)))
    (timeouts c) (log_retention c)
    (mkSeed (normalize_email <$> seed_admin (seed c)))
    (dev c) (logging c) (metrics c).

Definition load_config `{ConfigFile} (env : Environment) (f : Fs) : result ServerConfig string :=
  match read_config with
  | Err e => Err e
  | Ok config =>
      let config := normalized config in
      match validate env f config with
      | Some panic => Err panic
      | None => Ok config
      end
  end.

(** ** What a loaded configuration guarantees *)

Lemma first_panic_None l : first_panic l = None ↔ Forall (eq None) l.
Proof.
  unfold first_panic. induction l as [|[p|] l IH]; simpl; [done| |].
  - split; [done|]. by inversion 1.
  - rewrite IH. split; [by constructor|by inversion 1].
Qed.

Lemma metrics_checked m addr :
  None = check_metrics_invariants m addr → met_enabled m = true →
  (gauge_refresh_secs m < stale_after_secs m)%Z ∧ met_bind m ≠ Some addr.
Proof.
  unfold check_metrics_invariants. intros Hc He. rewrite He in Hc. simpl in Hc.
  destruct (Z.leb_spec (stale_after_secs m) (gauge_refresh_secs m)); [done|]. split; [done|].
  intros Hb. rewrite Hb in Hc. by rewrite bool_decide_eq_true_2 in Hc.
Qed.

Lemma seed_workers_checked i ws :
  None = check_seed_workers i ws →
  ∀ w, w ∈ ws → starts_with "cbsk_" (dsw_api_key w) = true ∧ String.length (dsw_api_key w) = 69.
Proof.
  revert i. induction ws as [|w0 ws IH]; intros i Hc w; [by intros ?%not_elem_of_nil|].
  simpl in Hc. destruct (Nat.eqb_spec (String.length (dsw_api_key w0)) 69); [|done].
  destruct (starts_with "cbsk_" (dsw_api_key w0)) eqn:Hs; [|done]. simpl in Hc.
  destruct (all_chars _ _); [|done]. intros Hw. apply elem_of_cons in Hw as [Hw|Hw].
  - by rewrite Hw.
  - simpl in Hc. by eapply IH.
Qed.

(** A configuration that loads is safe to run with: outside development mode
    not every Google account may log in; a worker that reconnects as late as its
    backoff allows is still within the grace period of its builds; a token lives
    at least as long as the web session that holds it; a gauge is refreshed
    before it expires, on a listener of its own; the log goes to an absolute path
    in production; pre-set worker keys have the form of generated ones and exist
    in development mode only; and the emails and domains that logins are compared
    with are in canonical form. *)
Theorem loaded_config_safe `{ConfigFile} (env : Environment) (f : Fs) (c : ServerConfig)
    (Hload : load_config env f = Ok c) :
  (dev_enabled (dev c) = false →
     allowed_domains (oauth c) ≠ [] ∨ allow_any_google_account (oauth c) = true) ∧
  (backoff_ceiling (timeouts c) < liveness_grace_secs (timeouts c))%Z ∧
  (WEB_SESSION_IDLE_SECS ≤ max_token_ttl_seconds (secrets c))%Z ∧
  (met_enabled (metrics c) = true →
     (gauge_refresh_secs (metrics c) < stale_after_secs (metrics c))%Z ∧
     met_bind (metrics c) ≠ Some (listen_addr c)) ∧
  (is_truthy_env env "CBSD_DEV" = false →
     ∃ path, sl_log_file (logging c) = Some path ∧ is_absolute (components path) = true) ∧
  (∀ w, w ∈ seed_workers (dev c) →
     dev_enabled (dev c) = true ∧ starts_with "cbsk_" (dsw_api_key w) = true ∧
     String.length (dsw_api_key w) = 69) ∧
  (∀ email, seed_admin (seed c) = Some email → normalize_email email = email) ∧
  (∀ d, d ∈ allowed_domains (oauth c) → to_lowercase d = d).
Proof.
  unfold load_config in Hload. destruct read_config as [c0|e]; [|done].
  destruct (validate env f (normalized c0)) eqn:Hv; [done|]. injection Hload as <-.
  unfold validate in Hv. apply first_panic_None in Hv.
  rewrite !Forall_cons in Hv. destruct Hv as (H1 & H2 & H3 & H4 & H5 & H6 & H7 & H8 & _).
  set (c := normalized c0) in *. split_and!.
  - intros Hd. rewrite Hd in H1. destruct (allow_any_google_account _); [by right|]. left.
    intros Hn. by rewrite bool_decide_eq_true_2 in H1.
  - destruct (Z.leb_spec (liveness_grace_secs (timeouts c)) (backoff_ceiling (timeouts c))); [done|lia].
  - destruct (Z.ltb_spec (max_token_ttl_seconds (secrets c)) WEB_SESSION_IDLE_SECS); [done|lia].
  - by apply metrics_checked.
  - intros Hd. rewrite Hd in H6. destruct (sl_log_file (logging c)) as [path|]; [|done].
    exists path. split; [done|]. simpl in H7. unfold check_server_log_file in H7.
    by destruct (is_absolute _).
  - intros w Hw. destruct (seed_workers_checked 0 _ H8 w Hw) as [? ?]. split; [|done].
    destruct (dev_enabled _); [done|]. rewrite bool_decide_eq_false_2 in H4; [done|].
    by intros Hl%length_zero_iff_nil; rewrite Hl in Hw; apply not_elem_of_nil in Hw.
  - intros email (e & He & ->)%fmap_Some. apply normalize_email_idem.
  - intros d (d0 & -> & _)%list_elem_of_fmap. apply to_lowercase_idem.
Qed.
