(* ===== verification/Queue.v ===== *)
(** * The in-memory build queue (queue/mod.rs, ws/liveness.rs)

    Three priority lanes of pending builds, the builds dispatched to workers
    and the connected workers. *)

From stdpp Require Import prelude gmap strings list.
From S2P Require Import Prelude Proto.

(** ** Worker liveness states (ws/liveness.rs) *)

Definition ConnectionId := string.

Inductive WorkerState :=
| Connected (registered_worker_id worker_name : string) (arch : Arch)
            (cores_total ram_total_mb : Z) (version : option string)
| Disconnected (since : Z) (registered_worker_id worker_name : string) (arch : Arch)
| Stopping (registered_worker_id worker_name : string)
| Dead.

Definition is_dispatch_eligible (w : WorkerState) : bool :=
  match w with Connected _ _ _ _ _ _ => true | _ => false end.

Definition registered_worker_id (w : WorkerState) : option string :=
  match w with
  | Connected id _ _ _ _ _ | Disconnected _ id _ _ | Stopping id _ => Some id
  | Dead => None
  end.

Definition worker_name (w : WorkerState) : option string :=
  match w with
  | Connected _ n _ _ _ _ | Disconnected _ _ n _ | Stopping _ n => Some n
  | Dead => None
  end.

Definition worker_arch (w : WorkerState) : option Arch :=
  match w with
  | Connected _ _ a _ _ _ | Disconnected _ _ _ a => Some a
  | Stopping _ _ | Dead => None
  end.

Definition state_name (w : WorkerState) : string :=
  match w with
  | Connected _ _ _ _ _ _ => "connected"
  | Disconnected _ _ _ _ => "disconnected"
  | Stopping _ _ => "stopping"
  | Dead => "dead"
  end.

(** ** Queue entries *)

Inductive ActiveAssignmentReceipt := AwaitingReceipt | ReceivedByWorker.

(** [ack_cancel] is the identity of the shared cancellation token. *)
Record ActiveBuild := mkActive {
  ab_build_id : Z;
  ab_connection_id : ConnectionId;
  ab_dispatched_at : Z;
  ab_trace_id : string;
  ab_descriptor : BuildDescriptor;
  ab_priority : Priority;
  ab_ack_cancel : nat;
  ab_receipt : ActiveAssignmentReceipt
}.

Record WorkerInfo := mkWorkerInfo {
  wi_connection_id : ConnectionId;
  wi_worker_id : string;
  wi_worker_name : string;
  wi_arch : Arch;
  wi_state_name : string;
  wi_current_build_id : option Z
}.

Record QueuedBuild := mkQueued {
  qb_build_id : BuildId;
  qb_priority : Priority;
  qb_descriptor : BuildDescriptor;
  qb_user_email : string;
  qb_queued_at : Z
}.

Record BuildQueue := mkQueue {
  q_high : list QueuedBuild;
  q_normal : list QueuedBuild;
  q_low : list QueuedBuild;
  q_active : gmap Z ActiveBuild;
  q_workers : gmap ConnectionId WorkerState
}.

(** The iteration order of a [HashMap] is unspecified: some permutation of its
    entries. *)
Class HashIter := {
  hash_iter : ∀ {K} `{Countable K} {V}, gmap K V → list (K * V);
  hash_iter_perm : ∀ {K} `{Countable K} {V} (m : gmap K V), hash_iter m ≡ₚ map_to_list m
}.

(** [HashMap::values]. *)
Definition hash_values `{HashIter} `{Countable K} {V} (m : gmap K V) : list V :=
  (hash_iter m).*2.

(** ** Operations *)

Definition queue_new : BuildQueue := mkQueue [] [] [] ∅ ∅.

Definition set_active (a : gmap Z ActiveBuild) (q : BuildQueue) : BuildQueue :=
  mkQueue (q_high q) (q_normal q) (q_low q) a (q_workers q).

Definition set_workers (w : gmap ConnectionId WorkerState) (q : BuildQueue) : BuildQueue :=
  mkQueue (q_high q) (q_normal q) (q_low q) (q_active q) w.

(** [lane_mut]: the lane of a priority, read and replaced. *)
Definition lane (p : Priority) (q : BuildQueue) : list QueuedBuild :=
  match p with High => q_high q | Normal => q_normal q | Low => q_low q end.

Definition lane_set (p : Priority) (l : list QueuedBuild) (q : BuildQueue) : BuildQueue :=
  match p with
  | High => mkQueue l (q_normal q) (q_low q) (q_active q) (q_workers q)
  | Normal => mkQueue (q_high q) l (q_low q) (q_active q) (q_workers q)
  | Low => mkQueue (q_high q) (q_normal q) l (q_active q) (q_workers q)
  end.

Definition enqueue (b : QueuedBuild) (q : BuildQueue) : BuildQueue :=
  lane_set (qb_priority b) (lane (qb_priority b) q ++ [b]) q.

Definition enqueue_front (b : QueuedBuild) (q : BuildQueue) : BuildQueue :=
  lane_set (qb_priority b) (b :: lane (qb_priority b) q) q.

(** [VecDeque::pop_front] on one lane. *)
Definition pop_lane (p : Priority) (q : BuildQueue) : option (QueuedBuild * BuildQueue) :=
  match lane p q with
  | b :: l => Some (b, lane_set p l q)
  | [] => None
  end.

Definition next_pending (q : BuildQueue) : option QueuedBuild * BuildQueue :=
  match pop_lane High q with
  | Some (b, q') => (Some b, q')
  | None =>
      match pop_lane Normal q with
      | Some (b, q') => (Some b, q')
      | None =>
          match pop_lane Low q with
          | Some (b, q') => (Some b, q')
          | None => (None, q)
          end
      end
  end.

Definition has_build_id (id : BuildId) (b : QueuedBuild) : bool :=
  bool_decide (qb_build_id b = id).

Definition remove_from_lane (l : list QueuedBuild) (id : BuildId)
    : option (QueuedBuild * list QueuedBuild) :=
  match position (has_build_id id) l with
  | Some pos => remove_at pos l
  | None => None
  end.

Definition lane_contains (l : list QueuedBuild) (id : BuildId) : bool :=
  existsb (has_build_id id) l.

Definition remove_by_id (id : BuildId) (q : BuildQueue) : option QueuedBuild * BuildQueue :=
  match remove_from_lane (q_high q) id with
  | Some (b, l) => (Some b, lane_set High l q)
  | None =>
      match remove_from_lane (q_normal q) id with
      | Some (b, l) => (Some b, lane_set Normal l q)
      | None =>
          match remove_from_lane (q_low q) id with
          | Some (b, l) => (Some b, lane_set Low l q)
          | None => (None, q)
          end
      end
  end.

Definition pending_counts (q : BuildQueue) : nat * nat * nat :=
  (length (q_high q), length (q_normal q), length (q_low q)).

(** The counting loop of [queued_by_priority_arch] over one lane. *)
Definition count_entry (counts : gmap (Priority * Arch) nat) (b : QueuedBuild)
    : gmap (Priority * Arch) nat :=
  let k := (qb_priority b, bt_arch (bd_build (qb_descriptor b))) in
  <[k := S (default 0 (counts !! k))]> counts.

Definition queued_by_priority_arch `{HashIter} (q : BuildQueue) : list (Priority * Arch * nat) :=
  hash_iter (foldl (foldl count_entry) ∅ [q_high q; q_normal q; q_low q]).

Definition contains_build (id : BuildId) (q : BuildQueue) : bool :=
  lane_contains (q_high q) id || lane_contains (q_normal q) id || lane_contains (q_low q) id.

(** The lookup half of [active_build_for_connection_mut]; the callers write the
    entry back under the same lock. *)
Definition active_build_for_connection (id : Z) (cid : ConnectionId) (q : BuildQueue)
    : option ActiveBuild :=
  match q_active q !! id with
  | Some ab => if bool_decide (ab_connection_id ab = cid) then Some ab else None
  | None => None
  end.

Definition register_worker (cid : ConnectionId) (w : WorkerState) (q : BuildQueue) : BuildQueue :=
  set_workers (<[cid := w]> (q_workers q)) q.

Definition remove_worker (cid : ConnectionId) (q : BuildQueue) : option WorkerState * BuildQueue :=
  (q_workers q !! cid, set_workers (delete cid (q_workers q)) q).

Definition get_worker (cid : ConnectionId) (q : BuildQueue) : option WorkerState :=
  q_workers q !! cid.

Definition set_worker_state (cid : ConnectionId) (w : WorkerState) (q : BuildQueue) : BuildQueue :=
  match q_workers q !! cid with
  | Some _ => set_workers (<[cid := w]> (q_workers q)) q
  | None => q
  end.

Definition has_pending (q : BuildQueue) : bool :=
  negb (bool_decide (q_high q = [])) || negb (bool_decide (q_normal q = []))
  || negb (bool_decide (q_low q = [])).

Section Iteration.
Context `{HashIter}.

(** No active build is assigned to the connection. *)
Definition connection_free (cid : ConnectionId) (q : BuildQueue) : bool :=
  negb (existsb (λ ab, bool_decide (ab_connection_id ab = cid)) (hash_values (q_active q))).

Definition has_idle_workers (q : BuildQueue) : bool :=
  existsb (λ '(cid, ws), is_dispatch_eligible ws && connection_free cid q)
          (hash_iter (q_workers q)).

Definition active_builds_with_receipt_for_connection (cid : ConnectionId) (q : BuildQueue)
    : list (Z * ActiveAssignmentReceipt) :=
  (λ ab, (ab_build_id ab, ab_receipt ab)) <$>
    filter (λ ab, ab_connection_id ab = cid) (hash_values (q_active q)).

Definition worker_info (q : BuildQueue) (cid : ConnectionId) (w : WorkerState)
    : option WorkerInfo :=
  wid ← registered_worker_id w;
  name ← worker_name w;
  arch ← worker_arch w;
  Some {| wi_connection_id := cid;
          wi_worker_id := wid;
          wi_worker_name := name;
          wi_arch := arch;
          wi_state_name := state_name w;
          wi_current_build_id :=
            ab_build_id <$> find_first (λ ab, bool_decide (ab_connection_id ab = cid))
                                       (hash_values (q_active q)) |}.

Definition connected_workers (q : BuildQueue) : list WorkerInfo :=
  omap (λ '(cid, w), worker_info q cid w) (hash_iter (q_workers q)).

End Iteration.

#[global] Instance receipt_eq_dec : EqDecision ActiveAssignmentReceipt.
Proof. solve_decision. Defined.

(** ** The abstract queue

    The three lanes stand for one list of pending builds, ordered by priority
    and by arrival inside a priority. *)

Definition pending (q : BuildQueue) : list QueuedBuild := q_high q ++ q_normal q ++ q_low q.

Definition pending_ids (q : BuildQueue) : list Z := (λ b, build_id_0 (qb_build_id b)) <$> pending q.

Definition rank (p : Priority) : nat := match p with High => 0 | Normal => 1 | Low => 2 end.

(** Arrival behind every pending build of the same or a higher priority. *)
Fixpoint insert_back (b : QueuedBuild) (l : list QueuedBuild) : list QueuedBuild :=
  match l with
  | [] => [b]
  | x :: l => if rank (qb_priority x) <=? rank (qb_priority b)
              then x :: insert_back b l else b :: x :: l
  end.

(** Return in front of every pending build of the same or a lower priority. *)
Fixpoint insert_front (b : QueuedBuild) (l : list QueuedBuild) : list QueuedBuild :=
  match l with
  | [] => [b]
  | x :: l => if rank (qb_priority x) <? rank (qb_priority b)
              then x :: insert_front b l else b :: x :: l
  end.

(** Every pending build is in the lane of its priority. *)
Definition lanes_wf (q : BuildQueue) : Prop :=
  ∀ p, Forall (λ b, qb_priority b = p) (lane p q).

(** Popping until the lanes are empty. *)
Fixpoint drain (fuel : nat) (q : BuildQueue) : list QueuedBuild :=
  match fuel with
  | 0 => []
  | S n => match next_pending q with
           | (Some b, q') => b :: drain n q'
           | (None, _) => []
           end
  end.

(** ** Iteration lemmas *)

Section IterationLemmas.
Context `{HashIter}.

Lemma elem_of_hash_iter `{Countable K} {V} (m : gmap K V) k v :
  (k, v) ∈ hash_iter m ↔ m !! k = Some v.
Proof. rewrite hash_iter_perm. apply elem_of_map_to_list. Qed.

Lemma elem_of_hash_values `{Countable K} {V} (m : gmap K V) v :
  v ∈ hash_values m ↔ ∃ k, m !! k = Some v.
Proof.
  unfold hash_values. rewrite list_elem_of_fmap. split.
  - intros ([k w] & -> & Hk). apply elem_of_hash_iter in Hk. by exists k.
  - intros [k Hk]. exists (k, v). by rewrite elem_of_hash_iter.
Qed.

Lemma connection_free_spec cid q :
  connection_free cid q = true ↔
  ∀ id ab, q_active q !! id = Some ab → ab_connection_id ab ≠ cid.
Proof.
  unfold connection_free. rewrite negb_true_iff, <- not_true_iff_false, existsb_spec.
  split.
  - intros Hn id ab Hab Hc. apply Hn. exists ab. rewrite elem_of_hash_values.
    split; [by exists id|]. by apply bool_decide_eq_true_2.
  - intros Hf (ab & Hab & Hc). apply elem_of_hash_values in Hab as [id Hab].
    apply bool_decide_eq_true_1 in Hc. by eapply Hf.
Qed.

Lemma has_idle_workers_spec q :
  has_idle_workers q = true ↔
  ∃ cid w, q_workers q !! cid = Some w ∧ is_dispatch_eligible w = true ∧
           ∀ id ab, q_active q !! id = Some ab → ab_connection_id ab ≠ cid.
Proof.
  unfold has_idle_workers. rewrite existsb_spec. split.
  - intros ([cid w] & Hin & [He Hf]%andb_true_iff). apply elem_of_hash_iter in Hin.
    exists cid, w. by rewrite connection_free_spec in Hf.
  - intros (cid & w & Hw & He & Hf). exists (cid, w). split; [by apply elem_of_hash_iter|].
    apply andb_true_iff. by rewrite connection_free_spec.
Qed.

Lemma active_builds_with_receipt_spec cid q id r :
  (id, r) ∈ active_builds_with_receipt_for_connection cid q ↔
  ∃ k ab, q_active q !! k = Some ab ∧ ab_connection_id ab = cid ∧
          ab_build_id ab = id ∧ ab_receipt ab = r.
Proof.
  unfold active_builds_with_receipt_for_connection. rewrite list_elem_of_fmap.
  setoid_rewrite list_elem_of_filter. setoid_rewrite elem_of_hash_values.
  split.
  - intros (ab & Heq & Hc & k & Hk). exists k, ab. by simplify_eq.
  - intros (k & ab & Hk & Hc & <- & <-). exists ab. naive_solver.
Qed.

End IterationLemmas.

(** ** Lanes *)

Lemma lanes_wf_new : lanes_wf queue_new.
Proof. intros []; constructor. Qed.

Lemma lane_lane_set_eq p l q : lane p (lane_set p l q) = l.
Proof. by destruct p. Qed.

Lemma lane_lane_set_ne p p' l q : p ≠ p' → lane p' (lane_set p l q) = lane p' q.
Proof. by destruct p, p'. Qed.

Lemma lane_set_rest p l q :
  q_active (lane_set p l q) = q_active q ∧ q_workers (lane_set p l q) = q_workers q.
Proof. by destruct p. Qed.

Lemma lanes_wf_set p l q :
  lanes_wf q → Forall (λ b, qb_priority b = p) l → lanes_wf (lane_set p l q).
Proof.
  intros Hq Hl p'. destruct (decide (p = p')) as [<-|Hne].
  - by rewrite lane_lane_set_eq.
  - rewrite lane_lane_set_ne; [apply Hq|done].
Qed.

Lemma lanes_wf_enqueue b q : lanes_wf q → lanes_wf (enqueue b q).
Proof.
  intros Hq. apply lanes_wf_set; [done|]. apply Forall_app. split; [apply Hq|by constructor].
Qed.

Lemma lanes_wf_enqueue_front b q : lanes_wf q → lanes_wf (enqueue_front b q).
Proof. intros Hq. apply lanes_wf_set; [done|]. by constructor; [|apply Hq]. Qed.

Lemma lanes_wf_active a q : lanes_wf q → lanes_wf (set_active a q).
Proof. intros Hq []; [apply (Hq High)|apply (Hq Normal)|apply (Hq Low)]. Qed.

Lemma lanes_wf_workers w q : lanes_wf q → lanes_wf (set_workers w q).
Proof. intros Hq []; [apply (Hq High)|apply (Hq Normal)|apply (Hq Low)]. Qed.

#[export] Hint Resolve lanes_wf_new lanes_wf_enqueue lanes_wf_enqueue_front
  lanes_wf_active lanes_wf_workers : cbs.

Lemma insert_back_app n b l1 l2 :
  rank (qb_priority b) = n →
  Forall (λ x, rank (qb_priority x) ≤ n) l1 →
  Forall (λ x, n < rank (qb_priority x)) l2 →
  insert_back b (l1 ++ l2) = l1 ++ b :: l2.
Proof.
  intros Hn H1 H2. induction H1 as [|x l1 Hx _ IH]; simpl.
  - destruct H2 as [|y l2 Hy]; simpl; [done|].
    by rewrite (proj2 (Nat.leb_gt _ _)) by lia.
  - rewrite (proj2 (Nat.leb_le _ _)) by lia. by f_equal.
Qed.

Lemma insert_front_app n b l1 l2 :
  rank (qb_priority b) = n →
  Forall (λ x, rank (qb_priority x) < n) l1 →
  Forall (λ x, n ≤ rank (qb_priority x)) l2 →
  insert_front b (l1 ++ l2) = l1 ++ b :: l2.
Proof.
  intros Hn H1 H2. induction H1 as [|x l1 Hx _ IH]; simpl.
  - destruct H2 as [|y l2 Hy]; simpl; [done|].
    by rewrite (proj2 (Nat.ltb_ge _ _)) by lia.
  - rewrite (proj2 (Nat.ltb_lt _ _)) by lia. by f_equal.
Qed.

(** Closes the side conditions of the two lemmas above on concatenated lanes. *)
Ltac lane_ranks Hq :=
  rewrite ?Forall_app; split_and?; try constructor;
  (eapply Forall_impl;
   [first [exact (Hq High) | exact (Hq Normal) | exact (Hq Low)]|];
   intros ? ->; simpl; lia).

Lemma pending_enqueue b q : lanes_wf q → pending (enqueue b q) = insert_back b (pending q).
Proof.
  intros Hq. unfold enqueue, pending. destruct (qb_priority b) eqn:Hb; simpl.
  - rewrite (insert_back_app 0) by (rewrite ?Hb; done || lane_ranks Hq).
    by rewrite <- (assoc_L (++)).
  - rewrite (assoc_L (++) (q_high q) (q_normal q)).
    rewrite (insert_back_app 1) by (rewrite ?Hb; done || lane_ranks Hq).
    by rewrite <- !(assoc_L (++)).
  - rewrite <- (app_nil_r (q_high q ++ q_normal q ++ q_low q)).
    rewrite (insert_back_app 2) by (rewrite ?Hb; done || lane_ranks Hq).
    by rewrite <- !(assoc_L (++)).
Qed.

Lemma pending_enqueue_front b q :
  lanes_wf q → pending (enqueue_front b q) = insert_front b (pending q).
Proof.
  intros Hq. unfold enqueue_front, pending. destruct (qb_priority b) eqn:Hb; simpl.
  - symmetry. apply (insert_front_app 0 b []); rewrite ?Hb; done || lane_ranks Hq.
  - by rewrite (insert_front_app 1) by (rewrite ?Hb; done || lane_ranks Hq).
  - rewrite (assoc_L (++) (q_high q) (q_normal q) (q_low q)).
    rewrite (insert_front_app 2) by (rewrite ?Hb; done || lane_ranks Hq).
    by rewrite <- !(assoc_L (++)).
Qed.

(** [next_pending] takes the first build of the pending list. *)
Lemma next_pending_spec q :
  (next_pending q).1 = head (pending q) ∧
  pending (next_pending q).2 = tail (pending q) ∧
  q_active (next_pending q).2 = q_active q ∧ q_workers (next_pending q).2 = q_workers q.
Proof.
  destruct q as [h n l a w]. by destruct h, n, l.
Qed.

Lemma next_pending_Some b q q' :
  next_pending q = (Some b, q') →
  pending q = b :: pending q' ∧ q_active q' = q_active q ∧ q_workers q' = q_workers q.
Proof.
  intros Hn. pose proof (next_pending_spec q) as (H1 & H2 & H3 & H4).
  rewrite Hn in *. simpl in *. destruct (pending q); by simplify_eq/=.
Qed.

Lemma next_pending_None q q' : next_pending q = (None, q') → pending q = [] ∧ q' = q.
Proof.
  intros Hn. pose proof (next_pending_spec q) as (H1 & _). rewrite Hn in H1. simpl in H1.
  split; [by destruct (pending q)|].
  unfold next_pending in Hn. split_matches; done.
Qed.

Lemma lanes_wf_next_pending q : lanes_wf q → lanes_wf (next_pending q).2.
Proof.
  intros Hq. pose proof (Hq High) as Hh. pose proof (Hq Normal) as Hn.
  pose proof (Hq Low) as Hl. destruct q as [h n l a w]. simpl in *.
  destruct h; [destruct n; [destruct l|]|]; intros []; simpl; try done;
    by eapply Forall_inv_tail.
Qed.
#[export] Hint Resolve lanes_wf_next_pending : cbs.

Lemma insert_back_perm b l : insert_back b l ≡ₚ b :: l.
Proof.
  induction l as [|x l IH]; simpl; [done|]. case_match; [|done].
  rewrite IH. apply perm_swap.
Qed.

Lemma insert_front_perm b l : insert_front b l ≡ₚ b :: l.
Proof.
  induction l as [|x l IH]; simpl; [done|]. case_match; [|done].
  rewrite IH. apply perm_swap.
Qed.

(** Without any assumption on the lanes, the two insertions add exactly the
    given build. *)
Lemma pending_enqueue_perm b q : pending (enqueue b q) ≡ₚ b :: pending q.
Proof.
  unfold enqueue, pending. destruct (qb_priority b); simpl; solve_Permutation.
Qed.

Lemma pending_enqueue_front_perm b q : pending (enqueue_front b q) ≡ₚ b :: pending q.
Proof.
  unfold enqueue_front, pending. destruct (qb_priority b); simpl; solve_Permutation.
Qed.

Lemma remove_from_lane_Some l id b l' :
  remove_from_lane l id = Some (b, l') →
  l ≡ₚ b :: l' ∧ qb_build_id b = id ∧ (∀ x, x ∈ l' → x ∈ l).
Proof.
  unfold remove_from_lane. intros Hr. destruct (position _ l) as [n|] eqn:Hp; [|done].
  destruct (position_remove_at _ _ _ Hp) as (l1 & x & l2 & -> & Hr' & Hx & _).
  rewrite Hr' in Hr. simplify_eq. apply bool_decide_eq_true_1 in Hx.
  split_and!; [solve_Permutation|done|set_solver].
Qed.

Lemma remove_from_lane_None l id :
  remove_from_lane l id = None → Forall (λ b, qb_build_id b ≠ id) l.
Proof.
  unfold remove_from_lane. intros Hr. destruct (position _ l) as [n|] eqn:Hp.
  - destruct (position_remove_at _ _ _ Hp) as (l1 & x & l2 & -> & Hr' & _).
    by rewrite Hr' in Hr.
  - apply position_None in Hp. eapply Forall_impl; [exact Hp|].
    intros b Hb. by apply bool_decide_eq_false_1 in Hb.
Qed.

Lemma remove_by_id_Some id b q q' :
  remove_by_id id q = (Some b, q') →
  pending q ≡ₚ b :: pending q' ∧ qb_build_id b = id ∧
  q_active q' = q_active q ∧ q_workers q' = q_workers q.
Proof.
  unfold remove_by_id, pending. intros H.
  destruct (remove_from_lane (q_high q) id) as [[]|] eqn:E1;
    [|destruct (remove_from_lane (q_normal q) id) as [[]|] eqn:E2;
      [|destruct (remove_from_lane (q_low q) id) as [[]|] eqn:E3]]; simplify_eq/=;
  match goal with
  | E : remove_from_lane _ _ = Some _ |- _ => apply remove_from_lane_Some in E as (Hp & ? & _)
  end; (split_and!; [rewrite Hp; solve_Permutation|done..]).
Qed.

Lemma remove_by_id_None id q q' :
  remove_by_id id q = (None, q') → q' = q ∧ Forall (λ b, qb_build_id b ≠ id) (pending q).
Proof.
  unfold remove_by_id, pending. intros H.
  destruct (remove_from_lane (q_high q) id) as [[]|] eqn:E1; [done|].
  destruct (remove_from_lane (q_normal q) id) as [[]|] eqn:E2; [done|].
  destruct (remove_from_lane (q_low q) id) as [[]|] eqn:E3; [done|].
  simplify_eq. split; [done|]. rewrite !Forall_app. split_and!; by apply remove_from_lane_None.
Qed.

Lemma lanes_wf_remove_by_id id q : lanes_wf q → lanes_wf (remove_by_id id q).2.
Proof.
  intros Hq. unfold remove_by_id.
  destruct (remove_from_lane (q_high q) id) as [[]|] eqn:E1;
    [|destruct (remove_from_lane (q_normal q) id) as [[]|] eqn:E2;
      [|destruct (remove_from_lane (q_low q) id) as [[]|] eqn:E3]]; cbn [snd]; try done;
  match goal with
  | E : remove_from_lane _ _ = Some _ |- _ => apply remove_from_lane_Some in E as (_ & _ & Hs)
  end; (apply lanes_wf_set; [done|]); rewrite Forall_forall; intros x Hx%Hs; revert x Hx;
  rewrite <- Forall_forall; [exact (Hq High)|exact (Hq Normal)|exact (Hq Low)].
Qed.
#[export] Hint Resolve lanes_wf_remove_by_id : cbs.

Lemma contains_build_spec id q :
  contains_build id q = true ↔ ∃ b, b ∈ pending q ∧ qb_build_id b = id.
Proof.
  unfold contains_build, lane_contains, pending.
  rewrite !orb_true_iff, !existsb_spec. setoid_rewrite bool_decide_eq_true.
  set_solver.
Qed.

Lemma drain_pending n q : length (pending q) ≤ n → drain n q = pending q.
Proof.
  revert q. induction n as [|n IH]; intros q Hn; simpl.
  { by destruct (pending q); simpl in *; [|lia]. }
  destruct (next_pending q) as [[b|] q'] eqn:E.
  - apply next_pending_Some in E as (Hp & _). rewrite Hp in Hn |- *. simpl in Hn.
    f_equal. apply IH. lia.
  - apply next_pending_None in E as [-> _]. done.
Qed.

Lemma lanes_foldl_enqueue bs q p :
  lane p (foldl (λ q b, enqueue b q) q bs) = lane p q ++ filter (λ b, qb_priority b = p) bs.
Proof.
  revert q. induction bs as [|b bs IH]; intros q; simpl; [by rewrite app_nil_r|].
  rewrite IH, filter_cons. unfold enqueue. destruct (decide (qb_priority b = p)) as [<-|Hne].
  - by rewrite lane_lane_set_eq, <- (assoc_L (++)).
  - by rewrite lane_lane_set_ne.
Qed.

(** Counting the pending builds of one priority and architecture. *)
Definition build_key (b : QueuedBuild) : Priority * Arch :=
  (qb_priority b, bt_arch (bd_build (qb_descriptor b))).

Lemma count_entry_lane l m k :
  default 0 (foldl count_entry m l !! k)
  = default 0 (m !! k) + length (filter (λ b, build_key b = k) l).
Proof.
  revert m. induction l as [|b l IH]; intros m; simpl; [by rewrite Nat.add_0_r|].
  rewrite IH, filter_cons. unfold count_entry. fold (build_key b).
  destruct (decide (build_key b = k)) as [<-|Hne].
  - rewrite lookup_insert_eq. simpl. lia.
  - by rewrite lookup_insert_ne.
Qed.

Lemma count_entry_pos l m k n :
  (∀ k n, m !! k = Some n → 0 < n) → foldl count_entry m l !! k = Some n → 0 < n.
Proof.
  revert m. induction l as [|b l IH]; intros m Hm; simpl; [by apply Hm|].
  apply IH. intros k' n'. unfold count_entry. rewrite lookup_insert.
  case_decide; intros; simplify_eq; [lia|by eapply Hm].
Qed.

(** ** Correctness of the queue *)

(** Submitting builds in the order [bs] and popping the queue until it is
    empty yields the high-priority builds, then the normal ones, then the low
    ones, each in submission order. *)
Theorem drain_after_submissions (bs : list QueuedBuild) :
  drain (length bs) (foldl (λ q b, enqueue b q) queue_new bs)
  = filter (λ b, qb_priority b = High) bs ++ filter (λ b, qb_priority b = Normal) bs
    ++ filter (λ b, qb_priority b = Low) bs.
Proof.
  set (q := foldl _ _ _).
  assert (pending q = filter (λ b, qb_priority b = High) bs ++
    filter (λ b, qb_priority b = Normal) bs ++ filter (λ b, qb_priority b = Low) bs) as Hp.
  { change (pending q) with (lane High q ++ lane Normal q ++ lane Low q).
    unfold q. by rewrite !lanes_foldl_enqueue. }
  rewrite drain_pending; [done|]. unfold q. clear Hp q.
  enough (∀ q, length (pending (foldl (λ q b, enqueue b q) q bs))
               = length (pending q) + length bs) as -> by (simpl; lia).
  induction bs as [|b bs IH]; intros q; simpl; [lia|].
  rewrite IH, pending_enqueue_perm. simpl. lia.
Qed.

(** C33: on a queue whose lanes hold builds of their own priority, the lanes
    refine one priority list: [enqueue] inserts behind the builds of the same
    or a higher priority, [enqueue_front] in front of those of the same or a
    lower one, [next_pending] takes the head, and all keep the lanes in order. *)
Theorem queue_refines_priority_list (q : BuildQueue) (b : QueuedBuild) (Hq : lanes_wf q) :
  pending (enqueue b q) = insert_back b (pending q) ∧
  pending (enqueue_front b q) = insert_front b (pending q) ∧
  (next_pending q).1 = head (pending q) ∧
  pending (next_pending q).2 = tail (pending q) ∧
  lanes_wf (enqueue b q) ∧ lanes_wf (enqueue_front b q) ∧ lanes_wf (next_pending q).2.
Proof.
  pose proof (next_pending_spec q) as (? & ? & _).
  split_and!; auto using pending_enqueue, pending_enqueue_front with cbs.
Qed.

(** Removing a pending build by id takes out one build with that id and
    leaves the other pending builds; without such a build the queue does not
    change. The active builds and the workers are never touched. *)
Theorem remove_by_id_correct (q : BuildQueue) (id : BuildId) :
  match remove_by_id id q with
  | (Some b, q') => qb_build_id b = id ∧ pending q ≡ₚ b :: pending q' ∧
                    q_active q' = q_active q ∧ q_workers q' = q_workers q
  | (None, q') => q' = q ∧ contains_build id q = false
  end.
Proof.
  destruct (remove_by_id id q) as [[b|] q'] eqn:E.
  - apply remove_by_id_Some in E. naive_solver.
  - apply remove_by_id_None in E as [-> Hf]. split; [done|].
    apply not_true_iff_false. rewrite contains_build_spec. intros (b & Hb & Hid).
    rewrite Forall_forall in Hf. by eapply Hf.
Qed.

(** The metrics snapshot lists a (priority, architecture) pair exactly when
    some pending build has it, with the number of such builds. *)
Theorem queued_by_priority_arch_counts `{HashIter} (q : BuildQueue) p a n :
  (p, a, n) ∈ queued_by_priority_arch q ↔
  n = length (filter (λ b, build_key b = (p, a)) (pending q)) ∧ 0 < n.
Proof.
  unfold queued_by_priority_arch, pending. rewrite elem_of_hash_iter. simpl.
  rewrite <- !foldl_app, (assoc_L (++)).
  set (l := (q_high q ++ q_normal q) ++ q_low q). pose proof (count_entry_lane l ∅ (p, a)) as Hc.
  rewrite lookup_empty in Hc. simpl in Hc. split.
  - intros Hn. rewrite Hn in Hc. simpl in Hc. split; [by rewrite <- Hc|].
    eapply count_entry_pos; [|exact Hn]. by intros ?? ?%lookup_empty_Some.
  - intros [-> Hpos]. rewrite <- Hc in *. destruct (foldl count_entry ∅ l !! (p, a)); [done|].
    simpl in Hpos. lia.
Qed.

Definition sample_build (id : Z) (p : Priority) : QueuedBuild :=
  mkQueued (mkBuildId id) p
    (mkDescriptor "19.2.3" None None (mkSignedOffBy "a" "a@x") (mkDestImage "i" "t") []
       (mkTarget "rockylinux" "el9" "rpm" X86_64)) "a@x" 1000.

Lemma queue_refines_priority_list_witness :
  lanes_wf (enqueue (sample_build 1 Low) queue_new) ∧
  (next_pending (enqueue (sample_build 1 Low) queue_new)).1 = Some (sample_build 1 Low).
Proof.
  assert (lanes_wf (enqueue (sample_build 1 Low) queue_new)) as Hq by auto with cbs.
  pose proof (queue_refines_priority_list _ (sample_build 2 High) Hq) as (_ & _ & H & _).
  split; [exact Hq|]. rewrite H. reflexivity.
Defined.
