(* ===== verification/Metrics.v ===== *)
(** * The metrics of the server (cbsd-server, metrics/)

    What the server tells the recorder of the [metrics] facade: the gauges that
    are refreshed from the queue, the snapshots of the workers, and the events.
    The recorder and its Prometheus exporter are third-party code. Then what they
    show: the numbers of the queue, and the largest reports of each worker. *)

From stdpp Require Import prelude gmap strings list pretty sorting.
From S2P Require Import Prelude Proto Queue.

(** The name of a metric and its labels. *)
Definition Key : Type := string * list (string * string).

(** The calls of the facade. *)
Inductive MetricOp :=
| SetGauge (k : Key) (v : f64)
| Increment (k : Key) (n : Z)
| Absolute (k : Key) (v : Z)
| RecordSample (k : Key) (v : f64).

(** A recorder: what it holds, and what a call does to it. *)
Class Recorder := {
  Registry : Type;
  apply_op : MetricOp → Registry → Registry;
  gauge : Registry → Key → option f64;
  counter : Registry → Key → option Z;
  samples : Registry → Key → list f64
}.

(** The documented effect of the calls: a gauge has the value it was set to, a
    counter grows by the increment or to at least the absolute value, a
    histogram has one more sample, and nothing else changes. *)
Class RecorderLaws `{Recorder} := {
  gauge_after : ∀ op r k, gauge (apply_op op r) k =
    match op with SetGauge k' v => if bool_decide (k = k') then Some v else gauge r k | _ => gauge r k end;
  counter_after : ∀ op r k, counter (apply_op op r) k =
    match op with
    | Increment k' n => if bool_decide (k = k') then Some (default 0 (counter r k) + n)%Z else counter r k
    | Absolute k' v => if bool_decide (k = k') then Some (default 0 (counter r k) `max` v)%Z else counter r k
    | _ => counter r k
    end;
  samples_after : ∀ op r k, samples (apply_op op r) k =
    match op with RecordSample k' v => if bool_decide (k = k') then (samples r k ++ [v])%list else samples r k
             | _ => samples r k end
}.

Definition apply_ops `{Recorder} (ops : list MetricOp) (r : Registry) : Registry :=
  foldl (λ r op, apply_op op r) r ops.

(** ** builds.rs, lifecycle.rs, http.rs *)

Definition priority_label (p : Priority) : string :=
  match p with High => "high" | Normal => "normal" | Low => "low" end.

Definition record_build_finished (result arch worker : string) (periodic : bool)
    (started_at finished_at : option Z) : list MetricOp :=
  Increment ("cbsd_build_results_total",
    [("result", result); ("arch", arch); ("periodic", if periodic then "true" else "false");
     ("worker", worker)]) 1
  :: match started_at, finished_at with
     | Some started, Some finished =>
         if (started <=? finished)%Z
         then [RecordSample ("cbsd_build_duration_seconds",
                 [("result", result); ("arch", arch); ("worker", worker)]) (f64_of_u64 (finished - started))]
         else []
     | _, _ => []
     end.

Definition record_queue_wait (priority : Priority) (arch : Arch) (wait_secs : f64) : list MetricOp :=
  [RecordSample ("cbsd_build_queue_wait_seconds",
     [("priority", priority_label priority); ("arch", arch_to_string arch)]) wait_secs].
Definition record_dispatch_latency (arch : Arch) (secs : f64) : list MetricOp :=
  [RecordSample ("cbsd_dispatch_latency_seconds", [("arch", arch_to_string arch)]) secs].
Definition record_requeue (reason : string) : list MetricOp :=
  [Increment ("cbsd_build_requeues_total", [("reason", reason)]) 1].
Definition record_dispatch_ack_timeout : list MetricOp := [Increment ("cbsd_dispatch_ack_timeouts_total", []) 1].
Definition record_revoke_ack_timeout : list MetricOp := [Increment ("cbsd_revoke_ack_timeouts_total", []) 1].
Definition record_worker_reconnect (worker : string) : list MetricOp :=
  [Increment ("cbsd_worker_reconnects_total", [("worker", worker)]) 1].
Definition record_periodic_fire (result : string) : list MetricOp :=
  [Increment ("cbsd_periodic_fires_total", [("result", result)]) 1].
Definition record_periodic_schedule_lag (secs : f64) : list MetricOp :=
  [RecordSample ("cbsd_periodic_schedule_lag_seconds", []) secs].

Definition record_http (route method : string) (status : Z) (secs : f64) : list MetricOp :=
  [Increment ("cbsd_http_requests_total",
     [("route", route); ("method", method); ("status", pretty status)]) 1;
   RecordSample ("cbsd_http_request_duration_seconds", [("route", route); ("method", method)]) secs].

(** The middleware: a request with the pattern of the route that matched. *)
Definition track_metrics (matched_path : option string) (method : string) (status : Z) (elapsed : f64)
    : list MetricOp :=
  record_http (default "unmatched" matched_path) method status elapsed.

(** ** gauges.rs *)

Definition ARCHES : list Arch := [X86_64; Aarch64].
Definition PRIORITIES : list Priority := [High; Normal; Low].

(** [u64::saturating_sub]. *)
Definition saturating_sub (a b : Z) : Z := ((a - b) `max` 0)%Z.

(** [entry(k).or_insert(0) += 1]. *)
Definition count_key `{Countable K} (counts : gmap K Z) (k : K) : gmap K Z :=
  <[k := (default 0 (counts !! k) + 1)%Z]> counts.

Definition zero_baseline `{Countable K} (keys : list K) : gmap K Z :=
  foldl (λ m k, <[k := 0%Z]> m) ∅ keys.

(** Every pair of a name and an architecture. *)
Definition with_arches (names : list string) : list (string * string) :=
  names ≫= λ n, (λ a, (n, arch_to_string a)) <$> ARCHES.

Section Gauges.
Context `{HHash : HashIter}.

Definition queued_counts (q : BuildQueue) : gmap (string * string) Z :=
  foldl (λ m '(p, a, n), <[(priority_label p, arch_to_string a) := Z.of_nat n]> m)
    (zero_baseline (with_arches (priority_label <$> PRIORITIES))) (queued_by_priority_arch q).

Definition active_counts (q : BuildQueue) : gmap string Z :=
  foldl count_key (zero_baseline (arch_to_string <$> ARCHES))
    ((λ ab, arch_to_string (bt_arch (bd_build (ab_descriptor ab)))) <$> hash_values (q_active q)).

(** The series of a worker: its state and its architecture, if the state has one. *)
Definition worker_series (ws : WorkerState) : string * string :=
  (state_name ws, default "unknown" (arch_to_string <$> worker_arch ws)).

Definition worker_baseline : list (string * string) :=
  with_arches ["connected"; "disconnected"] ++ [("stopping", "unknown"); ("dead", "unknown")].

Definition worker_counts (q : BuildQueue) : gmap (string * string) Z :=
  foldl count_key (zero_baseline worker_baseline) (worker_series <$> hash_values (q_workers q)).

(** A gauge for every entry of the map. *)
Definition set_gauges `{Countable K} (key : K → Key) (counts : gmap K Z) : list MetricOp :=
  (λ e, SetGauge (key e.1) (f64_of_u64 e.2)) <$> hash_iter counts.

Definition queued_key (k : string * string) : Key :=
  ("cbsd_builds_queued", [("priority", k.1); ("arch", k.2)]).
Definition active_key (arch : string) : Key := ("cbsd_builds_active", [("arch", arch)]).
Definition workers_key (k : string * string) : Key :=
  ("cbsd_workers_connected", [("state", k.1); ("arch", k.2)]).
Definition pool_key (state : string) : Key := ("cbsd_db_pool_connections", [("state", state)]).

Definition emit_server_gauges (q : BuildQueue) (pool_size num_idle : Z) : list MetricOp :=
  set_gauges queued_key (queued_counts q) ++ set_gauges active_key (active_counts q)
  ++ set_gauges workers_key (worker_counts q)
  ++ [SetGauge (pool_key "acquired") (f64_of_u64 (saturating_sub pool_size num_idle));
      SetGauge (pool_key "idle") (f64_of_u64 num_idle)].
End Gauges.

(** ** worker.rs *)

Definition worker_key (name worker : string) : Key := (name, [("worker", worker)]).
Definition worker_gauge (name worker : string) (v : Z) : MetricOp :=
  SetGauge (worker_key name worker) (f64_of_u64 v).
Definition fs_key (name worker mount : string) : Key := (name, [("worker", worker); ("mount", mount)]).
Definition exits_key (worker result : string) : Key :=
  ("cbsd_worker_subprocess_exits_total", [("worker", worker); ("result", result)]).

Definition record_worker_metrics (worker : string) (uptime_secs : Z) (host : HostMetrics) (app : AppMetrics)
    : list MetricOp :=
  [worker_gauge "cbsd_worker_uptime_seconds" worker uptime_secs;
   SetGauge (worker_key "cbsd_worker_host_cpu_busy_ratio" worker) (cpu_busy_ratio host);
   SetGauge (worker_key "cbsd_worker_host_load1" worker) (load1 host);
   worker_gauge "cbsd_worker_host_mem_total_bytes" worker (mem_total_bytes host);
   worker_gauge "cbsd_worker_host_mem_used_bytes" worker (mem_used_bytes host);
   worker_gauge "cbsd_worker_host_mem_available_bytes" worker (mem_available_bytes host);
   worker_gauge "cbsd_worker_host_swap_total_bytes" worker (swap_total_bytes host);
   worker_gauge "cbsd_worker_host_swap_used_bytes" worker (swap_used_bytes host)]
  ++ (filesystems host ≫= λ fs,
        [SetGauge (fs_key "cbsd_worker_host_fs_total_bytes" worker (fs_mount fs)) (f64_of_u64 (fs_total_bytes fs));
         SetGauge (fs_key "cbsd_worker_host_fs_used_bytes" worker (fs_mount fs)) (f64_of_u64 (fs_used_bytes fs))])
  ++ [Absolute (worker_key "cbsd_worker_host_disk_read_bytes_total" worker) (disk_read_bytes_total host);
      Absolute (worker_key "cbsd_worker_host_disk_written_bytes_total" worker) (disk_written_bytes_total host)]
  ++ match ccache app with
     | Some c => [worker_gauge "cbsd_worker_ccache_size_bytes" worker (cc_size_bytes c);
                  worker_gauge "cbsd_worker_ccache_max_bytes" worker (cc_max_bytes c);
                  SetGauge (worker_key "cbsd_worker_ccache_hit_ratio" worker) (cc_hit_ratio c)]
     | None => []
     end
  ++ [worker_gauge "cbsd_worker_spool_bytes" worker (spool_bytes app);
      Absolute (exits_key worker "success") (ex_success (subprocess_exits app));
      Absolute (exits_key worker "failure") (ex_failure (subprocess_exits app));
      Absolute (exits_key worker "revoked") (ex_revoked (subprocess_exits app));
      Absolute (worker_key "cbsd_worker_metrics_push_drops_total" worker) (push_drops_total app);
      Absolute (worker_key "cbsd_sigkill_escalations_total" worker) (sigkill_escalations_total app)].

(** ws/handler.rs: a push of a worker is written under the name that its
    connection was registered with. *)
Definition ingest (registered_worker_id : string) (msg : WorkerMessage) : list MetricOp :=
  match msg with
  | Metrics uptime_secs host app => record_worker_metrics registered_worker_id uptime_secs host app
  | _ => []
  end.

(** ** What the metrics of the server show

    The refreshed gauges are the numbers of the queue, and the counters of a
    worker after its snapshots. *)

(** ** Counting *)

Lemma lookup_zero_baseline `{Countable K} (keys : list K) k :
  k ∈ keys → zero_baseline keys !! k = Some 0%Z.
Proof.
  unfold zero_baseline. intros Hk.
  assert (∀ m : gmap K Z, (k ∈ keys ∨ m !! k = Some 0%Z) → foldl (λ m k, <[k := 0%Z]> m) m keys !! k = Some 0%Z) as Hf;
    [|by apply Hf; left]. clear Hk.
  induction keys as [|k' keys IH]; intros m Hm; simpl; [by destruct Hm as [Hm%not_elem_of_nil|Hm]|]. apply IH.
  destruct Hm as [[->|Hm]%elem_of_cons|Hm]; [right; by rewrite lookup_insert_eq|by left|].
  right. destruct (decide (k = k')) as [->|]; [by rewrite lookup_insert_eq|by rewrite lookup_insert_ne].
Qed.

Lemma lookup_count_keys `{Countable K} (l : list K) (m : gmap K Z) k n :
  m !! k = Some n → foldl count_key m l !! k = Some (n + Z.of_nat (length (filter (λ x, x = k) l)))%Z.
Proof.
  revert m n. induction l as [|x l IH]; intros m n Hm; simpl; [by rewrite Z.add_0_r|].
  rewrite filter_cons. destruct (decide (x = k)) as [->|Hx].
  - rewrite (IH _ (n + 1)%Z); [f_equal; simpl; lia|]. unfold count_key. by rewrite Hm, lookup_insert_eq.
  - apply IH. unfold count_key. by rewrite lookup_insert_ne.
Qed.

(** Entries written over a map: those with different keys are all found again. *)
Lemma lookup_foldl_insert `{Countable K} {V} (l : list (K * V)) (m : gmap K V) k :
  NoDup l.*1 →
  (∀ v, (k, v) ∈ l → foldl (λ m e, <[e.1 := e.2]> m) m l !! k = Some v) ∧
  (k ∉ l.*1 → foldl (λ m e, <[e.1 := e.2]> m) m l !! k = m !! k).
Proof.
  revert m. induction l as [|[k' v'] l IH]; intros m Hl; simpl.
  - split; [by intros v ?%not_elem_of_nil|done].
  - rewrite fmap_cons in Hl. apply NoDup_cons in Hl as [Hk Hl]. simpl in Hk.
    destruct (IH (<[k' := v']> m) Hl) as [H1 H2]. split.
    + intros v [[= -> ->]|Hv]%elem_of_cons; [|by apply H1]. rewrite H2 by done. by rewrite lookup_insert_eq.
    + intros [Hne Hnot]%not_elem_of_cons. rewrite H2 by done. by rewrite lookup_insert_ne.
Qed.

Lemma filter_fmap_length {A B} (f : A → B) (P : B → Prop) `{∀ x, Decision (P x)} (l : list A) :
  length (filter P (f <$> l)) = length (filter (λ x, P (f x)) l).
Proof.
  induction l as [|x l IH]; [done|]. rewrite fmap_cons, !filter_cons.
  destruct (decide (P (f x))); simpl; by rewrite IH.
Qed.

#[global] Instance priority_label_inj : Inj (=) (=) priority_label.
Proof. by intros [] []. Qed.
#[global] Instance arch_to_string_inj : Inj (=) (=) arch_to_string.
Proof. by intros [] []. Qed.

Section Registry.
Context `{HRec : Recorder} `{!RecorderLaws} `{HHash : HashIter}.

(** ** Sequences of calls *)

Lemma apply_ops_app a b r : apply_ops (a ++ b) r = apply_ops b (apply_ops a r).
Proof. apply foldl_app. Qed.

Definition op_key (op : MetricOp) : Key :=
  match op with SetGauge k _ | Increment k _ | Absolute k _ | RecordSample k _ => k end.

(** Calls on other keys change nothing. *)
Lemma apply_ops_other ops r k :
  Forall (λ op, op_key op ≠ k) ops →
  gauge (apply_ops ops r) k = gauge r k ∧ counter (apply_ops ops r) k = counter r k.
Proof.
  intros Hk. revert r. induction Hk as [|op ops Ho _ IH]; intros r; [done|]. simpl.
  destruct (IH (apply_op op r)) as [-> ->]. rewrite gauge_after, counter_after.
  destruct op; simpl in Ho; rewrite ?bool_decide_eq_false_2 by congruence; done.
Qed.

Lemma hash_iter_nodup `{Countable K} {V} (m : gmap K V) : NoDup (hash_iter m).*1.
Proof. rewrite hash_iter_perm. apply NoDup_fst_map_to_list. Qed.

(** The gauges of a map. *)
Lemma set_gauges_lookup `{Countable K} (key : K → Key) `{!Inj (=) (=) key} counts r k n :
  counts !! k = Some n → gauge (apply_ops (set_gauges key counts) r) (key k) = Some (f64_of_u64 n).
Proof.
  intros Hk%elem_of_hash_iter. unfold set_gauges. pose proof (hash_iter_nodup counts) as Hnd.
  revert r Hk Hnd. induction (hash_iter counts) as [|[k' n'] l IH]; intros r Hk Hnd; [by apply not_elem_of_nil in Hk|].
  apply NoDup_cons in Hnd as [Hk' Hnd]. simpl in *.
  apply elem_of_cons in Hk as [[= <- <-]|Hk]; [|by apply IH].
  etrans; [apply (apply_ops_other ((λ e, SetGauge (key e.1) (f64_of_u64 e.2)) <$> l)
    (apply_op (SetGauge (key k) (f64_of_u64 n)) r) (key k))|].
  - apply Forall_fmap, Forall_forall. intros [k2 n2] Hin. simpl. intros ->%(inj key).
    apply Hk'. apply list_elem_of_fmap. by exists (k, n2).
  - by rewrite gauge_after, bool_decide_eq_true_2.
Qed.

Lemma set_gauges_names `{Countable K} (key : K → Key) name counts k :
  (∀ x, (key x).1 = name) → k.1 ≠ name → Forall (λ op, op_key op ≠ k) (set_gauges key counts).
Proof. intros Hn Hk. apply Forall_fmap, Forall_forall. intros [x n] _. simpl. intros <-. by rewrite Hn in Hk. Qed.

Lemma set_gauges_skip `{Countable K} (key : K → Key) name counts r k :
  (∀ x, (key x).1 = name) → k.1 ≠ name →
  gauge (apply_ops (set_gauges key counts) r) k = gauge r k ∧
  counter (apply_ops (set_gauges key counts) r) k = counter r k.
Proof. intros Hn Hk. apply apply_ops_other. by eapply set_gauges_names. Qed.

(** ** The refreshed gauges *)

#[local] Instance queued_key_inj : Inj (=) (=) queued_key.
Proof. intros [] [] [= -> ->]. done. Qed.
#[local] Instance active_key_inj : Inj (=) (=) active_key.
Proof. by intros ?? [= ->]. Qed.
#[local] Instance workers_key_inj : Inj (=) (=) workers_key.
Proof. intros [] [] [= -> ->]. done. Qed.

Lemma elem_of_with_arches n a names : n ∈ names → (n, arch_to_string a) ∈ with_arches names.
Proof.
  intros Hn. unfold with_arches. apply list_elem_of_bind. exists n. split; [|done].
  destruct a; simpl; set_solver.
Qed.

Lemma queued_counts_lookup q p a :
  queued_counts q !! (priority_label p, arch_to_string a) =
  Some (Z.of_nat (length (filter (λ b, build_key b = (p, a)) (pending q)))).
Proof.
  unfold queued_counts.
  set (l := (λ e : Priority * Arch * nat, ((priority_label e.1.1, arch_to_string e.1.2), Z.of_nat e.2))
              <$> queued_by_priority_arch q).
  assert (∀ m : gmap (string * string) Z, foldl (λ m '(p, a, n), <[(priority_label p, arch_to_string a) := Z.of_nat n]> m) m
    (queued_by_priority_arch q) = foldl (λ m e, <[e.1 := e.2]> m) m l) as Hl.
  { unfold l. generalize (queued_by_priority_arch q). intros es. induction es as [|[[p' a'] n] es IH]; intros m; [done|].
    simpl. apply IH. }
  assert (NoDup l.*1) as Hnd.
  { unfold l. rewrite <- list_fmap_compose. unfold queued_by_priority_arch.
    generalize (foldl (foldl count_entry) ∅ [q_high q; q_normal q; q_low q]). intros m.
    pose proof (hash_iter_nodup m) as Hm.
    assert ((fst ∘ (λ e : Priority * Arch * nat, ((priority_label e.1.1, arch_to_string e.1.2), Z.of_nat e.2))) <$> hash_iter m
      = (λ k : Priority * Arch, (priority_label k.1, arch_to_string k.2)) <$> (hash_iter m).*1) as ->
      by (rewrite <- list_fmap_compose; done).
    apply NoDup_fmap_2; [|done]. intros [] []. simpl. by intros [= ->%(inj _) ->%(inj _)]. }
  rewrite Hl. destruct (lookup_foldl_insert l (zero_baseline (with_arches (priority_label <$> PRIORITIES)))
    (priority_label p, arch_to_string a) Hnd) as [H1 H2].
  set (n := length (filter (λ b, build_key b = (p, a)) (pending q))).
  destruct (decide (0 < n)) as [Hn|Hn].
  - apply H1. apply list_elem_of_fmap. exists (p, a, n). split; [done|]. by apply queued_by_priority_arch_counts.
  - rewrite H2.
    + replace n with 0 by lia. apply lookup_zero_baseline, elem_of_with_arches. destruct p; simpl; set_solver.
    + intros Hin. apply list_elem_of_fmap in Hin as ([k v] & Heq & Hin).
      apply list_elem_of_fmap in Hin as ([[p' a'] n'] & [= -> ->] & Hin). simpl in Heq.
      injection Heq as ->%(inj _) ->%(inj _). apply queued_by_priority_arch_counts in Hin as [-> ?]. by apply Hn.
Qed.

Lemma hash_values_count `{Countable K} {V B} (f : V → B) `{EqDecision B} (m : gmap K V) (b : B) :
  length (filter (λ x, x = b) (f <$> hash_values m)) = length (filter (λ v, f v = b) (map_to_list m).*2).
Proof. rewrite filter_fmap_length. unfold hash_values. by rewrite hash_iter_perm. Qed.

Lemma worker_series_baseline ws : worker_series ws ∈ worker_baseline.
Proof.
  unfold worker_baseline, worker_series.
  destruct ws as [? ? a|? ? ? a| |]; simpl; try (destruct a; simpl); set_solver.
Qed.

(** Setting gauges touches no counter and no histogram. *)
Definition sets_gauge (op : MetricOp) : bool := match op with SetGauge _ _ => true | _ => false end.

Lemma gauges_only ops r k :
  Forall (λ op, sets_gauge op = true) ops →
  counter (apply_ops ops r) k = counter r k ∧ samples (apply_ops ops r) k = samples r k.
Proof.
  intros Hops. revert r. induction Hops as [|op ops Ho _ IH]; intros r; [done|]. simpl.
  destruct (IH (apply_op op r)) as [-> ->]. rewrite counter_after, samples_after. by destruct op.
Qed.

Lemma server_gauges_only q size idle : Forall (λ op, sets_gauge op = true) (emit_server_gauges q size idle).
Proof.
  assert (∀ K `{Countable K} (key : K → Key) (counts : gmap K Z),
    Forall (λ op, sets_gauge op = true) (set_gauges key counts)) as Hset.
  { intros K ? ? key counts. by apply Forall_fmap, Forall_forall. }
  unfold emit_server_gauges. rewrite !Forall_app. split_and!; [apply Hset..|by repeat constructor].
Qed.

(** C31: A refresh sets the gauges to the numbers of the queue and of the pool of
    connections, and nothing else. Whatever the recorder held, there is a series
    for every priority and architecture, every architecture, and every state of a
    worker; it shows the number of builds that are pending, the number of active
    builds, and the number of workers; every worker is counted in one of these
    series, so none is left out of their sum. The two gauges of the pool show its
    connections that are in use and those that are idle. The gauges of other names,
    all counters and all histograms stay as they were. *)
Theorem gauges_match_queue (q : BuildQueue) (size idle : Z) (r : Registry) :
  let r' := apply_ops (emit_server_gauges q size idle) r in
  (∀ p a, gauge r' (queued_key (priority_label p, arch_to_string a)) =
     Some (f64_of_u64 (Z.of_nat (length (filter (λ b, build_key b = (p, a)) (pending q)))))) ∧
  (∀ a, gauge r' (active_key (arch_to_string a)) =
     Some (f64_of_u64 (Z.of_nat (length (filter (λ ab, bt_arch (bd_build (ab_descriptor ab)) = a)
                                           (map_to_list (q_active q)).*2))))) ∧
  (∀ k, k ∈ worker_baseline → gauge r' (workers_key k) =
     Some (f64_of_u64 (Z.of_nat (length (filter (λ ws, worker_series ws = k) (map_to_list (q_workers q)).*2))))) ∧
  (∀ ws, worker_series ws ∈ worker_baseline) ∧
  gauge r' (pool_key "acquired") = Some (f64_of_u64 (Z.max (size - idle) 0)) ∧
  gauge r' (pool_key "idle") = Some (f64_of_u64 idle) ∧
  (∀ k, k.1 ∉ ["cbsd_builds_queued"; "cbsd_builds_active"; "cbsd_workers_connected"; "cbsd_db_pool_connections"] →
     gauge r' k = gauge r k) ∧
  (∀ k, counter r' k = counter r k ∧ samples r' k = samples r k).
Proof.
  cbv zeta.
  assert (∀ k, counter (apply_ops (emit_server_gauges q size idle) r) k = counter r k ∧
               samples (apply_ops (emit_server_gauges q size idle) r) k = samples r k) as Hrest.
  { intros k. apply gauges_only, server_gauges_only. }
  revert Hrest. unfold emit_server_gauges. rewrite !apply_ops_app. intros Hrest.
  set (pool := [SetGauge (pool_key "acquired") _; SetGauge (pool_key "idle") _]) in *.
  assert (∀ r k, k.1 ≠ "cbsd_db_pool_connections" → gauge (apply_ops pool r) k = gauge r k) as Hpool.
  { intros r0 k Hk. apply apply_ops_other. repeat constructor; simpl; by intros <-. }
  pose proof (λ r k H, proj1 (set_gauges_skip queued_key "cbsd_builds_queued" (queued_counts q) r k (λ _, eq_refl) H)) as Hq.
  pose proof (λ r k H, proj1 (set_gauges_skip active_key "cbsd_builds_active" (active_counts q) r k (λ _, eq_refl) H)) as Ha.
  pose proof (λ r k H, proj1 (set_gauges_skip workers_key "cbsd_workers_connected" (worker_counts q) r k (λ _, eq_refl) H)) as Hw.
  split_and!; [| | |apply worker_series_baseline| | | |exact Hrest].
  - intros p a. rewrite Hpool, Hw, Ha by done.
    apply set_gauges_lookup; [apply _|]. apply queued_counts_lookup.
  - intros a. rewrite Hpool, Hw by done.
    rewrite (set_gauges_lookup active_key _ _ _ (Z.of_nat (length (filter (λ ab, bt_arch (bd_build (ab_descriptor ab)) = a)
      (map_to_list (q_active q)).*2)))); [done|].
    unfold active_counts. rewrite (lookup_count_keys _ _ _ 0).
    + rewrite Z.add_0_l, hash_values_count. do 3 f_equal. apply list_filter_iff.
      intros x. split; [by intros ?%(inj _)|by intros ->].
    + apply lookup_zero_baseline. destruct a; simpl; set_solver.
  - intros k Hk. rewrite Hpool by done.
    rewrite (set_gauges_lookup workers_key _ _ k (Z.of_nat (length (filter (λ ws, worker_series ws = k)
      (map_to_list (q_workers q)).*2)))); [done|].
    unfold worker_counts. rewrite (lookup_count_keys _ _ _ 0) by (by apply lookup_zero_baseline).
    by rewrite Z.add_0_l, hash_values_count.
  - subst pool. cbn [apply_ops foldl]. rewrite gauge_after, bool_decide_eq_false_2 by done.
    by rewrite gauge_after, bool_decide_eq_true_2.
  - subst pool. cbn [apply_ops foldl]. by rewrite gauge_after, bool_decide_eq_true_2.
  - intros k Hk. rewrite !not_elem_of_cons in Hk. destruct Hk as (H1 & H2 & H3 & H4 & _).
    by rewrite (Hpool _ _ H4), (Hw _ _ H3), (Ha _ _ H2), (Hq _ _ H1).
Qed.

(** ** The snapshots of a worker *)

Definition exits_of (app : AppMetrics) (st : BuildFinishedStatus) : Z :=
  match st with
  | FinSuccess => ex_success (subprocess_exits app)
  | FinFailure => ex_failure (subprocess_exits app)
  | FinRevoked => ex_revoked (subprocess_exits app)
  end.
Definition exits_label (st : BuildFinishedStatus) : string :=
  match st with FinSuccess => "success" | FinFailure => "failure" | FinRevoked => "revoked" end.

(** Calls on other names. *)
Lemma apply_ops_names ops r k :
  Forall (λ op, (op_key op).1 ≠ k.1) ops →
  gauge (apply_ops ops r) k = gauge r k ∧ counter (apply_ops ops r) k = counter r k.
Proof. intros Hk. apply apply_ops_other. eapply Forall_impl; [exact Hk|]. by intros op Ho <-. Qed.

(** The calls before the last six leave the counters of the exits alone. *)
Lemma counter_last_calls a b r k n :
  counter (apply_ops a r) k = counter r k →
  (∀ r', counter (apply_ops b r') k = Some (default 0 (counter r' k) `max` n)%Z) →
  counter (apply_ops (a ++ b) r) k = Some (default 0 (counter r k) `max` n)%Z.
Proof. intros Ha Hb. by rewrite apply_ops_app, Hb, Ha. Qed.

Lemma snapshot_exits r worker up host app st :
  counter (apply_ops (record_worker_metrics worker up host app) r) (exits_key worker (exits_label st)) =
  Some (default 0 (counter r (exits_key worker (exits_label st))) `max` exits_of app st)%Z.
Proof.
  unfold record_worker_metrics. rewrite !(assoc_L (++)). apply counter_last_calls.
  - apply apply_ops_names. rewrite !Forall_app. split_and!.
    + by repeat constructor.
    + apply Forall_forall. intros op (fs & Hop & _)%list_elem_of_bind. simpl in Hop.
      rewrite !elem_of_cons in Hop. by destruct Hop as [->|[->|[]%elem_of_nil]].
    + by repeat constructor.
    + destruct (ccache app); by repeat constructor.
  - intros r'. unfold apply_ops. cbn [foldl]. rewrite !counter_after. unfold worker_gauge.
    destruct st; unfold exits_key, worker_key; cbn [exits_label exits_of];
      repeat first [rewrite bool_decide_eq_true_2 by done|rewrite bool_decide_eq_false_2 by congruence];
      done.
Qed.

Lemma snapshot_uptime r worker up host app :
  gauge (apply_ops (record_worker_metrics worker up host app) r) (worker_key "cbsd_worker_uptime_seconds" worker) =
  Some (f64_of_u64 up).
Proof.
  unfold record_worker_metrics. rewrite !apply_ops_app.
  do 2 (etrans; [eapply apply_ops_names; try destruct (ccache app); by repeat constructor|]).
  etrans; [eapply apply_ops_names; by repeat constructor|].
  etrans; [eapply apply_ops_names; apply Forall_forall; intros op (fs & Hop & _)%list_elem_of_bind; simpl in Hop;
    rewrite !elem_of_cons in Hop; destruct Hop as [->|[->|[]%elem_of_nil]]; done|].
  etrans; [eapply (apply_ops_names [_; _; _; _; _; _; _]); by repeat constructor|].
  unfold worker_gauge. by rewrite gauge_after, bool_decide_eq_true_2.
Qed.

(** A snapshot leaves the series of the other workers alone. *)
Lemma snapshot_other_worker r worker worker' up host app st :
  worker' ≠ worker →
  counter (apply_ops (record_worker_metrics worker' up host app) r) (exits_key worker (exits_label st)) =
  counter r (exits_key worker (exits_label st)).
Proof.
  intros Hw. apply apply_ops_other. unfold record_worker_metrics. rewrite !Forall_app. split_and!.
  - by repeat constructor.
  - apply Forall_forall. intros op (fs & Hop & _)%list_elem_of_bind. simpl in Hop.
    rewrite !elem_of_cons in Hop. by destruct Hop as [->|[->|[]%elem_of_nil]].
  - by repeat constructor.
  - destruct (ccache app); by repeat constructor.
  - repeat constructor; try done; simpl; unfold exits_key; congruence.
Qed.

(** The pushes that the server has taken in, each with the registered worker of
    its connection. *)
Definition ingest_all (pushes : list (string * WorkerMessage)) (r : Registry) : Registry :=
  foldl (λ r p, apply_ops (ingest p.1 p.2) r) r pushes.

(** The exits that a worker has reported. *)
Definition reported (worker : string) (st : BuildFinishedStatus) (p : string * WorkerMessage) : option Z :=
  match p with
  | (w, Metrics _ _ app) => if bool_decide (w = worker) then Some (exits_of app st) else None
  | _ => None
  end.

(** The exits that the server shows for a worker are the largest tally that the
    worker has reported; the pushes of other workers, and its other messages, do
    not count. So they are the tally of its last push as long as its process
    lives; but after a restart, when a new process counts from zero, its exits do
    not show until they are more than those of the old one. *)
Theorem exits_are_largest_report (pushes : list (string * WorkerMessage)) (r : Registry)
    (worker : string) (st : BuildFinishedStatus) :
  counter (ingest_all pushes r) (exits_key worker (exits_label st)) =
  match omap (reported worker st) pushes with
  | [] => counter r (exits_key worker (exits_label st))
  | tallies => Some (foldl Z.max (default 0 (counter r (exits_key worker (exits_label st)))) tallies)%Z
  end.
Proof.
  revert r. induction pushes as [|[w m] pushes IH]; intros r; [done|].
  change (ingest_all ((w, m) :: pushes) r) with (ingest_all pushes (apply_ops (ingest w m) r)).
  rewrite IH. cbn [omap list_omap].
  destruct m; try done. cbn [reported ingest]. case_bool_decide as Hw.
  - subst w. rewrite !snapshot_exits. simpl. by destruct (omap _ pushes).
  - by rewrite !snapshot_other_worker by done.
Qed.
End Registry.
