(* ===== verification/Db.v ===== *)
(** * The database (db/*.rs, migrations/)

    The tables the modelled code reads and writes, and one definition per
    statement. A statement gets the time [unixepoch()] returns and the tables,
    and returns its result with the tables after it. The CHECK constraint of
    migration 001 restricts [builds.state] to the spellings of [BuildState], so
    the column holds a [BuildState]. *)

From stdpp Require Import prelude gmap strings list sorting.
From S2P Require Import Prelude Proto.

(** ** Tables *)

Record BuildRow := mkBuildRow {
  br_id : Z;
  br_descriptor : string;
  br_descriptor_version : Z;
  br_user_email : string;
  br_priority : string;
  br_periodic_task_id : option string;
  br_channel_id : option Z;
  br_channel_type_id : option Z;
  br_submitted_at : Z;
  br_queued_at : Z;
  br_state : BuildState;
  br_worker_id : option string;
  br_trace_id : option string;
  br_error : option string;
  br_started_at : option Z;
  br_finished_at : option Z;
  br_build_report : option string
}.

Record BuildLogRow := mkBuildLogRow {
  bl_log_path : string;
  bl_log_size : Z;
  bl_finished : bool;
  bl_updated_at : Z
}.

Record WorkerRow := mkWorkerRow {
  wr_id : string;
  wr_name : string;
  wr_arch : string;
  wr_api_key_id : Z;
  wr_created_by : string;
  wr_created_at : Z;
  wr_last_seen : option Z
}.

Record UserRecord := mkUserRecord {
  ur_email : string;
  ur_name : string;
  ur_active : bool;
  ur_default_channel_id : option Z;
  ur_is_robot : bool
}.

(** A row of [users]: the columns of [UserRecord] and the others. *)
Record UserRow := mkUserRow {
  u_record :> UserRecord;
  u_robot_description : option string;
  u_created_at : Z;
  u_updated_at : Z;
  u_first_login_at : option Z
}.

Record ChannelRow := mkChannelRow {
  ch_id : Z;
  ch_name : string;
  ch_description : string;
  ch_default_type_id : option Z;
  ch_deleted_at : option Z;
  ch_created_at : Z;
  ch_updated_at : Z
}.

Record ChannelTypeRow := mkChannelTypeRow {
  ct_id : Z;
  ct_channel_id : Z;
  ct_type_name : string;
  ct_project : string;
  ct_prefix_template : string;
  ct_deleted_at : option Z;
  ct_created_at : Z;
  ct_updated_at : Z
}.

Record PeriodicTaskRow := mkPeriodicTaskRow {
  pt_id : string;
  pt_cron_expr : string;
  pt_tag_format : string;
  pt_descriptor : string;
  pt_descriptor_version : Z;
  pt_priority : string;
  pt_summary : option string;
  pt_enabled : bool;
  pt_created_by : string;
  pt_created_at : Z;
  pt_updated_at : Z;
  pt_retry_count : Z;
  pt_retry_at : option Z;
  pt_last_error : option string;
  pt_last_triggered_at : option Z;
  pt_last_build_id : option Z
}.

Record RoleRecord := mkRoleRecord {
  rr_name : string;
  rr_description : string;
  rr_builtin : bool;
  rr_created_at : Z
}.

(** A row of [tokens] (PASETO tokens, by their SHA-256). *)
Record TokenRow := mkTokenRow {
  tk_user_email : string;
  tk_token_hash : string;
  tk_expires_at : option Z;
  tk_revoked : bool;
  tk_created_at : Z;
  tk_first_used_at : option Z;
  tk_last_used_at : option Z
}.

(** [db::api_keys::ApiKeyRow], and a row of [api_keys]. *)
Record ApiKeyRow := mkApiKeyRow {
  ak_id : Z;
  ak_name : string;
  ak_key_hash : string;
  ak_key_prefix : string;
  ak_owner_email : string;
  ak_expires_at : option Z;
  ak_revoked : bool;
  ak_created_at : Z
}.

Record ApiKey := mkApiKey {
  ak_row :> ApiKeyRow;
  ak_first_used_at : option Z;
  ak_last_used_at : option Z
}.

Record RobotTokenRow := mkRobotTokenRow {
  rt_id : Z;
  rt_robot_email : string;
  rt_token_hash : string;
  rt_token_prefix : string;
  rt_expires_at : option Z;
  rt_revoked : bool;
  rt_first_used_at : option Z;
  rt_last_used_at : option Z;
  rt_created_at : Z
}.

(** The [t_next_*] fields are SQLite's AUTOINCREMENT sequences: larger than
    every id that was ever given out. *)
Record Db := mkDb {
  t_builds : gmap Z BuildRow;
  t_next_build_id : Z;
  t_build_logs : gmap Z BuildLogRow;
  t_workers : gmap string WorkerRow;
  t_users : gmap string UserRow;
  t_channels : gmap Z ChannelRow;
  t_next_channel_id : Z;
  t_channel_types : gmap Z ChannelTypeRow;
  t_next_channel_type_id : Z;
  t_roles : gmap string RoleRecord;
  t_user_roles : gset (string * string);
  t_role_caps : gset (string * string);
  t_role_scopes : gset (string * string * string);
  t_periodic_tasks : gmap string PeriodicTaskRow;
  t_tokens : gmap Z TokenRow;
  t_next_token_id : Z;
  t_api_keys : gmap Z ApiKey;
  t_next_api_key_id : Z;
  t_robot_tokens : gmap Z RobotTokenRow;
  t_next_robot_token_id : Z
}.

Definition set_builds (x : gmap Z BuildRow) (d : Db) : Db :=
  mkDb x (t_next_build_id d) (t_build_logs d) (t_workers d) (t_users d) (t_channels d)
    (t_next_channel_id d) (t_channel_types d) (t_next_channel_type_id d) (t_roles d)
    (t_user_roles d) (t_role_caps d) (t_role_scopes d) (t_periodic_tasks d) (t_tokens d)
    (t_next_token_id d) (t_api_keys d) (t_next_api_key_id d) (t_robot_tokens d)
    (t_next_robot_token_id d).
Definition set_next_build_id (x : Z) (d : Db) : Db :=
  mkDb (t_builds d) x (t_build_logs d) (t_workers d) (t_users d) (t_channels d)
    (t_next_channel_id d) (t_channel_types d) (t_next_channel_type_id d) (t_roles d)
    (t_user_roles d) (t_role_caps d) (t_role_scopes d) (t_periodic_tasks d) (t_tokens d)
    (t_next_token_id d) (t_api_keys d) (t_next_api_key_id d) (t_robot_tokens d)
    (t_next_robot_token_id d).
Definition set_build_logs (x : gmap Z BuildLogRow) (d : Db) : Db :=
  mkDb (t_builds d) (t_next_build_id d) x (t_workers d) (t_users d) (t_channels d)
    (t_next_channel_id d) (t_channel_types d) (t_next_channel_type_id d) (t_roles d)
    (t_user_roles d) (t_role_caps d) (t_role_scopes d) (t_periodic_tasks d) (t_tokens d)
    (t_next_token_id d) (t_api_keys d) (t_next_api_key_id d) (t_robot_tokens d)
    (t_next_robot_token_id d).
Definition set_worker_rows (x : gmap string WorkerRow) (d : Db) : Db :=
  mkDb (t_builds d) (t_next_build_id d) (t_build_logs d) x (t_users d) (t_channels d)
    (t_next_channel_id d) (t_channel_types d) (t_next_channel_type_id d) (t_roles d)
    (t_user_roles d) (t_role_caps d) (t_role_scopes d) (t_periodic_tasks d) (t_tokens d)
    (t_next_token_id d) (t_api_keys d) (t_next_api_key_id d) (t_robot_tokens d)
    (t_next_robot_token_id d).
Definition set_users (x : gmap string UserRow) (d : Db) : Db :=
  mkDb (t_builds d) (t_next_build_id d) (t_build_logs d) (t_workers d) x (t_channels d)
    (t_next_channel_id d) (t_channel_types d) (t_next_channel_type_id d) (t_roles d)
    (t_user_roles d) (t_role_caps d) (t_role_scopes d) (t_periodic_tasks d) (t_tokens d)
    (t_next_token_id d) (t_api_keys d) (t_next_api_key_id d) (t_robot_tokens d)
    (t_next_robot_token_id d).
Definition set_channels (x : gmap Z ChannelRow) (d : Db) : Db :=
  mkDb (t_builds d) (t_next_build_id d) (t_build_logs d) (t_workers d) (t_users d) x
    (t_next_channel_id d) (t_channel_types d) (t_next_channel_type_id d) (t_roles d)
    (t_user_roles d) (t_role_caps d) (t_role_scopes d) (t_periodic_tasks d) (t_tokens d)
    (t_next_token_id d) (t_api_keys d) (t_next_api_key_id d) (t_robot_tokens d)
    (t_next_robot_token_id d).
Definition set_next_channel_id (x : Z) (d : Db) : Db :=
  mkDb (t_builds d) (t_next_build_id d) (t_build_logs d) (t_workers d) (t_users d)
    (t_channels d) x (t_channel_types d) (t_next_channel_type_id d) (t_roles d)
    (t_user_roles d) (t_role_caps d) (t_role_scopes d) (t_periodic_tasks d) (t_tokens d)
    (t_next_token_id d) (t_api_keys d) (t_next_api_key_id d) (t_robot_tokens d)
    (t_next_robot_token_id d).
Definition set_channel_types (x : gmap Z ChannelTypeRow) (d : Db) : Db :=
  mkDb (t_builds d) (t_next_build_id d) (t_build_logs d) (t_workers d) (t_users d)
    (t_channels d) (t_next_channel_id d) x (t_next_channel_type_id d) (t_roles d)
    (t_user_roles d) (t_role_caps d) (t_role_scopes d) (t_periodic_tasks d) (t_tokens d)
    (t_next_token_id d) (t_api_keys d) (t_next_api_key_id d) (t_robot_tokens d)
    (t_next_robot_token_id d).
Definition set_next_channel_type_id (x : Z) (d : Db) : Db :=
  mkDb (t_builds d) (t_next_build_id d) (t_build_logs d) (t_workers d) (t_users d)
    (t_channels d) (t_next_channel_id d) (t_channel_types d) x (t_roles d) (t_user_roles d)
    (t_role_caps d) (t_role_scopes d) (t_periodic_tasks d) (t_tokens d) (t_next_token_id d)
    (t_api_keys d) (t_next_api_key_id d) (t_robot_tokens d) (t_next_robot_token_id d).
Definition set_roles (x : gmap string RoleRecord) (d : Db) : Db :=
  mkDb (t_builds d) (t_next_build_id d) (t_build_logs d) (t_workers d) (t_users d)
    (t_channels d) (t_next_channel_id d) (t_channel_types d) (t_next_channel_type_id d) x
    (t_user_roles d) (t_role_caps d) (t_role_scopes d) (t_periodic_tasks d) (t_tokens d)
    (t_next_token_id d) (t_api_keys d) (t_next_api_key_id d) (t_robot_tokens d)
    (t_next_robot_token_id d).
Definition set_user_role_rows (x : gset (string * string)) (d : Db) : Db :=
  mkDb (t_builds d) (t_next_build_id d) (t_build_logs d) (t_workers d) (t_users d)
    (t_channels d) (t_next_channel_id d) (t_channel_types d) (t_next_channel_type_id d)
    (t_roles d) x (t_role_caps d) (t_role_scopes d) (t_periodic_tasks d) (t_tokens d)
    (t_next_token_id d) (t_api_keys d) (t_next_api_key_id d) (t_robot_tokens d)
    (t_next_robot_token_id d).
Definition set_role_cap_rows (x : gset (string * string)) (d : Db) : Db :=
  mkDb (t_builds d) (t_next_build_id d) (t_build_logs d) (t_workers d) (t_users d)
    (t_channels d) (t_next_channel_id d) (t_channel_types d) (t_next_channel_type_id d)
    (t_roles d) (t_user_roles d) x (t_role_scopes d) (t_periodic_tasks d) (t_tokens d)
    (t_next_token_id d) (t_api_keys d) (t_next_api_key_id d) (t_robot_tokens d)
    (t_next_robot_token_id d).
Definition set_role_scope_rows (x : gset (string * string * string)) (d : Db) : Db :=
  mkDb (t_builds d) (t_next_build_id d) (t_build_logs d) (t_workers d) (t_users d)
    (t_channels d) (t_next_channel_id d) (t_channel_types d) (t_next_channel_type_id d)
    (t_roles d) (t_user_roles d) (t_role_caps d) x (t_periodic_tasks d) (t_tokens d)
    (t_next_token_id d) (t_api_keys d) (t_next_api_key_id d) (t_robot_tokens d)
    (t_next_robot_token_id d).
Definition set_periodic_tasks (x : gmap string PeriodicTaskRow) (d : Db) : Db :=
  mkDb (t_builds d) (t_next_build_id d) (t_build_logs d) (t_workers d) (t_users d)
    (t_channels d) (t_next_channel_id d) (t_channel_types d) (t_next_channel_type_id d)
    (t_roles d) (t_user_roles d) (t_role_caps d) (t_role_scopes d) x (t_tokens d)
    (t_next_token_id d) (t_api_keys d) (t_next_api_key_id d) (t_robot_tokens d)
    (t_next_robot_token_id d).
Definition set_tokens (x : gmap Z TokenRow) (d : Db) : Db :=
  mkDb (t_builds d) (t_next_build_id d) (t_build_logs d) (t_workers d) (t_users d)
    (t_channels d) (t_next_channel_id d) (t_channel_types d) (t_next_channel_type_id d)
    (t_roles d) (t_user_roles d) (t_role_caps d) (t_role_scopes d) (t_periodic_tasks d) x
    (t_next_token_id d) (t_api_keys d) (t_next_api_key_id d) (t_robot_tokens d)
    (t_next_robot_token_id d).
Definition set_next_token_id (x : Z) (d : Db) : Db :=
  mkDb (t_builds d) (t_next_build_id d) (t_build_logs d) (t_workers d) (t_users d)
    (t_channels d) (t_next_channel_id d) (t_channel_types d) (t_next_channel_type_id d)
    (t_roles d) (t_user_roles d) (t_role_caps d) (t_role_scopes d) (t_periodic_tasks d)
    (t_tokens d) x (t_api_keys d) (t_next_api_key_id d) (t_robot_tokens d)
    (t_next_robot_token_id d).
Definition set_api_keys (x : gmap Z ApiKey) (d : Db) : Db :=
  mkDb (t_builds d) (t_next_build_id d) (t_build_logs d) (t_workers d) (t_users d)
    (t_channels d) (t_next_channel_id d) (t_channel_types d) (t_next_channel_type_id d)
    (t_roles d) (t_user_roles d) (t_role_caps d) (t_role_scopes d) (t_periodic_tasks d)
    (t_tokens d) (t_next_token_id d) x (t_next_api_key_id d) (t_robot_tokens d)
    (t_next_robot_token_id d).
Definition set_next_api_key_id (x : Z) (d : Db) : Db :=
  mkDb (t_builds d) (t_next_build_id d) (t_build_logs d) (t_workers d) (t_users d)
    (t_channels d) (t_next_channel_id d) (t_channel_types d) (t_next_channel_type_id d)
    (t_roles d) (t_user_roles d) (t_role_caps d) (t_role_scopes d) (t_periodic_tasks d)
    (t_tokens d) (t_next_token_id d) (t_api_keys d) x (t_robot_tokens d)
    (t_next_robot_token_id d).
Definition set_robot_tokens (x : gmap Z RobotTokenRow) (d : Db) : Db :=
  mkDb (t_builds d) (t_next_build_id d) (t_build_logs d) (t_workers d) (t_users d)
    (t_channels d) (t_next_channel_id d) (t_channel_types d) (t_next_channel_type_id d)
    (t_roles d) (t_user_roles d) (t_role_caps d) (t_role_scopes d) (t_periodic_tasks d)
    (t_tokens d) (t_next_token_id d) (t_api_keys d) (t_next_api_key_id d) x
    (t_next_robot_token_id d).
Definition set_next_robot_token_id (x : Z) (d : Db) : Db :=
  mkDb (t_builds d) (t_next_build_id d) (t_build_logs d) (t_workers d) (t_users d)
    (t_channels d) (t_next_channel_id d) (t_channel_types d) (t_next_channel_type_id d)
    (t_roles d) (t_user_roles d) (t_role_caps d) (t_role_scopes d) (t_periodic_tasks d)
    (t_tokens d) (t_next_token_id d) (t_api_keys d) (t_next_api_key_id d) (t_robot_tokens d)
    x.

(** A failed statement: the database was not reachable, a UNIQUE constraint was
    violated ([is_unique_violation]: result code 2067), or another constraint
    (primary and foreign keys, CHECK). *)
Inductive SqlError := DbFault | UniqueViolation | ConstraintViolation.

(** db/mod.rs. *)
Definition is_unique_violation (e : SqlError) : bool :=
  match e with UniqueViolation => true | _ => false end.

(** A statement: the time, the tables before, the result and the tables after. *)
Definition stmt (A : Type) : Type := Z → Db → result A SqlError * Db.

(** serde_json, a third-party crate: the text of a descriptor, its parser, what
    it says of a text that does not parse, and the parser of arbitrary JSON (a
    JSON value is represented by its text). *)
Class Serde := {
  descriptor_to_json : BuildDescriptor → string;
  descriptor_of_json : string → option BuildDescriptor;
  json_error_text : string → string;
  json_of_string : string → option string
}.

(** ** db/builds.rs *)

Record BuildRecord := mkBuildRecord {
  rec_id : Z;
  rec_descriptor : string;
  rec_descriptor_version : Z;
  rec_user_email : string;
  rec_is_robot : bool;
  rec_priority : string;
  rec_state : BuildState;
  rec_worker_id : option string;
  rec_trace_id : option string;
  rec_error : option string;
  rec_submitted_at : Z;
  rec_queued_at : Z;
  rec_started_at : option Z;
  rec_finished_at : option Z;
  rec_build_report : option string;
  rec_channel_id : option Z;
  rec_channel_type_id : option Z;
  rec_channel_name : option string;
  rec_channel_type_name : option string
}.

(** [BuildListRecord]: the same without the report. *)
Record BuildListRecord := mkBuildListRecord {
  lrec_id : Z;
  lrec_descriptor : string;
  lrec_descriptor_version : Z;
  lrec_user_email : string;
  lrec_is_robot : bool;
  lrec_priority : string;
  lrec_state : BuildState;
  lrec_worker_id : option string;
  lrec_trace_id : option string;
  lrec_error : option string;
  lrec_submitted_at : Z;
  lrec_queued_at : Z;
  lrec_started_at : option Z;
  lrec_finished_at : option Z;
  lrec_channel_id : option Z;
  lrec_channel_type_id : option Z;
  lrec_channel_name : option string;
  lrec_channel_type_name : option string
}.

(** The columns an UPDATE of this file changes; the others are kept. *)
Definition update_row (r : BuildRow) (state : BuildState)
    (worker_id trace_id error : option string) (started_at finished_at : option Z)
    (build_report : option string) : BuildRow :=
  mkBuildRow (br_id r) (br_descriptor r) (br_descriptor_version r) (br_user_email r)
    (br_priority r) (br_periodic_task_id r) (br_channel_id r) (br_channel_type_id r)
    (br_submitted_at r) (br_queued_at r)
    state worker_id trace_id error started_at finished_at build_report.

(** [UPDATE builds SET ... WHERE id = ?], with [rows_affected() > 0]. *)
Definition update_build (id : Z) (f : BuildRow → BuildRow) (d : Db) : result bool SqlError * Db :=
  match t_builds d !! id with
  | Some r => (Ok true, set_builds (<[id := f r]> (t_builds d)) d)
  | None => (Ok false, d)
  end.

(** SQL's [COALESCE(?, error)]. *)
Definition coalesce {A} (x y : option A) : option A :=
  match x with Some _ => x | None => y end.

(** The foreign keys of a new row of [builds] refer to existing rows. *)
Definition build_references_exist (user_email : string) (periodic_task_id : option string)
    (channel_id channel_type_id : option Z) (d : Db) : bool :=
  bool_decide (is_Some (t_users d !! user_email))
  && match periodic_task_id with
     | Some t => bool_decide (is_Some (t_periodic_tasks d !! t)) | None => true end
  && match channel_id with
     | Some c => bool_decide (is_Some (t_channels d !! c)) | None => true end
  && match channel_type_id with
     | Some t => bool_decide (is_Some (t_channel_types d !! t)) | None => true end.

Definition insert_build (descriptor_json user_email priority : string)
    (periodic_task_id : option string) (channel_id channel_type_id : option Z) : stmt Z :=
  λ now d,
    if build_references_exist user_email periodic_task_id channel_id channel_type_id d then
      let id := t_next_build_id d in
      let row := mkBuildRow id descriptor_json 1 user_email priority periodic_task_id
                   channel_id channel_type_id now now Queued None None None None None None in
      (Ok id, set_next_build_id (id + 1) (set_builds (<[id := row]> (t_builds d)) d))
    else (Err ConstraintViolation, d).

Definition is_robot_of (d : Db) (email : string) : bool :=
  match t_users d !! email with Some u => ur_is_robot (u_record u) | None => false end.

Definition channel_name_of (d : Db) (id : option Z) : option string :=
  i ← id; c ← t_channels d !! i; Some (ch_name c).

Definition channel_type_name_of (d : Db) (id : option Z) : option string :=
  i ← id; t ← t_channel_types d !! i; Some (ct_type_name t).

Definition row_to_record `{Serde} (d : Db) (r : BuildRow) : BuildRecord :=
  mkBuildRecord (br_id r) (br_descriptor r) (br_descriptor_version r) (br_user_email r)
    (is_robot_of d (br_user_email r)) (br_priority r) (br_state r) (br_worker_id r)
    (br_trace_id r) (br_error r) (br_submitted_at r) (br_queued_at r) (br_started_at r)
    (br_finished_at r) (br_build_report r ≫= json_of_string) (br_channel_id r)
    (br_channel_type_id r) (channel_name_of d (br_channel_id r))
    (channel_type_name_of d (br_channel_type_id r)).

Definition get_build `{Serde} (id : Z) : stmt (option BuildRecord) :=
  λ _ d, (Ok (row_to_record d <$> t_builds d !! id), d).

Definition row_to_build_list_record (d : Db) (r : BuildRow) : BuildListRecord :=
  mkBuildListRecord (br_id r) (br_descriptor r) (br_descriptor_version r) (br_user_email r)
    (is_robot_of d (br_user_email r)) (br_priority r) (br_state r) (br_worker_id r)
    (br_trace_id r) (br_error r) (br_submitted_at r) (br_queued_at r) (br_started_at r)
    (br_finished_at r) (br_channel_id r) (br_channel_type_id r)
    (channel_name_of d (br_channel_id r)) (channel_type_name_of d (br_channel_type_id r)).

(** A condition [column = ?] that is left out without a filter value. *)
Definition matches_filter (filter : option string) (column : string) : bool :=
  match filter with Some v => bool_decide (column = v) | None => true end.

(** The rows of [builds] in the order of a key. *)
Definition rows_by (key : BuildRow → BuildRow → Prop) `{∀ x y, Decision (key x y)} (d : Db)
    : list BuildRow :=
  merge_sort key (map_to_list (t_builds d)).*2.

Definition id_desc (x y : BuildRow) : Prop := (br_id y ≤ br_id x)%Z.
#[global] Instance id_desc_dec x y : Decision (id_desc x y).
Proof. unfold id_desc. apply _. Defined.

(** Rowid order. *)
Definition id_asc (x y : BuildRow) : Prop := (br_id x ≤ br_id y)%Z.
#[global] Instance id_asc_dec x y : Decision (id_asc x y).
Proof. unfold id_asc. apply _. Defined.

(** [ORDER BY queued_at ASC] over the index on [(state, queued_at)], in which
    equal keys are in rowid order. *)
Definition queued_asc (x y : BuildRow) : Prop :=
  (br_queued_at x < br_queued_at y ∨ br_queued_at x = br_queued_at y ∧ br_id x ≤ br_id y)%Z.
#[global] Instance queued_asc_dec x y : Decision (queued_asc x y).
Proof. unfold queued_asc. apply _. Defined.

Definition list_builds (user_filter state_filter : option string) : stmt (list BuildListRecord) :=
  λ _ d,
    (Ok (row_to_build_list_record d <$>
         filter (λ r, matches_filter user_filter (br_user_email r) = true ∧
                      matches_filter state_filter (build_state_to_string (br_state r)) = true)
                (rows_by id_desc d)), d).

Definition update_build_state (id : Z) (new_state : BuildState) (error : option string)
    : stmt bool :=
  λ _ d, update_build id (λ r,
    update_row r new_state (br_worker_id r) (br_trace_id r) (coalesce error (br_error r))
      (br_started_at r) (br_finished_at r) (br_build_report r)) d.

Definition rollback_dispatch_to_queued (id : Z) : stmt bool :=
  λ _ d, update_build id (λ r, update_row r Queued None None None None None None) d.

Definition insert_build_log_row (build_id : Z) (log_path : string) : stmt unit :=
  λ now d,
    match t_build_logs d !! build_id, t_builds d !! build_id with
    | None, Some _ => (Ok (), set_build_logs
                        (<[build_id := mkBuildLogRow log_path 0 false now]> (t_build_logs d)) d)
    | _, _ => (Err ConstraintViolation, d)
    end.

Definition set_build_dispatched (id : Z) (trace_id worker_id : string) : stmt bool :=
  λ _ d, update_build id (λ r,
    update_row r Dispatched (Some worker_id) (Some trace_id) (br_error r)
      (br_started_at r) (br_finished_at r) (br_build_report r)) d.

Definition set_build_started (id : Z) : stmt bool :=
  λ now d, update_build id (λ r,
    update_row r Started (br_worker_id r) (br_trace_id r) (br_error r)
      (Some now) (br_finished_at r) (br_build_report r)) d.

Definition set_build_finished (id : Z) (state : BuildState) (error build_report : option string)
    : stmt bool :=
  λ now d, update_build id (λ r,
    update_row r state (br_worker_id r) (br_trace_id r) (coalesce error (br_error r))
      (br_started_at r) (Some now) build_report) d.

Definition set_build_revoking (id : Z) : stmt bool :=
  λ _ d, update_build id (λ r,
    update_row r Revoking (br_worker_id r) (br_trace_id r) (br_error r)
      (br_started_at r) (br_finished_at r) (br_build_report r)) d.

Definition update_log (id : Z) (f : BuildLogRow → BuildLogRow) (d : Db) : Db :=
  match t_build_logs d !! id with
  | Some l => set_build_logs (<[id := f l]> (t_build_logs d)) d
  | None => d
  end.

Definition set_build_log_finished (build_id : Z) : stmt unit :=
  λ now d, (Ok (), update_log build_id
    (λ l, mkBuildLogRow (bl_log_path l) (bl_log_size l) true now) d).

(** ** logs/writer.rs *)

Definition update_build_log_size (build_id log_size : Z) : stmt unit :=
  λ now d, (Ok (), update_log build_id
    (λ l, mkBuildLogRow (bl_log_path l) log_size (bl_finished l) now) d).

(** ** db/workers.rs *)

Definition get_worker_by_api_key_id (api_key_id : Z) : stmt (option WorkerRow) :=
  λ _ d, (Ok (find_first (λ w, bool_decide (wr_api_key_id w = api_key_id))
                         (map_to_list (t_workers d)).*2), d).

Definition update_last_seen (id : string) : stmt bool :=
  λ now d,
    match t_workers d !! id with
    | Some w =>
        (Ok true, set_worker_rows (<[id := mkWorkerRow (wr_id w) (wr_name w) (wr_arch w)
          (wr_api_key_id w) (wr_created_by w) (wr_created_at w) (Some now)]> (t_workers d)) d)
    | None => (Ok false, d)
    end.

(** ** db/users.rs *)

(** The row of a user, and the columns a look-up returns. *)
Definition user_row (email : string) (d : Db) : option UserRow := t_users d !! email.
Definition user_record (email : string) (d : Db) : option UserRecord :=
  u_record <$> user_row email d.

Definition get_user (email : string) : stmt (option UserRecord) :=
  λ _ d, (Ok (user_record email d), d).

Definition is_user_active (email : string) : stmt bool :=
  λ _ d, (Ok (match user_record email d with Some u => ur_active u | None => false end), d).
