(* ===== verification/TokenCache.v ===== *)
(** * The cache of verified tokens (auth/token_cache.rs)

    Verified API keys and robot tokens are kept in an LRU cache under the
    SHA-256 of the bearer string, with two reverse indices for invalidation. The
    LRU cache itself is the lru crate: its operations are a parameter
    ([LruCrate]) with the laws its documentation states, over the list of
    entries that its iterator shows. *)

From stdpp Require Import prelude gmap strings list.
From S2P Require Import Prelude.

Create HintDb cache discriminated.

Inductive TokenKind := ApiKeyToken | RobotToken.

Record CachedToken := mkCachedToken {
  tok_kind : TokenKind;
  tok_id : Z;
  tok_owner_email : string;
  tok_prefix : string;
  tok_expires_at : option Z
}.

(** A SHA-256 digest, as its bytes. *)
Abbreviation Digest := string (only parsing).

(** [LruCache<[u8; 32], CachedToken>]. *)
Record LruCache := mkLru {
  lru_capacity : nat;
  lru_entries : list (Digest * CachedToken)
}.

Definition lru_peek (h : Digest) (l : LruCache) : option CachedToken :=
  (list_to_map (lru_entries l) : gmap Digest CachedToken) !! h.

(** The lru crate. [push] returns the entry it replaced or evicted, [get] moves
    the entry to the head, [pop] removes it. *)
Class LruCrate := {
  lru_push : Digest → CachedToken → LruCache → option (Digest * CachedToken) * LruCache;
  lru_get : Digest → LruCache → option CachedToken * LruCache;
  lru_pop : Digest → LruCache → option CachedToken * LruCache;
  lru_push_lookup : ∀ h e l h',
    lru_peek h' (lru_push h e l).2
    = if bool_decide (h' = h) then Some e
      else match (lru_push h e l).1 with
           | Some (k, _) => if bool_decide (h' = k) then None else lru_peek h' l
           | None => lru_peek h' l
           end;
  lru_push_returns : ∀ h e l k v,
    (lru_push h e l).1 = Some (k, v) → lru_peek k l = Some v;
  lru_push_present : ∀ h e l v,
    lru_peek h l = Some v → (lru_push h e l).1 = Some (h, v);
  lru_get_result : ∀ h l, (lru_get h l).1 = lru_peek h l;
  lru_get_lookup : ∀ h l h', lru_peek h' (lru_get h l).2 = lru_peek h' l;
  lru_pop_result : ∀ h l, (lru_pop h l).1 = lru_peek h l;
  lru_pop_lookup : ∀ h l h',
    lru_peek h' (lru_pop h l).2 = if bool_decide (h' = h) then None else lru_peek h' l
}.

Record TokenCache := mkTokenCache {
  by_sha256 : LruCache;
  by_prefix : gmap string (gset Digest);
  by_owner : gmap string (gset Digest)
}.

Definition token_cache_new (capacity : nat) : TokenCache := mkTokenCache (mkLru capacity []) ∅ ∅.

(** [map.get_mut(key)], remove the digest, and drop an empty set. *)
Definition index_remove (key : string) (h : Digest) (m : gmap string (gset Digest))
    : gmap string (gset Digest) :=
  match m !! key with
  | None => m
  | Some set =>
      let set := set ∖ {[h]} in
      if bool_decide (set = ∅) then delete key m else <[key := set]> m
  end.

(** [map.entry(key).or_default().insert(h)]. *)
Definition index_insert (key : string) (h : Digest) (m : gmap string (gset Digest))
    : gmap string (gset Digest) :=
  <[key := {[h]} ∪ default ∅ (m !! key)]> m.

Section Methods.
Context `{LruCrate}.

Definition cache_insert (sha256 : Digest) (entry : CachedToken) (c : TokenCache) : TokenCache :=
  let '(evicted, lru) := lru_push sha256 entry (by_sha256 c) in
  let '(by_prefix, by_owner) :=
    match evicted with
    | Some (evicted_hash, evicted) =>
        if bool_decide (evicted_hash = sha256) then (by_prefix c, by_owner c)
        else (index_remove (tok_prefix evicted) evicted_hash (by_prefix c),
              index_remove (tok_owner_email evicted) evicted_hash (by_owner c))
    | None => (by_prefix c, by_owner c)
    end in
  mkTokenCache lru (index_insert (tok_prefix entry) sha256 by_prefix)
    (index_insert (tok_owner_email entry) sha256 by_owner).

Definition cache_get (sha256 : Digest) (c : TokenCache) : option CachedToken * TokenCache :=
  let '(r, lru) := lru_get sha256 (by_sha256 c) in
  (r, mkTokenCache lru (by_prefix c) (by_owner c)).

(** One iteration of the loops below. *)
Definition pop_and_unindex_owner (h : Digest) (c : TokenCache) : TokenCache :=
  let '(popped, lru) := lru_pop h (by_sha256 c) in
  mkTokenCache lru (by_prefix c)
    (match popped with
     | Some entry => index_remove (tok_owner_email entry) h (by_owner c)
     | None => by_owner c
     end).

Definition pop_and_unindex_prefix (h : Digest) (c : TokenCache) : TokenCache :=
  let '(popped, lru) := lru_pop h (by_sha256 c) in
  mkTokenCache lru
    (match popped with
     | Some entry => index_remove (tok_prefix entry) h (by_prefix c)
     | None => by_prefix c
     end) (by_owner c).

(** The order of a [HashSet] does not matter: the iterations concern different
    digests. *)
Definition remove_by_prefix (p : string) (c : TokenCache) : TokenCache :=
  match by_prefix c !! p with
  | None => c
  | Some hashes =>
      foldr pop_and_unindex_owner
        (mkTokenCache (by_sha256 c) (delete p (by_prefix c)) (by_owner c)) (elements hashes)
  end.

Definition remove_by_owner (email : string) (c : TokenCache) : TokenCache :=
  match by_owner c !! email with
  | None => c
  | Some hashes =>
      foldr pop_and_unindex_prefix
        (mkTokenCache (by_sha256 c) (by_prefix c) (delete email (by_owner c))) (elements hashes)
  end.

(** ** The reverse indices *)

Definition cached (c : TokenCache) (h : Digest) : option CachedToken := lru_peek h (by_sha256 c).

Definition indexed (m : gmap string (gset Digest)) (key : string) (h : Digest) : Prop :=
  ∃ set, m !! key = Some set ∧ h ∈ set.

(** Every cached token is found through both indices. *)
Definition cache_indexed (c : TokenCache) : Prop :=
  ∀ h e, cached c h = Some e →
    indexed (by_prefix c) (tok_prefix e) h ∧ indexed (by_owner c) (tok_owner_email e) h.

Lemma indexed_insert k h m k' h' :
  indexed (index_insert k h m) k' h' ↔ indexed m k' h' ∨ k' = k ∧ h' = h.
Proof.
  unfold indexed, index_insert. destruct (decide (k' = k)) as [->|Hk].
  - rewrite lookup_insert_eq. destruct (m !! k) as [hs|]; simpl; split.
    + intros (? & [= <-] & ?). set_solver.
    + intros [(? & [= <-] & ?)|[_ ->]]; eexists; (split; [done|]); set_solver.
    + intros (? & [= <-] & ?). set_solver.
    + intros [(? & [=] & ?)|[_ ->]]; eexists; (split; [done|]); set_solver.
  - rewrite lookup_insert_ne by done. naive_solver.
Qed.

Lemma indexed_remove k h m k' h' :
  indexed (index_remove k h m) k' h' ↔ indexed m k' h' ∧ ¬ (k' = k ∧ h' = h).
Proof.
  unfold indexed, index_remove. destruct (m !! k) as [hs|] eqn:E.
  2: { split; [|naive_solver]. intros (x & Hx & ?). split; [eauto|]. intros [-> _]. congruence. }
  destruct (decide (k' = k)) as [->|Hk]; case_bool_decide as Hs.
  - rewrite lookup_delete_eq, E. split; [naive_solver|]. intros [(? & [= <-] & ?) Hn].
    exfalso. apply Hn. set_solver.
  - rewrite lookup_insert_eq, E. split; [intros (? & [= <-] & ?); set_solver|].
    intros [(? & [= <-] & ?) Hn]. eexists; split; [done|]. set_solver.
  - rewrite lookup_delete_ne by done. naive_solver.
  - rewrite lookup_insert_ne by done. naive_solver.
Qed.

Lemma indexed_delete k m k' h' :
  indexed (delete k m) k' h' ↔ indexed m k' h' ∧ k' ≠ k.
Proof. unfold indexed. setoid_rewrite lookup_delete_Some. naive_solver. Qed.

Lemma cached_insert h e c h' :
  cached (cache_insert h e c) h'
  = if bool_decide (h' = h) then Some e
    else match (lru_push h e (by_sha256 c)).1 with
         | Some (k, _) => if bool_decide (h' = k) then None else cached c h'
         | None => cached c h'
         end.
Proof.
  unfold cached, cache_insert. rewrite <- lru_push_lookup.
  destruct (lru_push h e (by_sha256 c)) as [[[k v]|] l]; simpl; [by case_bool_decide|done].
Qed.

Lemma cache_new_indexed n : cache_indexed (token_cache_new n).
Proof. by intros h e ?. Qed.

Lemma insert_indexed h e c : cache_indexed c → cache_indexed (cache_insert h e c).
Proof.
  intros Hc h' e' He. rewrite cached_insert in He.
  unfold cache_insert. destruct (lru_push h e (by_sha256 c)) as [ev l] eqn:Ep. simpl in He.
  destruct ev as [[k v]|]; simpl in *.
  - case_bool_decide as Hh.
    + injection He as <-. subst. destruct (bool_decide (k = h)); simpl; rewrite !indexed_insert; auto.
    + destruct (bool_decide (h' = k)) eqn:Hk; [done|]. apply bool_decide_eq_false in Hk.
      destruct (Hc h' e' He) as [H1 H2].
      case_bool_decide; simpl; rewrite !indexed_insert, ?indexed_remove; naive_solver.
  - case_bool_decide as Hh.
    + injection He as <-. subst. rewrite !indexed_insert. auto.
    + destruct (Hc h' e' He). rewrite !indexed_insert. auto.
Qed.

Lemma cached_get h c h' : cached (cache_get h c).2 h' = cached c h' ∧ (cache_get h c).1 = cached c h.
Proof.
  unfold cache_get, cached. rewrite <- (lru_get_lookup h (by_sha256 c) h'), <- (lru_get_result h (by_sha256 c)).
  by destruct (lru_get h (by_sha256 c)).
Qed.

Lemma get_indexed h c : cache_indexed c → cache_indexed (cache_get h c).2.
Proof.
  intros Hc h' e. destruct (cached_get h c h') as [-> _]. intros He. destruct (Hc _ _ He).
  unfold cache_get. by destruct (lru_get h (by_sha256 c)).
Qed.

(** ** Purging *)

Lemma purge_owner_loop hs c h :
  cached (foldr pop_and_unindex_owner c hs) h = (if bool_decide (h ∈ hs) then None else cached c h) ∧
  by_prefix (foldr pop_and_unindex_owner c hs) = by_prefix c ∧
  (∀ k h', h' ∉ hs → indexed (by_owner c) k h' →
           indexed (by_owner (foldr pop_and_unindex_owner c hs)) k h').
Proof.
  induction hs as [|x hs (IH1 & IH2 & IH3)]; simpl; [done|].
  set (c' := foldr pop_and_unindex_owner c hs) in *. unfold pop_and_unindex_owner, cached in *.
  pose proof (lru_pop_lookup x (by_sha256 c') h) as Hp.
  destruct (lru_pop x (by_sha256 c')) as [popped l]; simpl in *. split_and!; [|done|].
  - rewrite Hp, IH1. repeat case_bool_decide; set_solver.
  - intros k h' Hn Hi. destruct popped as [e|]; [|set_solver].
    rewrite indexed_remove. split; [|set_solver]. apply IH3; [set_solver|done].
Qed.

Lemma purge_prefix_loop hs c h :
  cached (foldr pop_and_unindex_prefix c hs) h = (if bool_decide (h ∈ hs) then None else cached c h) ∧
  by_owner (foldr pop_and_unindex_prefix c hs) = by_owner c ∧
  (∀ k h', h' ∉ hs → indexed (by_prefix c) k h' →
           indexed (by_prefix (foldr pop_and_unindex_prefix c hs)) k h').
Proof.
  induction hs as [|x hs (IH1 & IH2 & IH3)]; simpl; [done|].
  set (c' := foldr pop_and_unindex_prefix c hs) in *. unfold pop_and_unindex_prefix, cached in *.
  pose proof (lru_pop_lookup x (by_sha256 c') h) as Hp.
  destruct (lru_pop x (by_sha256 c')) as [popped l]; simpl in *. split_and!; [|done|].
  - rewrite Hp, IH1. repeat case_bool_decide; set_solver.
  - intros k h' Hn Hi. destruct popped as [e|]; [|set_solver].
    rewrite indexed_remove. split; [|set_solver]. apply IH3; [set_solver|done].
Qed.

(** What a purge leaves in the cache. *)
Lemma cached_remove_by_owner o c h :
  cached (remove_by_owner o c) h
  = if bool_decide (h ∈ default ∅ (by_owner c !! o)) then None else cached c h.
Proof.
  unfold remove_by_owner. destruct (by_owner c !! o) as [hashes|] eqn:E; simpl.
  - destruct (purge_prefix_loop (elements hashes)
      (mkTokenCache (by_sha256 c) (by_prefix c) (delete o (by_owner c))) h) as (-> & _).
    repeat case_bool_decide; set_solver.
  - by rewrite bool_decide_eq_false_2 by set_solver.
Qed.

Lemma cached_remove_by_prefix p c h :
  cached (remove_by_prefix p c) h
  = if bool_decide (h ∈ default ∅ (by_prefix c !! p)) then None else cached c h.
Proof.
  unfold remove_by_prefix. destruct (by_prefix c !! p) as [hashes|] eqn:E; simpl.
  - destruct (purge_owner_loop (elements hashes)
      (mkTokenCache (by_sha256 c) (delete p (by_prefix c)) (by_owner c)) h) as (-> & _).
    repeat case_bool_decide; set_solver.
  - by rewrite bool_decide_eq_false_2 by set_solver.
Qed.

Lemma not_indexed m k h : h ∉ default ∅ (m !! k) ↔ ¬ indexed m k h.
Proof. unfold indexed. destruct (m !! k); simpl; set_solver. Qed.

Lemma remove_by_owner_indexed o c : cache_indexed c → cache_indexed (remove_by_owner o c).
Proof.
  intros Hc h e. rewrite cached_remove_by_owner. case_bool_decide as Hn; [done|]. intros He.
  destruct (Hc h e He) as [Hp Ho]. apply not_indexed in Hn.
  unfold remove_by_owner. destruct (by_owner c !! o) as [hashes|] eqn:E; [|done].
  destruct (purge_prefix_loop (elements hashes)
    (mkTokenCache (by_sha256 c) (by_prefix c) (delete o (by_owner c))) h) as (_ & -> & Hi).
  assert (h ∉ hashes) by (intros ?; apply Hn; by eexists). split.
  - apply Hi; [set_solver|done].
  - simpl. apply indexed_delete. split; [done|]. intros Eo. apply Hn. by rewrite <- Eo.
Qed.

Lemma remove_by_prefix_indexed p c : cache_indexed c → cache_indexed (remove_by_prefix p c).
Proof.
  intros Hc h e. rewrite cached_remove_by_prefix. case_bool_decide as Hn; [done|]. intros He.
  destruct (Hc h e He) as [Hp Ho]. apply not_indexed in Hn.
  unfold remove_by_prefix. destruct (by_prefix c !! p) as [hashes|] eqn:E; [|done].
  destruct (purge_owner_loop (elements hashes)
    (mkTokenCache (by_sha256 c) (delete p (by_prefix c)) (by_owner c)) h) as (_ & -> & Hi).
  assert (h ∉ hashes) by (intros ?; apply Hn; by eexists). split.
  - simpl. apply indexed_delete. split; [done|]. intros Eo. apply Hn. by rewrite <- Eo.
  - apply Hi; [set_solver|done].
Qed.

(** No token of the owner, or of the prefix, survives a purge, and none appears. *)
Lemma remove_by_owner_cached o c h e :
  cache_indexed c → cached (remove_by_owner o c) h = Some e →
  cached c h = Some e ∧ tok_owner_email e ≠ o.
Proof.
  intros Hc. rewrite cached_remove_by_owner. case_bool_decide as Hn; [done|]. intros He.
  split; [done|]. intros E. apply not_indexed in Hn. apply Hn. rewrite <- E. by apply Hc.
Qed.

Lemma remove_by_prefix_cached p c h e :
  cache_indexed c → cached (remove_by_prefix p c) h = Some e →
  cached c h = Some e ∧ tok_prefix e ≠ p.
Proof.
  intros Hc. rewrite cached_remove_by_prefix. case_bool_decide as Hn; [done|]. intros He.
  split; [done|]. intros E. apply not_indexed in Hn. apply Hn. rewrite <- E. by apply Hc.
Qed.
End Methods.

#[export] Hint Resolve cache_new_indexed insert_indexed get_indexed remove_by_owner_indexed
  remove_by_prefix_indexed : cache.
