(* ===== verification/App.v ===== *)
(** * The shared application state (app.rs) and its atomic actions

    [AppState] holds the database, the build queue, the outbound channels of
    the workers, the log watchers and log files, the cache of verified tokens,
    the wake-up permit of the scheduler, the cancellation tokens and the tasks that were spawned and have not run yet. Failures of I/O and of
    the database come from a schedule [faults] in the state: every fallible
    external call takes the next flag, [true] meaning that this call fails, and
    an exhausted schedule means no further failure. A statement about every
    schedule is a statement about every pattern of failures. *)

From Stdlib Require Import Strings.Byte.
From stdpp Require Import prelude gmap strings list.
From S2P Require Import Prelude Async Proto Queue Db TokenCache.

(** A WebSocket frame sent to a worker. Serialising a [ServerMessage] cannot
    fail, so a text frame carries the message. *)
Inductive Frame :=
| TextFrame (m : ServerMessage)
| BinaryFrame (bytes : list byte).

(** An unbounded mpsc channel: whether its receiver is alive, and what was sent. *)
Record Channel := mkChannel { c_open : bool; c_sent : list Frame }.

(** The bodies given to [tokio::spawn]. *)
Inductive Task :=
| TaskTryDispatch
| TaskAckTimer (build_id : Z) (token : nat)
| TaskGraceMonitor (connection_id : ConnectionId)
| TaskRevokeTimeout (build_id : Z).

Record AppState := mkApp {
  pool : Db;
  queue : BuildQueue;
  worker_senders : gmap ConnectionId nat;
  channels : gmap nat Channel;
  log_watchers : gmap Z nat;
  seq_indices : gmap Z (list (Z * Z));
  log_files : gmap Z string;
  token_cache : TokenCache;
  scheduler_notify : bool;
  cancelled : gset nat;
  next_handle : nat;
  spawned : list Task;
  clock : Z;
  faults : list bool
}.

Definition upd_pool (p : Db) (s : AppState) : AppState :=
  mkApp p (queue s) (worker_senders s) (channels s) (log_watchers s) (seq_indices s)
    (log_files s) (token_cache s) (scheduler_notify s) (cancelled s) (next_handle s) (spawned s)
    (clock s) (faults s).
Definition upd_queue (q : BuildQueue) (s : AppState) : AppState :=
  mkApp (pool s) q (worker_senders s) (channels s) (log_watchers s) (seq_indices s)
    (log_files s) (token_cache s) (scheduler_notify s) (cancelled s) (next_handle s) (spawned s)
    (clock s) (faults s).
Definition upd_senders (w : gmap ConnectionId nat) (s : AppState) : AppState :=
  mkApp (pool s) (queue s) w (channels s) (log_watchers s) (seq_indices s) (log_files s)
    (token_cache s) (scheduler_notify s) (cancelled s) (next_handle s) (spawned s) (clock s)
    (faults s).
Definition upd_channels (c : gmap nat Channel) (s : AppState) : AppState :=
  mkApp (pool s) (queue s) (worker_senders s) c (log_watchers s) (seq_indices s) (log_files s)
    (token_cache s) (scheduler_notify s) (cancelled s) (next_handle s) (spawned s) (clock s)
    (faults s).
Definition upd_watchers (w : gmap Z nat) (s : AppState) : AppState :=
  mkApp (pool s) (queue s) (worker_senders s) (channels s) w (seq_indices s) (log_files s)
    (token_cache s) (scheduler_notify s) (cancelled s) (next_handle s) (spawned s) (clock s)
    (faults s).
Definition upd_seq_indices (i : gmap Z (list (Z * Z))) (s : AppState) : AppState :=
  mkApp (pool s) (queue s) (worker_senders s) (channels s) (log_watchers s) i (log_files s)
    (token_cache s) (scheduler_notify s) (cancelled s) (next_handle s) (spawned s) (clock s)
    (faults s).
Definition upd_log_files (f : gmap Z string) (s : AppState) : AppState :=
  mkApp (pool s) (queue s) (worker_senders s) (channels s) (log_watchers s) (seq_indices s) f
    (token_cache s) (scheduler_notify s) (cancelled s) (next_handle s) (spawned s) (clock s)
    (faults s).
Definition upd_token_cache (c : TokenCache) (s : AppState) : AppState :=
  mkApp (pool s) (queue s) (worker_senders s) (channels s) (log_watchers s) (seq_indices s)
    (log_files s) c (scheduler_notify s) (cancelled s) (next_handle s) (spawned s) (clock s)
    (faults s).
Definition upd_scheduler_notify (n : bool) (s : AppState) : AppState :=
  mkApp (pool s) (queue s) (worker_senders s) (channels s) (log_watchers s) (seq_indices s)
    (log_files s) (token_cache s) n (cancelled s) (next_handle s) (spawned s) (clock s)
    (faults s).
Definition upd_cancelled (c : gset nat) (s : AppState) : AppState :=
  mkApp (pool s) (queue s) (worker_senders s) (channels s) (log_watchers s) (seq_indices s)
    (log_files s) (token_cache s) (scheduler_notify s) c (next_handle s) (spawned s) (clock s)
    (faults s).
Definition upd_next_handle (n : nat) (s : AppState) : AppState :=
  mkApp (pool s) (queue s) (worker_senders s) (channels s) (log_watchers s) (seq_indices s)
    (log_files s) (token_cache s) (scheduler_notify s) (cancelled s) n (spawned s) (clock s)
    (faults s).
Definition upd_spawned (t : list Task) (s : AppState) : AppState :=
  mkApp (pool s) (queue s) (worker_senders s) (channels s) (log_watchers s) (seq_indices s)
    (log_files s) (token_cache s) (scheduler_notify s) (cancelled s) (next_handle s) t (clock s)
    (faults s).
Definition upd_clock (c : Z) (s : AppState) : AppState :=
  mkApp (pool s) (queue s) (worker_senders s) (channels s) (log_watchers s) (seq_indices s)
    (log_files s) (token_cache s) (scheduler_notify s) (cancelled s) (next_handle s) (spawned s)
    c (faults s).
Definition upd_faults (f : list bool) (s : AppState) : AppState :=
  mkApp (pool s) (queue s) (worker_senders s) (channels s) (log_watchers s) (seq_indices s)
    (log_files s) (token_cache s) (scheduler_notify s) (cancelled s) (next_handle s) (spawned s)
    (clock s) f.

(** ** Third-party code and configuration

    [uuid_v4 n] is the [n]-th identifier the uuid crate generates, [tar_gz] the
    archive that tar and flate2 build of the named component directories,
    [sha256] the digest of the sha2 crate, [io_error_text] what the operating
    system says of a failed call and [sql_error_text] what sqlx says of a failed
    statement. *)
Class Env := {
  uuid_v4 : nat → string;
  tar_gz : list string → list byte;
  sha256 : list byte → list byte;
  metrics_enabled : bool;
  liveness_grace_period_secs : Z;
  io_error_text : string;
  sql_error_text : SqlError → string
}.

Abbreviation async := (prog AppState).

(** ** Atomic actions *)

(** The next flag of the failure schedule. *)
Definition next_fault (s : AppState) : bool * AppState :=
  match faults s with
  | [] => (false, s)
  | f :: fs => (f, upd_faults fs s)
  end.

(** A fresh identity for a channel, a token, a watch channel or a UUID. *)
Definition alloc (s : AppState) : nat * AppState :=
  (next_handle s, upd_next_handle (S (next_handle s)) s).

(** Run a statement on the pool. *)
Definition exec_stmt {A} (st : stmt A) (s : AppState) : result A SqlError * AppState :=
  let '(failed, s) := next_fault s in
  if failed then (Err DbFault, s)
  else let '(r, d) := st (clock s) (pool s) in (r, upd_pool d s).

Definition query {A} (st : stmt A) : async (result A SqlError) := atomic (exec_stmt st).

(** A critical section of the queue mutex. *)
Definition with_queue {A} (f : BuildQueue → A * BuildQueue) : async A :=
  atomic (λ s, let '(a, q) := f (queue s) in (a, upd_queue q s)).

(** A critical section that only reads the queue. *)
Definition read_queue {A} (f : BuildQueue → A) : async A := with_queue (λ q, (f q, q)).

Definition modify_queue (f : BuildQueue → BuildQueue) : async unit :=
  with_queue (λ q, ((), f q)).

(** [CancellationToken::cancel]. *)
Definition cancel_token (t : nat) (s : AppState) : AppState :=
  upd_cancelled ({[t]} ∪ cancelled s) s.

Definition cancel (t : nat) : async unit := atomic (λ s, ((), cancel_token t s)).

Definition now : async Z := atomic (λ s, (clock s, s)).

Definition remove_watcher (build_id : Z) : async unit :=
  atomic (λ s, ((), upd_watchers (delete build_id (log_watchers s)) s)).

Definition remove_sender (cid : ConnectionId) : async unit :=
  atomic (λ s, ((), upd_senders (delete cid (worker_senders s)) s)).

Definition spawn (t : Task) : async unit :=
  atomic (λ s, ((), upd_spawned (spawned s ++ [t]) s)).

(** [Notify::notify_one] on the scheduler, and the permit taken by [notified()]. *)
Definition notify_scheduler : async unit := atomic (λ s, ((), upd_scheduler_notify true s)).
Definition notified : async unit := atomic (λ s, ((), upd_scheduler_notify false s)).

(** [UnboundedSender::send]: fails exactly when the receiver was dropped. *)
Definition chan_send (c : nat) (f : Frame) (s : AppState) : bool * AppState :=
  match channels s !! c with
  | Some ch => if c_open ch
               then (true, upd_channels (<[c := mkChannel true (c_sent ch ++ [f])]> (channels s)) s)
               else (false, s)
  | None => (false, s)
  end.

(** ** Atomic actions, executed alone *)

Section ActionLemmas.

Lemma run_query {A} (st : stmt A) s : run (query st) s = exec_stmt st s.
Proof. apply run_atomic. Qed.

Lemma run_now s : run now s = (clock s, s).
Proof. unfold now. by rewrite run_atomic. Qed.

(** A statement of a state without pending failures. *)
Lemma exec_stmt_no_fault {A} (st : stmt A) s :
  faults s = [] →
  exec_stmt st s = ((st (clock s) (pool s)).1, upd_pool (st (clock s) (pool s)).2 s).
Proof. intros Hf. unfold exec_stmt, next_fault. rewrite Hf. by destruct (st _ _). Qed.

Lemma upd_pool_id s : upd_pool (pool s) s = s.
Proof. by destruct s. Qed.

(** A statement that only reads, executed without a failure. *)
Definition reads {A} (st : stmt A) : Prop := ∀ t d, (st t d).2 = d.

Lemma run_read {A} (st : stmt A) s :
  reads st → faults s = [] → run (query st) s = ((st (clock s) (pool s)).1, s).
Proof.
  intros Hr Hf. rewrite run_query, exec_stmt_no_fault by done. by rewrite Hr, upd_pool_id.
Qed.

Lemma run_with_queue {A} (f : BuildQueue → A * BuildQueue) s :
  run (with_queue f) s = ((f (queue s)).1, upd_queue (f (queue s)).2 s).
Proof. unfold with_queue. rewrite run_atomic. by destruct (f (queue s)). Qed.

End ActionLemmas.

#[export] Hint Rewrite @run_query @run_with_queue : run.
