(* ===== verification/Logs.v ===== *)
(** * Build log files (logs/writer.rs)

    The writer appends the output lines of a build to its log file and keeps,
    per build, the index from sequence numbers to file offsets that the SSE
    endpoint searches to resume a stream. *)

From stdpp Require Import prelude gmap strings list.
From S2P Require Import Prelude Async Proto Queue Db App.

Inductive IoError := IoOther (msg : string).

Definition io_error_to_string (e : IoError) : string :=
  match e with IoOther m => m end.

(** Wrap-around of [u64] and the cast [u64 as i64]. *)
Definition wrap_u64 (z : Z) : Z := (z mod 2 ^ 64)%Z.
Definition cast_i64 (z : Z) : Z :=
  let m := wrap_u64 z in if (m <? 2 ^ 63)%Z then m else (m - 2 ^ 64)%Z.

Definition newline : string := String (Ascii.ascii_of_nat 10) "".

Section Logs.
Context `{Env}.

(** A call of the operating system that can fail. *)
Definition io {A} (f : AppState → A * AppState) : async (result A IoError) :=
  atomic (λ s,
    let '(failed, s) := next_fault s in
    if failed then (Err (IoOther io_error_text), s)
    else let '(a, s) := f s in (Ok a, s)).

Definition file_content (build_id : Z) (s : AppState) : string :=
  default "" (log_files s !! build_id).

(** Open for appending, creating the file when it is missing. *)
Definition open_append (build_id : Z) : async (result unit IoError) :=
  io (λ s, ((), upd_log_files (<[build_id := file_content build_id s]> (log_files s)) s)).

Definition file_len (build_id : Z) : async (result Z IoError) :=
  io (λ s, (Z.of_nat (String.length (file_content build_id s)), s)).

Definition write_all (build_id : Z) (buf : string) : async (result unit IoError) :=
  io (λ s, ((), upd_log_files (<[build_id := file_content build_id s +:+ buf]> (log_files s)) s)).

(** The loop over the lines: the new index entries and the final offset. *)
Fixpoint write_lines (build_id start_seq i offset : Z) (lines : list string)
    (new_entries : list (Z * Z)) : async (result (list (Z * Z) * Z) IoError) :=
  match lines with
  | [] => Ret (Ok (new_entries, offset))
  | line :: lines =>
      let seq := wrap_u64 (start_seq + i) in
      let buf := line +:+ newline in
      let* r := write_all build_id buf in
      match r with
      | Err e => Ret (Err e)
      | Ok _ => write_lines build_id start_seq (i + 1)
                  (offset + Z.of_nat (String.length buf)) lines (new_entries ++ [(seq, offset)])
      end
  end.

Definition extend_index (build_id : Z) (new_entries : list (Z * Z)) : async unit :=
  atomic (λ s, ((), upd_seq_indices
    (<[build_id := default [] (seq_indices s !! build_id) ++ new_entries]> (seq_indices s)) s)).

(** [write_build_output]. The wake-up of the SSE followers carries no data and
    is left out. *)
Definition write_build_output (build_id : Z) (connection_id : ConnectionId) (start_seq : Z)
    (lines : list string) : async (result unit IoError) :=
  match lines with
  | [] => Ret (Ok ())
  | _ =>
      let* r := io (λ s, ((), s)) in (* create_dir_all *)
      match r with Err e => Ret (Err e) | Ok _ =>
      let* r := open_append build_id in
      match r with Err e => Ret (Err e) | Ok _ =>
      let* r := file_len build_id in
      match r with Err e => Ret (Err e) | Ok offset =>
      let* r := write_lines build_id start_seq 0 offset lines [] in
      match r with Err e => Ret (Err e) | Ok (new_entries, offset) =>
      let* r := io (λ s, ((), s)) in (* flush *)
      match r with Err e => Ret (Err e) | Ok _ =>
      do* extend_index build_id new_entries in
      do* query (update_build_log_size build_id (cast_i64 offset)) in
      Ret (Ok ())
      end end end end end
  end.

Definition finish_build_log (build_id : Z) : async unit :=
  do* atomic (λ s, ((), upd_seq_indices (delete build_id (seq_indices s)) s)) in
  do* query (set_build_log_finished build_id) in
  Ret ().

(** [slice::binary_search_by_key] of the standard library: [base] and [size]
    delimit the part still searched. *)
Fixpoint search_loop (fuel : nat) (entries : list (Z * Z)) (seq : Z) (base size : nat) : nat :=
  match fuel with
  | 0 => base
  | S fuel =>
      if size <=? 1 then base
      else
        let half := size / 2 in
        let mid := base + half in
        let base := match entries !! mid with
                    | Some (s, _) => if (seq <? s)%Z then base else mid
                    | None => base
                    end in
        search_loop fuel entries seq base (size - half)
  end.

Definition binary_search (entries : list (Z * Z)) (seq : Z) : option nat :=
  let base := search_loop (length entries) entries seq 0 (length entries) in
  match entries !! base with
  | Some (s, _) => if (s =? seq)%Z then Some base else None
  | None => None
  end.

Definition get_seq_offset (build_id seq : Z) (s : AppState) : option Z :=
  entries ← seq_indices s !! build_id;
  idx ← binary_search entries seq;
  e ← entries !! idx;
  Some e.2.

End Logs.
