(* ===== verification/Dispatch.v ===== *)
(** * The dispatch engine (ws/dispatch.rs)

    Pairing pending builds with idle workers, the lifecycle messages of the
    assigned worker, rollback and revocation. The shared terminal cleanup of
    ws/handler.rs is here too, because both files call it. *)

From Stdlib Require Import Strings.Byte.
From stdpp Require Import prelude gmap strings list pretty.
From S2P Require Import Prelude Async Proto Queue Db App Logs.

Inductive DispatchError :=
| NothingToDispatch
| Database (e : SqlError)
| Tarball (e : IoError)
| Send (msg : string).

(** What [try_dispatch] carries out of the critical section. *)
Record DispatchInfo := mkDispatchInfo {
  dp_build_id : BuildId;
  dp_priority : Priority;
  dp_descriptor : BuildDescriptor;
  dp_trace_id : string;
  dp_connection_id : ConnectionId;
  dp_queued_at : Z
}.

(** [TerminalStatus] of ws/handler.rs, with its [builds.state]. *)
Inductive TerminalStatus := TermFailure | TermRevoked.

Definition terminal_state (t : TerminalStatus) : BuildState :=
  match t with TermFailure => Failure | TermRevoked => Revoked end.

(** ** Components (components/tarball.rs) *)

Definition hex_digit (n : N) : Ascii.ascii :=
  Ascii.ascii_of_N (if (n <? 10)%N then 48 + n else 87 + n)%N.

(** [write!(s, "{b:02x}")] for every byte. *)
Fixpoint hex_encode (bytes : list byte) : string :=
  match bytes with
  | [] => ""
  | b :: bytes =>
      let n := Byte.to_N b in
      String (hex_digit (n / 16)) (String (hex_digit (n mod 16)) (hex_encode bytes))
  end.

(** ** Changes to an active assignment *)

Definition mark_received (ab : ActiveBuild) : ActiveBuild :=
  mkActive (ab_build_id ab) (ab_connection_id ab) (ab_dispatched_at ab) (ab_trace_id ab)
    (ab_descriptor ab) (ab_priority ab) (ab_ack_cancel ab) ReceivedByWorker.

Definition attach_connection (cid : ConnectionId) (ab : ActiveBuild) : ActiveBuild :=
  mkActive (ab_build_id ab) cid (ab_dispatched_at ab) (ab_trace_id ab)
    (ab_descriptor ab) (ab_priority ab) (ab_ack_cancel ab) (ab_receipt ab).

Definition remove_active (build_id : Z) (q : BuildQueue) : BuildQueue :=
  set_active (delete build_id (q_active q)) q.

Definition insert_active (ab : ActiveBuild) (q : BuildQueue) : BuildQueue :=
  set_active (<[ab_build_id ab := ab]> (q_active q)) q.

Section Dispatch.
Context `{Env} `{HashIter} `{Serde}.

(** The archive of the components and its digest. *)
Definition pack_components (component_names : list string)
    : async (result (list byte * string) IoError) :=
  io (λ s, let gz_bytes := tar_gz component_names in
           ((gz_bytes, hex_encode (sha256 gz_bytes)), s)).

(** ** Terminal cleanup and rollback *)

Definition cleanup_terminal_state (build_id : Z) (status : TerminalStatus) (reason : string)
    : async unit :=
  do* query (set_build_finished build_id (terminal_state status) (Some reason) None) in
  do* query (set_build_log_finished build_id) in
  do* modify_queue (remove_active build_id) in
  remove_watcher build_id.

(** [active.remove(&build_id)]: the removed entry. *)
Definition take_active (build_id : Z) (q : BuildQueue) : option ActiveBuild * BuildQueue :=
  (q_active q !! build_id, remove_active build_id q).

Definition rollback_active_to_queued (build_id : Z) : async bool :=
  let* active := with_queue (take_active build_id) in
  match active with
  | None => Ret false
  | Some ab =>
      do* cancel (ab_ack_cancel ab) in
      do* query (rollback_dispatch_to_queued build_id) in
      let* t := now in
      do* modify_queue (enqueue_front
            (mkQueued (mkBuildId build_id) (ab_priority ab) (ab_descriptor ab) "" t)) in
      do* remove_watcher build_id in
      Ret true
  end.

(** ** Dispatch *)

(** The first worker that is connected, of the right architecture and without
    an active build, with its registered id. *)
Definition find_worker (build_arch : Arch) (q : BuildQueue) : option (ConnectionId * string) :=
  (λ '(cid, ws), (cid, default "unknown" (registered_worker_id ws))) <$>
    find_first (λ '(cid, ws), is_dispatch_eligible ws
                              && bool_decide (worker_arch ws = Some build_arch)
                              && connection_free cid q)
               (hash_iter (q_workers q)).

(** Steps 1 to 8 of [try_dispatch], under the queue lock. *)
Definition dispatch_under_lock (s : AppState) : result DispatchInfo DispatchError * AppState :=
  match next_pending (queue s) with
  | (None, q) => (Err NothingToDispatch, upd_queue q s)
  | (Some build, q) =>
      match find_worker (bt_arch (bd_build (qb_descriptor build))) q with
      | None => (Err NothingToDispatch, upd_queue (enqueue_front build q) s)
      | Some (connection_id, registered_worker_id) =>
          let id := build_id_0 (qb_build_id build) in
          let '(u, s) := alloc (upd_queue q s) in
          let trace_id := uuid_v4 u in
          match exec_stmt (set_build_dispatched id trace_id registered_worker_id) s with
          | (Err e, s) => (Err (Database e), s)
          | (Ok _, s) =>
              let '(watch_tx, s) := alloc s in
              let s := upd_watchers (<[id := watch_tx]> (log_watchers s)) s in
              let '(ack_cancel, s) := alloc s in
              let ab := mkActive id connection_id (clock s) trace_id (qb_descriptor build)
                          (qb_priority build) ack_cancel AwaitingReceipt in
              (Ok (mkDispatchInfo (qb_build_id build) (qb_priority build) (qb_descriptor build)
                     trace_id connection_id (qb_queued_at build)),
               upd_queue (insert_active ab (queue s)) s)
          end
      end
  end.

Definition handle_dispatch_send_failure (build_id : BuildId) : async unit :=
  do* rollback_active_to_queued (build_id_0 build_id) in
  Ret ().

(** The two sends of [send_and_recover], under the lock of the senders. *)
Definition send_frames (cid : ConnectionId) (frames : list Frame) (s : AppState)
    : result unit DispatchError * AppState :=
  match worker_senders s !! cid with
  | None => (Err (Send ("no sender for connection " +:+ cid)), s)
  | Some tx =>
      foldl (λ acc f,
        match acc with
        | (Ok _, s) => match chan_send tx f s with
                       | (true, s) => (Ok (), s)
                       | (false, s) => (Err (Send "channel closed"), s)
                       end
        | (Err e, s) => (Err e, s)
        end) (Ok (), s) frames
  end.

Definition send_and_recover (info : DispatchInfo) (json : ServerMessage) (tar_gz_bytes : list byte)
    : async (result unit DispatchError) :=
  let* send_result := atomic (send_frames (dp_connection_id info)
                                [TextFrame json; BinaryFrame tar_gz_bytes]) in
  match send_result with
  | Err e => do* handle_dispatch_send_failure (dp_build_id info) in Ret (Err e)
  | Ok _ => Ret (Ok ())
  end.

(** The component names of step 10 and the guard against an empty list. *)
Definition pack_for (descriptor : BuildDescriptor) : async (result (list byte * string) IoError) :=
  match bc_name <$> bd_components descriptor with
  | [] => Ret (Err (IoOther "build has no components"))
  | names => pack_components names
  end.

(** Step 13: the dispatch-ack timer. *)
Definition spawn_ack_timer (build_id : Z) : async unit :=
  let* token := read_queue (A:=option nat) (λ q, ab_ack_cancel <$> q_active q !! build_id) in
  match token with
  | Some t => spawn (TaskAckTimer build_id t)
  | None => Ret ()
  end.

Definition try_dispatch : async (result unit DispatchError) :=
  let* r := atomic dispatch_under_lock in
  match r with
  | Err e => Ret (Err e)
  | Ok info =>
      let* packed := pack_for (dp_descriptor info) in
      match packed with
      | Err e =>
          do* cleanup_terminal_state (build_id_0 (dp_build_id info)) TermFailure
                ("failed to pack component tarball: " +:+ io_error_to_string e) in
          Ret (Err (Tarball e))
      | Ok (tar_gz_bytes, sha256_hex) =>
          let build_new := BuildNew (dp_build_id info) (dp_trace_id info) (dp_priority info)
                             (dp_descriptor info) sha256_hex in
          let* sent := send_and_recover info build_new tar_gz_bytes in
          match sent with
          | Err e => Ret (Err e)
          | Ok _ => do* spawn_ack_timer (build_id_0 (dp_build_id info)) in Ret (Ok ())
          end
      end
  end.

(** The body of the ack-timer task once its sleep is over: nothing when the
    token was cancelled before. *)
Definition ack_timer_fired (build_id : Z) (token : nat) : async unit :=
  let* is_cancelled := atomic (λ s, (bool_decide (token ∈ cancelled s), s)) in
  if (is_cancelled : bool) then Ret ()
  else do* rollback_active_to_queued build_id in Ret ().

(** ** Lifecycle messages of a worker *)

Definition handle_build_accepted (connection_id : ConnectionId) (build_id : Z) : async unit :=
  atomic (λ s, ((), match q_active (queue s) !! build_id with
                    | Some active => cancel_token (ab_ack_cancel active) s
                    | None => s
                    end)).

Definition handle_build_started (build_id : Z) : async unit :=
  do* query (set_build_started build_id) in
  Ret ().

Definition attach_connection_and_mark_received (build_id : Z) (connection_id : ConnectionId)
    : async unit :=
  atomic (λ s, ((), match q_active (queue s) !! build_id with
    | Some ab =>
        cancel_token (ab_ack_cancel ab)
          (upd_queue (set_active (<[build_id := mark_received (attach_connection connection_id ab)]>
                                    (q_active (queue s))) (queue s)) s)
    | None => s
    end)).

Definition handle_build_finished (connection_id : ConnectionId) (build_id : Z)
    (status : BuildState) (error build_report : option string) : async unit :=
  do* query (set_build_finished build_id status error build_report) in
  do* modify_queue (remove_active build_id) in
  do* finish_build_log build_id in
  do* remove_watcher build_id in
  do* try_dispatch in
  Ret ().

Definition handle_build_rejected (connection_id : ConnectionId) (build_id : Z) (reason : string)
    : async unit :=
  if contains "integrity" (to_lowercase reason) then
    cleanup_terminal_state build_id TermFailure reason
  else
    do* rollback_active_to_queued build_id in
    do* try_dispatch in
    Ret ().

(** ** Replies to a connection *)

Definition send_text_to_connection (connection_id : ConnectionId) (msg : ServerMessage) : async unit :=
  atomic (λ s, ((), match worker_senders s !! connection_id with
                    | Some tx => (chan_send tx (TextFrame msg) s).2
                    | None => s
                    end)).

Definition send_unauthorized_action (connection_id : ConnectionId) (build_id : BuildId)
    (action : WorkerBuildAction) (reason : UnauthorizedBuildReason) : async unit :=
  send_text_to_connection connection_id (UnauthorizedBuildAction build_id action reason).

Definition send_reporter_directed_revoke (connection_id : ConnectionId) (build_id : BuildId)
    : async unit :=
  send_text_to_connection connection_id (BuildRevoke build_id (Some UnauthorizedAction)).

(** The critical section of [authorize_lifecycle_message]. *)
Definition claim_assignment (connection_id : ConnectionId) (build_id : Z) (s : AppState)
    : bool * AppState :=
  match active_build_for_connection build_id connection_id (queue s) with
  | Some ab =>
      (true, cancel_token (ab_ack_cancel ab)
               (upd_queue (set_active (<[build_id := mark_received ab]> (q_active (queue s)))
                                      (queue s)) s))
  | None => (false, s)
  end.

Definition authorize_lifecycle_message (connection_id : ConnectionId) (build_id : BuildId)
    (action : WorkerBuildAction) : async bool :=
  let* owned := atomic (claim_assignment connection_id (build_id_0 build_id)) in
  if (owned : bool) then Ret true
  else
    do* send_unauthorized_action connection_id build_id action NotAssigned in
    do* (match action with
         | ActBuildStarted | ActBuildOutput => send_reporter_directed_revoke connection_id build_id
         | _ => Ret ()
         end) in
    Ret false.

(** Under one lock of the senders: a revoke for each migrated build on the old
    channel, then the removal of the sender. *)
Definition revoke_and_remove_superseded (old_connection_id : ConnectionId) (build_ids : list Z)
    : async unit :=
  atomic (λ s, ((),
    let s := match worker_senders s !! old_connection_id with
             | Some tx =>
                 foldl (λ s build_id,
                   (chan_send tx (TextFrame (BuildRevoke (mkBuildId build_id)
                                               (Some MigrationSupersede))) s).2) s build_ids
             | None => s
             end in
    upd_senders (delete old_connection_id (worker_senders s)) s)).

(** ** Revocation *)

Definition send_build_revoke (build_id : Z) : async (result unit DispatchError) :=
  let* connection_id := read_queue (A:=option string) (λ q, ab_connection_id <$> q_active q !! build_id) in
  match connection_id with
  | None => Ret (Err (Send ("build " +:+ pretty build_id +:+ " not in active map")))
  | Some connection_id =>
      let* r := query (set_build_revoking build_id) in
      match r with
      | Err e => Ret (Err (Database e))
      | Ok _ =>
          do* send_text_to_connection connection_id
                (BuildRevoke (mkBuildId build_id) (Some Admin)) in
          do* spawn (TaskRevokeTimeout build_id) in
          Ret (Ok ())
      end
  end.

Definition handle_revoke_timeout (build_id : Z) : async unit :=
  let* r := query (get_build build_id) in
  match r with
  | Ok (Some build) =>
      if bool_decide (rec_state build = Revoking)
      then cleanup_terminal_state build_id TermRevoked "revoke ack timeout"
      else Ret ()
  | _ => Ret ()
  end.

(** ** The periodic sweep *)

(** The inner loop of one tick: dispatch until there is nothing left to do or
    an attempt fails. *)
Fixpoint sweep_loop (fuel : nat) : async unit :=
  match fuel with
  | 0 => Ret ()
  | S fuel =>
      let* r := try_dispatch in
      match r with
      | Ok _ => sweep_loop fuel
      | Err _ => Ret ()
      end
  end.

Definition sweep_tick (fuel : nat) : async unit :=
  let* should_dispatch := read_queue (λ q, has_pending q && has_idle_workers q) in
  if (should_dispatch : bool) then sweep_loop fuel else Ret ().

End Dispatch.
