(* ===== verification/Handler.v ===== *)
(** * The per-connection WebSocket handler (ws/handler.rs, ws/liveness.rs)

    The life of a worker connection: handshake, migration of the assignments of
    a previous connection, the message loop, the reconnection tables, and the
    resolution of a dead worker's builds. *)

From stdpp Require Import prelude gmap strings list pretty.
From S2P Require Import Prelude Async Proto Queue Db App Logs Dispatch.

(** A frame received from the socket. A text frame carries what serde_json makes
    of it: a message or a parse error. *)
Inductive Incoming :=
| InText (parsed : result WorkerMessage string)
| InClose
| InOther
| InError (e : string).

Record IdleReconcileCandidate := mkCandidate {
  cand_build_id : Z;
  cand_prev_connection_id : ConnectionId;
  cand_receipt : ActiveAssignmentReceipt;
  cand_prev_connection_live : bool
}.

Inductive IdleReconcileAction := IdleSkip | IdleRollbackToQueued | IdleFailBuild | IdleMarkRevoked.

Definition idle_reconcile_decision (db_state : BuildState) (receipt : ActiveAssignmentReceipt)
    (prev_connection_live : bool) : IdleReconcileAction :=
  match db_state with
  | Dispatched =>
      match receipt with
      | AwaitingReceipt => if prev_connection_live then IdleSkip else IdleRollbackToQueued
      | ReceivedByWorker => IdleRollbackToQueued
      end
  | Started => IdleFailBuild
  | Revoking => IdleMarkRevoked
  | _ => IdleSkip
  end.

Inductive DeadWorkerAction :=
| DeadRollbackToQueued
| DeadFail (reason : string)
| DeadMarkRevoked (reason : string)
| DeadRemoveOnly.

Definition dead_worker_resolution (db_state : BuildState) (receipt : ActiveAssignmentReceipt)
    : DeadWorkerAction :=
  match db_state with
  | Dispatched =>
      match receipt with
      | AwaitingReceipt => DeadRollbackToQueued
      | ReceivedByWorker => DeadFail "worker died after accepting assignment"
      end
  | Started => DeadFail "worker died during execution"
  | Revoking => DeadMarkRevoked "revoke completed by worker death"
  | _ => DeadRemoveOnly
  end.

Definition message_type_name (msg : WorkerMessage) : string :=
  match msg with
  | Hello _ _ _ _ _ => "hello"
  | BuildAccepted _ => "build_accepted"
  | BuildStarted _ => "build_started"
  | BuildOutput _ _ _ => "build_output"
  | BuildFinished _ _ _ _ => "build_finished"
  | BuildRejected _ _ => "build_rejected"
  | WorkerStatus _ _ => "worker_status"
  | WorkerStopping _ => "worker_stopping"
  | Metrics _ _ _ => "metrics"
  end.

(** The [builds.state] of a [BuildFinishedStatus]. *)
Definition finished_state (status : BuildFinishedStatus) : BuildState :=
  match status with
  | FinSuccess => Success
  | FinFailure => Failure
  | FinRevoked => Revoked
  end.

Definition is_connected (w : WorkerState) : bool :=
  match w with Connected _ _ _ _ _ _ => true | _ => false end.

(** ** Handshake *)

(** [wait_for_hello]: the first text frame, and the frames after it. The timeout
    of ten seconds elapses after [elapsed_after] frames. *)
Fixpoint wait_for_hello (elapsed_after : nat) (frames : list Incoming)
    : result WorkerMessage string * list Incoming :=
  match elapsed_after with
  | 0 => (Err "hello timeout (10s)", frames)
  | S n =>
      match frames with
      | [] => (Err "connection closed before hello", [])
      | InText (Ok m) :: frames => (Ok m, frames)
      | InText (Err e) :: frames => (Err ("invalid hello frame: " +:+ e), frames)
      | InClose :: frames => (Err "connection closed before hello", frames)
      | InOther :: frames => wait_for_hello n frames
      | InError e :: frames => (Err ("receive error: " +:+ e), frames)
      end
  end.

Definition quote : string := String (Ascii.ascii_of_nat 34) "".

(** The checks of step 2 of [handle_connection]: the worker's description, or
    the error message to send before closing. *)
Definition check_hello (row : WorkerRow) (hello : WorkerMessage)
    : result (Arch * Z * Z * option string) ServerMessage :=
  match hello with
  | Hello protocol_version arch cores_total ram_total_mb version =>
      if negb (protocol_version =? 2)%Z then
        Err (ErrorMsg ("unsupported protocol version " +:+ pretty protocol_version
                       +:+ "; server supports 2") (Some 2%Z) (Some 2%Z))
      else
        match arch_of_string (wr_arch row) with
        | None =>
            Err (ErrorMsg ("worker '" +:+ wr_name row +:+ "' has invalid arch '" +:+ wr_arch row
                           +:+ "' in database — cannot validate") None None)
        | Some registered_arch =>
            if negb (bool_decide (arch = registered_arch)) then
              Err (ErrorMsg ("arch mismatch: worker '" +:+ wr_name row +:+ "' registered as "
                             +:+ wr_arch row +:+ " but reported " +:+ arch_to_string arch
                             +:+ " — re-register with correct arch or fix the worker token")
                     None None)
            else Ok (arch, cores_total, ram_total_mb, version)
        end
  | other =>
      Err (ErrorMsg ("expected hello, got " +:+ quote +:+ message_type_name other +:+ quote)
             None None)
  end.

Section Handler.
Context `{Env} `{HashIter} `{Serde}.

(** ** Dead workers *)

Definition resolve_dead_build (build_id : Z) (receipt : ActiveAssignmentReceipt) : async unit :=
  let* r := query (get_build build_id) in
  match r with
  | Ok (Some b) =>
      match dead_worker_resolution (rec_state b) receipt with
      | DeadRollbackToQueued => do* rollback_active_to_queued build_id in Ret ()
      | DeadFail reason => cleanup_terminal_state build_id TermFailure reason
      | DeadMarkRevoked reason => cleanup_terminal_state build_id TermRevoked reason
      | DeadRemoveOnly => modify_queue (remove_active build_id)
      end
  | _ => Ret ()
  end.

Definition handle_worker_dead (connection_id : ConnectionId) : async unit :=
  let* owned := read_queue (active_builds_with_receipt_for_connection connection_id) in
  do* for_each owned (λ '(build_id, receipt), resolve_dead_build build_id receipt) in
  do* try_dispatch in
  Ret ().

(** The body of the grace-period task once its sleep is over. *)
Definition grace_period_expired (connection_id : ConnectionId) : async unit :=
  let* still_disconnected := read_queue (λ q,
    match get_worker connection_id q with
    | Some (Disconnected _ _ _ _) => true
    | _ => false
    end) in
  if (still_disconnected : bool) then
    do* modify_queue (set_worker_state connection_id Dead) in
    handle_worker_dead connection_id
  else Ret ().

(** ** Reconnection *)

Definition idle_reconcile_one (candidate : IdleReconcileCandidate) (registered_worker_id : string)
    : async unit :=
  let* r := query (get_build (cand_build_id candidate)) in
  match r with
  | Ok (Some build) =>
      if negb (bool_decide (rec_worker_id build = Some registered_worker_id)) then Ret ()
      else
        match idle_reconcile_decision (rec_state build) (cand_receipt candidate)
                (cand_prev_connection_live candidate) with
        | IdleSkip => Ret ()
        | IdleRollbackToQueued => do* rollback_active_to_queued (cand_build_id candidate) in Ret ()
        | IdleFailBuild =>
            cleanup_terminal_state (cand_build_id candidate) TermFailure "worker lost build"
        | IdleMarkRevoked =>
            cleanup_terminal_state (cand_build_id candidate) TermRevoked
              "idle worker on revoking build"
        end
  | _ => Ret ()
  end.

(** The candidates of phase 1: the active builds of the other connections. *)
Definition idle_candidates (connection_id : ConnectionId) (q : BuildQueue)
    : list IdleReconcileCandidate :=
  (λ ab, mkCandidate (ab_build_id ab) (ab_connection_id ab) (ab_receipt ab)
           (match get_worker (ab_connection_id ab) q with
            | Some ws => is_connected ws
            | None => false
            end)) <$>
    filter (λ ab, ab_connection_id ab ≠ connection_id) (hash_values (q_active q)).

(** The branch [(Building, Some(build_id))] of [handle_worker_status]. *)
Definition handle_status_building (connection_id : ConnectionId) (registered_worker_id : string)
    (build_id : BuildId) : async unit :=
  let id := build_id_0 build_id in
  let* r := query (get_build id) in
  match r with
  | Err _ => Ret ()
  | Ok None => send_reporter_directed_revoke connection_id build_id
  | Ok (Some build) =>
      let resumable := bool_decide (rec_state build = Dispatched)
                       || bool_decide (rec_state build = Started) in
      let owns := resumable && bool_decide (rec_worker_id build = Some registered_worker_id) in
      if resumable && negb owns then
        do* send_unauthorized_action connection_id build_id ActWorkerStatus NotAssigned in
        send_reporter_directed_revoke connection_id build_id
      else
        match rec_state build with
        | Queued => do* send_build_revoke id in Ret ()
        | Dispatched => attach_connection_and_mark_received id connection_id
        | Started =>
            modify_queue (λ q, match q_active q !! id with
              | Some ab => set_active (<[id := attach_connection connection_id ab]> (q_active q)) q
              | None => q
              end)
        | Revoking => do* send_build_revoke id in Ret ()
        | Failure | Success | Revoked => do* send_build_revoke id in Ret ()
        end
  end.

Definition handle_worker_status (connection_id : ConnectionId) (registered_worker_id : string)
    (reported_state : WorkerReportedState) (reported_build_id : option BuildId) : async unit :=
  match reported_state, reported_build_id with
  | Building, Some build_id => handle_status_building connection_id registered_worker_id build_id
  | Idle, _ =>
      let* candidates := read_queue (idle_candidates connection_id) in
      do* for_each candidates (λ cand, idle_reconcile_one cand registered_worker_id) in
      do* try_dispatch in
      Ret ()
  | Building, None => Ret ()
  end.

(** ** Messages *)

(** The handlers of [handle_worker_message] that follow a successful
    authorization. *)
Definition authorized (connection_id : ConnectionId) (build_id : BuildId)
    (action : WorkerBuildAction) (k : async unit) : async unit :=
  let* owned := authorize_lifecycle_message connection_id build_id action in
  if (owned : bool) then k else Ret ().

Definition handle_worker_message (connection_id : ConnectionId) (worker_name : string)
    (registered_worker_id : string) (msg : WorkerMessage) : async unit :=
  match msg with
  | Hello _ _ _ _ _ => Ret ()
  | BuildAccepted build_id =>
      authorized connection_id build_id ActBuildAccepted
        (handle_build_accepted connection_id (build_id_0 build_id))
  | BuildStarted build_id =>
      authorized connection_id build_id ActBuildStarted
        (handle_build_started (build_id_0 build_id))
  | BuildOutput build_id start_seq lines =>
      authorized connection_id build_id ActBuildOutput
        (do* write_build_output (build_id_0 build_id) connection_id start_seq lines in Ret ())
  | BuildFinished build_id status error build_report =>
      authorized connection_id build_id ActBuildFinished
        (let report_json := if bool_decide (status = FinSuccess) then build_report else None in
         do* handle_build_finished connection_id (build_id_0 build_id) (finished_state status)
               error report_json in
         do* query (update_last_seen registered_worker_id) in
         Ret ())
  | BuildRejected build_id reason =>
      authorized connection_id build_id ActBuildRejected
        (handle_build_rejected connection_id (build_id_0 build_id) reason)
  | WorkerStatus state build_id =>
      handle_worker_status connection_id registered_worker_id state build_id
  | WorkerStopping _ =>
      modify_queue (set_worker_state connection_id (Stopping registered_worker_id worker_name))
  | Metrics _ _ _ => Ret ()
  end.

(** [receive_task]: the frames up to a close frame or an error. *)
Fixpoint receive_loop (connection_id : ConnectionId) (worker_name registered_worker_id : string)
    (frames : list Incoming) : async unit :=
  match frames with
  | [] | InError _ :: _ | InClose :: _ => Ret ()
  | InText (Ok msg) :: frames =>
      do* handle_worker_message connection_id worker_name registered_worker_id msg in
      receive_loop connection_id worker_name registered_worker_id frames
  | InText (Err _) :: frames | InOther :: frames =>
      receive_loop connection_id worker_name registered_worker_id frames
  end.

(** ** Connection close *)

Definition cleanup_worker (connection_id : ConnectionId) (worker_name registered_worker_id : string)
    (is_stopping : bool) : async unit :=
  do* remove_sender connection_id in
  if is_stopping then
    do* modify_queue (set_worker_state connection_id Dead) in
    handle_worker_dead connection_id
  else
    let* arch := read_queue (A:=option Arch) (λ q, get_worker connection_id q ≫= worker_arch) in
    match arch with
    | Some arch =>
        let* t := now in
        do* modify_queue (set_worker_state connection_id
              (Disconnected t registered_worker_id worker_name arch)) in
        spawn (TaskGraceMonitor connection_id)
    | None =>
        do* modify_queue (set_worker_state connection_id Dead) in
        handle_worker_dead connection_id
    end.

(** ** Migration to a new connection *)

(** The search of step 3: another connection of the same registered worker, and
    whether it is still connected. *)
Definition find_old_connection (registered_id : string) (connection_id : ConnectionId)
    (q : BuildQueue) : option (ConnectionId * bool) :=
  find_map (λ '(cid, ws),
      if bool_decide (registered_worker_id ws = Some registered_id)
         && negb (bool_decide (cid = connection_id))
      then Some (cid, is_connected ws) else None)
    (hash_iter (q_workers q)).

(** The critical section of step 3: migrate the active builds of the old
    connection, drop it and register the new one. *)
Definition migrate_connection (registered_id : string) (connection_id : ConnectionId)
    (new_state : WorkerState) (q : BuildQueue)
    : option (ConnectionId * bool * list Z) * BuildQueue :=
  match find_old_connection registered_id connection_id q with
  | Some (old_cid, was_connected) =>
      let migrated_builds :=
        ab_build_id <$> filter (λ ab, ab_connection_id ab = old_cid) (hash_values (q_active q)) in
      let active := (λ ab, if bool_decide (ab_connection_id ab = old_cid)
                           then attach_connection connection_id ab else ab) <$> q_active q in
      let q := (remove_worker old_cid (set_active active q)).2 in
      (Some (old_cid, was_connected, migrated_builds), register_worker connection_id new_state q)
  | None => (None, register_worker connection_id new_state q)
  end.

(** A message sent on the socket itself, before there is an outbound channel. The
    socket is outside of the state: only whether the send failed matters here. *)
Definition send_json (msg : ServerMessage) : async bool :=
  atomic (λ s, let '(failed, s) := next_fault s in (negb failed, s)).

(** Step 4. *)
Definition welcome (connection_id : ConnectionId) : ServerMessage :=
  Welcome 2 connection_id liveness_grace_period_secs metrics_enabled.

(** Step 3b: the outbound channel of the connection. *)
Definition open_channel (connection_id : ConnectionId) : async nat :=
  atomic (λ s,
    let '(c, s) := alloc s in
    (c, upd_senders (<[connection_id := c]> (worker_senders s))
          (upd_channels (<[c := mkChannel true []]> (channels s)) s))).

(** The receiver is dropped when the handler returns. *)
Definition drop_receiver (c : nat) : async unit :=
  atomic (λ s, ((), match channels s !! c with
    | Some ch => upd_channels (<[c := mkChannel false (c_sent ch)]> (channels s)) s
    | None => s
    end)).

(** The handling of the superseded connection after the queue lock is released. *)
Definition retire_old_connection (old : option (ConnectionId * bool * list Z)) : async unit :=
  match old with
  | Some (old_cid, was_connected, migrated_builds) =>
      do* revoke_and_remove_superseded old_cid migrated_builds in
      if was_connected then handle_worker_dead old_cid else Ret ()
  | None => Ret ()
  end.

(** Step 6: the final state of a closed connection. *)
Definition close_connection (connection_id : ConnectionId) (worker_name registered_worker_id : string)
    : async unit :=
  let* is_stopping := read_queue (λ q, match get_worker connection_id q with
                                       | Some (Stopping _ _) => true
                                       | _ => false
                                       end) in
  cleanup_worker connection_id worker_name registered_worker_id is_stopping.

(** [handle_connection] for the frames that arrive on the socket. *)
Definition handle_connection (connection_id : ConnectionId) (row : WorkerRow)
    (elapsed_after : nat) (frames : list Incoming) : async unit :=
  match wait_for_hello elapsed_after frames with
  | (Err reason, _) => do* send_json (ErrorMsg reason (Some 2%Z) (Some 2%Z)) in Ret ()
  | (Ok hello, frames) =>
      match check_hello row hello with
      | Err error => do* send_json error in Ret ()
      | Ok (arch, cores_total, ram_total_mb, version) =>
          let worker_name := wr_name row in
          let registered_id := wr_id row in
          do* query (update_last_seen registered_id) in
          let* old := with_queue (migrate_connection registered_id connection_id
                 (Connected registered_id worker_name arch cores_total ram_total_mb version)) in
          do* retire_old_connection old in
          let* outbound := open_channel connection_id in
          let* welcomed := send_json (welcome connection_id) in
          if negb welcomed then
            do* cleanup_worker connection_id worker_name registered_id false in
            drop_receiver outbound
          else
            do* spawn TaskTryDispatch in
            do* receive_loop connection_id worker_name registered_id frames in
            do* close_connection connection_id worker_name registered_id in
            drop_receiver outbound
      end
  end.

End Handler.
