(* ===== verification/Lifecycle.v ===== *)
(** * The life of a build, abstractly

    The specification the server is measured against: what each build's state
    may become, and how the states in the database agree with the in-memory
    queue when no handler is half-way through. *)

From stdpp Require Import prelude gmap strings list relations.
From S2P Require Import Prelude Proto Queue Dispatch.

Definition in_flight (st : BuildState) : Prop :=
  st = Dispatched ∨ st = Started ∨ st = Revoking.

Definition terminal (st : BuildState) : Prop :=
  st = Success ∨ st = Failure ∨ st = Revoked.

#[global] Instance in_flight_dec st : Decision (in_flight st).
Proof. unfold in_flight. apply _. Defined.
#[global] Instance terminal_dec st : Decision (terminal st).
Proof. unfold terminal. apply _. Defined.

(** ** The lifecycle of one build *)

Inductive lifecycle : option BuildState → BuildState → Prop :=
| lc_submit : lifecycle None Queued
| lc_dispatch : lifecycle (Some Queued) Dispatched
| lc_cancel : lifecycle (Some Queued) Revoked
| lc_rollback st : in_flight st → lifecycle (Some st) Queued
| lc_start st : in_flight st → lifecycle (Some st) Started
| lc_revoke st : in_flight st → lifecycle (Some st) Revoking
| lc_finish st t : in_flight st → terminal t → lifecycle (Some st) t.

(** The states of all builds: one build makes a lifecycle transition. *)
Inductive lc_step : gmap Z BuildState → gmap Z BuildState → Prop :=
| lc_step_intro B id st : lifecycle (B !! id) st → lc_step B (<[id := st]> B).

Definition lc_steps : relation (gmap Z BuildState) := rtc lc_step.

(** ** Agreement of the queue with the database

    [coh B n q]: the lanes hold exactly the builds that are queued in the
    database, each once; the active map holds exactly those in flight, under
    their own id; [n.1] bounds the ids given out, also those of the builds [n.2]
    that have a log row. *)
Record coh (B : gmap Z BuildState) (n : Z * gset Z) (q : BuildQueue) : Prop := mkCoh {
  coh_lanes : lanes_wf q;
  coh_nodup : NoDup (pending_ids q);
  coh_pending : ∀ id, id ∈ pending_ids q ↔ B !! id = Some Queued;
  coh_active : ∀ id, is_Some (q_active q !! id) ↔ ∃ st, B !! id = Some st ∧ in_flight st;
  coh_keys : ∀ id ab, q_active q !! id = Some ab → ab_build_id ab = id;
  coh_ids : ∀ id, is_Some (B !! id) → (id < n.1)%Z;
  coh_logs : ∀ id, id ∈ n.2 → (id < n.1)%Z
}.

(** ** The lifecycle as a specification *)

Lemma lifecycle_from_terminal st st' : terminal st → ¬ lifecycle (Some st) st'.
Proof. intros [-> | [-> | ->]] Hl; inversion Hl; unfold in_flight in *; naive_solver. Qed.

Lemma lc_step_terminal B B' id st :
  lc_step B B' → B !! id = Some st → terminal st → B' !! id = Some st.
Proof.
  intros [B0 id' st' Hl] Hid Ht. destruct (decide (id' = id)) as [->|Hne].
  - rewrite Hid in Hl. by apply lifecycle_from_terminal in Hl.
  - by rewrite lookup_insert_ne.
Qed.

(** Terminal states are absorbing. *)
Lemma lc_steps_terminal B B' id st :
  lc_steps B B' → B !! id = Some st → terminal st → B' !! id = Some st.
Proof. induction 1; eauto using lc_step_terminal. Qed.

Lemma lc_steps_known B B' id : lc_steps B B' → is_Some (B !! id) → is_Some (B' !! id).
Proof.
  induction 1 as [|B1 B2 B3 [B id' st Hl] _ IH]; intros Hid; [done|].
  apply IH. by apply lookup_insert_is_Some'; right.
Qed.

(** A build reaches [Dispatched] only from [Queued]. *)
Lemma lc_step_dispatched B B' id :
  lc_step B B' → B' !! id = Some Dispatched → B !! id = Some Dispatched ∨ B !! id = Some Queued.
Proof.
  intros [B0 id' st Hl]. rewrite lookup_insert. case_decide as Hd; [|auto]. subst.
  intros [= ->]. inversion Hl; subst; auto; unfold terminal in *; naive_solver.
Qed.

(** ** The agreement along the transitions *)

Lemma in_flight_not_queued st : in_flight st → st ≠ Queued.
Proof. by intros [-> | [-> | ->]]. Qed.
Lemma terminal_not_queued st : terminal st → st ≠ Queued.
Proof. by intros [-> | [-> | ->]]. Qed.
Lemma terminal_not_in_flight st : terminal st → ¬ in_flight st.
Proof. intros [-> | [-> | ->]] [|[|]]; done. Qed.
Lemma queued_not_in_flight : ¬ in_flight Queued.
Proof. by intros [|[|]]. Qed.
#[export] Hint Resolve in_flight_not_queued terminal_not_queued terminal_not_in_flight
  queued_not_in_flight : cbs.

Lemma in_flight_dispatched : in_flight Dispatched.
Proof. by left. Qed.
Lemma in_flight_started : in_flight Started.
Proof. by right; left. Qed.
Lemma in_flight_revoking : in_flight Revoking.
Proof. by right; right. Qed.
Lemma terminal_of_status t : terminal (terminal_state t).
Proof. unfold terminal. destruct t; naive_solver. Qed.
#[export] Hint Resolve in_flight_dispatched in_flight_started in_flight_revoking
  terminal_of_status : cbs.

Lemma pending_ids_perm q q' l :
  pending q ≡ₚ l ++ pending q' →
  pending_ids q ≡ₚ ((λ b, build_id_0 (qb_build_id b)) <$> l) ++ pending_ids q'.
Proof. intros Hp. unfold pending_ids. by rewrite Hp, fmap_app. Qed.

Section CohLemmas.
Context {B : gmap Z BuildState} {n : Z * gset Z} {q : BuildQueue} (Hc : coh B n q).

Lemma coh_pending_not_active id : id ∈ pending_ids q → q_active q !! id = None.
Proof using Hc.
  intros Hp. apply eq_None_not_Some. intros Ha. apply (coh_active _ _ _ Hc) in Ha as (st & Hst & Hf).
  apply (coh_pending _ _ _ Hc) in Hp. simplify_eq. by apply queued_not_in_flight.
Qed.

Lemma coh_active_state id : is_Some (q_active q !! id) → ∃ st, B !! id = Some st ∧ in_flight st.
Proof using Hc. apply (coh_active _ _ _ Hc). Qed.

(** A change of state among the states in flight. *)
Lemma coh_change_in_flight id st :
  is_Some (q_active q !! id) → in_flight st → coh (<[id := st]> B) n q.
Proof using Hc.
  intros Ha Hst. destruct (coh_active_state _ Ha) as (st0 & H0 & Hf0).
  destruct Hc as [H1 H2 H3 H4 H5 H6 H7]. split; try done.
  - intros id'. rewrite H3, lookup_insert. case_decide; [|done]. subst.
    split; intros; simplify_eq; exfalso; [by apply queued_not_in_flight|naive_solver auto with cbs].
  - intros id'. rewrite lookup_insert. case_decide; [|by rewrite H4]. subst.
    split; [|done]. intros _. by exists st.
  - intros id'. rewrite lookup_insert_is_Some'. intros [->|Hi]; [|by apply H6].
    apply H6. by exists st0.
Qed.

(** The end of a build in flight. *)
Lemma coh_finish id st :
  is_Some (q_active q !! id) → terminal st →
  coh (<[id := st]> B) n (remove_active id q).
Proof using Hc.
  intros Ha Hst. destruct (coh_active_state _ Ha) as (st0 & H0 & Hf0).
  destruct Hc as [H1 H2 H3 H4 H5 H6 H7]. split; simpl; try done.
  - intros id'. change (pending_ids (remove_active id q)) with (pending_ids q).
    rewrite H3, lookup_insert. case_decide; [|done]. subst.
    split; intros; simplify_eq; exfalso; [by apply queued_not_in_flight|by eapply terminal_not_queued].
  - intros id'. rewrite lookup_delete, lookup_insert. case_decide; [|by rewrite H4]. subst.
    split; [by intros []|]. intros (st' & Hs' & Hf'). simplify_eq.
    exfalso. by eapply terminal_not_in_flight.
  - intros id' ab. rewrite lookup_delete. case_decide; [done|]. apply H5.
  - intros id'. rewrite lookup_insert_is_Some'. intros [->|Hi]; [|by apply H6].
    apply H6. by exists st0.
Qed.

(** The return of a build in flight to the front of its lane. *)
Lemma coh_rollback id b :
  is_Some (q_active q !! id) → qb_build_id b = mkBuildId id →
  coh (<[id := Queued]> B) n (enqueue_front b (remove_active id q)).
Proof using Hc.
  intros Ha Hb. destruct (coh_active_state _ Ha) as (st0 & H0 & Hf0).
  assert (pending_ids (enqueue_front b (remove_active id q)) ≡ₚ id :: pending_ids q) as Hp.
  { etrans; [apply (pending_ids_perm _ (remove_active id q) [b]), pending_enqueue_front_perm|].
    simpl. by rewrite Hb. }
  assert (id ∉ pending_ids q) as Hni.
  { intros Hin. apply coh_pending_not_active in Hin. rewrite Hin in Ha. by destruct Ha. }
  assert (q_active (enqueue_front b (remove_active id q)) = delete id (q_active q)) as Hact.
  { unfold enqueue_front. by rewrite (proj1 (lane_set_rest _ _ _)). }
  destruct Hc as [H1 H2 H3 H4 H5 H6 H7]. split; rewrite ?Hact.
  - by apply lanes_wf_enqueue_front, lanes_wf_active.
  - rewrite Hp. by constructor.
  - intros id'. rewrite Hp, elem_of_cons, H3, lookup_insert.
    case_decide; naive_solver.
  - intros id'. rewrite lookup_delete, lookup_insert. case_decide; [|by rewrite H4]. subst.
    split; [by intros []|]. intros (st' & Hs' & Hf'). simplify_eq.
    by apply queued_not_in_flight in Hf'.
  - intros id' ab. rewrite lookup_delete. case_decide; [done|]. apply H5.
  - intros id'. rewrite lookup_insert_is_Some'. intros [->|Hi]; [|by apply H6].
    apply H6. by exists st0.
  - done.
Qed.

(** The dispatch of the pending build at the head of the queue. *)
Lemma coh_dispatch b q' ab :
  next_pending q = (Some b, q') → ab_build_id ab = build_id_0 (qb_build_id b) →
  coh (<[ab_build_id ab := Dispatched]> B) n (insert_active ab q').
Proof using Hc.
  intros Hn Hab. pose proof (lanes_wf_next_pending q (coh_lanes _ _ _ Hc)) as Hl.
  rewrite Hn in Hl. apply next_pending_Some in Hn as (Hp & Ha & _). simpl in Hl.
  assert (pending_ids q = ab_build_id ab :: pending_ids q') as Hids.
  { unfold pending_ids. rewrite Hp, Hab. done. }
  destruct Hc as [H1 H2 H3 H4 H5 H6 H7]. rewrite Hids in *. apply NoDup_cons in H2 as [Hni Hnd].
  assert (B !! ab_build_id ab = Some Queued) as HQ by (apply H3; by left).
  split; simpl; rewrite ?Ha.
  - by apply lanes_wf_active.
  - done.
  - intros id. change (pending_ids (insert_active ab q')) with (pending_ids q').
    rewrite lookup_insert. case_decide; subst; [by split; intros|].
    rewrite <- H3, elem_of_cons. naive_solver.
  - intros id. rewrite !lookup_insert. case_decide; [|by rewrite H4]. subst.
    split; [|done]. intros _. exists Dispatched. auto with cbs.
  - intros id ab'. rewrite lookup_insert. case_decide; [naive_solver|]. apply H5.
  - intros id. rewrite lookup_insert_is_Some'. intros [<-|Hi]; [|by apply H6].
    apply H6. by exists Queued.
  - done.
Qed.

(** The arrival of a new build. *)
Lemma coh_submit b :
  qb_build_id b = mkBuildId n.1 →
  coh (<[n.1 := Queued]> B) (n.1 + 1, {[n.1]} ∪ n.2)%Z (enqueue b q).
Proof using Hc.
  intros Hb.
  assert (pending_ids (enqueue b q) ≡ₚ n.1 :: pending_ids q) as Hp.
  { etrans; [apply (pending_ids_perm _ q [b]), pending_enqueue_perm|]. simpl. by rewrite Hb. }
  assert (q_active (enqueue b q) = q_active q) as Hact.
  { unfold enqueue. by rewrite (proj1 (lane_set_rest _ _ _)). }
  assert (B !! n.1 = None) as Hn.
  { apply eq_None_not_Some. intros Hi. apply (coh_ids _ _ _ Hc) in Hi. lia. }
  destruct Hc as [H1 H2 H3 H4 H5 H6 H7]. split; rewrite ?Hact.
  - by apply lanes_wf_enqueue.
  - rewrite Hp. constructor; [|done]. rewrite H3. congruence.
  - intros id. rewrite Hp, elem_of_cons, H3, lookup_insert. case_decide; naive_solver.
  - intros id. rewrite H4, lookup_insert. case_decide; [subst|done]. split.
    + intros (? & ? & _). congruence.
    + intros (st' & Hs' & Hf'). simplify_eq. by apply queued_not_in_flight in Hf'.
  - done.
  - intros id. rewrite lookup_insert_is_Some'. intros [<-|Hi]; [simpl; lia|]. apply H6 in Hi. simpl. lia.
  - intros id. simpl. rewrite elem_of_union, elem_of_singleton. intros [-> | Hi]; [lia|].
    apply H7 in Hi. lia.
Qed.

(** The cancellation of a pending build. *)
Lemma coh_cancel id st :
  B !! id = Some Queued → terminal st →
  coh (<[id := st]> B) n (remove_by_id (mkBuildId id) q).2.
Proof using Hc.
  intros HQ Hst. pose proof (lanes_wf_remove_by_id (mkBuildId id) q (coh_lanes _ _ _ Hc)) as Hl.
  destruct (remove_by_id (mkBuildId id) q) as [[b|] q'] eqn:E; simpl in *.
  - apply remove_by_id_Some in E as (Hp & Hb & Ha & _).
    assert (pending_ids q ≡ₚ id :: pending_ids q') as Hids.
    { etrans; [apply (pending_ids_perm _ q' [b]), Hp|]. simpl. by rewrite Hb. }
    destruct Hc as [H1 H2 H3 H4 H5 H6 H7]. rewrite Hids in H2. apply NoDup_cons in H2 as [Hni Hnd].
    split; rewrite ?Ha; try done.
    + intros id'. rewrite lookup_insert. case_decide; subst.
      * split; [by intros ?%Hni|]. intros [= ->]. by apply terminal_not_queued in Hst.
      * rewrite <- H3, Hids, elem_of_cons. naive_solver.
    + intros id'. rewrite H4, lookup_insert. case_decide; [subst|done]. split.
      * intros (st' & Hs' & Hf'). simplify_eq. by apply queued_not_in_flight in Hf'.
      * intros (st' & Hs' & Hf'). simplify_eq. exfalso. by eapply terminal_not_in_flight.
    + intros id'. rewrite lookup_insert_is_Some'. intros [<-|Hi]; apply H6; [by exists Queued|done].
  - apply remove_by_id_None in E as [_ Hf]. exfalso.
    apply (coh_pending _ _ _ Hc) in HQ. unfold pending_ids in HQ.
    apply list_elem_of_fmap in HQ as (b & -> & Hb). rewrite Forall_forall in Hf.
    apply (Hf b Hb). by destruct (qb_build_id b).
Qed.

End CohLemmas.

(** Changes of the active entries that keep their keys and ids, and changes of
    the workers, do not matter. *)
Lemma coh_same_active B n q q' :
  coh B n q → (∀ p, lane p q' = lane p q) →
  (∀ id, ab_build_id <$> q_active q' !! id = ab_build_id <$> q_active q !! id) →
  coh B n q'.
Proof.
  intros [H1 H2 H3 H4 H5 H6 H7] Hl Ha.
  assert (pending q' = pending q) as Hp.
  { unfold pending. f_equal; [apply (Hl High)|f_equal; [apply (Hl Normal)|apply (Hl Low)]]. }
  assert (∀ id, is_Some (q_active q' !! id) ↔ is_Some (q_active q !! id)) as Hs.
  { intros id. specialize (Ha id). rewrite <- !(fmap_is_Some ab_build_id). by rewrite Ha. }
  split; unfold pending_ids; rewrite ?Hp; try done.
  - intros p. rewrite Hl. apply H1.
  - intros id. by rewrite Hs.
  - intros id ab Hab. specialize (Ha id). rewrite Hab in Ha. simpl in Ha.
    destruct (q_active q !! id) eqn:E; simplify_eq/=. rewrite Ha. by eapply H5.
Qed.
