(* ===== verification/Coherence.v ===== *)
(** * Handlers keep the queue and the database in agreement

    Every handler of the dispatch engine and of the WebSocket layer, executed
    without failures of the database and without another task in between, takes
    a state in which the queue agrees with the database to another one, and
    moves the builds only along the lifecycle. *)

From stdpp Require Import prelude gmap strings list relations.
From S2P Require Import Prelude Async Proto Queue Db App Logs Dispatch Handler Lifecycle.

(** The states of the builds in the database. *)
Definition states (s : AppState) : gmap Z BuildState := br_state <$> t_builds (pool s).

(** The next id and the builds with a log row. *)
Definition db_ids (d : Db) : Z * gset Z := (t_next_build_id d, dom (t_build_logs d)).
Definition ids (s : AppState) : Z * gset Z := db_ids (pool s).

Definition Coh (s : AppState) : Prop := coh (states s) (ids s) (queue s) ∧ faults s = [].

(** [m] refines the lifecycle specification from the states that satisfy [P]. *)
Definition refines {A} (P : AppState → Prop) (m : async A) : Prop :=
  ∀ s, Coh s → P s → Coh (run m s).2 ∧ lc_steps (states s) (states (run m s).2).

(** [eff m fB fq]: without failures, [m] changes the build states by [fB] and
    the queue by [fq]. *)
Definition eff {A} (m : async A) (fB : gmap Z BuildState → gmap Z BuildState)
    (fq : BuildQueue → BuildQueue) : Prop :=
  ∀ s, faults s = [] →
    states (run m s).2 = fB (states s) ∧
    ids (run m s).2 = ids s ∧
    queue (run m s).2 = fq (queue s) ∧ faults (run m s).2 = [].

(** The parts of the state the agreement is about did not change. *)
Definition frame (s s' : AppState) : Prop :=
  pool s' = pool s ∧ queue s' = queue s ∧ faults s' = faults s.

(** A statement that leaves the builds alone, or sets the state of one. *)
Definition keeps_builds {A} (st : stmt A) : Prop :=
  ∀ t d, t_builds (st t d).2 = t_builds d ∧ db_ids (st t d).2 = db_ids d.

Definition sets_state {A} (st : stmt A) (id : Z) (new : BuildState) : Prop :=
  ∀ t d, br_state <$> t_builds (st t d).2 = alter (λ _, new) id (br_state <$> t_builds d) ∧
         db_ids (st t d).2 = db_ids d.

Create HintDb eff.

(** ** Statements *)

Lemma update_build_sets id f new d :
  (∀ r, br_state (f r) = new) →
  br_state <$> t_builds (update_build id f d).2 = alter (λ _, new) id (br_state <$> t_builds d) ∧
  db_ids (update_build id f d).2 = db_ids d.
Proof.
  intros Hf. unfold update_build. destruct (t_builds d !! id) as [r|] eqn:E; simpl.
  - split; [|done]. apply map_eq. intros i. rewrite lookup_fmap, lookup_insert, lookup_alter.
    case_decide; subst; rewrite lookup_fmap, ?E; simpl; by rewrite ?Hf.
  - split; [|done]. symmetry. apply map_eq. intros i. rewrite lookup_alter.
    case_decide; [subst|done]. by rewrite lookup_fmap, E.
Qed.

Ltac solve_sets := intros ? ?; by apply update_build_sets.

Lemma sets_update_build_state id st e : sets_state (update_build_state id st e) id st.
Proof. solve_sets. Qed.
Lemma sets_rollback id : sets_state (rollback_dispatch_to_queued id) id Queued.
Proof. solve_sets. Qed.
Lemma sets_dispatched id t w : sets_state (set_build_dispatched id t w) id Dispatched.
Proof. solve_sets. Qed.
Lemma sets_started id : sets_state (set_build_started id) id Started.
Proof. solve_sets. Qed.
Lemma sets_finished id st e r : sets_state (set_build_finished id st e r) id st.
Proof. solve_sets. Qed.
Lemma sets_revoking id : sets_state (set_build_revoking id) id Revoking.
Proof. solve_sets. Qed.
#[export] Hint Resolve sets_update_build_state sets_rollback sets_dispatched sets_started
  sets_finished sets_revoking : eff.

Lemma keeps_get_build `{Serde} id : keeps_builds (get_build id).
Proof. done. Qed.
Lemma update_log_keeps id f d :
  t_builds (update_log id f d) = t_builds d ∧ db_ids (update_log id f d) = db_ids d.
Proof.
  unfold update_log. destruct (t_build_logs d !! id) as [l|] eqn:E; [|done]. split; [done|].
  unfold db_ids. simpl. rewrite dom_insert_L. f_equal. apply elem_of_dom_2 in E. set_solver.
Qed.
Lemma keeps_log_finished id : keeps_builds (set_build_log_finished id).
Proof. intros t d. apply update_log_keeps. Qed.
Lemma keeps_log_size id z : keeps_builds (update_build_log_size id z).
Proof. intros t d. apply update_log_keeps. Qed.
Lemma keeps_last_seen w : keeps_builds (update_last_seen w).
Proof. intros t d. unfold update_last_seen. by case_match. Qed.
#[export] Hint Resolve keeps_get_build keeps_log_finished keeps_log_size keeps_last_seen : eff.

(** ** Effects of the atomic actions *)

Lemma eff_ret {A} (a : A) : eff (Ret a) id id.
Proof. intros s Hf. by simpl. Qed.

Lemma eff_frame {A} (act : AppState → A * AppState) :
  (∀ s, frame s (act s).2) → eff (atomic act) id id.
Proof.
  intros Ha s Hf. rewrite run_atomic. destruct (Ha s) as (H1 & H2 & H3).
  unfold states, ids. by rewrite H1, H2, H3.
Qed.

Lemma eff_bind {A B} (m : async A) (k : A → async B) fB fq gB gq :
  eff m fB fq → (∀ a, eff (k a) gB gq) → eff (bind m k) (gB ∘ fB) (gq ∘ fq).
Proof.
  intros Hm Hk s Hf. rewrite run_bind. destruct (Hm s Hf) as (H1 & H2 & H3 & H4).
  destruct (Hk (run m s).1 (run m s).2 H4) as (K1 & K2 & K3 & K4).
  unfold compose. rewrite K1, K2, K3, K4, H1, H2, H3. done.
Qed.

Lemma eff_bind_id {A B} (m : async A) (k : A → async B) :
  eff m id id → (∀ a, eff (k a) id id) → eff (bind m k) id id.
Proof. intros Hm Hk. exact (eff_bind m k id id id id Hm Hk). Qed.

Lemma eff_query_keeps {A} (st : stmt A) : keeps_builds st → eff (query st) id id.
Proof.
  intros Hs s Hf. rewrite run_query, exec_stmt_no_fault by done. simpl.
  destruct (Hs (clock s) (pool s)) as [H1 H2]. unfold states, ids. simpl. by rewrite H1, H2.
Qed.

Lemma eff_query_sets {A} (st : stmt A) i new :
  sets_state st i new → eff (query st) (alter (λ _, new) i) id.
Proof.
  intros Hs s Hf. rewrite run_query, exec_stmt_no_fault by done. simpl.
  destruct (Hs (clock s) (pool s)) as [H1 H2]. unfold states, ids. simpl. by rewrite H1, H2.
Qed.

Lemma eff_with_queue {A} (f : BuildQueue → A * BuildQueue) : eff (with_queue f) id (λ q, (f q).2).
Proof. intros s Hf. by rewrite run_with_queue. Qed.

Lemma eff_modify_queue f : eff (modify_queue f) id f.
Proof. intros s Hf. unfold modify_queue. by rewrite run_with_queue. Qed.

Lemma eff_read_queue {A} (f : BuildQueue → A) : eff (read_queue f) id id.
Proof. intros s Hf. unfold read_queue. by rewrite run_with_queue. Qed.

Lemma eff_io_frame `{Env} {A} (f : AppState → A * AppState) :
  (∀ s, frame s (f s).2) → eff (io f) id id.
Proof.
  intros Ha s Hf. unfold io. rewrite run_atomic. unfold next_fault. rewrite Hf. simpl.
  destruct (Ha s) as (H1 & H2 & H3). destruct (f s) as [a s']. simpl in *.
  unfold states, ids. by rewrite H1, H2, H3.
Qed.

Lemma frame_refl s : frame s s.
Proof. done. Qed.
Lemma frame_trans s s' s'' : frame s s' → frame s' s'' → frame s s''.
Proof. unfold frame. intuition congruence. Qed.
Lemma frame_chan_send c f s : frame s (chan_send c f s).2.
Proof. unfold chan_send. repeat case_match; done. Qed.
#[export] Hint Resolve frame_refl frame_chan_send : eff.

Lemma eff_cancel t : eff (cancel t) id id.
Proof. by apply eff_frame. Qed.
Lemma eff_now : eff now id id.
Proof. by apply eff_frame. Qed.
Lemma eff_notify : eff notify_scheduler id id.
Proof. by apply eff_frame. Qed.
Lemma eff_notified : eff notified id id.
Proof. by apply eff_frame. Qed.
Lemma eff_remove_watcher i : eff (remove_watcher i) id id.
Proof. by apply eff_frame. Qed.
Lemma eff_remove_sender c : eff (remove_sender c) id id.
Proof. by apply eff_frame. Qed.
Lemma eff_spawn t : eff (spawn t) id id.
Proof. by apply eff_frame. Qed.
#[export] Hint Resolve eff_ret eff_cancel eff_now eff_notify eff_notified
  eff_remove_watcher eff_remove_sender eff_spawn eff_bind_id eff_read_queue eff_query_keeps eff_query_sets eff_modify_queue : eff.

(** ** Refinement rules *)

Lemma refines_weaken {A} (P Q : AppState → Prop) (m : async A) :
  refines Q m → (∀ s, P s → Q s) → refines P m.
Proof. intros Hm HPQ s Hs HP. apply Hm; auto. Qed.

Lemma refines_ret {A} P (a : A) : refines P (Ret a).
Proof. intros s Hs _. split; [done|]. apply rtc_refl. Qed.

Lemma refines_bind {A B} (P : AppState → Prop) (Q : A → AppState → Prop)
    (m : async A) (k : A → async B) :
  refines P m → (∀ s, Coh s → P s → Q (run m s).1 (run m s).2) →
  (∀ a, refines (Q a) (k a)) → refines P (bind m k).
Proof.
  intros Hm HQ Hk s Hs HP. rewrite run_bind.
  destruct (Hm s Hs HP) as [H1 H2].
  destruct (Hk (run m s).1 (run m s).2 H1 (HQ s Hs HP)) as [H3 H4].
  split; [done|]. by etrans.
Qed.

(** Sequencing without a condition on the second part. *)
Lemma refines_seq {A B} P (m : async A) (k : A → async B) :
  refines P m → (∀ a, refines (λ _, True) (k a)) → refines P (bind m k).
Proof. intros Hm Hk. eapply refines_bind; [exact Hm| |exact Hk]. done. Qed.

Lemma refines_for_each {A} (l : list A) (f : A → async unit) :
  (∀ x, refines (λ _, True) (f x)) → refines (λ _, True) (for_each l f).
Proof.
  intros Hf. induction l as [|x l IH]; simpl; [apply refines_ret|]. by apply refines_seq.
Qed.

Lemma refines_eff_id {A} P (m : async A) : eff m id id → refines P m.
Proof.
  intros Hm s [Hc Hf] _. destruct (Hm s Hf) as (H1 & H2 & H3 & H4). unfold id in *.
  unfold Coh. rewrite H1, H2, H3. split; [done|]. apply rtc_refl.
Qed.

(** A change of the queue that the agreement does not see. *)
Lemma refines_eff_queue {A} P (m : async A) (fq : BuildQueue → BuildQueue) :
  eff m id fq →
  (∀ q p, lane p (fq q) = lane p q) →
  (∀ q i, ab_build_id <$> q_active (fq q) !! i = ab_build_id <$> q_active q !! i) →
  refines P m.
Proof.
  intros Hm Hl Ha s [Hc Hf] _. destruct (Hm s Hf) as (H1 & H2 & H3 & H4). unfold id in *.
  unfold Coh. rewrite H1, H2, H3. split; [|apply rtc_refl]. split; [|done].
  eapply coh_same_active; eauto.
Qed.

(** The conditions the handlers establish before they change a build. *)
Definition is_active (i : Z) (s : AppState) : Prop := is_Some (q_active (queue s) !! i).

Lemma alter_state (B : gmap Z BuildState) i st st0 :
  B !! i = Some st0 → alter (λ _, st) i B = <[i := st]> B.
Proof.
  intros Hi. apply map_eq. intros j. rewrite lookup_alter, lookup_insert.
  case_decide; [subst; by rewrite Hi|done].
Qed.

(** A change of the state of an active build, together with a change of the
    queue that keeps the agreement. *)
Lemma refines_eff_active {A} P (m : async A) i st fq :
  eff m (alter (λ _, st) i) fq →
  (∀ s, P s → is_active i s) →
  (∀ st0, in_flight st0 → lifecycle (Some st0) st) →
  (∀ s, Coh s → P s →
     coh (<[i := st]> (states s)) (ids s) (fq (queue s))) →
  refines P m.
Proof.
  intros Hm Ha Hl Hq s Hs HP. pose proof Hs as [Hc Hf].
  destruct (Hm s Hf) as (H1 & H2 & H3 & H4).
  destruct (coh_active_state Hc i (Ha s HP)) as (st0 & Hst0 & Hf0).
  rewrite (alter_state _ _ _ _ Hst0) in H1. unfold Coh. rewrite H1, H2, H3.
  split; [split; [by apply Hq|done]|]. apply rtc_once. constructor. rewrite Hst0. auto.
Qed.

#[export] Hint Resolve refines_ret : eff.

(** ** Terminal cleanup, rollback and dispatch *)

Section Handlers.
Context `{HEnv : Env} `{HHash : HashIter} `{HSerde : Serde}.

Lemma eff_cleanup i t reason :
  eff (cleanup_terminal_state i t reason) (alter (λ _, terminal_state t) i) (remove_active i).
Proof.
  refine (eff_bind _ _ (alter (λ _, terminal_state t) i) id id (remove_active i) _ _);
    [auto with eff|intros _].
  refine (eff_bind _ _ id id id (remove_active i) _ _); [auto with eff|intros _].
  refine (eff_bind _ _ id (remove_active i) id id _ _); auto with eff.
Qed.

Lemma refines_cleanup i t reason : refines (is_active i) (cleanup_terminal_state i t reason).
Proof.
  eapply refines_eff_active; [apply eff_cleanup|done| |].
  - intros st0 H0. apply lc_finish; auto with cbs.
  - intros s [Hc _] Ha. apply coh_finish; auto with cbs.
Qed.

(** The part of the rollback after the active entry was taken. *)
Lemma rollback_tail ab i s :
  faults s = [] →
  ∃ t, let s' := (run (do* cancel (ab_ack_cancel ab) in
                       do* query (rollback_dispatch_to_queued i) in
                       let* t := now in
                       do* modify_queue (enqueue_front
                             (mkQueued (mkBuildId i) (ab_priority ab) (ab_descriptor ab) "" t)) in
                       do* remove_watcher i in
                       Ret true) s).2 in
    states s' = alter (λ _, Queued) i (states s) ∧
    ids s' = ids s ∧
    queue s' = enqueue_front (mkQueued (mkBuildId i) (ab_priority ab) (ab_descriptor ab) "" t)
                 (queue s) ∧ faults s' = [].
Proof.
  intros Hf. rewrite !run_bind.
  destruct (eff_cancel (ab_ack_cancel ab) s Hf) as (A1 & A2 & A3 & A4).
  destruct (eff_query_sets _ _ _ (sets_rollback i) _ A4) as (B1 & B2 & B3 & B4).
  destruct (eff_now _ B4) as (C1 & C2 & C3 & C4).
  set (s3 := (run now _).2) in *. set (t := (run now _).1). exists t.
  destruct (eff_modify_queue (enqueue_front (mkQueued (mkBuildId i) (ab_priority ab)
              (ab_descriptor ab) "" t)) s3 C4) as (D1 & D2 & D3 & D4).
  destruct (eff_remove_watcher i _ D4) as (E1 & E2 & E3 & E4).
  rewrite run_ret. cbn [snd]. rewrite E1, E2, E3, E4, D1, D2, D3, C1, C2, C3, B1, B2, B3, A1, A2, A3. done.
Qed.

Lemma refines_rollback P i : refines P (rollback_active_to_queued i).
Proof.
  intros s [Hc Hf] _. unfold rollback_active_to_queued.
  rewrite run_bind, run_with_queue. unfold take_active. cbn [fst snd].
  destruct (q_active (queue s) !! i) as [ab|] eqn:E.
  - set (s1 := upd_queue (remove_active i (queue s)) s).
    destruct (rollback_tail ab i s1 Hf) as (t & H1 & H2 & H3 & H4).
    destruct (coh_active_state Hc i ltac:(by rewrite E)) as (st0 & Hst0 & Hf0).
    change (states s1) with (states s) in H1. rewrite (alter_state _ _ _ _ Hst0) in H1.
    unfold Coh. rewrite H1, H2, H3. split.
    + split; [|done]. apply (coh_rollback Hc); [by rewrite E|done].
    + apply rtc_once. constructor. rewrite Hst0. by constructor.
  - split; [|apply rtc_refl]. split; [|done]. simpl.
    eapply coh_same_active; [exact Hc|by intros []|].
    intros j. simpl. rewrite lookup_delete. case_decide; [subst; by rewrite E|done].
Qed.

Lemma find_worker_Some a q cid w :
  find_worker a q = Some (cid, w) →
  ∃ ws, q_workers q !! cid = Some ws ∧ is_dispatch_eligible ws = true ∧
        worker_arch ws = Some a ∧ registered_worker_id ws = Some w ∧
        ∀ i ab, q_active q !! i = Some ab → ab_connection_id ab ≠ cid.
Proof.
  unfold find_worker. rewrite fmap_Some. intros ([cid' ws] & Hf & Heq). simplify_eq.
  apply find_first_Some in Hf as [Hin Hp]. apply elem_of_hash_iter in Hin.
  apply andb_true_iff in Hp as [Hp Hfree]. apply andb_true_iff in Hp as [He Ha].
  apply bool_decide_eq_true_1 in Ha. exists ws. split_and!; try done.
  - by destruct ws.
  - by apply connection_free_spec.
Qed.

Lemma find_worker_None a q cid ws :
  find_worker a q = None → q_workers q !! cid = Some ws →
  is_dispatch_eligible ws = true → worker_arch ws = Some a →
  ∃ i ab, q_active q !! i = Some ab ∧ ab_connection_id ab = cid.
Proof.
  unfold find_worker. intros Hn Hw He Ha. rewrite fmap_None in Hn.
  apply (find_first_None _ _ (cid, ws)) in Hn; [|by apply elem_of_hash_iter]. simpl in Hn.
  rewrite He in Hn. rewrite (bool_decide_eq_true_2 _ Ha) in Hn. simpl in Hn.
  unfold connection_free in Hn. apply negb_false_iff, existsb_spec in Hn as (ab & Hab & Hc).
  apply elem_of_hash_values in Hab as [i Hi]. apply bool_decide_eq_true_1 in Hc. eauto.
Qed.

Lemma enqueue_front_pending b q q' p :
  next_pending q = (Some b, q') → lanes_wf q → lane p (enqueue_front b q') = lane p q.
Proof.
  intros Hn Hq. pose proof (Hq High) as Hh. pose proof (Hq Normal) as Hm. pose proof (Hq Low) as Hl.
  destruct q as [h m l a w]. simpl in *. unfold next_pending, pop_lane in Hn. simpl in Hn.
  unfold enqueue_front.
  destruct h as [|x h]; [destruct m as [|x m]; [destruct l as [|x l]|]|]; simplify_eq/=;
    match goal with
    | Hx : Forall _ (b :: _) |- _ => rewrite (Forall_inv Hx)
    end; by destruct p.
Qed.

(** The critical section of a dispatch: the cases of its result. *)
Inductive dispatch_case (s : AppState) : result DispatchInfo DispatchError * AppState → Prop :=
| dc_empty : pending (queue s) = [] →
    dispatch_case s (Err NothingToDispatch, upd_queue (queue s) s)
| dc_no_worker b q' :
    next_pending (queue s) = (Some b, q') →
    find_worker (bt_arch (bd_build (qb_descriptor b))) q' = None →
    dispatch_case s (Err NothingToDispatch, upd_queue (enqueue_front b q') s)
| dc_dispatched b q' cid w info ab s' :
    next_pending (queue s) = (Some b, q') →
    find_worker (bt_arch (bd_build (qb_descriptor b))) q' = Some (cid, w) →
    dp_build_id info = qb_build_id b →
    dp_connection_id info = cid →
    dp_descriptor info = qb_descriptor b →
    dp_priority info = qb_priority b →
    ab_build_id ab = build_id_0 (qb_build_id b) →
    ab_connection_id ab = cid →
    ab_receipt ab = AwaitingReceipt →
    states s' = alter (λ _, Dispatched) (build_id_0 (qb_build_id b)) (states s) →
    t_builds (pool s') = alter (λ r, update_row r Dispatched (Some w) (Some (ab_trace_id ab))
        (br_error r) (br_started_at r) (br_finished_at r) (br_build_report r))
        (build_id_0 (qb_build_id b)) (t_builds (pool s)) →
    ids s' = ids s →
    queue s' = insert_active ab q' →
    worker_senders s' = worker_senders s → channels s' = channels s → spawned s' = spawned s →
    faults s' = [] →
    dispatch_case s (Ok info, s').

Lemma update_build_alter i f d : t_builds (update_build i f d).2 = alter f i (t_builds d).
Proof.
  unfold update_build. destruct (t_builds d !! i) as [r|] eqn:E; simpl.
  - apply map_eq. intros j. rewrite lookup_insert, lookup_alter. case_decide; [subst; by rewrite E|done].
  - symmetry. apply map_eq. intros j. rewrite lookup_alter. case_decide; [subst; by rewrite E|done].
Qed.

Lemma dispatch_under_lock_cases s : faults s = [] → dispatch_case s (dispatch_under_lock s).
Proof.
  intros Hf. unfold dispatch_under_lock.
  destruct (next_pending (queue s)) as [[b|] q'] eqn:Hn.
  2: { apply next_pending_None in Hn as [Hp ->]. by constructor. }
  destruct (find_worker _ q') as [[cid w]|] eqn:Hw; [|by eapply dc_no_worker].
  simpl. rewrite exec_stmt_no_fault by done. simpl.
  destruct (set_build_dispatched (build_id_0 (qb_build_id b)) (uuid_v4 (next_handle s)) w
              (clock s) (pool s)) as [[ok|e] d'] eqn:Hs; simpl.
  2: { unfold set_build_dispatched, update_build in Hs. by case_match. }
  pose proof (sets_dispatched (build_id_0 (qb_build_id b)) (uuid_v4 (next_handle s)) w
                (clock s) (pool s)) as [Hst Hnx].
  pose proof (update_build_alter (build_id_0 (qb_build_id b)) (λ r,
    update_row r Dispatched (Some w) (Some (uuid_v4 (next_handle s))) (br_error r)
      (br_started_at r) (br_finished_at r) (br_build_report r)) (pool s)) as Hal.
  unfold set_build_dispatched in Hs, Hst, Hnx. rewrite Hs in Hst, Hnx, Hal. simpl in *.
  eapply (dc_dispatched s b q' cid w); try done; first [reflexivity | exact Hal].
Qed.

Lemma refines_dispatch_under_lock : refines (λ _, True) (atomic dispatch_under_lock).
Proof.
  intros s [Hc Hf] _. rewrite run_atomic.
  destruct (dispatch_under_lock_cases s Hf) as
    [Hp|b q' Hn Hw|b q' cid w info ab s' Hn Hw _ _ _ _ Hab _ _ Hst _ Hnx Hq _ _ _ Hf']; simpl.
  - split; [done|apply rtc_refl].
  - split; [|apply rtc_refl]. split; [|done]. simpl.
    pose proof (next_pending_Some _ _ _ Hn) as (_ & Ha & _).
    eapply coh_same_active; [exact Hc| |].
    + intros p. apply enqueue_front_pending; [done|apply Hc].
    + intros j. simpl. unfold enqueue_front. rewrite (proj1 (lane_set_rest _ _ _)). by rewrite Ha.
  - assert (states s !! build_id_0 (qb_build_id b) = Some Queued) as HQ.
    { apply (coh_pending _ _ _ Hc). apply next_pending_Some in Hn as [Hp _].
      unfold pending_ids. rewrite Hp. by left. }
    rewrite (alter_state _ _ _ _ HQ) in Hst. unfold Coh. rewrite Hst, Hnx, Hq. split.
    + split; [|done]. rewrite <- Hab. by eapply (coh_dispatch Hc).
    + apply rtc_once. constructor. rewrite HQ. constructor.
Qed.

Lemma dispatch_under_lock_active s info :
  faults s = [] → (dispatch_under_lock s).1 = Ok info →
  is_active (build_id_0 (dp_build_id info)) (dispatch_under_lock s).2.
Proof.
  intros Hf Hi. destruct (dispatch_under_lock_cases s Hf); simplify_eq/=.
  unfold is_active. match goal with E : queue _ = _ |- _ => rewrite E end. simpl.
  match goal with
  | E1 : dp_build_id _ = _, E2 : ab_build_id _ = _ |- _ => rewrite E1, <- E2
  end. rewrite lookup_insert_eq. by eexists.
Qed.

Lemma frame_send_frames cid fs s : frame s (send_frames cid fs s).2.
Proof.
  unfold send_frames. destruct (worker_senders s !! cid) as [tx|]; [|done].
  generalize (@Ok unit DispatchError ()) at 2. revert s.
  induction fs as [|f fs IH]; intros s r; simpl; [done|].
  destruct r as [[]|e]; [|apply IH].
  pose proof (frame_chan_send tx f s) as Hs. destruct (chan_send tx f s) as [[] s'];
    (eapply frame_trans; [exact Hs|apply IH]).
Qed.

Lemma eff_pack_for d : eff (pack_for d) id id.
Proof.
  unfold pack_for. destruct (bc_name <$> bd_components d); [apply eff_ret|].
  by apply eff_io_frame.
Qed.

Lemma eff_spawn_ack_timer i : eff (spawn_ack_timer i) id id.
Proof. unfold spawn_ack_timer. apply eff_bind_id; [auto with eff|]. intros []; auto with eff. Qed.

Lemma refines_send_and_recover P info m b : refines P (send_and_recover info m b).
Proof.
  unfold send_and_recover. apply refines_seq.
  - apply refines_eff_id, eff_frame. intros s. apply frame_send_frames.
  - intros []; [auto with eff|]. unfold handle_dispatch_send_failure.
    apply refines_seq; [|auto with eff]. apply refines_seq; [apply refines_rollback|auto with eff].
Qed.

Lemma refines_try_dispatch P : refines P try_dispatch.
Proof.
  apply (refines_weaken _ (λ _, True)); [|done]. unfold try_dispatch.
  apply (refines_bind _ (λ r s, ∀ info, r = Ok info → is_active (build_id_0 (dp_build_id info)) s)).
  { apply refines_dispatch_under_lock. }
  { intros s [Hc Hf] _ info Hi. rewrite run_atomic in *. by apply dispatch_under_lock_active. }
  intros [info|e]; [|auto with eff].
  apply (refines_bind _ (λ _, is_active (build_id_0 (dp_build_id info)))).
  { apply refines_eff_id, eff_pack_for. }
  { intros s [Hc Hf] Hi. unfold is_active.
    destruct (eff_pack_for (dp_descriptor info) s Hf) as (_ & _ & -> & _). by apply Hi. }
  intros [[b h]|e].
  - apply refines_seq; [apply refines_send_and_recover|]. intros []; [|auto with eff].
    apply refines_seq; [apply refines_eff_id, eff_spawn_ack_timer|auto with eff].
  - apply refines_seq; [apply refines_cleanup|auto with eff].
Qed.

End Handlers.
