(* ===== verification/Refinement.v ===== *)
(** * Every handler refines the lifecycle of builds

    The messages of the workers, the timers, the reconnection tables, the
    resolution of a dead worker's builds and the whole life of a connection are
    measured against the specification of Lifecycle.v. *)

From stdpp Require Import prelude gmap strings list relations pretty.
From S2P Require Import Prelude Async Proto Queue Db App Logs Dispatch Handler Lifecycle Coherence.

(** What a read of the build found, as long as nothing changed. *)
Definition found (i : Z) (r : result (option BuildRecord) SqlError) (s : AppState) : Prop :=
  ∀ b, r = Ok (Some b) → states s !! i = Some (rec_state b).

Definition finished_status_terminal (st : BuildFinishedStatus) : terminal (finished_state st).
Proof. unfold terminal. destruct st; naive_solver. Qed.
#[export] Hint Resolve finished_status_terminal : cbs.

Section Refinement.
Context `{HEnv : Env} `{HHash : HashIter} `{HSerde : Serde}.

(** ** Building blocks *)

Lemma refines_frame {A} P (act : AppState → A * AppState) :
  (∀ s, frame s (act s).2) → refines P (atomic act).
Proof. intros Ha. by apply refines_eff_id, eff_frame. Qed.

(** An action that may change the connection and receipt of active entries and
    the workers, but neither the builds nor the lanes. *)
Lemma refines_same_active {A} P (act : AppState → A * AppState) :
  (∀ s, Coh s → pool (act s).2 = pool s ∧ faults (act s).2 = faults s ∧
        (∀ p, lane p (queue (act s).2) = lane p (queue s)) ∧
        (∀ i, ab_build_id <$> q_active (queue (act s).2) !! i
              = ab_build_id <$> q_active (queue s) !! i)) →
  refines P (atomic act).
Proof.
  intros Ha s Hs _. rewrite run_atomic. destruct (Ha s Hs) as (H1 & H2 & H3 & H4).
  destruct Hs as [Hc Hf]. unfold Coh, states, ids. rewrite H1, H2. split; [|apply rtc_refl].
  split; [|done]. by eapply coh_same_active.
Qed.

Lemma refines_modify_queue P f :
  (∀ q p, lane p (f q) = lane p q) →
  (∀ q i, ab_build_id <$> q_active (f q) !! i = ab_build_id <$> q_active q !! i) →
  refines P (modify_queue f).
Proof. intros Hl Ha. eapply refines_eff_queue; [apply eff_modify_queue|done|done]. Qed.

Lemma refines_set_worker P cid w : refines P (modify_queue (set_worker_state cid w)).
Proof.
  apply refines_modify_queue; intros q; intros; unfold set_worker_state; repeat case_match;
    try done; by destruct p.
Qed.

Lemma refines_get_build {A} P i (k : result (option BuildRecord) SqlError → async A) :
  (∀ r, refines (found i r) (k r)) → refines P (bind (query (get_build i)) k).
Proof.
  intros Hk. apply (refines_bind _ (found i)); [apply refines_eff_id; auto with eff| |done].
  intros s [Hc Hf] _ b Hb. rewrite run_query, exec_stmt_no_fault in * by done. simpl in *.
  unfold states. simpl. rewrite lookup_fmap.
  destruct (t_builds (pool s) !! i); simplify_eq/=. done.
Qed.

(** A build found in flight is active. *)
Lemma found_active i b s :
  Coh s → found i (Ok (Some b)) s → in_flight (rec_state b) → is_active i s.
Proof. intros [Hc _] Hb Hf. apply (coh_active _ _ _ Hc). exists (rec_state b). eauto. Qed.

Lemma refines_cleanup_found i b t reason :
  in_flight (rec_state b) →
  refines (found i (Ok (Some b))) (cleanup_terminal_state i t reason).
Proof.
  intros Hf s Hs Hb. apply refines_cleanup; [done|]. by eapply found_active.
Qed.

Lemma refines_rollback_unit P i : refines P (do* rollback_active_to_queued i in Ret ()).
Proof. apply refines_seq; [apply refines_rollback|auto with eff]. Qed.

Lemma refines_try_dispatch_unit P : refines P (do* try_dispatch in Ret ()).
Proof. apply refines_seq; [apply refines_try_dispatch|auto with eff]. Qed.

Hint Resolve refines_rollback_unit refines_try_dispatch_unit refines_set_worker
  refines_cleanup : eff.

(** ** Log output *)

Lemma eff_io_unit {A} (a : A) : eff (io (λ s, (a, s))) id id.
Proof. by apply eff_io_frame. Qed.
Hint Resolve eff_io_unit : eff.

Lemma eff_write_lines i seq0 n off lines entries :
  eff (write_lines i seq0 n off lines entries) id id.
Proof.
  revert n off entries. induction lines as [|l lines IH]; intros n off entries; simpl; [apply eff_ret|].
  apply eff_bind_id; [by apply eff_io_frame|]. intros []; [apply IH|apply eff_ret].
Qed.

Lemma eff_write_build_output i cid seq0 lines : eff (write_build_output i cid seq0 lines) id id.
Proof.
  unfold write_build_output. destruct lines as [|l lines]; [apply eff_ret|].
  apply eff_bind_id; [auto with eff|]. intros []; [|apply eff_ret].
  apply eff_bind_id; [by apply eff_io_frame|]. intros []; [|apply eff_ret].
  apply eff_bind_id; [by apply eff_io_frame|]. intros [off|]; [|apply eff_ret].
  apply eff_bind_id; [apply eff_write_lines|]. intros [[es off']|]; [|apply eff_ret].
  apply eff_bind_id; [auto with eff|]. intros []; [|apply eff_ret].
  apply eff_bind_id; [by apply eff_frame|]. intros []. auto with eff.
Qed.

Lemma eff_finish_build_log i : eff (finish_build_log i) id id.
Proof. unfold finish_build_log. apply eff_bind_id; [by apply eff_frame|]. auto with eff. Qed.

(** ** Replies *)

Lemma eff_send_text cid m : eff (send_text_to_connection cid m) id id.
Proof. apply eff_frame. intros s. simpl. case_match; auto with eff. Qed.
Lemma eff_send_unauthorized cid b a r : eff (send_unauthorized_action cid b a r) id id.
Proof. apply eff_send_text. Qed.
Lemma eff_send_reporter_revoke cid b : eff (send_reporter_directed_revoke cid b) id id.
Proof. apply eff_send_text. Qed.
Hint Resolve eff_send_text eff_send_unauthorized eff_send_reporter_revoke : eff.

Lemma frame_foldl {A} (f : AppState → A → AppState) l s :
  (∀ s x, frame s (f s x)) → frame s (foldl f s l).
Proof.
  intros Hf. revert s. induction l as [|x l IH]; intros s; simpl; [done|].
  eapply frame_trans; [apply Hf|apply IH].
Qed.

Lemma eff_revoke_superseded cid l : eff (revoke_and_remove_superseded cid l) id id.
Proof.
  apply eff_frame. intros s. simpl. case_match; [|done].
  match goal with |- frame _ (upd_senders _ ?s') => change (frame s s') end.
  apply frame_foldl. auto with eff.
Qed.

(** ** Authorization *)

Lemma active_build_for_connection_Some i cid q ab :
  active_build_for_connection i cid q = Some ab ↔
  q_active q !! i = Some ab ∧ ab_connection_id ab = cid.
Proof.
  unfold active_build_for_connection. destruct (q_active q !! i) as [ab'|]; [|naive_solver].
  case_bool_decide; naive_solver.
Qed.

(** Rewriting one active entry with one of the same id. *)
Lemma same_active_insert q i ab ab' j :
  q_active q !! i = Some ab → ab_build_id ab' = ab_build_id ab →
  ab_build_id <$> <[i := ab']> (q_active q) !! j = ab_build_id <$> q_active q !! j.
Proof.
  intros Hi Hab. rewrite lookup_insert. case_decide; [subst; rewrite Hi; simpl; by rewrite Hab|done].
Qed.

Lemma refines_claim P cid i : refines P (atomic (claim_assignment cid i)).
Proof.
  apply refines_same_active. intros s _. unfold claim_assignment.
  destruct (active_build_for_connection _ _ _) as [ab|] eqn:E; [|done].
  apply active_build_for_connection_Some in E as [Ha _].
  split_and!; [done|done|by intros []|]. intros j. simpl. by eapply same_active_insert.
Qed.

Lemma claim_active cid i s :
  (claim_assignment cid i s).1 = true → is_active i (claim_assignment cid i s).2.
Proof.
  unfold claim_assignment. destruct (active_build_for_connection _ _ _) as [ab|]; [|done].
  intros _. unfold is_active. simpl. rewrite lookup_insert_eq. by eexists.
Qed.

(** What runs after a successful authorization may rely on the assignment. *)
Lemma refines_authorized cid b a k :
  refines (is_active (build_id_0 b)) k → refines (λ _, True) (authorized cid b a k).
Proof.
  intros Hk. unfold authorized.
  apply (refines_bind _ (λ r s, r = true → is_active (build_id_0 b) s)).
  - unfold authorize_lifecycle_message. apply refines_seq; [apply refines_claim|].
    intros []; [auto with eff|]. apply refines_eff_id.
    apply eff_bind_id; [auto with eff|intros _]. apply eff_bind_id; [destruct a; auto with eff|].
    auto with eff.
  - intros s [Hc Hf] _. unfold authorize_lifecycle_message. rewrite run_bind, run_atomic.
    destruct (claim_assignment cid (build_id_0 b) s).1 eqn:E.
    + intros _. simpl. by apply claim_active.
    + by rewrite !run_bind.
  - intros []; [|auto with eff]. eapply refines_weaken; [exact Hk|]. auto.
Qed.

(** ** Messages of the assigned worker *)

Lemma refines_build_accepted P cid i : refines P (handle_build_accepted cid i).
Proof. apply refines_frame. intros s. simpl. by case_match. Qed.

Lemma refines_build_started i : refines (is_active i) (handle_build_started i).
Proof.
  unfold handle_build_started. apply refines_seq; [|auto with eff].
  eapply refines_eff_active; [apply eff_query_sets, sets_started|done| |].
  - intros. by constructor.
  - intros s [Hc _] Ha. apply coh_change_in_flight; auto with cbs.
Qed.

Lemma eff_set_finished i st e r :
  eff (do* query (set_build_finished i st e r) in modify_queue (remove_active i))
      (alter (λ _, st) i) (remove_active i).
Proof.
  refine (eff_bind _ _ (alter (λ _, st) i) id id (remove_active i) _ _); auto with eff.
Qed.

(** [bind] re-associated, for a proof that treats two steps as one. *)
Lemma refines_assoc {A B C} P (m : async A) (f : A → async B) (g : B → async C) :
  refines P (bind (bind m f) g) → refines P (bind m (λ a, bind (f a) g)).
Proof. intros Hr s Hs HP. rewrite <- bind_assoc. by apply Hr. Qed.

Lemma refines_build_finished cid i st e r :
  terminal st → refines (is_active i) (handle_build_finished cid i st e r).
Proof.
  intros Ht. unfold handle_build_finished. apply refines_assoc, refines_seq.
  - eapply refines_eff_active; [apply eff_set_finished|done| |].
    + intros. by constructor.
    + intros s [Hc _] Ha. by apply coh_finish.
  - intros _. apply refines_seq; [apply refines_eff_id, eff_finish_build_log|intros _].
    apply refines_seq; [apply refines_eff_id; auto with eff|intros _]. auto with eff.
Qed.

Lemma refines_build_rejected cid i reason :
  refines (is_active i) (handle_build_rejected cid i reason).
Proof.
  unfold handle_build_rejected. case_match; [apply refines_cleanup|].
  apply refines_seq; [apply refines_rollback|auto with eff].
Qed.

(** ** Timers and revocation *)

Lemma refines_ack_timer P i t : refines P (ack_timer_fired i t).
Proof.
  unfold ack_timer_fired. apply (refines_weaken _ (λ _, True)); [|done]. apply refines_seq; [by apply refines_frame|].
  intros []; auto with eff.
Qed.

Lemma refines_send_build_revoke P i : refines P (send_build_revoke i).
Proof.
  unfold send_build_revoke. apply (refines_bind _ (λ r s, is_Some r → is_active i s)).
  - apply refines_eff_id. auto with eff.
  - intros s _ _. unfold read_queue. rewrite run_with_queue. simpl. unfold is_active. simpl.
    by rewrite fmap_is_Some.
  - intros [cid|]; [|auto with eff]. apply refines_seq.
    + eapply refines_eff_active; [apply eff_query_sets, sets_revoking|intros s Hs; by apply Hs| |].
      * intros. by constructor.
      * intros s [Hc _] Ha. apply coh_change_in_flight; [done| |auto with cbs]. by apply Ha.
    + intros []; [|auto with eff]. apply refines_eff_id. auto 10 with eff.
Qed.

Lemma refines_revoke_timeout P i : refines P (handle_revoke_timeout i).
Proof.
  apply refines_get_build. intros [[b|]|e]; [|auto with eff..].
  case_bool_decide as Hb; [|auto with eff]. apply refines_cleanup_found. rewrite Hb. auto with cbs.
Qed.

(** ** Dead workers *)

(** Removing the entry of a build the database has outside the states in flight
    removes nothing. *)
Lemma refines_remove_only i b :
  ¬ in_flight (rec_state b) →
  refines (found i (Ok (Some b))) (modify_queue (remove_active i)).
Proof.
  intros Hn s [Hc Hf] Hb. destruct (eff_modify_queue (remove_active i) s Hf) as (H1 & H2 & H3 & H4).
  unfold id in *. unfold Coh. rewrite H1, H2, H3. split; [|apply rtc_refl]. split; [|done].
  eapply coh_same_active; [exact Hc|by intros []|]. intros j. simpl. rewrite lookup_delete.
  case_decide; [subst|done]. destruct (q_active (queue s) !! j) eqn:E; [|done]. exfalso.
  destruct (coh_active_state Hc j) as (st & Hst & Hfl); [by rewrite E|].
  specialize (Hb b eq_refl). simplify_eq. done.
Qed.

Lemma refines_resolve_dead P i r : refines P (resolve_dead_build i r).
Proof.
  apply refines_get_build. intros [[b|]|e]; [|auto with eff..].
  destruct (dead_worker_resolution (rec_state b) r) as [|reason|reason|] eqn:Hd;
    destruct (rec_state b) eqn:Hb; try destruct r; simplify_eq/=; auto with eff;
    first [apply refines_cleanup_found; rewrite Hb; by auto with cbs
          |apply refines_remove_only; rewrite Hb; by intros [|[|]]].
Qed.

Lemma refines_worker_dead P cid : refines P (handle_worker_dead cid).
Proof.
  apply (refines_weaken _ (λ _, True)); [|done]. unfold handle_worker_dead.
  apply refines_seq; [apply refines_eff_id; auto with eff|intros owned].
  apply refines_seq; [|auto with eff]. apply refines_for_each. intros []. apply refines_resolve_dead.
Qed.
Hint Resolve refines_worker_dead : eff.

Lemma refines_grace_expired P cid : refines P (grace_period_expired cid).
Proof.
  unfold grace_period_expired. apply refines_seq; [apply refines_eff_id; auto with eff|].
  intros []; [|auto with eff]. apply refines_seq; auto with eff.
Qed.

(** ** Reconnection *)

Lemma refines_idle_one P c w : refines P (idle_reconcile_one c w).
Proof.
  apply refines_get_build. intros [[b|]|e]; [|auto with eff..]. case_match; [auto with eff|].
  destruct (idle_reconcile_decision _ _ _) eqn:Hd; auto with eff;
    apply refines_cleanup_found;
    destruct (rec_state b); try destruct (cand_receipt c);
    try destruct (cand_prev_connection_live c); simplify_eq/=; auto with cbs.
Qed.

Lemma refines_attach_received P i cid : refines P (attach_connection_and_mark_received i cid).
Proof.
  apply refines_same_active. intros s _. simpl. case_match eqn:E; [|done].
  split_and!; [done|done|by intros []|]. intros j. simpl. by eapply same_active_insert.
Qed.

Lemma refines_attach P i cid :
  refines P (modify_queue (λ q, match q_active q !! i with
    | Some ab => set_active (<[i := attach_connection cid ab]> (q_active q)) q
    | None => q
    end)).
Proof.
  apply refines_modify_queue; intros q; [intros p; by repeat case_match; destruct p|].
  intros j. case_match eqn:E; [|done]. simpl. by eapply same_active_insert.
Qed.

Lemma refines_status_building P cid w b : refines P (handle_status_building cid w b).
Proof.
  apply refines_get_build. intros [[r|]|e]; [|apply refines_eff_id; by auto with eff|auto with eff].
  cbv zeta. match goal with |- refines _ (if ?c then _ else _) => destruct c end;
    [apply refines_eff_id, eff_bind_id; by auto with eff|].
  destruct (rec_state r); try (apply refines_seq; [apply refines_send_build_revoke|by auto with eff]).
  - apply refines_attach_received.
  - apply refines_attach.
Qed.

Lemma refines_worker_status P cid w st b : refines P (handle_worker_status cid w st b).
Proof.
  apply (refines_weaken _ (λ _, True)); [|done].
  assert (refines (λ _, True) (let* candidates := read_queue (idle_candidates cid) in
      do* for_each candidates (λ cand, idle_reconcile_one cand w) in
      do* try_dispatch in Ret ())) as Hidle.
  { apply refines_seq; [apply refines_eff_id; auto with eff|intros cs].
    apply refines_seq; [|auto with eff]. apply refines_for_each. intros c. apply refines_idle_one. }
  destruct st, b as [b|]; simpl; auto with eff. apply refines_status_building.
Qed.

(** ** The life of a connection *)

Lemma refines_worker_message P cid name w msg : refines P (handle_worker_message cid name w msg).
Proof.
  apply (refines_weaken _ (λ _, True)); [|done].
  destruct msg; unfold handle_worker_message; try apply refines_authorized.
  - auto with eff.
  - apply refines_worker_status.
  - apply refines_build_accepted.
  - apply refines_build_rejected.
  - apply refines_build_started.
  - apply refines_eff_id, eff_bind_id; [apply eff_write_build_output|auto with eff].
  - apply refines_seq; [apply refines_build_finished; auto with cbs|intros _].
    apply refines_eff_id. auto with eff.
  - auto with eff.
  - auto with eff.
Qed.

Lemma refines_receive_loop P cid name w frames : refines P (receive_loop cid name w frames).
Proof.
  revert P. induction frames as [|f frames IH]; intros P; simpl; [auto with eff|].
  destruct f as [[]| | |]; auto with eff. apply refines_seq; [apply refines_worker_message|auto].
Qed.

Lemma refines_cleanup_worker P cid name w stopping : refines P (cleanup_worker cid name w stopping).
Proof.
  unfold cleanup_worker. apply refines_seq; [apply refines_eff_id; auto with eff|intros _].
  destruct stopping; [apply refines_seq; auto with eff|].
  apply refines_seq; [apply refines_eff_id; auto with eff|].
  intros [a|]; [|apply refines_seq; auto with eff].
  apply refines_seq; [apply refines_eff_id; auto with eff|intros t].
  apply refines_seq; [auto with eff|intros _]. apply refines_eff_id. auto with eff.
Qed.

Lemma migrate_same_active w cid st q p j :
  lane p (migrate_connection w cid st q).2 = lane p q ∧
  ab_build_id <$> q_active (migrate_connection w cid st q).2 !! j
    = ab_build_id <$> q_active q !! j.
Proof.
  unfold migrate_connection. destruct (find_old_connection _ _ _) as [[old was]|]; simpl.
  - split; [by destruct p|]. rewrite lookup_fmap. destruct (q_active q !! j); simpl; [|done].
    by case_bool_decide.
  - by destruct p.
Qed.

Lemma refines_migrate P w cid st : refines P (with_queue (migrate_connection w cid st)).
Proof.
  eapply refines_eff_queue; [apply eff_with_queue| |]; intros q i; simpl.
  - apply (migrate_same_active w cid st q i 0).
  - apply (migrate_same_active w cid st q High).
Qed.

Lemma refines_send_json P m : refines P (send_json m).
Proof. apply refines_eff_id. intros s Hf. unfold send_json. rewrite run_atomic. unfold next_fault. by rewrite Hf. Qed.

Lemma refines_drop_receiver P c : refines P (drop_receiver c).
Proof. apply refines_frame. intros s. simpl. by case_match. Qed.

Lemma refines_retire P old : refines P (retire_old_connection old).
Proof.
  destruct old as [[[cid []] l]|]; simpl; auto with eff;
    (apply refines_seq; [apply refines_eff_id, eff_revoke_superseded|auto with eff]).
Qed.

Lemma refines_close P cid name w : refines P (close_connection cid name w).
Proof.
  apply refines_seq; [apply refines_eff_id; auto with eff|]. intros []; apply refines_cleanup_worker.
Qed.

Lemma refines_handle_connection P cid row n frames :
  refines P (handle_connection cid row n frames).
Proof.
  unfold handle_connection. destruct (wait_for_hello n frames) as [[hello|reason] rest].
  2: { apply refines_seq; [apply refines_send_json|auto with eff]. }
  destruct (check_hello row hello) as [[[[arch cores] ram] version]|e].
  2: { apply refines_seq; [apply refines_send_json|auto with eff]. }
  apply refines_seq; [apply refines_eff_id; auto with eff|intros _].
  apply refines_seq; [apply refines_migrate|intros old].
  apply refines_seq; [apply refines_retire|intros _].
  apply refines_seq; [by apply refines_frame|intros out].
  apply refines_seq; [apply refines_send_json|]. intros []; simpl.
  - apply refines_seq; [apply refines_eff_id; auto with eff|intros _].
    apply refines_seq; [apply refines_receive_loop|intros _].
    apply refines_seq; [apply refines_close|intros _]. apply refines_drop_receiver.
  - apply refines_seq; [apply refines_cleanup_worker|intros _]. apply refines_drop_receiver.
Qed.

Lemma refines_sweep_loop P n : refines P (sweep_loop n).
Proof.
  revert P. induction n as [|n IH]; intros P; simpl; [auto with eff|].
  apply refines_seq; [apply refines_try_dispatch|]. intros []; auto with eff.
Qed.

Lemma refines_sweep_tick P n : refines P (sweep_tick n).
Proof.
  apply refines_seq; [apply refines_eff_id; auto with eff|].
  intros []; [apply refines_sweep_loop|auto with eff].
Qed.

End Refinement.
