(* ===== verification/DbRoles.v ===== *)
(** * Roles, capabilities and assignments (db/roles.rs)

    The statements on the tables [roles], [role_caps], [role_scopes] and
    [user_roles], with the constraints of migration 001, and what the two
    queries that the permission checks use return. *)

From stdpp Require Import prelude gmap strings list sorting.
From S2P Require Import Prelude Async Proto Db App.

Record ScopeEntry := mkScopeEntry { scope_type : string; pattern : string }.

Record UserRoleWithScopes := mkUserRole {
  urs_role_name : string;
  urs_scopes : list ScopeEntry
}.

Record AssignmentWithScopes := mkAssignment {
  as_role_name : string;
  as_caps : list string;
  as_scopes : list ScopeEntry
}.

#[global] Instance scope_entry_eq_dec : EqDecision ScopeEntry.
Proof. solve_decision. Defined.

(** ** Order of the rows

    SQLite compares text byte by byte. *)

Definition string_le (a b : string) : Prop := String.leb a b = true.
#[global] Instance string_le_dec a b : Decision (string_le a b).
Proof. unfold string_le. apply _. Defined.

(** The order of [(scope_type, pattern)]. *)
Definition scope_le (a b : ScopeEntry) : Prop :=
  if bool_decide (scope_type a = scope_type b) then string_le (pattern a) (pattern b)
  else string_le (scope_type a) (scope_type b).
#[global] Instance scope_le_dec a b : Decision (scope_le a b).
Proof. unfold scope_le. destruct (bool_decide _); apply _. Defined.

(** ** Sub-selects *)

(** The roles of a user, by name. *)
Definition roles_of (user_email : string) (d : Db) : list string :=
  merge_sort string_le
    (snd <$> filter (λ ur, ur.1 = user_email) (elements (t_user_roles d))).

(** The capabilities of a role, sorted. *)
Definition caps_of (role_name : string) (d : Db) : list string :=
  merge_sort string_le
    (snd <$> filter (λ rc, rc.1 = role_name) (elements (t_role_caps d))).

(** The scopes of a role, by type and pattern. *)
Definition scopes_of (role_name : string) (d : Db) : list ScopeEntry :=
  merge_sort scope_le
    ((λ rs, mkScopeEntry rs.1.2 rs.2) <$>
       filter (λ rs, rs.1.1 = role_name) (elements (t_role_scopes d))).

(** [user_roles ur LEFT JOIN t ON ur.role_name = t.role_name]: a role without a
    match keeps one row without a value. *)
Definition left_join {V} (roles : list string) (f : string → list V) : list (string * option V) :=
  roles ≫= λ r, match f r with
                | [] => [(r, None)]
                | vs => (λ v, (r, Some v)) <$> vs
                end.

(** ** Statements *)

Definition create_role (name description : string) (builtin : bool) : stmt unit :=
  λ now d,
    match t_roles d !! name with
    | Some _ => (Err ConstraintViolation, d)
    | None => (Ok (), set_roles (<[name := mkRoleRecord name description builtin now]> (t_roles d)) d)
    end.

Definition get_role (name : string) : stmt (option RoleRecord) :=
  λ _ d, (Ok (t_roles d !! name), d).

Definition list_roles : stmt (list RoleRecord) :=
  λ _ d, (Ok (merge_sort (on_key string_le rr_name) (map_to_list (t_roles d)).*2), d).

Definition is_role_builtin (role_name : string) : stmt bool :=
  λ _ d, (Ok (match t_roles d !! role_name with Some r => rr_builtin r | None => false end), d).

(** [DELETE FROM roles WHERE name = ? AND builtin = 0], with its cascades. *)
Definition delete_role_row (name : string) : stmt bool :=
  λ _ d,
    match t_roles d !! name with
    | Some r =>
        if rr_builtin r then (Ok false, d)
        else (Ok true,
              set_roles (delete name (t_roles d))
                (set_role_cap_rows (filter (λ rc, rc.1 ≠ name) (t_role_caps d))
                  (set_role_scope_rows (filter (λ rs, rs.1.1 ≠ name) (t_role_scopes d))
                    (set_user_role_rows (filter (λ ur, ur.2 ≠ name) (t_user_roles d)) d))))
    | None => (Ok false, d)
    end.

Definition delete_role (name : string) : async (result bool SqlError) :=
  let* builtin := query (is_role_builtin name) in
  match builtin with
  | Err e => Ret (Err e)
  | Ok true => Ret (Ok false)
  | Ok false => query (delete_role_row name)
  end.

Definition get_role_caps (role_name : string) : stmt (list string) :=
  λ _ d, (Ok (caps_of role_name d), d).

Definition get_role_scopes (role_name : string) : stmt (list ScopeEntry) :=
  λ _ d, (Ok (scopes_of role_name d), d).

(** The inserts of a transaction: each can violate a constraint. *)
Definition insert_role_cap (role_name cap : string) (d : Db) : result Db SqlError :=
  if bool_decide ((role_name, cap) ∈ t_role_caps d) || bool_decide (t_roles d !! role_name = None)
  then Err ConstraintViolation
  else Ok (set_role_cap_rows ({[(role_name, cap)]} ∪ t_role_caps d) d).

Definition known_scope_type (st : string) : bool :=
  bool_decide (st = "channel") || bool_decide (st = "registry") || bool_decide (st = "repository").

Definition insert_role_scope (role_name : string) (s : ScopeEntry) (d : Db) : result Db SqlError :=
  if bool_decide ((role_name, scope_type s, pattern s) ∈ t_role_scopes d) then Err UniqueViolation
  else if bool_decide (t_roles d !! role_name = None) || negb (known_scope_type (scope_type s))
  then Err ConstraintViolation
  else Ok (set_role_scope_rows ({[(role_name, scope_type s, pattern s)]} ∪ t_role_scopes d) d).

Definition insert_user_role (user_email role_name : string) (d : Db) : result Db SqlError :=
  if bool_decide ((user_email, role_name) ∈ t_user_roles d)
     || bool_decide (t_roles d !! role_name = None) || bool_decide (t_users d !! user_email = None)
  then Err ConstraintViolation
  else Ok (set_user_role_rows ({[(user_email, role_name)]} ∪ t_user_roles d) d).

Fixpoint insert_all {A} (ins : A → Db → result Db SqlError) (l : list A) (d : Db)
    : result Db SqlError :=
  match l with
  | [] => Ok d
  | x :: l => match ins x d with Ok d => insert_all ins l d | Err e => Err e end
  end.

(** The end of a transaction: commit, or roll back to the tables before it. *)
Definition commit (d : Db) (r : result Db SqlError) : result unit SqlError * Db :=
  match r with Ok d' => (Ok (), d') | Err e => (Err e, d) end.

Definition set_role_caps_and_scopes (role_name : string) (caps : list string)
    (scopes : list ScopeEntry) : stmt unit :=
  λ _ d, commit d (
    let d1 := set_role_cap_rows (filter (λ rc, rc.1 ≠ role_name) (t_role_caps d)) d in
    match insert_all (insert_role_cap role_name) caps d1 with
    | Err e => Err e
    | Ok d2 =>
        let d3 := set_role_scope_rows (filter (λ rs, rs.1.1 ≠ role_name) (t_role_scopes d2)) d2 in
        insert_all (insert_role_scope role_name) scopes d3
    end).

(** [INSERT OR IGNORE]: a duplicate is ignored, a broken reference is not. *)
Definition add_user_role (user_email role_name : string) : stmt unit :=
  λ _ d,
    if bool_decide ((user_email, role_name) ∈ t_user_roles d) then (Ok (), d)
    else commit d (insert_user_role user_email role_name d).

Definition remove_user_role (user_email role_name : string) : stmt bool :=
  λ _ d,
    if bool_decide ((user_email, role_name) ∈ t_user_roles d)
    then (Ok true, set_user_role_rows (t_user_roles d ∖ {[(user_email, role_name)]}) d)
    else (Ok false, d).

Definition set_user_roles (user_email : string) (role_names : list string) : stmt unit :=
  λ _ d, commit d (
    insert_all (insert_user_role user_email) role_names
      (set_user_role_rows (filter (λ ur, ur.1 ≠ user_email) (t_user_roles d)) d)).

(** One row of [get_user_roles] folded into the result: the scopes of
    consecutive rows of one role are collected. *)
Definition push_role_row (result : list UserRoleWithScopes) (row : string * option ScopeEntry)
    : list UserRoleWithScopes :=
  match last result with
  | Some r =>
      if bool_decide (urs_role_name r = row.1) then
        match row.2 with
        | Some s => take (length result - 1) result
                      ++ [mkUserRole (urs_role_name r) (urs_scopes r ++ [s])]
        | None => result
        end
      else result ++ [mkUserRole row.1 (option_list row.2)]
  | None => result ++ [mkUserRole row.1 (option_list row.2)]
  end.

Definition get_user_roles (user_email : string) : stmt (list UserRoleWithScopes) :=
  λ _ d, (Ok (foldl push_role_row []
                (left_join (roles_of user_email d) (λ r, scopes_of r d))), d).

Definition get_effective_caps (user_email : string) : stmt (list string) :=
  λ _ d, (Ok (merge_sort string_le
                (remove_dups (roles_of user_email d ≫= λ r, caps_of r d))), d).

(** [entry(role).or_default()], and the value pushed unless it is there. *)
Definition push_entry {V} `{EqDecision V} (m : gmap string (list V)) (row : string * option V)
    : gmap string (list V) :=
  let entry := default [] (m !! row.1) in
  <[row.1 := match row.2 with
             | Some v => if bool_decide (v ∈ entry) then entry else entry ++ [v]
             | None => entry
             end]> m.

(** The keys of a BTreeMap, in order. *)
Definition btree_keys {V} (m : gmap string V) : list string :=
  merge_sort string_le (map_to_list m).*1.

(** The two queries run one after the other. *)
Definition assignment_caps (user_email : string) : stmt (list (string * option string)) :=
  λ _ d, (Ok (left_join (roles_of user_email d) (λ r, caps_of r d)), d).
Definition assignment_scopes (user_email : string) : stmt (list (string * option ScopeEntry)) :=
  λ _ d, (Ok (left_join (roles_of user_email d) (λ r, scopes_of r d)), d).

Definition get_user_assignments_with_scopes (user_email : string)
    : async (result (list AssignmentWithScopes) SqlError) :=
  let* cap_rows := query (assignment_caps user_email) in
  match cap_rows with
  | Err e => Ret (Err e)
  | Ok cap_rows =>
      let* scope_rows := query (assignment_scopes user_email) in
      match scope_rows with
      | Err e => Ret (Err e)
      | Ok scope_rows =>
          let caps_map := foldl push_entry ∅ cap_rows in
          let scopes_map := foldl push_entry ∅ scope_rows in
          Ret (Ok ((λ role_name, mkAssignment role_name (default [] (caps_map !! role_name))
                                   (default [] (scopes_map !! role_name)))
                     <$> btree_keys caps_map))
      end
  end.

(** The active humans with a role that holds [*]. *)
Definition wildcard_holders (d : Db) : gset string :=
  list_to_set (fst <$> filter (λ eu : string * UserRow, ur_active eu.2 = true ∧ ur_is_robot eu.2 = false ∧
                                     Exists (λ r, "*" ∈ caps_of r d) (roles_of eu.1 d))
                              (map_to_list (t_users d))).

Definition count_active_wildcard_holders : stmt Z :=
  λ _ d, (Ok (Z.of_nat (size (wildcard_holders d))), d).

(** ** What the joins return *)

Lemma elem_of_merge_sort {A} (R : A → A → Prop) `{∀ x y, Decision (R x y)} l x :
  x ∈ merge_sort R l ↔ x ∈ l.
Proof. by rewrite merge_sort_Permutation. Qed.

Lemma elem_of_roles_of e r d : r ∈ roles_of e d ↔ (e, r) ∈ t_user_roles d.
Proof.
  unfold roles_of. rewrite elem_of_merge_sort, list_elem_of_fmap. split.
  - intros ([e' r'] & -> & Hin). apply list_elem_of_filter in Hin as [? Hin].
    simpl in *; subst. by apply elem_of_elements.
  - intros Hin. exists (e, r). split; [done|]. apply list_elem_of_filter. split; [done|].
    by apply elem_of_elements.
Qed.

Lemma elem_of_caps_of r c d : c ∈ caps_of r d ↔ (r, c) ∈ t_role_caps d.
Proof.
  unfold caps_of. rewrite elem_of_merge_sort, list_elem_of_fmap. split.
  - intros ([r' c'] & -> & Hin). apply list_elem_of_filter in Hin as [? Hin].
    simpl in *; subst. by apply elem_of_elements.
  - intros Hin. exists (r, c). split; [done|]. apply list_elem_of_filter. split; [done|].
    by apply elem_of_elements.
Qed.

Lemma elem_of_scopes_of r s d :
  s ∈ scopes_of r d ↔ (r, scope_type s, pattern s) ∈ t_role_scopes d.
Proof.
  unfold scopes_of. rewrite elem_of_merge_sort, list_elem_of_fmap. split.
  - intros ([[r' t] p] & -> & Hin). apply list_elem_of_filter in Hin as [? Hin].
    simpl in *; subst. by apply elem_of_elements.
  - intros Hin. exists (r, scope_type s, pattern s). split; [by destruct s|].
    apply list_elem_of_filter. split; [done|]. by apply elem_of_elements.
Qed.

Lemma elem_of_left_join {V} roles (f : string → list V) r ov :
  (r, ov) ∈ left_join roles f ↔
  r ∈ roles ∧ match ov with Some v => v ∈ f r | None => f r = [] end.
Proof.
  unfold left_join. rewrite list_elem_of_bind. split.
  - intros (r' & Hin & Hr'). destruct (f r') as [|v vs] eqn:E.
    + apply list_elem_of_singleton in Hin. naive_solver.
    + rewrite <- E in Hin. apply list_elem_of_fmap in Hin as (v' & ? & Hv). naive_solver.
  - intros [Hr Hov]. exists r. split; [|done]. destruct (f r) as [|v vs] eqn:E.
    + destruct ov; [by apply not_elem_of_nil in Hov|]. by left.
    + destruct ov as [v'|]; [|done]. rewrite <- E in *. apply list_elem_of_fmap. eauto.
Qed.

(** The accumulation of rows: the keys are those of the rows, and the list of a
    key holds its values, each once. *)
Lemma push_entries_spec {V} `{EqDecision V} (rows : list (string * option V)) m k :
  let m' := foldl push_entry m rows in
  (is_Some (m' !! k) ↔ is_Some (m !! k) ∨ ∃ ov, (k, ov) ∈ rows) ∧
  (∀ v, v ∈ default [] (m' !! k) ↔ v ∈ default [] (m !! k) ∨ (k, Some v) ∈ rows) ∧
  (NoDup (default [] (m !! k)) → NoDup (default [] (m' !! k))).
Proof.
  revert m. induction rows as [|[k0 ov] rows IH]; intros m; simpl.
  - split_and!; [|intros v|done]; rewrite ?elem_of_nil; set_solver.
  - destruct (IH (push_entry m (k0, ov))) as (H1 & H2 & H3).
    assert (is_Some (push_entry m (k0, ov) !! k) ↔ is_Some (m !! k) ∨ k = k0) as K1.
    { unfold push_entry. rewrite lookup_insert_is_Some'. naive_solver. }
    assert (∀ v, v ∈ default [] (push_entry m (k0, ov) !! k) ↔
                 v ∈ default [] (m !! k) ∨ (k, Some v) = (k0, ov)) as K2.
    { intros v. unfold push_entry. simpl. rewrite lookup_insert. case_decide as Hk.
      - subst. simpl. destruct ov as [v0|]; [case_bool_decide|]; rewrite ?elem_of_app, ?list_elem_of_singleton;
          naive_solver.
      - naive_solver. }
    split_and!.
    + rewrite H1, K1. setoid_rewrite elem_of_cons. naive_solver.
    + intros v. rewrite H2, K2, elem_of_cons. naive_solver.
    + intros Hnd. apply H3. unfold push_entry. simpl. rewrite lookup_insert. case_decide; [|done].
      subst. simpl. destruct ov as [v0|]; [case_bool_decide|]; [done| |done].
      apply NoDup_app. split_and!; [done| |by apply NoDup_singleton].
      intros x Hx ->%list_elem_of_singleton. done.
Qed.

(** The assignments of a user: one per role, with exactly the capabilities and
    the scopes of the role. *)
Definition is_assignment (d : Db) (email : string) (a : AssignmentWithScopes) : Prop :=
  (email, as_role_name a) ∈ t_user_roles d ∧
  (∀ c, c ∈ as_caps a ↔ (as_role_name a, c) ∈ t_role_caps d) ∧
  (∀ s, s ∈ as_scopes a ↔ (as_role_name a, scope_type s, pattern s) ∈ t_role_scopes d).

Lemma elem_of_btree_keys {V} (m : gmap string V) k : k ∈ btree_keys m ↔ is_Some (m !! k).
Proof.
  unfold btree_keys. rewrite elem_of_merge_sort, list_elem_of_fmap. split.
  - intros ([k' v] & -> & Hin). apply elem_of_map_to_list in Hin. by eexists.
  - intros [v Hv]. exists (k, v). split; [done|]. by apply elem_of_map_to_list.
Qed.

Lemma left_join_key {V} roles (f : string → list V) r :
  (∃ ov, (r, ov) ∈ left_join roles f) ↔ r ∈ roles.
Proof.
  setoid_rewrite elem_of_left_join. split; [naive_solver|]. intros Hr.
  destruct (f r) as [|v vs] eqn:E; [by exists None|]. exists (Some v).
  split; [done|]. set_solver.
Qed.

Lemma assignments_spec email s :
  faults s = [] →
  ∃ l, run (get_user_assignments_with_scopes email) s = (Ok l, s) ∧
    (∀ a, a ∈ l → is_assignment (pool s) email a) ∧
    (∀ r, (email, r) ∈ t_user_roles (pool s) → ∃ a, a ∈ l ∧ as_role_name a = r).
Proof.
  intros Hf. unfold get_user_assignments_with_scopes.
  rewrite run_bind, run_query, exec_stmt_no_fault by done. simpl.
  rewrite run_bind, run_query, exec_stmt_no_fault by done. simpl.
  replace (upd_pool (pool s) (upd_pool (pool s) s)) with s by (by destruct s).
  set (caps := left_join _ (λ r, caps_of r _)). set (scps := left_join _ (λ r, scopes_of r _)).
  eexists. split; [done|]. split.
  - intros a Ha. apply list_elem_of_fmap in Ha as (r & -> & Hr). apply elem_of_btree_keys in Hr.
    destruct (push_entries_spec caps ∅ r) as (C1 & C2 & _).
    destruct (push_entries_spec scps ∅ r) as (S1 & S2 & _).
    apply C1 in Hr. rewrite lookup_empty in *. destruct Hr as [[]|Hr]; [done|].
    apply left_join_key in Hr. split_and!; simpl.
    + by apply elem_of_roles_of.
    + intros c. rewrite C2, <- elem_of_caps_of. unfold caps. rewrite elem_of_left_join. set_solver.
    + intros sc. rewrite S2, <- elem_of_scopes_of. unfold scps. rewrite elem_of_left_join. set_solver.
  - intros r Hr. eexists. split; [apply list_elem_of_fmap; exists r; split; [done|]|done].
    apply elem_of_btree_keys, push_entries_spec. right. apply left_join_key. by apply elem_of_roles_of.
Qed.
