(* ===== verification/DbCredentials.v ===== *)
(** * Users, credentials and workers in the database (db/users.rs, db/tokens.rs,
    db/api_keys.rs, db/robots.rs, db/workers.rs)

    The statements behind the administrative endpoints and the verification of
    tokens. What runs in one transaction is one action ([query_tx]) that either
    commits or leaves the tables as they were. *)

From stdpp Require Import prelude gmap strings list sorting.
From S2P Require Import Prelude Async Proto Db TokenCache App DbRoles.

(** A transaction: [from] is the conversion of database errors. *)
Definition query_tx {A E} (from : SqlError → E) (body : Z → Db → result (A * Db) E)
    : async (result A E) :=
  atomic (λ s, let '(failed, s) := next_fault s in
               if failed then (Err (from DbFault), s)
               else match body (clock s) (pool s) with
                    | Ok (a, d) => (Ok a, upd_pool d s)
                    | Err e => (Err e, s)
                    end).

(** [UPDATE ... SET ... WHERE ...], with the number of rows affected. *)
Definition update_where {K V} `{Countable K} (p : V → bool) (f : V → V) (m : gmap K V)
    : Z * gmap K V :=
  (Z.of_nat (length (filter (λ kv, p kv.2 = true) (map_to_list m))),
   (λ v, if p v then f v else v) <$> m).

(** The rows of a table in the order of their keys. *)
Definition rows_where {V} (p : V → bool) (m : gmap Z V) : list V :=
  snd <$> filter (λ kv, p kv.2 = true) (merge_sort (on_key Z.le fst) (map_to_list m)).

(** A UNIQUE constraint of a new row. *)
Definition exists_row {V} (p : V → bool) (m : gmap Z V) : bool :=
  existsb p (map_to_list m).*2.

(** The look-up of a column finds a new row when no other row has its value. *)
Lemma find_first_inserted {K V} `{Countable K} (p : V → bool) (m : gmap K V) i x :
  p x = true → (∀ j y, m !! j = Some y → p y = false) →
  find_first p (map_to_list (<[i := x]> m)).*2 = Some x.
Proof.
  intros Hx Ho. destruct (find_first _ _) as [y|] eqn:E.
  - apply find_first_Some in E as [Hin Hk].
    apply list_elem_of_fmap in Hin as ([j y'] & -> & Hin%elem_of_map_to_list). simpl in *.
    apply lookup_insert_Some in Hin as [[_ ->]|[_ Hin]]; [done|]. apply Ho in Hin. congruence.
  - assert (x ∈ (map_to_list (<[i := x]> m)).*2) as Hin.
    { apply list_elem_of_fmap. exists (i, x). split; [done|]. apply elem_of_map_to_list, lookup_insert_eq. }
    apply (find_first_None _ _ _ E) in Hin. congruence.
Qed.

(** A UNIQUE column without a conflict. *)
Lemma exists_row_false {V} (p : V → bool) (m : gmap Z V) :
  exists_row p m = false → ∀ j y, m !! j = Some y → p y = false.
Proof.
  unfold exists_row. intros He j y Hj. apply not_true_iff_false. intros Hp. apply not_true_iff_false in He.
  apply He, existsb_spec. exists y. split; [|done]. apply list_elem_of_fmap. exists (j, y).
  split; [done|by apply elem_of_map_to_list].
Qed.

(** ** db/tokens.rs *)

Definition insert_token (user_email token_hash : string) (expires_at : option Z) : stmt Z :=
  λ now d,
    if exists_row (λ t, bool_decide (tk_token_hash t = token_hash)) (t_tokens d)
    then (Err UniqueViolation, d)
    else if bool_decide (t_users d !! user_email = None) then (Err ConstraintViolation, d)
    else
      let id := t_next_token_id d in
      (Ok id, set_next_token_id (id + 1)
        (set_tokens (<[id := mkTokenRow user_email token_hash expires_at false now None None]>
                       (t_tokens d)) d)).

Definition token_by_hash (token_hash : string) (d : Db) : option TokenRow :=
  find_first (λ t, bool_decide (tk_token_hash t = token_hash)) (map_to_list (t_tokens d)).*2.

(** Unknown tokens count as revoked. *)
Definition is_token_revoked (token_hash : string) : stmt bool :=
  λ _ d, (Ok (match token_by_hash token_hash d with
              | Some t => tk_revoked t
              | None => true
              end), d).

Definition revoked_token (t : TokenRow) : TokenRow :=
  mkTokenRow (tk_user_email t) (tk_token_hash t) (tk_expires_at t) true (tk_created_at t)
    (tk_first_used_at t) (tk_last_used_at t).

Definition revoke_token (token_hash : string) : stmt bool :=
  λ _ d,
    let '(n, rows) := update_where
      (λ t, bool_decide (tk_token_hash t = token_hash) && negb (tk_revoked t)) revoked_token
      (t_tokens d) in
    (Ok (0 <? n)%Z, set_tokens rows d).

Definition revoke_all_for_user (user_email : string) : stmt Z :=
  λ _ d,
    let '(n, rows) := update_where
      (λ t, bool_decide (tk_user_email t = user_email) && negb (tk_revoked t)) revoked_token
      (t_tokens d) in
    (Ok n, set_tokens rows d).

Definition mark_token_used (token_hash : string) : stmt unit :=
  λ now d,
    let '(_, rows) := update_where
      (λ t, bool_decide (tk_token_hash t = token_hash) && negb (tk_revoked t))
      (λ t, mkTokenRow (tk_user_email t) (tk_token_hash t) (tk_expires_at t) (tk_revoked t)
              (tk_created_at t) (coalesce (tk_first_used_at t) (Some now)) (Some now))
      (t_tokens d) in
    (Ok (), set_tokens rows d).

(** ** db/api_keys.rs *)

Record ApiKeyListItem := mkApiKeyListItem {
  akl_key_prefix : string;
  akl_name : string;
  akl_created_at : Z
}.

(** The UNIQUE constraints of [api_keys] and its reference to the owner; a row
    that was revoked still takes part. *)
Definition api_key_conflict (name owner_email key_hash key_prefix : string) (d : Db) : bool :=
  exists_row (λ k : ApiKey,
    bool_decide (ak_key_hash k = key_hash)
    || bool_decide (ak_owner_email k = owner_email) && bool_decide (ak_key_prefix k = key_prefix)
    || bool_decide (ak_name k = name) && bool_decide (ak_owner_email k = owner_email))
    (t_api_keys d).

Definition insert_api_key_row (name owner_email key_hash key_prefix : string) (now : Z) (d : Db)
    : result (Z * Db) SqlError :=
  if api_key_conflict name owner_email key_hash key_prefix d then Err UniqueViolation
  else if bool_decide (t_users d !! owner_email = None) then Err ConstraintViolation
  else
    let id := t_next_api_key_id d in
    Ok (id, set_next_api_key_id (id + 1)
      (set_api_keys (<[id := mkApiKey (mkApiKeyRow id name key_hash key_prefix owner_email None
                                         false now) None None]> (t_api_keys d)) d)).

(** A statement out of what it does when it succeeds. *)
Definition as_stmt {A} (f : Z → Db → result (A * Db) SqlError) : stmt A :=
  λ now d, match f now d with Ok (a, d') => (Ok a, d') | Err e => (Err e, d) end.

Definition insert_api_key (name owner_email key_hash key_prefix : string) : stmt Z :=
  as_stmt (insert_api_key_row name owner_email key_hash key_prefix).

(** Inside a transaction of the caller. *)
Definition insert_api_key_in_tx (name owner_email key_hash key_prefix : string) (now : Z) (d : Db)
    : result (Z * Db) SqlError :=
  insert_api_key_row name owner_email key_hash key_prefix now d.

Definition find_api_keys_by_prefix (key_prefix : string) : stmt (list ApiKeyRow) :=
  λ _ d, (Ok (ak_row <$> rows_where (λ k : ApiKey, bool_decide (ak_key_prefix k = key_prefix)
                                              && negb (ak_revoked k)) (t_api_keys d)), d).

(** Keys of one second are in the order of the index on the owner and prefix. *)
Definition list_api_keys_for_user (owner_email : string) : stmt (list ApiKeyListItem) :=
  λ _ d,
    let rows := rows_where (λ k : ApiKey, bool_decide (ak_owner_email k = owner_email)
                                     && negb (ak_revoked k)) (t_api_keys d) in
    (Ok ((λ k : ApiKey, mkApiKeyListItem (ak_key_prefix k) (ak_name k) (ak_created_at k)) <$>
           merge_sort (on_key (flip Z.le) (λ k : ApiKey, ak_created_at k))
             (merge_sort (on_key string_le (λ k : ApiKey, ak_key_prefix k)) rows)), d).

Definition revoked_key (k : ApiKey) : ApiKey :=
  mkApiKey (mkApiKeyRow (ak_id k) (ak_name k) (ak_key_hash k) (ak_key_prefix k)
              (ak_owner_email k) (ak_expires_at k) true (ak_created_at k))
    (ak_first_used_at k) (ak_last_used_at k).

Definition revoke_api_key_by_prefix (owner_email key_prefix : string) : stmt bool :=
  λ _ d,
    let '(n, rows) := update_where (λ k : ApiKey,
      bool_decide (ak_owner_email k = owner_email) && bool_decide (ak_key_prefix k = key_prefix)
      && negb (ak_revoked k)) revoked_key (t_api_keys d) in
    (Ok (0 <? n)%Z, set_api_keys rows d).

Definition revoke_all_api_keys_for_user (owner_email : string) : stmt Z :=
  λ _ d,
    let '(n, rows) := update_where (λ k : ApiKey,
      bool_decide (ak_owner_email k = owner_email) && negb (ak_revoked k)) revoked_key
      (t_api_keys d) in
    (Ok n, set_api_keys rows d).

(** [UPDATE api_keys SET revoked = 1 WHERE id = ? AND revoked = 0]. *)
Definition revoke_key_row (api_key_id : Z) (d : Db) : Z * Db :=
  let '(n, rows) := update_where (λ k : ApiKey,
    bool_decide (ak_id k = api_key_id) && negb (ak_revoked k)) revoked_key (t_api_keys d) in
  (n, set_api_keys rows d).

Definition revoke_api_key_by_id (api_key_id : Z) : stmt bool :=
  λ _ d, let '(n, d) := revoke_key_row api_key_id d in (Ok (0 <? n)%Z, d).

Definition mark_api_key_used (api_key_id : Z) : stmt unit :=
  λ now d,
    let '(_, rows) := update_where (λ k : ApiKey,
      bool_decide (ak_id k = api_key_id) && negb (ak_revoked k))
      (λ k, mkApiKey (ak_row k) (coalesce (ak_first_used_at k) (Some now)) (Some now))
      (t_api_keys d) in
    (Ok (), set_api_keys rows d).

Definition get_key_prefix_by_id (api_key_id : Z) : stmt (option string) :=
  λ _ d, (Ok ((λ k : ApiKey, ak_key_prefix k) <$> t_api_keys d !! api_key_id), d).

(** ** db/workers.rs *)

Definition insert_worker (id name arch : string) (api_key_id : Z) (created_by : string) (now : Z)
    (d : Db) : result Db SqlError :=
  if negb (bool_decide (arch = "x86_64") || bool_decide (arch = "aarch64"))
     || bool_decide (is_Some (t_workers d !! id)) then Err ConstraintViolation
  else if existsb (λ w, bool_decide (wr_name w = name) || bool_decide (wr_api_key_id w = api_key_id))
                  (map_to_list (t_workers d)).*2 then Err UniqueViolation
  else if bool_decide (t_api_keys d !! api_key_id = None)
          || bool_decide (t_users d !! created_by = None) then Err ConstraintViolation
  else Ok (set_worker_rows
             (<[id := mkWorkerRow id name arch api_key_id created_by now None]> (t_workers d)) d).

Definition get_worker_by_id (id : string) : stmt (option WorkerRow) :=
  λ _ d, (Ok (t_workers d !! id), d).

(** Workers of one second are in rowid order in SQLite; the model has no rowid
    for this table and takes the order of the keys. *)
Definition list_workers : stmt (list WorkerRow) :=
  λ _ d, (Ok (merge_sort (on_key Z.le wr_created_at)
                (merge_sort (on_key string_le wr_id) (map_to_list (t_workers d)).*2)), d).

Definition delete_worker (id : string) : stmt bool :=
  λ _ d, (Ok (bool_decide (is_Some (t_workers d !! id))),
          set_worker_rows (delete id (t_workers d)) d).

Definition update_api_key_id (id : string) (new_api_key_id : Z) (d : Db) : result Db SqlError :=
  match t_workers d !! id with
  | None => Ok d
  | Some w =>
      if existsb (λ w', bool_decide (wr_id w' ≠ id) && bool_decide (wr_api_key_id w' = new_api_key_id))
                 (map_to_list (t_workers d)).*2 then Err UniqueViolation
      else if bool_decide (t_api_keys d !! new_api_key_id = None) then Err ConstraintViolation
      else Ok (set_worker_rows (<[id := mkWorkerRow (wr_id w) (wr_name w) (wr_arch w) new_api_key_id
                 (wr_created_by w) (wr_created_at w) (wr_last_seen w)]> (t_workers d)) d)
  end.
