(* ===== verification/DbUsers.v ===== *)
(** * Users and robot accounts in the database (db/users.rs, db/robots.rs) *)

From stdpp Require Import prelude gmap strings list sorting pretty.
From S2P Require Import Prelude Async Proto Db TokenCache App DbRoles DbCredentials.

(** ** Statements inside transactions *)

Definition with_active (active : bool) (now : Z) (u : UserRow) : UserRow :=
  mkUserRow (mkUserRecord (ur_email u) (ur_name u) active (ur_default_channel_id u) (ur_is_robot u))
    (u_robot_description u) (u_created_at u) now (u_first_login_at u).

(** [UPDATE users SET ... WHERE email = ?]. *)
Definition update_user (email : string) (f : UserRow → UserRow) (d : Db) : Db :=
  match user_row email d with
  | Some u => set_users (<[email := f u]> (t_users d)) d
  | None => d
  end.

(** [INSERT OR IGNORE INTO user_roles]. *)
Definition assign_role (email role : string) (d : Db) : result Db SqlError :=
  if bool_decide ((email, role) ∈ t_user_roles d) then Ok d else insert_user_role email role d.

Definition insert_user_row (email : string) (u : UserRow) (d : Db) : result Db SqlError :=
  match user_row email d with
  | Some _ => Err ConstraintViolation
  | None => Ok (set_users (<[email := u]> (t_users d)) d)
  end.

Definition is_active_token_of (email : string) (t : RobotTokenRow) : bool :=
  bool_decide (rt_robot_email t = email) && negb (rt_revoked t).

(** Migration 007: token hashes are unique, and a robot has at most one token
    that is not revoked. *)
Definition insert_robot_token (email token_hash token_prefix : string) (expires_at : option Z)
    (now : Z) (d : Db) : result Db SqlError :=
  if exists_row (λ t, bool_decide (rt_token_hash t = token_hash) || is_active_token_of email t)
                (t_robot_tokens d) then Err UniqueViolation
  else if bool_decide (t_users d !! email = None) then Err ConstraintViolation
  else
    let id := t_next_robot_token_id d in
    Ok (set_next_robot_token_id (id + 1)
      (set_robot_tokens (<[id := mkRobotTokenRow id email token_hash token_prefix expires_at false
                                   None None now]> (t_robot_tokens d)) d)).

(** ** db/users.rs *)

Inductive CreateOrUpdateUserError := CouRobotNamePrefix | CouDb (e : SqlError) | CouRowNotFound.

Definition upsert_user (email name : string) : stmt unit :=
  λ now d,
    match user_row email d with
    | None => (Ok (), set_users (<[email := mkUserRow (mkUserRecord email name true None false)
                                             None now now (Some now)]> (t_users d)) d)
    | Some u =>
        (Ok (), set_users (<[email := mkUserRow
           (mkUserRecord (ur_email u) name (ur_active u) (ur_default_channel_id u) (ur_is_robot u))
           (u_robot_description u) (u_created_at u) now
           (coalesce (u_first_login_at u) (Some now))]> (t_users d)) d)
    end.

Definition create_or_update_user (email name : string)
    : async (result UserRecord CreateOrUpdateUserError) :=
  if starts_with "robot:" name then Ret (Err CouRobotNamePrefix)
  else
    do? query (upsert_user email name) map_err CouDb in
    let? user := query (get_user email) map_err CouDb in
    Ret (match user with Some u => Ok u | None => Err CouRowNotFound end).

Inductive ProvisionUserError :=
| AlreadyExists
| RobotCollision
| ProvisionRobotNamePrefix
| UnknownRole (role : string)
| ProvisionUniqueViolation
| ProvisionDb (e : SqlError)
| ProvisionRowNotFound.

Definition provision_error_text `{Env} (e : ProvisionUserError) : string :=
  match e with
  | AlreadyExists => "a user already exists for this email"
  | RobotCollision => "email is reserved for service accounts"
  | ProvisionRobotNamePrefix => "display name starting with 'robot:' is reserved for service accounts"
  | UnknownRole r => "role '" +:+ r +:+ "' does not exist"
  | ProvisionUniqueViolation => "concurrent modification detected"
  | ProvisionDb e => "database error: " +:+ sql_error_text e
  | ProvisionRowNotFound => "database error: no rows returned by a query that expected to return at least one row"
  end.

Definition provision_from (e : SqlError) : ProvisionUserError :=
  if is_unique_violation e then ProvisionUniqueViolation else ProvisionDb e.

(** The name [robot+<name>@robots] of a robot account. *)
Definition name_to_synthetic_email (name : string) : string :=
  "robot+" +:+ to_lowercase name +:+ "@robots".

Definition synthetic_email_to_name (email : string) : option string :=
  s ← strip_prefix "robot+" email; strip_suffix "@robots" s.

Definition provision_user_inner (email name : string) (roles : list string) (now : Z) (d : Db)
    : result (unit * Db) ProvisionUserError :=
  match user_row email d with
  | Some r => Err (if ur_is_robot r then RobotCollision else AlreadyExists)
  | None =>
      match find_first (λ role, bool_decide (t_roles d !! role = None)) roles with
      | Some role => Err (UnknownRole role)
      | None =>
          match insert_user_row email (mkUserRow (mkUserRecord email name true None false)
                                         None now now None) d with
          | Err e => Err (provision_from e)
          | Ok d =>
              match insert_all (assign_role email) roles d with
              | Err e => Err (provision_from e)
              | Ok d => Ok ((), d)
              end
          end
      end
  end.

Definition provision_user (email name : string) (roles : list string)
    : async (result UserRecord ProvisionUserError) :=
  if starts_with "robot:" name then Ret (Err ProvisionRobotNamePrefix)
  else if bool_decide (is_Some (synthetic_email_to_name email)) then Ret (Err RobotCollision)
  else
    do? query_tx provision_from (provision_user_inner email name roles) map_err id in
    let? user := query (get_user email) map_err provision_from in
    Ret (match user with Some u => Ok u | None => Err ProvisionRowNotFound end).

Inductive EntityFilter := FilterUser | FilterRobot | FilterAll.

Record EntitySummary := mkEntitySummary {
  es_email : string;
  es_name : string;
  es_active : bool;
  es_is_robot : bool;
  es_first_login_at : option Z
}.

Definition to_summary (u : UserRow) : EntitySummary :=
  mkEntitySummary (ur_email u) (ur_name u) (ur_active u) (ur_is_robot u) (u_first_login_at u).

Definition entity_matches (f : EntityFilter) (u : UserRow) : bool :=
  match f with
  | FilterUser => negb (ur_is_robot u)
  | FilterRobot => ur_is_robot u
  | FilterAll => true
  end.

(** The users in the order of their email. *)
Definition users_where (p : UserRow → bool) (d : Db) : list UserRow :=
  merge_sort (on_key string_le (λ u : UserRow, ur_email u))
    (filter (λ u, p u = true) (map_to_list (t_users d)).*2).

Definition list_entities_filtered (f : EntityFilter) : stmt (list EntitySummary) :=
  λ _ d, (Ok (to_summary <$> users_where (entity_matches f) d), d).

Definition set_default_channel (email : string) (channel_id : option Z) : stmt bool :=
  λ now d,
    match user_row email d with
    | None => (Ok false, d)
    | Some u =>
        if match channel_id with
           | Some c => bool_decide (t_channels d !! c = None) | None => false end
        then (Err ConstraintViolation, d)
        else (Ok true, set_users (<[email := mkUserRow
               (mkUserRecord (ur_email u) (ur_name u) (ur_active u) channel_id (ur_is_robot u))
               (u_robot_description u) (u_created_at u) now (u_first_login_at u)]> (t_users d)) d)
    end.

(** ** db/robots.rs *)

Record TokenCandidate := mkTokenCandidate {
  tc_id : Z;
  tc_token_hash : string;
  tc_token_prefix : string;
  tc_robot_email : string;
  tc_expires_at : option Z
}.

Record RobotRow := mkRobotRow {
  rob_email : string;
  rob_display_name : string;
  rob_description : option string;
  rob_active : bool;
  rob_created_at : Z;
  rob_token_state : string;
  rob_token_prefix : option string;
  rob_token_expires_at : option Z;
  rob_token_first_used_at : option Z;
  rob_token_last_used_at : option Z;
  rob_token_created_at : option Z
}.

Inductive CreateRevivedOutcome := Created | Revived.

Inductive CreateRobotError := AlreadyActive | HumanCollision | RobotUniqueViolation | RobotDb (e : SqlError).

Definition create_robot_from (e : SqlError) : CreateRobotError :=
  if is_unique_violation e then RobotUniqueViolation else RobotDb e.

(** [is_ascii_lowercase], [is_ascii_digit] and the ranges of the name, on a
    character of the string. *)
Definition is_border (c : string) : bool :=
  match c with
  | String a EmptyString =>
      let n := Ascii.nat_of_ascii a in
      ((97 <=? n) && (n <=? 122)) || ((48 <=? n) && (n <=? 57)) || (n =? 95)
  | _ => false
  end.

Definition validate_robot_name (name : string) : result unit string :=
  let chars := chars name in
  let n := length chars in
  match chars with
  | first :: inner =>
      if negb ((2 <=? n) && (n <=? 64)) then
        Err ("robot name must be 2–64 characters, got " +:+ pretty n)
      else if negb (is_border first) then
        Err ("robot name must start with [a-z0-9_], got '" +:+ first +:+ "'")
      else if negb (is_border (default "" (last chars))) then
        Err ("robot name must end with [a-z0-9_], got '" +:+ default "" (last chars) +:+ "'")
      else
        match find_first (λ c, negb (is_border c) && bool_decide (c ≠ ".") && bool_decide (c ≠ "-"))
                (take (n - 2) inner) with
        | Some c => Err ("robot name contains invalid character '" +:+ c +:+ "': allowed [a-z0-9_.-]")
        | None => Ok ()
        end
  | [] => Err ("robot name must be 2–64 characters, got " +:+ pretty n)
  end.

Definition find_active_token_by_prefix (prefix : string) : stmt (list TokenCandidate) :=
  λ _ d, (Ok ((λ t, mkTokenCandidate (rt_id t) (rt_token_hash t) (rt_token_prefix t)
                      (rt_robot_email t) (rt_expires_at t)) <$>
                rows_where (λ t, bool_decide (rt_token_prefix t = prefix) && negb (rt_revoked t))
                  (t_robot_tokens d)), d).

Definition revoked_robot_token (t : RobotTokenRow) : RobotTokenRow :=
  mkRobotTokenRow (rt_id t) (rt_robot_email t) (rt_token_hash t) (rt_token_prefix t)
    (rt_expires_at t) true (rt_first_used_at t) (rt_last_used_at t) (rt_created_at t).

Definition revoke_all_active_tokens_in_conn (email : string) (d : Db) : Z * Db :=
  let '(n, rows) := update_where (is_active_token_of email) revoked_robot_token (t_robot_tokens d) in
  (n, set_robot_tokens rows d).

Definition revoke_all_active_tokens (email : string) : stmt Z :=
  λ _ d, let '(n, d) := revoke_all_active_tokens_in_conn email d in (Ok n, d).

Definition mark_robot_token_used (id : Z) : stmt unit :=
  λ now d,
    let '(_, rows) := update_where (λ t, bool_decide (rt_id t = id))
      (λ t, mkRobotTokenRow (rt_id t) (rt_robot_email t) (rt_token_hash t) (rt_token_prefix t)
              (rt_expires_at t) (rt_revoked t) (coalesce (rt_first_used_at t) (Some now)) (Some now)
              (rt_created_at t)) (t_robot_tokens d) in
    (Ok (), set_robot_tokens rows d).

(** The row of the CTE [best_token] of a robot: the order is [revoked ASC, id DESC]. *)
Definition better_token (a b : RobotTokenRow) : Prop :=
  if bool_decide (rt_revoked a = rt_revoked b) then (rt_id b ≤ rt_id a)%Z else rt_revoked a = false.
#[global] Instance better_token_dec a b : Decision (better_token a b).
Proof. unfold better_token. destruct (bool_decide _); apply _. Defined.

Definition best_token (email : string) (d : Db) : option RobotTokenRow :=
  head (merge_sort better_token
          (rows_where (λ t, bool_decide (rt_robot_email t = email)) (t_robot_tokens d))).

(** The columns of a robot are those of its row and of its best token. *)
Definition classify_robot_row (u : UserRow) (token : option RobotTokenRow) (now : Z) : RobotRow :=
  let token_state :=
    match token with
    | None => "none"
    | Some t =>
        if rt_revoked t then "revoked"
        else match rt_expires_at t with
             | Some exp => if (exp <=? now)%Z then "expired" else "active"
             | None => "active"
             end
    end in
  mkRobotRow (ur_email u) (ur_name u) (u_robot_description u) (ur_active u) (u_created_at u)
    token_state (rt_token_prefix <$> token) (token ≫= rt_expires_at) (token ≫= rt_first_used_at)
    (token ≫= rt_last_used_at) (rt_created_at <$> token).

Definition robots_with_tokens : stmt (list (UserRow * option RobotTokenRow)) :=
  λ _ d, (Ok ((λ u : UserRow, (u, best_token (ur_email u) d)) <$> users_where (λ u, ur_is_robot u) d), d).

Definition list_robots : async (result (list RobotRow) SqlError) :=
  let? rows := query robots_with_tokens map_err id in
  let* t := now in
  Ret (Ok ((λ r, classify_robot_row r.1 r.2 t) <$> rows)).

Definition robot_with_token (email : string) : stmt (option (UserRow * option RobotTokenRow)) :=
  λ _ d, (Ok (match user_row email d with
              | Some u => if ur_is_robot u then Some (u, best_token email d) else None
              | None => None
              end), d).

Definition get_robot_by_name (name : string) : async (result (option RobotRow) SqlError) :=
  let email := name_to_synthetic_email name in
  let? row := query (robot_with_token email) map_err id in
  let* t := now in
  Ret (Ok ((λ r, classify_robot_row r.1 r.2 t) <$> row)).

Definition create_robot_in_conn (name : string) (description : option string)
    (expires_at : option Z) (token_hash token_prefix : string) (roles : list string) (now : Z)
    (d : Db) : result Db SqlError :=
  let email := name_to_synthetic_email name in
  match insert_user_row email (mkUserRow (mkUserRecord email ("robot:" +:+ name) true None true)
                                 description now now None) d with
  | Err e => Err e
  | Ok d =>
      match insert_robot_token email token_hash token_prefix expires_at now d with
      | Err e => Err e
      | Ok d => insert_all (assign_role email) roles d
      end
  end.

Definition revive_robot_in_conn (email name : string) (description : option string)
    (expires_at : option Z) (token_hash token_prefix : string) (roles : list string) (now : Z)
    (d : Db) : result Db SqlError :=
  let d := set_user_role_rows (filter (λ ur, ur.1 ≠ email) (t_user_roles d)) d in
  let d := set_robot_tokens (filter (λ kv, rt_robot_email kv.2 ≠ email) (t_robot_tokens d)) d in
  let d := update_user email (λ u, mkUserRow
             (mkUserRecord (ur_email u) ("robot:" +:+ name) true None (ur_is_robot u))
             description now now (u_first_login_at u)) d in
  match insert_all (assign_role email) roles d with
  | Err e => Err e
  | Ok d => insert_robot_token email token_hash token_prefix expires_at now d
  end.

Definition create_or_revive_inner (email name : string) (description : option string)
    (expires_at : option Z) (token_hash token_prefix : string) (roles : list string) (now : Z)
    (d : Db) : result (CreateRevivedOutcome * Db) CreateRobotError :=
  match user_row email d with
  | None =>
      match create_robot_in_conn name description expires_at token_hash token_prefix roles now d with
      | Ok d => Ok (Created, d)
      | Err e => Err (create_robot_from e)
      end
  | Some r =>
      if negb (ur_is_robot r) then Err HumanCollision
      else if ur_active r then Err AlreadyActive
      else
        match revive_robot_in_conn email name description expires_at token_hash token_prefix roles
                now d with
        | Ok d => Ok (Revived, d)
        | Err e => Err (create_robot_from e)
        end
  end.

Definition create_or_revive (name : string) (description : option string) (expires_at : option Z)
    (token_hash token_prefix : string) (roles : list string)
    : async (result CreateRevivedOutcome CreateRobotError) :=
  query_tx create_robot_from
    (create_or_revive_inner (name_to_synthetic_email name) name description expires_at token_hash
       token_prefix roles).

Definition tombstone_robot_inner (email : string) (now : Z) (d : Db) : result (Z * Db) SqlError :=
  let d := update_user email (with_active false now) d in
  Ok (revoke_all_active_tokens_in_conn email d).

Definition tombstone_robot_tx (email : string) : async (result Z SqlError) :=
  query_tx id (tombstone_robot_inner email).

Inductive RotateTokenOutcome := Issued | Rotated.

Inductive RotateTokenError :=
| RobotNotFound
| RobotTombstoned
| NonRevokedTokenExists
| RotateUniqueViolation
| RotateDb (e : SqlError).

Definition rotate_from (e : SqlError) : RotateTokenError :=
  if is_unique_violation e then RotateUniqueViolation else RotateDb e.

Definition has_active_token (email : string) (d : Db) : bool :=
  exists_row (is_active_token_of email) (t_robot_tokens d).

Definition rotate_token_inner (email : string) (renew : bool) (token_hash token_prefix : string)
    (expires_at : option Z) (now : Z) (d : Db) : result (RotateTokenOutcome * Db) RotateTokenError :=
  match user_row email d with
  | None => Err RobotNotFound
  | Some r =>
      if negb (ur_is_robot r) then Err RobotNotFound
      else if negb (ur_active r) then Err RobotTombstoned
      else
        let has_non_revoked := has_active_token email d in
        if has_non_revoked && negb renew then Err NonRevokedTokenExists
        else
          let '(_, d) := revoke_all_active_tokens_in_conn email d in
          match insert_robot_token email token_hash token_prefix expires_at now d with
          | Err e => Err (rotate_from e)
          | Ok d => Ok (if has_non_revoked then Rotated else Issued, d)
          end
  end.

Definition rotate_token (name : string) (renew : bool) (token_hash token_prefix : string)
    (expires_at : option Z) : async (result RotateTokenOutcome RotateTokenError) :=
  query_tx rotate_from
    (rotate_token_inner (name_to_synthetic_email name) renew token_hash token_prefix expires_at).

Definition set_description (robot_email : string) (description : option string) : stmt bool :=
  λ now d,
    match user_row robot_email d with
    | Some u =>
        if ur_is_robot u then
          (Ok true, set_users (<[robot_email := mkUserRow (u_record u) description (u_created_at u)
                                  now (u_first_login_at u)]> (t_users d)) d)
        else (Ok false, d)
    | None => (Ok false, d)
    end.

Definition has_non_revoked_token (email : string) : stmt bool :=
  λ _ d, (Ok (has_active_token email d), d).
