(* ===== verification/DbChannels.v ===== *)
(** * Channels and channel types (db/channels.rs)

    The statements on [channels] and [channel_types] with the constraints of
    migration 005: both are deleted softly, the name of an active channel and
    the type of an active channel type are unique, and a channel's default type
    is set only to one of its own. *)

From stdpp Require Import prelude gmap strings list sorting.
From S2P Require Import Prelude Async Proto Db App DbRoles.

Record ChannelRecord := mkChannelRecord {
  cr_id : Z;
  cr_name : string;
  cr_description : string;
  cr_default_type_id : option Z;
  cr_created_at : Z;
  cr_updated_at : Z
}.

Record ChannelTypeRecord := mkChannelTypeRecord {
  ctr_id : Z;
  ctr_channel_id : Z;
  ctr_type_name : string;
  ctr_project : string;
  ctr_prefix_template : string;
  ctr_created_at : Z;
  ctr_updated_at : Z
}.

Record ResolvedChannelType := mkResolvedChannelType {
  rct_channel_id : Z;
  rct_channel_type_id : Z;
  rct_project : string;
  rct_prefix_template : string
}.

(** ** Rows *)

(** [deleted_at IS NULL]. *)
Definition channel_active (c : ChannelRow) : bool := bool_decide (ch_deleted_at c = None).
Definition type_active (t : ChannelTypeRow) : bool := bool_decide (ct_deleted_at t = None).

Definition channel_record (c : ChannelRow) : ChannelRecord :=
  mkChannelRecord (ch_id c) (ch_name c) (ch_description c) (ch_default_type_id c)
    (ch_created_at c) (ch_updated_at c).

Definition type_record (t : ChannelTypeRow) : ChannelTypeRecord :=
  mkChannelTypeRecord (ct_id t) (ct_channel_id t) (ct_type_name t) (ct_project t)
    (ct_prefix_template t) (ct_created_at t) (ct_updated_at t).

(** The rows of a table in rowid order. *)
Definition channel_rows (d : Db) : list ChannelRow :=
  merge_sort (on_key Z.le ch_id) (map_to_list (t_channels d)).*2.
Definition type_rows (d : Db) : list ChannelTypeRow :=
  merge_sort (on_key Z.le ct_id) (map_to_list (t_channel_types d)).*2.

(** The partial unique indices. *)
Definition name_taken (name : string) (except : option Z) (d : Db) : bool :=
  existsb (λ c, channel_active c && bool_decide (ch_name c = name)
                && negb (bool_decide (Some (ch_id c) = except))) (channel_rows d).
Definition type_taken (channel_id : Z) (type_name : string) (d : Db) : bool :=
  existsb (λ t, type_active t && bool_decide (ct_channel_id t = channel_id)
                && bool_decide (ct_type_name t = type_name)) (type_rows d).

Definition known_type_name (t : string) : bool :=
  bool_decide (t = "dev") || bool_decide (t = "release")
  || bool_decide (t = "test") || bool_decide (t = "ci").

(** ** Channel statements *)

Definition create_channel (name description : string) : stmt Z :=
  λ now d,
    if name_taken name None d then (Err UniqueViolation, d)
    else
      let id := t_next_channel_id d in
      (Ok id, set_next_channel_id (id + 1)
                (set_channels (<[id := mkChannelRow id name description None None now now]>
                                 (t_channels d)) d)).

Definition get_channel_by_id (id : Z) : stmt (option ChannelRecord) :=
  λ _ d, (Ok (c ← t_channels d !! id;
              if channel_active c then Some (channel_record c) else None), d).

Definition get_channel_by_name (name : string) : stmt (option ChannelRecord) :=
  λ _ d, (Ok (channel_record <$>
              find_first (λ c, bool_decide (ch_name c = name) && channel_active c)
                         (channel_rows d)), d).

Definition list_active_channels : stmt (list ChannelRecord) :=
  λ _ d, (Ok (merge_sort (on_key string_le cr_name)
                (channel_record <$> filter (λ c, channel_active c = true) (channel_rows d))), d).

(** [UPDATE channels SET ... WHERE id = ? AND deleted_at IS NULL]. *)
Definition update_active_channel (id : Z) (f : ChannelRow → ChannelRow) (d : Db) : bool * Db :=
  match t_channels d !! id with
  | Some c => if channel_active c then (true, set_channels (<[id := f c]> (t_channels d)) d)
              else (false, d)
  | None => (false, d)
  end.

Definition update_active_type (id : Z) (f : ChannelTypeRow → ChannelTypeRow) (d : Db) : bool * Db :=
  match t_channel_types d !! id with
  | Some t => if type_active t then (true, set_channel_types (<[id := f t]> (t_channel_types d)) d)
              else (false, d)
  | None => (false, d)
  end.

Definition update_channel (id : Z) (name description : string) : stmt bool :=
  λ now d,
    let '(updated, d') := update_active_channel id (λ c,
      mkChannelRow (ch_id c) name description (ch_default_type_id c) (ch_deleted_at c)
        (ch_created_at c) now) d in
    if updated && name_taken name (Some id) d then (Err UniqueViolation, d)
    else (Ok updated, d').

Definition delete_channel_row (now : Z) (c : ChannelRow) : ChannelRow :=
  mkChannelRow (ch_id c) (ch_name c) (ch_description c) (ch_default_type_id c) (Some now)
    (ch_created_at c) now.

Definition delete_type_row (now : Z) (t : ChannelTypeRow) : ChannelTypeRow :=
  mkChannelTypeRow (ct_id t) (ct_channel_id t) (ct_type_name t) (ct_project t)
    (ct_prefix_template t) (Some now) (ct_created_at t) now.

(** One transaction: the channel, then its active types. *)
Definition soft_delete_channel (id : Z) : stmt bool :=
  λ now d,
    match update_active_channel id (delete_channel_row now) d with
    | (true, d) =>
        (Ok true, set_channel_types
          ((λ t, if bool_decide (ct_channel_id t = id) && type_active t
                 then delete_type_row now t else t) <$> t_channel_types d) d)
    | (false, d) => (Ok false, d)
    end.

(** ** Channel type statements *)

Definition create_type (channel_id : Z) (type_name project prefix_template : string) : stmt Z :=
  λ now d,
    if negb (known_type_name type_name) then (Err ConstraintViolation, d)
    else if type_taken channel_id type_name d then (Err UniqueViolation, d)
    else if bool_decide (t_channels d !! channel_id = None) then (Err ConstraintViolation, d)
    else
      let id := t_next_channel_type_id d in
      (Ok id, set_next_channel_type_id (id + 1)
        (set_channel_types (<[id := mkChannelTypeRow id channel_id type_name project
           prefix_template None now now]> (t_channel_types d)) d)).

Definition get_type (id : Z) : stmt (option ChannelTypeRecord) :=
  λ _ d, (Ok (t ← t_channel_types d !! id;
              if type_active t then Some (type_record t) else None), d).

Definition list_types_for_channel (channel_id : Z) : stmt (list ChannelTypeRecord) :=
  λ _ d, (Ok (merge_sort (on_key string_le ctr_type_name)
                (type_record <$> filter (λ t, ct_channel_id t = channel_id ∧ type_active t = true)
                                        (type_rows d))), d).

Definition update_type (id : Z) (project prefix_template : string) : stmt bool :=
  λ now d,
    let '(updated, d) := update_active_type id (λ t,
      mkChannelTypeRow (ct_id t) (ct_channel_id t) (ct_type_name t) project prefix_template
        (ct_deleted_at t) (ct_created_at t) now) d in
    (Ok updated, d).

(** One transaction: the type, then the default of every channel that named it. *)
Definition soft_delete_type (id : Z) : stmt bool :=
  λ now d,
    match update_active_type id (delete_type_row now) d with
    | (true, d) =>
        (Ok true, set_channels
          ((λ c, if bool_decide (ch_default_type_id c = Some id)
                 then mkChannelRow (ch_id c) (ch_name c) (ch_description c) None (ch_deleted_at c)
                        (ch_created_at c) now
                 else c) <$> t_channels d) d)
    | (false, d) => (Ok false, d)
    end.

Definition set_default_type (channel_id type_id : Z) : stmt bool :=
  λ now d,
    match t_channel_types d !! type_id with
    | Some t =>
        if bool_decide (ct_channel_id t = channel_id) && type_active t then
          let '(updated, d) := update_active_channel channel_id (λ c,
            mkChannelRow (ch_id c) (ch_name c) (ch_description c) (Some type_id) (ch_deleted_at c)
              (ch_created_at c) now) d in
          (Ok updated, d)
        else (Ok false, d)
    | None => (Ok false, d)
    end.

(** The join of [channel_types] with [channels]. *)
Definition resolve_channel_type (channel_name type_name : string)
    : stmt (option ResolvedChannelType) :=
  λ _ d,
    (Ok (find_map (λ t,
       match t_channels d !! ct_channel_id t with
       | Some c =>
           if bool_decide (ch_name c = channel_name) && channel_active c
              && bool_decide (ct_type_name t = type_name) && type_active t
           then Some (mkResolvedChannelType (ct_channel_id t) (ct_id t) (ct_project t)
                        (ct_prefix_template t))
           else None
       | None => None
       end) (type_rows d)), d).

(** ** Integrity

    What the statements maintain: rows are stored under their ids, active
    channel names and active types of a channel are unique, and the default
    type of an active channel is an active type of that channel. *)
Record channels_wf (d : Db) : Prop := mkChannelsWf {
  cwf_channel_ids : ∀ i c, t_channels d !! i = Some c → ch_id c = i ∧ (i < t_next_channel_id d)%Z;
  cwf_type_ids : ∀ i t, t_channel_types d !! i = Some t →
    ct_id t = i ∧ (i < t_next_channel_type_id d)%Z ∧ known_type_name (ct_type_name t) = true;
  cwf_names : ∀ i j c c', t_channels d !! i = Some c → t_channels d !! j = Some c' →
    channel_active c = true → channel_active c' = true → ch_name c = ch_name c' → i = j;
  cwf_types : ∀ i j t t', t_channel_types d !! i = Some t → t_channel_types d !! j = Some t' →
    type_active t = true → type_active t' = true →
    ct_channel_id t = ct_channel_id t' → ct_type_name t = ct_type_name t' → i = j;
  cwf_default : ∀ i c tid, t_channels d !! i = Some c → channel_active c = true →
    ch_default_type_id c = Some tid →
    ∃ t, t_channel_types d !! tid = Some t ∧ type_active t = true ∧ ct_channel_id t = i
}.

Lemma elem_of_table {K V} `{Countable K} (m : gmap K V) v : v ∈ (map_to_list m).*2 ↔ ∃ k, m !! k = Some v.
Proof.
  rewrite list_elem_of_fmap. split.
  - intros ([k v'] & -> & Hin). exists k. by apply elem_of_map_to_list.
  - intros [k Hk]. exists (k, v). split; [done|]. by apply elem_of_map_to_list.
Qed.

Lemma elem_of_channel_rows d c : c ∈ channel_rows d ↔ ∃ i, t_channels d !! i = Some c.
Proof. unfold channel_rows. by rewrite elem_of_merge_sort, elem_of_table. Qed.

Lemma elem_of_type_rows d t : t ∈ type_rows d ↔ ∃ i, t_channel_types d !! i = Some t.
Proof. unfold type_rows. by rewrite elem_of_merge_sort, elem_of_table. Qed.

Lemma name_taken_false name ex d i c :
  name_taken name ex d = false → t_channels d !! i = Some c → channel_active c = true →
  Some (ch_id c) ≠ ex → ch_name c ≠ name.
Proof.
  intros Hn Hi Ha Hex <-. assert (name_taken (ch_name c) ex d = true) as Ht; [|congruence].
  unfold name_taken. apply existsb_spec. exists c. split; [apply elem_of_channel_rows; eauto|].
  rewrite Ha, bool_decide_eq_true_2, bool_decide_eq_false_2; done.
Qed.

Lemma type_taken_false cid name d i t :
  type_taken cid name d = false → t_channel_types d !! i = Some t → type_active t = true →
  ct_channel_id t = cid → ct_type_name t ≠ name.
Proof.
  intros Hn Hi Ha Hc <-. assert (type_taken cid (ct_type_name t) d = true) as Ht; [|congruence].
  unfold type_taken. apply existsb_spec. exists t. split; [apply elem_of_type_rows; eauto|].
  rewrite Ha, !bool_decide_eq_true_2; done.
Qed.

Lemma update_active_channel_spec i f d b d' :
  update_active_channel i f d = (b, d') →
  (b = false ∧ d' = d) ∨
  (b = true ∧ ∃ c, t_channels d !! i = Some c ∧ channel_active c = true ∧
     d' = set_channels (<[i := f c]> (t_channels d)) d).
Proof. unfold update_active_channel. repeat case_match; naive_solver. Qed.

Lemma update_active_type_spec i f d b d' :
  update_active_type i f d = (b, d') →
  (b = false ∧ d' = d) ∨
  (b = true ∧ ∃ t, t_channel_types d !! i = Some t ∧ type_active t = true ∧
     d' = set_channel_types (<[i := f t]> (t_channel_types d)) d).
Proof. unfold update_active_type. repeat case_match; naive_solver. Qed.

Section Integrity.
Context (d : Db) (Hd : channels_wf d).

Lemma create_channel_wf name descr now : channels_wf (create_channel name descr now d).2.
Proof using Hd.
  unfold create_channel. destruct (name_taken name None d) eqn:Hn; [done|].
  destruct Hd as [H1 H2 H3 H4 H5]. split; simpl; try done.
  - intros i c. rewrite lookup_insert. case_decide; [naive_solver lia|]. intros Hc.
    destruct (H1 i c Hc). split; [done|lia].
  - intros i j c c'. rewrite !lookup_insert. do 2 case_decide; subst; try done.
    + intros [= <-] Hj _ Ha Heq. exfalso. by eapply name_taken_false.
    + intros Hi [= <-] Ha _ Heq. exfalso. by eapply name_taken_false.
    + apply H3.
  - intros i c tid. rewrite lookup_insert. case_decide; [intros [= <-]; done|]. apply H5.
Qed.

Lemma update_channel_wf id name descr now : channels_wf (update_channel id name descr now d).2.
Proof using Hd.
  unfold update_channel. destruct (update_active_channel _ _ _) as [b d'] eqn:E.
  apply update_active_channel_spec in E as [[-> ->]|(-> & c & Hc & Ha & ->)]; simpl; [done|].
  destruct (name_taken name (Some id) d) eqn:Hn; [done|]. simpl.
  destruct Hd as [H1 H2 H3 H4 H5]. destruct (H1 id c Hc) as [Hid Hlt].
  split; simpl; try done.
  - intros i c'. rewrite lookup_insert. case_decide; [naive_solver|]. apply H1.
  - intros i j c1 c2. rewrite !lookup_insert. do 2 case_decide; subst; try done.
    + intros [= <-] Hj _ Ha' Heq. exfalso. eapply name_taken_false; [done|exact Hj|done| |done].
      destruct (H1 j c2 Hj). congruence.
    + intros Hi [= <-] Ha' _ Heq. exfalso. eapply name_taken_false; [done|exact Hi|done| |done].
      destruct (H1 i c1 Hi). congruence.
    + apply H3.
  - intros i c' tid. rewrite lookup_insert. case_decide; [|apply H5]. subst.
    intros [= <-] Ha' Ht. simpl in *. by eapply H5.
Qed.

Lemma soft_delete_channel_wf id now : channels_wf (soft_delete_channel id now d).2.
Proof using Hd.
  unfold soft_delete_channel. destruct (update_active_channel _ _ _) as [b d'] eqn:E.
  apply update_active_channel_spec in E as [[-> ->]|(-> & c & Hc & Ha & ->)]; simpl; [done|].
  destruct Hd as [H1 H2 H3 H4 H5]. split; simpl.
  - intros i c'. rewrite lookup_insert. case_decide; [|apply H1]. intros [= <-]. subst.
    by apply (H1 i c).
  - intros i t. rewrite lookup_fmap. intros (t0 & Ht & ->)%fmap_Some.
    case_match; by apply (H2 i t0).
  - intros i j c1 c2. rewrite !lookup_insert. do 2 case_decide; subst; try done; try naive_solver.
  - intros i j t1 t2. rewrite !lookup_fmap. intros (u1 & Hu1 & ->)%fmap_Some (u2 & Hu2 & ->)%fmap_Some.
    repeat case_match; try done. by apply H4.
  - intros i c' tid. rewrite lookup_insert. case_decide; [naive_solver|]. intros Hc' Ha' Ht.
    destruct (H5 i c' tid Hc' Ha' Ht) as (t & Htt & Hta & Htc). rewrite lookup_fmap, Htt. simpl.
    eexists. split; [done|]. rewrite bool_decide_eq_false_2 by congruence. done.
Qed.

Lemma create_type_wf cid name proj pre now : channels_wf (create_type cid name proj pre now d).2.
Proof using Hd.
  unfold create_type. destruct (negb _) eqn:Hk; [done|]. apply negb_false_iff in Hk.
  destruct (type_taken _ _ _) eqn:Hn; [done|]. case_bool_decide; [done|]. destruct Hd as [H1 H2 H3 H4 H5]. split; simpl; try done.
  - intros i t. rewrite lookup_insert. case_decide; [naive_solver lia|]. intros Ht.
    destruct (H2 i t Ht) as (? & ? & ?). split_and!; [done|lia|done].
  - intros i j t t'. rewrite !lookup_insert. do 2 case_decide; subst; try done.
    + intros [= <-] Hj _ Ha Hc Heq. exfalso. by eapply type_taken_false.
    + intros Hi [= <-] Ha _ Hc Heq. exfalso. by eapply type_taken_false.
    + apply H4.
  - intros i c tid Hc Ha Ht. destruct (H5 i c tid Hc Ha Ht) as (t & Htt & Hta & Htc).
    exists t. split_and!; [|done..]. rewrite lookup_insert_ne; [done|]. intros <-.
    destruct (H2 _ _ Htt) as (? & ? & ?). lia.
Qed.

Lemma update_type_wf id proj pre now : channels_wf (update_type id proj pre now d).2.
Proof using Hd.
  unfold update_type. destruct (update_active_type _ _ _) as [b d'] eqn:E.
  apply update_active_type_spec in E as [[-> ->]|(-> & t & Ht & Ha & ->)]; simpl; [done|].
  destruct Hd as [H1 H2 H3 H4 H5]. split; simpl; try done.
  - intros i t'. rewrite lookup_insert. case_decide; [|apply H2]. intros [= <-]. subst.
    by apply (H2 i t).
  - intros i j t1 t2. rewrite !lookup_insert. do 2 case_decide; subst; try done.
    + intros [= <-] Hj. simpl. intros. by apply (H4 i j t t2).
    + intros Hi [= <-]. simpl. intros. by apply (H4 i j t1 t).
    + apply H4.
  - intros i c tid Hc Hca Htid. destruct (H5 i c tid Hc Hca Htid) as (t' & Htt & Hta & Htc).
    rewrite lookup_insert. case_decide; [subst; simplify_eq|]; eauto.
Qed.

Lemma soft_delete_type_wf id now : channels_wf (soft_delete_type id now d).2.
Proof using Hd.
  unfold soft_delete_type. destruct (update_active_type _ _ _) as [b d'] eqn:E.
  apply update_active_type_spec in E as [[-> ->]|(-> & t & Ht & Ha & ->)]; simpl; [done|].
  destruct Hd as [H1 H2 H3 H4 H5]. split; simpl.
  - intros i c. rewrite lookup_fmap. intros (c0 & Hc & ->)%fmap_Some.
    case_match; by apply (H1 i c0).
  - intros i t'. rewrite lookup_insert. case_decide; [|apply H2]. intros [= <-]. subst.
    by apply (H2 i t).
  - intros i j c1 c2. rewrite !lookup_fmap. intros (u1 & Hu1 & ->)%fmap_Some (u2 & Hu2 & ->)%fmap_Some.
    repeat case_match; intros A1 A2 N; by apply (H3 i j u1 u2).
  - intros i j t1 t2. rewrite !lookup_insert. do 2 case_decide; subst; try done; try naive_solver.
  - intros i c tid. rewrite lookup_fmap. intros (c0 & Hc & ->)%fmap_Some.
    case_bool_decide as Hdef; [done|]. intros Hca Htid.
    destruct (H5 i c0 tid Hc Hca Htid) as (t' & Htt & Hta & Htc).
    rewrite lookup_insert_ne by congruence. eauto.
Qed.

Lemma set_default_type_wf cid tid now : channels_wf (set_default_type cid tid now d).2.
Proof using Hd.
  unfold set_default_type. destruct (t_channel_types d !! tid) as [t|] eqn:Ht; [|done].
  destruct (bool_decide (ct_channel_id t = cid) && type_active t) eqn:Hg; [|done].
  apply andb_true_iff in Hg as [Hc%bool_decide_eq_true_1 Hta].
  destruct (update_active_channel _ _ _) as [b d'] eqn:E.
  apply update_active_channel_spec in E as [[-> ->]|(-> & c & Hcc & Ha & ->)]; simpl; [done|].
  destruct Hd as [H1 H2 H3 H4 H5]. split; simpl; try done.
  - intros i c'. rewrite lookup_insert. case_decide; [|apply H1]. intros [= <-]. subst.
    by apply (H1 _ c).
  - intros i j c1 c2. rewrite !lookup_insert. do 2 case_decide; subst; try done.
    + intros [= <-] Hj. simpl. intros. by apply (H3 _ j c c2).
    + intros Hi [= <-]. simpl. intros. by apply (H3 i _ c1 c).
    + apply H3.
  - intros i c' tid'. rewrite lookup_insert. case_decide; [|apply H5]. subst.
    intros [= <-]. simpl. intros _ [= <-]. eauto.
Qed.

End Integrity.

#[export] Hint Resolve create_channel_wf update_channel_wf soft_delete_channel_wf create_type_wf
  update_type_wf soft_delete_type_wf set_default_type_wf : cbs.
