(* ===== verification/Auth.v ===== *)
(** * Permissions (scopes.rs, auth/extractors.rs)

    The matcher that all enforcement points share, and the visibility check of
    the channel listing, which is weaker than the existence of a granted type;
    then users, their capabilities and what their roles grant. *)

From stdpp Require Import prelude strings list gmap sorting.
From S2P Require Import Prelude Async Proto Db App DbRoles.

Definition star : Ascii.ascii := Ascii.ascii_of_nat 42.

Definition scope_pattern_matches (pattern value : string) : bool :=
  if bool_decide (pattern = "*") then true
  else
    match strip_suffix_char star pattern with
    | Some prefix => starts_with prefix value
    | None => bool_decide (pattern = value)
    end.

Definition scope_covers_channel (pattern channel_name : string) : bool :=
  if bool_decide (pattern = "*") then true
  else starts_with (channel_name +:+ "/") pattern.

(** ** What a pattern matches *)

Lemma starts_with_spec p s : starts_with p s = true ↔ ∃ t, s = p +:+ t.
Proof. apply string_prefix_spec. Qed.

(** Two prefixes of one string: one is a prefix of the other. *)
Lemma app_prefixes a b c e : a +:+ b = c +:+ e → (∃ x, a = c +:+ x) ∨ (∃ x, c = a +:+ x).
Proof.
  revert c. induction a as [|h a IH]; intros [|h' c] Heq;
    [left; by exists ""|right; by exists (String h' c)|left; by exists (String h a)|].
  injection Heq as -> Heq. destruct (IH c Heq) as [[x ->]|[x ->]]; [left|right]; by exists x.
Qed.

(** A pattern is a prefix followed by [*], or a literal. *)
Inductive pattern_of : string → string → Prop :=
| pat_prefix pre v : pattern_of (pre +:+ "*") (pre +:+ v)
| pat_literal p : strip_suffix_char star p = None → pattern_of p p.

(** A scope pattern matches exactly the values it denotes: a pattern that
    ends in [*] every value with the prefix before it, the global wildcard being
    the empty prefix, and every other pattern itself only. *)
Theorem scope_pattern_matches_spec (p v : string) :
  scope_pattern_matches p v = true ↔ pattern_of p v.
Proof.
  unfold scope_pattern_matches. case_bool_decide as Hs.
  - subst. split; [|done]. intros _. apply (pat_prefix "").
  - destruct (strip_suffix_char star p) as [pre|] eqn:E.
    + apply strip_suffix_char_Some in E as ->. rewrite starts_with_spec. split.
      * intros [t ->]. constructor.
      * intros Hp. inversion Hp as [pre' v' Hpre|p' Hn]; subst.
        -- apply (f_equal (strip_suffix_char star)) in Hpre. rewrite !strip_suffix_char_app in Hpre.
           simplify_eq. eauto.
        -- by rewrite strip_suffix_char_app in Hn.
    + split.
      * intros ->%bool_decide_eq_true_1. by constructor.
      * intros Hp. inversion Hp; subst; [|by apply bool_decide_eq_true_2].
        by rewrite strip_suffix_char_app in E.
Qed.

(** ** Visibility of a channel *)

Lemma covers_matches p c :
  scope_covers_channel p c = true → ∃ t, scope_pattern_matches p (c +:+ "/" +:+ t) = true.
Proof.
  unfold scope_covers_channel. case_bool_decide as Hs; [subst; by exists ""|].
  rewrite starts_with_spec. intros [t ->]. setoid_rewrite scope_pattern_matches_spec.
  setoid_rewrite string_app_assoc. destruct (strip_suffix_char star t) as [t'|] eqn:Et.
  - apply strip_suffix_char_Some in Et as ->. exists t'. rewrite string_app_assoc.
    rewrite <- (string_app_nil_r ((c +:+ "/") +:+ t')) at 2. constructor.
  - exists t. destruct (strip_suffix_char star ((c +:+ "/") +:+ t)) as [pre|] eqn:E.
    + apply strip_suffix_char_Some in E. rewrite E. constructor.
    + by constructor.
Qed.

(** C39: The exact relation of the channel listing to the build permission. A
    pattern matches some type of a channel if and only if it covers the channel
    or is a wildcard whose prefix is a prefix of the channel's name. *)
Theorem covers_channel_iff (p c : string) :
  (∃ t, scope_pattern_matches p (c +:+ "/" +:+ t) = true) ↔
  scope_covers_channel p c = true ∨ ∃ pre, p = pre +:+ "*" ∧ starts_with pre c = true.
Proof.
  split.
  - intros [t Hm]. apply scope_pattern_matches_spec in Hm. inversion Hm as [pre v Hp Hv|p' Hn]; subst.
    + rewrite string_app_assoc in Hv. apply app_prefixes in Hv as [[x ->]|[x Hx]].
      * left. unfold scope_covers_channel. case_bool_decide; [done|]. apply starts_with_spec.
        exists (x +:+ "*"). by rewrite string_app_assoc.
      * destruct (app_prefixes _ _ _ _ Hx) as [[y ->]|[y ->]].
        -- right. exists pre. split; [done|]. apply starts_with_spec. by exists y.
        -- destruct (decide (y = "")) as [->|Hy].
           { right. exists (c +:+ ""). split; [done|]. apply starts_with_spec. exists "".
             by rewrite !string_app_nil_r. }
           left. unfold scope_covers_channel. case_bool_decide; [done|]. apply starts_with_spec.
           exists "*". f_equal. rewrite <- string_app_assoc in Hx. apply (inj (String.append c)) in Hx.
           destruct y as [|h [|? ?]]; [done| |done]. by injection Hx as <-.
    + left. unfold scope_covers_channel. case_bool_decide; [done|]. apply starts_with_spec.
      exists t. by rewrite string_app_assoc.
  - intros [Hc|(pre & -> & Hp)]; [by apply covers_matches|].
    apply starts_with_spec in Hp as [x ->]. exists "".
    apply scope_pattern_matches_spec. rewrite <- string_app_assoc. constructor.
Qed.

(** ** Authenticated users and their permissions (auth/extractors.rs)

    Loading a user with the union of the capabilities of its roles, what robots
    may never hold, and the check that one role grants every required scope. *)

(** The status codes the handlers answer with. *)
Inductive StatusCode :=
| OK | ACCEPTED | CREATED | BAD_REQUEST | UNAUTHORIZED | FORBIDDEN | NOT_FOUND | CONFLICT | BAD_GATEWAY
| INTERNAL_SERVER_ERROR.

#[global] Instance status_code_eq_dec : EqDecision StatusCode.
Proof. solve_decision. Defined.

Inductive ScopeType := ScopeChannel | ScopeRegistry | ScopeRepository.

Definition scope_type_as_str (t : ScopeType) : string :=
  match t with
  | ScopeChannel => "channel"
  | ScopeRegistry => "registry"
  | ScopeRepository => "repository"
  end.

(** [AuthError]: the status and the [detail] of the body. *)
Definition AuthError : Type := StatusCode * string.
Definition auth_error (status : StatusCode) (msg : string) : AuthError := (status, msg).

Definition ROBOT_FORBIDDEN_CAPS : list string :=
  ["*"; "permissions:manage"; "robots:manage"; "apikeys:create:own"].

Definition first_robot_forbidden_cap (caps : list string) : option string :=
  find_map (λ c, find_first (λ forb, bool_decide (forb = c)) ROBOT_FORBIDDEN_CAPS) caps.

Record AuthUser := mkAuthUser {
  au_email : string;
  au_name : string;
  au_caps : list string;
  au_is_robot : bool
}.

Definition has_cap (u : AuthUser) (cap : string) : bool :=
  existsb (λ c, bool_decide (c = "*") || bool_decide (c = cap)) (au_caps u).

Definition has_any_cap (u : AuthUser) (caps : list string) : bool :=
  existsb (has_cap u) caps.

Definition display_identity (u : AuthUser) : string :=
  if au_is_robot u then au_name u else au_email u.

(** Whether an assignment satisfies one scope check. *)
Definition assignment_grants (a : AssignmentWithScopes) (chk : ScopeType * string) : bool :=
  match as_scopes a with
  | [] => true
  | scopes =>
      existsb (λ s, bool_decide (scope_type s = scope_type_as_str chk.1)
                    && scope_pattern_matches (pattern s) chk.2) scopes
  end.

Definition require_scopes_all (u : AuthUser) (scope_checks : list (ScopeType * string))
    : async (result unit AuthError) :=
  let* assignments := get_user_assignments_with_scopes (au_email u) in
  match assignments with
  | Err _ => Ret (Err (auth_error INTERNAL_SERVER_ERROR "failed to load user assignments"))
  | Ok assignments =>
      if existsb (λ a, forallb (assignment_grants a) scope_checks) assignments
      then Ret (Ok ())
      else Ret (Err (auth_error FORBIDDEN "insufficient scopes"))
  end.

Definition load_authed_user (email : string) : async (result AuthUser AuthError) :=
  let* user := query (get_user email) in
  match user with
  | Err _ => Ret (Err (auth_error INTERNAL_SERVER_ERROR "failed to load user"))
  | Ok None => Ret (Err (auth_error UNAUTHORIZED "user not found"))
  | Ok (Some user) =>
      if negb (ur_active user) then Ret (Err (auth_error UNAUTHORIZED "user account deactivated"))
      else
        let* caps := query (get_effective_caps (ur_email user)) in
        match caps with
        | Err _ => Ret (Err (auth_error INTERNAL_SERVER_ERROR "failed to load capabilities"))
        | Ok caps =>
            let caps := if ur_is_robot user
                        then filter (λ c, c ∉ ROBOT_FORBIDDEN_CAPS) caps else caps in
            Ret (Ok (mkAuthUser (ur_email user) (ur_name user) caps (ur_is_robot user)))
        end
  end.

(** ** Permissions, abstractly *)

(** A role of the user holds the capability. *)
Definition role_holds (d : Db) (email cap : string) : Prop :=
  ∃ role, (email, role) ∈ t_user_roles d ∧ (role, cap) ∈ t_role_caps d.

(** A role grants a scope check: it has no scopes at all, or one of the type
    whose pattern matches. *)
Definition role_grants (d : Db) (role : string) (chk : ScopeType * string) : Prop :=
  (∀ t p, (role, t, p) ∉ t_role_scopes d) ∨
  ∃ p, (role, scope_type_as_str chk.1, p) ∈ t_role_scopes d ∧ pattern_of p chk.2.

Lemma has_cap_spec u cap : has_cap u cap = true ↔ "*" ∈ au_caps u ∨ cap ∈ au_caps u.
Proof.
  unfold has_cap. rewrite existsb_spec. split.
  - intros (c & Hc & [->%bool_decide_eq_true_1 | ->%bool_decide_eq_true_1]%orb_true_iff); auto.
  - intros [Hc|Hc]; eexists; (split; [exact Hc|]); rewrite orb_true_iff, !bool_decide_eq_true; auto.
Qed.

Lemma assignment_grants_spec d email a chk :
  is_assignment d email a → assignment_grants a chk = true ↔ role_grants d (as_role_name a) chk.
Proof.
  intros (_ & _ & Hs). unfold assignment_grants, role_grants.
  destruct (as_scopes a) as [|s0 ss] eqn:E.
  - split; [|done]. intros _. left. intros t p Hin.
    apply (Hs (mkScopeEntry t p)), not_elem_of_nil in Hin. done.
  - rewrite existsb_spec. split.
    + intros (s & Hin & [Ht%bool_decide_eq_true_1 Hm]%andb_true_iff). right. exists (pattern s).
      rewrite <- Ht. split; [by apply Hs|by apply scope_pattern_matches_spec].
    + intros [Hn|(p & Hin & Hp)].
      * exfalso. eapply Hn, Hs. by left.
      * exists (mkScopeEntry (scope_type_as_str chk.1) p). split; [by apply Hs|].
        apply andb_true_iff. rewrite bool_decide_eq_true. split; [done|].
        by apply scope_pattern_matches_spec.
Qed.

Lemma forallb_spec {A} (p : A → bool) l : forallb p l = true ↔ ∀ x, x ∈ l → p x = true.
Proof. rewrite forallb_forall. setoid_rewrite list_elem_of_In. done. Qed.

(** ** The checks decide the abstract permissions *)

(** Without a failure of the database, the scope check succeeds if and only
    if a single role of the user grants every check of the list (scopes of
    several roles are not combined), answers 403 otherwise, and changes nothing. *)
Theorem require_scopes_all_iff (u : AuthUser) checks (s : AppState) (Hf : faults s = []) :
  ((run (require_scopes_all u checks) s).1 = Ok () ↔
     ∃ role, (au_email u, role) ∈ t_user_roles (pool s) ∧ Forall (role_grants (pool s) role) checks) ∧
  ((run (require_scopes_all u checks) s).1 = Ok () ∨
   (run (require_scopes_all u checks) s).1 = Err (FORBIDDEN, "insufficient scopes")) ∧
  (run (require_scopes_all u checks) s).2 = s.
Proof.
  unfold require_scopes_all. rewrite run_bind.
  destruct (assignments_spec (au_email u) s Hf) as (l & -> & Hsound & Hcomplete). cbn [fst snd].
  destruct (existsb _ l) eqn:E; rewrite run_ret; split_and!; try done; try by auto.
  - split; [intros _|done]. apply existsb_spec in E as (a & Ha & Hg). specialize (Hsound a Ha).
    exists (as_role_name a). split; [apply Hsound|]. rewrite forallb_spec in Hg.
    apply Forall_forall. intros c Hc. by eapply assignment_grants_spec, Hg.
  - split; [done|]. intros (role & Hr & Hg). exfalso.
    destruct (Hcomplete role Hr) as (a & Ha & <-). specialize (Hsound a Ha).
    assert (existsb (λ a, forallb (assignment_grants a) checks) l = true); [|congruence].
    apply existsb_spec. exists a. split; [done|]. apply forallb_spec. intros c Hc.
    rewrite Forall_forall in Hg. by eapply assignment_grants_spec, Hg.
Qed.

Lemma effective_caps_spec email now d c :
  ∃ l, get_effective_caps email now d = (Ok l, d) ∧ (c ∈ l ↔ role_holds d email c).
Proof.
  eexists. split; [done|]. rewrite elem_of_merge_sort, elem_of_remove_dups, list_elem_of_bind.
  unfold role_holds. setoid_rewrite elem_of_roles_of. setoid_rewrite elem_of_caps_of. naive_solver.
Qed.

(** An authenticated user exists in the database and is active, and holds a
    capability exactly when one of its roles holds it or the wildcard; a robot
    holds none of the forbidden ones, whatever its roles, and no wildcard. *)
Theorem load_authed_user_caps (email : string) (s : AppState) (u : AuthUser) (Hf : faults s = [])
    (Hu : (run (load_authed_user email) s).1 = Ok u) :
  ∃ row, user_record email (pool s) = Some row ∧ ur_active row = true ∧
    au_is_robot u = ur_is_robot row ∧
    (au_is_robot u = false → ∀ cap, has_cap u cap = true ↔
       role_holds (pool s) (au_email u) "*" ∨ role_holds (pool s) (au_email u) cap) ∧
    (au_is_robot u = true → ∀ cap, has_cap u cap = true ↔
       (cap ∉ ROBOT_FORBIDDEN_CAPS) ∧ role_holds (pool s) (au_email u) cap).
Proof.
  unfold load_authed_user in Hu. rewrite run_bind, run_query, exec_stmt_no_fault in Hu by done.
  simpl in Hu. destruct (user_record email (pool s)) as [row|]; [|done].
  destruct (ur_active row) eqn:Ha; simpl in Hu; [|done].
  rewrite run_bind, run_query, exec_stmt_no_fault in Hu by done.
  exists row. split_and!; try done.
  all: assert (∀ c, ∃ l, get_effective_caps (ur_email row) (clock s) (pool s) = (Ok l, pool s) ∧
                 (c ∈ l ↔ role_holds (pool s) (ur_email row) c)) as Hc
         by (intros c; apply effective_caps_spec).
  all: simpl in Hu; injection Hu as <-; simpl; try done.
  - intros Hr cap. rewrite has_cap_spec. simpl. rewrite Hr.
    destruct (Hc "*") as (l & [= <-] & <-). destruct (Hc cap) as (l & [= <-] & <-). done.
  - intros Hr cap. rewrite has_cap_spec. simpl. rewrite Hr.
    destruct (Hc cap) as (l & [= <-] & <-). rewrite !list_elem_of_filter. split.
    + intros [[Hn _]|?]; [exfalso; apply Hn; by left|done].
    + auto.
Qed.

(** The check at assignment time rejects exactly the lists with a forbidden
    capability. *)
Lemma first_robot_forbidden_cap_None caps :
  first_robot_forbidden_cap caps = None ↔ ∀ c, c ∈ caps → c ∉ ROBOT_FORBIDDEN_CAPS.
Proof.
  unfold first_robot_forbidden_cap. split.
  - intros Hn c Hc Hf. apply (find_map_None _ _ c) in Hn; [|done].
    apply (find_first_None _ _ c) in Hn; [|done]. cbv beta in Hn. by rewrite bool_decide_eq_true_2 in Hn.
  - intros Hall. destruct (find_map _ caps) as [f|] eqn:E; [|done].
    apply find_map_Some in E as (c & Hc & Hf). apply find_first_Some in Hf as [Hin ->%bool_decide_eq_true_1].
    by apply Hall in Hc.
Qed.
