(* ===== verification/Channels.v ===== *)
(** * Channel resolution (channels/mod.rs)

    The channel and type a build goes to, the scope the submitter needs for
    them, and the image name they give. Both the REST submission and the
    periodic trigger resolve through [resolve_and_rewrite]. *)

From stdpp Require Import prelude gmap strings list sorting.
From S2P Require Import Prelude Async Proto Db App Auth DbRoles DbChannels.

Record ResolvedChannel := mkResolvedChannel {
  rc_channel_id : Z;
  rc_channel_type_id : Z;
  rc_prefix_template : string
}.

Definition username_var : string := "${username}".

Definition prefix_template_contains_username (template : string) : bool :=
  contains username_var template.

Definition at_sign : Ascii.ascii := Ascii.ascii_of_nat 64.

Definition resolve_prefix_template (template email : string) : string :=
  if bool_decide (template = "") then ""
  else str_replace username_var (split_head at_sign email) template.

Definition version_type_of_name (type_name : string) : VersionType :=
  if bool_decide (type_name = "release") then Release
  else if bool_decide (type_name = "dev") then Dev
  else if bool_decide (type_name = "test") then Test
  else if bool_decide (type_name = "ci") then Ci
  else Dev.

Definition rewrite_image (project prefix image : string) : string :=
  if bool_decide (prefix = "") then project +:+ "/" +:+ image
  else project +:+ "/" +:+ prefix +:+ "/" +:+ image.

(** Steps 5 and 6: the descriptor with the image name, channel and type set. *)
Definition rewrite_descriptor (d : BuildDescriptor) (new_name channel_name type_name : string)
    : BuildDescriptor :=
  mkDescriptor (bd_version d) (Some channel_name) (Some (version_type_of_name type_name))
    (bd_signed_off_by d) (mkDestImage new_name (di_tag (bd_dst_image d)))
    (bd_components d) (bd_build d).

Section Channels.
Context `{Env}.

(** [query(..).await.map_err(|e| format!("{what}: {e}"))?.ok_or(missing)?]. *)
Definition lookup_or {A} (what : string) (missing : string) (st : stmt (option A))
    : async (result A string) :=
  let* r := query st in
  match r with
  | Err e => Ret (Err (what +:+ ": " +:+ sql_error_text e))
  | Ok None => Ret (Err missing)
  | Ok (Some a) => Ret (Ok a)
  end.

(** An assignment without scopes, or one with a matching channel scope. *)
Definition channel_scope_ok (scope_value : string) (a : AssignmentWithScopes) : bool :=
  match as_scopes a with
  | [] => true
  | scopes => existsb (λ s, bool_decide (scope_type s = "channel")
                            && scope_pattern_matches (pattern s) scope_value) scopes
  end.

Definition check_channel_scope (email scope_value : string) : async (result bool string) :=
  let* r := get_user_assignments_with_scopes email in
  match r with
  | Err e => Ret (Err ("failed to load user assignments: " +:+ sql_error_text e))
  | Ok assignments => Ret (Ok (existsb (channel_scope_ok scope_value) assignments))
  end.

(** Step 1. *)
Definition resolve_channel (descriptor : BuildDescriptor) (user : UserRecord)
    : async (result ChannelRecord string) :=
  match bd_channel descriptor with
  | Some (String a n) =>
      let name := String a n in
      lookup_or "failed to look up channel" ("channel '" +:+ name +:+ "' not found")
        (get_channel_by_name name)
  | _ =>
      match ur_default_channel_id user with
      | None => Ret (Err "no channel specified and no default channel assigned — contact your administrator")
      | Some channel_id =>
          lookup_or "failed to look up default channel"
            "default channel no longer exists — contact your administrator"
            (get_channel_by_id channel_id)
      end
  end.

(** Step 2. *)
Definition resolve_type_name (descriptor : BuildDescriptor) (channel : ChannelRecord)
    : async (result string string) :=
  match bd_version_type descriptor with
  | Some vt => Ret (Ok (version_type_to_string vt))
  | None =>
      match cr_default_type_id channel with
      | None => Ret (Err ("channel '" +:+ cr_name channel
                          +:+ "' has no default type — specify --type explicitly"))
      | Some default_type_id =>
          let* t := lookup_or "failed to look up default type"
                      ("channel '" +:+ cr_name channel
                       +:+ "' default type no longer exists — contact your administrator")
                      (get_type default_type_id) in
          match t with
          | Err e => Ret (Err e)
          | Ok t => Ret (Ok (ctr_type_name t))
          end
      end
  end.

(** The resolution, with the rewritten descriptor. *)
Definition resolve_and_rewrite (descriptor : BuildDescriptor) (user : UserRecord)
    : async (result (ResolvedChannel * BuildDescriptor) string) :=
  let* channel := resolve_channel descriptor user in
  match channel with
  | Err e => Ret (Err e)
  | Ok channel =>
  let* type_name := resolve_type_name descriptor channel in
  match type_name with
  | Err e => Ret (Err e)
  | Ok type_name =>
  let* resolved := lookup_or "failed to resolve channel/type"
                     ("type '" +:+ type_name +:+ "' is not configured for channel '"
                      +:+ cr_name channel +:+ "'")
                     (resolve_channel_type (cr_name channel) type_name) in
  match resolved with
  | Err e => Ret (Err e)
  | Ok resolved =>
  let scope_value := cr_name channel +:+ "/" +:+ type_name in
  let* has_scope := check_channel_scope (ur_email user) scope_value in
  match has_scope with
  | Err e => Ret (Err e)
  | Ok false => Ret (Err ("insufficient scope for channel/type '" +:+ scope_value +:+ "'"))
  | Ok true =>
      let prefix := resolve_prefix_template (rct_prefix_template resolved) (ur_email user) in
      let new_name := rewrite_image (rct_project resolved) prefix (di_name (bd_dst_image descriptor)) in
      Ret (Ok (mkResolvedChannel (rct_channel_id resolved) (rct_channel_type_id resolved)
                 (rct_prefix_template resolved),
               rewrite_descriptor descriptor new_name (cr_name channel) type_name))
  end end end end.

(** ** What a resolution establishes *)

Lemma run_lookup_or {A} what missing (st : stmt (option A)) s :
  reads st → faults s = [] →
  run (lookup_or what missing st) s =
    (match (st (clock s) (pool s)).1 with
     | Err e => Err (what +:+ ": " +:+ sql_error_text e)
     | Ok None => Err missing
     | Ok (Some a) => Ok a
     end, s).
Proof.
  intros Hr Hf. unfold lookup_or. rewrite run_bind, run_read by done. cbn [fst snd].
  by destruct (st _ _).1 as [[a|]|e].
Qed.

Lemma run_check_channel_scope email v s :
  faults s = [] →
  ∃ b, run (check_channel_scope email v) s = (Ok b, s) ∧
    (b = true ↔ ∃ role, (email, role) ∈ t_user_roles (pool s) ∧
                        role_grants (pool s) role (ScopeChannel, v)).
Proof.
  intros Hf. unfold check_channel_scope. rewrite run_bind.
  destruct (assignments_spec email s Hf) as (l & -> & Hsound & Hcomplete). cbn [fst snd].
  rewrite run_ret. eexists. split; [done|]. rewrite existsb_spec. split.
  - intros (a & Ha & Hg). specialize (Hsound a Ha). exists (as_role_name a).
    split; [apply Hsound|]. by apply (assignment_grants_spec _ _ _ (ScopeChannel, v) Hsound).
  - intros (role & Hr & Hg). destruct (Hcomplete role Hr) as (a & Ha & <-). exists a.
    split; [done|]. specialize (Hsound a Ha).
    by apply (assignment_grants_spec _ _ _ (ScopeChannel, v) Hsound).
Qed.

Lemma known_type_name_cases n :
  known_type_name n = true → version_type_to_string (version_type_of_name n) = n.
Proof.
  unfold known_type_name. rewrite !orb_true_iff, !bool_decide_eq_true.
  by intros [[[-> | ->] | ->] | ->].
Qed.

(** The channel and the type the descriptor asks for. *)
Definition wants_channel (descriptor : BuildDescriptor) (user : UserRecord) (c : ChannelRow) : Prop :=
  match bd_channel descriptor with
  | Some (String a n) => ch_name c = String a n
  | _ => ur_default_channel_id user = Some (ch_id c)
  end.

Definition wants_type (descriptor : BuildDescriptor) (c : ChannelRow) (t : ChannelTypeRow) : Prop :=
  match bd_version_type descriptor with
  | Some vt => ct_type_name t = version_type_to_string vt
  | None => ch_default_type_id c = Some (ct_id t)
  end.

Section Resolution.
Context (s : AppState) (Hf : faults s = []) (Hwf : channels_wf (pool s)).

Lemma get_channel_by_name_spec name c :
  (get_channel_by_name name (clock s) (pool s)).1 = Ok (Some c) ↔
  ∃ row, t_channels (pool s) !! ch_id row = Some row ∧ channel_active row = true ∧
         ch_name row = name ∧ c = channel_record row.
Proof using Hwf.
  simpl. split.
  - intros [= (row & Hrow & ->)%fmap_Some].
    apply find_first_Some in Hrow as [Hin [Hn%bool_decide_eq_true_1 Ha]%andb_true_iff].
    apply elem_of_channel_rows in Hin as [i Hi]. destruct (cwf_channel_ids _ Hwf i row Hi) as [<- _].
    eauto.
  - intros (row & Hrow & Ha & Hn & ->). f_equal.
    destruct (find_first _ (channel_rows (pool s))) as [r|] eqn:E.
    + apply find_first_Some in E as [Hin [Hr%bool_decide_eq_true_1 Hra]%andb_true_iff].
      apply elem_of_channel_rows in Hin as [i Hi].
      assert (i = ch_id row) as -> by (eapply (cwf_names _ Hwf); [exact Hi|exact Hrow|done..|congruence]).
      by simplify_eq.
    + apply (find_first_None _ _ row) in E; [|apply elem_of_channel_rows; eauto].
      cbv beta in E. by rewrite Ha, bool_decide_eq_true_2 in E.
Qed.

Lemma get_channel_by_id_spec id c :
  (get_channel_by_id id (clock s) (pool s)).1 = Ok (Some c) ↔
  ∃ row, t_channels (pool s) !! id = Some row ∧ channel_active row = true ∧ ch_id row = id ∧
         c = channel_record row.
Proof using Hwf.
  simpl. destruct (t_channels (pool s) !! id) as [row|] eqn:E; simpl; [|naive_solver].
  destruct (cwf_channel_ids _ Hwf id row E) as [Hid _].
  destruct (channel_active row) eqn:Ha.
  - split; [intros [= <-]; eauto|by intros (r & [= <-] & _ & _ & ->)].
  - split; [done|]. intros (r & [= <-] & ? & _). congruence.
Qed.

Lemma get_type_spec id t :
  (get_type id (clock s) (pool s)).1 = Ok (Some t) ↔
  ∃ row, t_channel_types (pool s) !! id = Some row ∧ type_active row = true ∧ ct_id row = id ∧
         t = type_record row.
Proof using Hwf.
  simpl. destruct (t_channel_types (pool s) !! id) as [row|] eqn:E; simpl; [|naive_solver].
  destruct (cwf_type_ids _ Hwf id row E) as [Hid _].
  destruct (type_active row) eqn:Ha.
  - split; [intros [= <-]; eauto|by intros (r & [= <-] & _ & _ & ->)].
  - split; [done|]. intros (r & [= <-] & ? & _). congruence.
Qed.

(** The join finds the one active type of that name in the channel. *)
Lemma resolve_channel_type_spec c ty r :
  t_channels (pool s) !! ch_id c = Some c → channel_active c = true →
  (resolve_channel_type (ch_name c) ty (clock s) (pool s)).1 = Ok (Some r) ↔
  ∃ t, t_channel_types (pool s) !! ct_id t = Some t ∧ type_active t = true ∧
       ct_channel_id t = ch_id c ∧ ct_type_name t = ty ∧
       r = mkResolvedChannelType (ch_id c) (ct_id t) (ct_project t) (ct_prefix_template t).
Proof using Hwf.
  intros Hc Hca. simpl. split.
  - intros [= (t & Hin & Ht)%find_map_Some]. apply elem_of_type_rows in Hin as [i Hi].
    destruct (cwf_type_ids _ Hwf i t Hi) as (<- & _).
    destruct (t_channels (pool s) !! ct_channel_id t) as [c'|] eqn:E; [|done].
    destruct (_ && _) eqn:Hg in Ht; [|done]. simplify_eq.
    rewrite !andb_true_iff, !bool_decide_eq_true in Hg. destruct Hg as [[[Hn Ha'] Hty] Hta].
    assert (ct_channel_id t = ch_id c) as Heq by (eapply (cwf_names _ Hwf); eauto).
    exists t. rewrite <- Heq. done.
  - intros (t & Ht & Hta & Htc & Hty & ->). f_equal.
    destruct (find_map _ (type_rows (pool s))) as [r|] eqn:E.
    + apply find_map_Some in E as (t' & Hin & Ht'). apply elem_of_type_rows in Hin as [i Hi].
      destruct (cwf_type_ids _ Hwf i t' Hi) as (<- & _).
      destruct (t_channels (pool s) !! ct_channel_id t') as [c'|] eqn:E'; [|done].
      destruct (_ && _) eqn:Hg in Ht'; [|done]. simplify_eq.
      rewrite !andb_true_iff, !bool_decide_eq_true in Hg. destruct Hg as [[[Hn Ha'] Hty'] Hta'].
      assert (ct_channel_id t' = ch_id c) as Heq by (eapply (cwf_names _ Hwf); eauto).
      assert (ct_id t' = ct_id t) as Hid by (eapply (cwf_types _ Hwf); eauto; congruence).
      rewrite Hid in Hi. simplify_eq. by rewrite Htc.
    + apply (find_map_None _ _ t) in E; [|apply elem_of_type_rows; eauto].
      cbv beta in E. rewrite Htc, Hc in E. by rewrite Hca, Hta, !bool_decide_eq_true_2 in E.
Qed.

Lemma resolve_channel_spec descr user c :
  (run (resolve_channel descr user) s).1 = Ok c ↔
  ∃ row, t_channels (pool s) !! ch_id row = Some row ∧ channel_active row = true ∧
         wants_channel descr user row ∧ c = channel_record row.
Proof using Hf Hwf.
  unfold resolve_channel, wants_channel.
  assert (∀ (what missing : string) (st : stmt (option ChannelRecord)), reads st →
    (run (lookup_or what missing st) s).1 = Ok c ↔ (st (clock s) (pool s)).1 = Ok (Some c)) as Hl.
  { intros what missing st Hr. rewrite run_lookup_or by done. simpl.
    destruct (st _ _).1 as [[]|]; naive_solver. }
  assert ((run match ur_default_channel_id user with
               | Some channel_id => lookup_or "failed to look up default channel"
                   "default channel no longer exists — contact your administrator"
                   (get_channel_by_id channel_id)
               | None => Ret (Err "no channel specified and no default channel assigned — contact your administrator")
               end s).1 = Ok c ↔
          ∃ row, t_channels (pool s) !! ch_id row = Some row ∧ channel_active row = true ∧
            ur_default_channel_id user = Some (ch_id row) ∧ c = channel_record row) as Hdef.
  { destruct (ur_default_channel_id user) as [i|]; [|simpl; naive_solver].
    rewrite Hl, get_channel_by_id_spec by done. naive_solver. }
  destruct (bd_channel descr) as [[|a n]|]; [done| |done].
  rewrite Hl, get_channel_by_name_spec by done. naive_solver.
Qed.

Lemma run_resolve_channel_state descr user : (run (resolve_channel descr user) s).2 = s.
Proof using Hf.
  unfold resolve_channel. repeat case_match; rewrite ?run_lookup_or by done; done.
Qed.

Lemma resolve_type_name_spec descr c ty :
  t_channels (pool s) !! ch_id c = Some c → channel_active c = true →
  (run (resolve_type_name descr (channel_record c)) s).1 = Ok ty →
  match bd_version_type descr with
  | Some vt => ty = version_type_to_string vt
  | None => ∃ t, t_channel_types (pool s) !! ct_id t = Some t ∧ type_active t = true ∧
      ct_channel_id t = ch_id c ∧ ch_default_type_id c = Some (ct_id t) ∧ ty = ct_type_name t
  end.
Proof using Hf Hwf.
  intros Hc Ha. unfold resolve_type_name. destruct (bd_version_type descr) as [vt|]; [simpl; naive_solver|].
  simpl. destruct (ch_default_type_id c) as [tid|] eqn:Et; [|done].
  rewrite run_bind, run_lookup_or by done. cbn [fst snd].
  destruct (get_type tid (clock s) (pool s)).1 as [[t|]|e] eqn:E; [|done..].
  apply get_type_spec in E as (row & Hrow & Hta & Hid & ->). subst tid. simpl. intros [= <-].
  exists row. split_and!; try done.
  destruct (cwf_default _ Hwf _ _ _ Hc Ha Et) as (t' & Ht' & _ & Hci). by simplify_eq.
Qed.

Lemma run_resolve_type_state descr c : (run (resolve_type_name descr c) s).2 = s.
Proof using Hf.
  unfold resolve_type_name. destruct (bd_version_type descr); [done|].
  destruct (cr_default_type_id c); [|done]. rewrite run_bind, run_lookup_or by done.
  cbn [fst snd]. by repeat case_match.
Qed.

Lemma resolve_and_rewrite_state descr user : (run (resolve_and_rewrite descr user) s).2 = s.
Proof using Hf.
  unfold resolve_and_rewrite. rewrite run_bind, run_resolve_channel_state.
  destruct (run (resolve_channel descr user) s).1 as [c|]; [|done].
  rewrite run_bind, run_resolve_type_state.
  destruct (run (resolve_type_name descr c) s).1 as [ty|]; [|done].
  rewrite run_bind, run_lookup_or by done. cbn [fst snd].
  destruct (resolve_channel_type (cr_name c) ty (clock s) (pool s)).1 as [[r|]|]; [|done..].
  rewrite run_bind. destruct (run_check_channel_scope (ur_email user) (cr_name c +:+ "/" +:+ ty) s Hf)
    as (b & -> & _). cbn [fst snd]. by destruct b.
Qed.

(** What the resolution grants, and what it makes of the descriptor. *)
Definition resolution_ok (descr : BuildDescriptor) (user : UserRecord) (rc : ResolvedChannel)
    (descr' : BuildDescriptor) : Prop :=
  ∃ c t role,
    t_channels (pool s) !! rc_channel_id rc = Some c ∧ channel_active c = true ∧
    wants_channel descr user c ∧
    t_channel_types (pool s) !! rc_channel_type_id rc = Some t ∧ type_active t = true ∧
    ct_channel_id t = rc_channel_id rc ∧ wants_type descr c t ∧
    (ur_email user, role) ∈ t_user_roles (pool s) ∧
    role_grants (pool s) role (ScopeChannel, ch_name c +:+ "/" +:+ ct_type_name t) ∧
    rc_prefix_template rc = ct_prefix_template t ∧
    bd_channel descr' = Some (ch_name c) ∧
    version_type_to_string <$> bd_version_type descr' = Some (ct_type_name t) ∧
    di_name (bd_dst_image descr') =
      rewrite_image (ct_project t) (resolve_prefix_template (ct_prefix_template t) (ur_email user))
        (di_name (bd_dst_image descr)) ∧
    di_tag (bd_dst_image descr') = di_tag (bd_dst_image descr) ∧
    bd_version descr' = bd_version descr ∧ bd_signed_off_by descr' = bd_signed_off_by descr ∧
    bd_components descr' = bd_components descr ∧ bd_build descr' = bd_build descr.

Lemma resolve_and_rewrite_ok descr user rc descr' :
  (run (resolve_and_rewrite descr user) s).1 = Ok (rc, descr') → resolution_ok descr user rc descr'.
Proof using Hf Hwf.
  unfold resolve_and_rewrite. rewrite run_bind, run_resolve_channel_state.
  destruct (run (resolve_channel descr user) s).1 as [ch|e] eqn:Ech; [|done].
  apply resolve_channel_spec in Ech as (c & Hc & Hca & Hwant & ->).
  rewrite run_bind, run_resolve_type_state.
  destruct (run (resolve_type_name descr (channel_record c)) s).1 as [ty|e] eqn:Ety; [|done].
  apply resolve_type_name_spec in Ety; [|done..].
  rewrite run_bind, run_lookup_or by done. cbn [fst snd].
  destruct (resolve_channel_type (cr_name (channel_record c)) ty (clock s) (pool s)).1
    as [[r|]|e] eqn:Er; [|done..].
  apply resolve_channel_type_spec in Er as (t & Ht & Hta & Htc & Htn & ->); [|done..].
  rewrite run_bind. destruct (run_check_channel_scope (ur_email user)
    (cr_name (channel_record c) +:+ "/" +:+ ty) s Hf) as (b & -> & Hb). cbn [fst snd].
  destruct b; [|done]. rewrite run_ret. cbn [fst]. intros [= <- <-].
  destruct Hb as [(role & Hrole & Hgr) _]; [done|]. subst ty.
  exists c, t, role. split_and!; try done.
  - unfold wants_type. destruct (bd_version_type descr) as [vt|]; [done|].
    destruct Ety as (t' & Ht' & Hta' & Htc' & Hdef & Hn).
    rewrite Hdef. f_equal. eapply (cwf_types _ Hwf); eauto. congruence.
  - simpl. f_equal. apply known_type_name_cases. by apply (cwf_type_ids _ Hwf _ _ Ht).
Qed.

End Resolution.

(** C35: a successful resolution names an active channel and an active type of it
    (the ones the descriptor asks for, or the defaults), only when one role of
    the submitter grants the scope [channel/type], and rewrites nothing of the
    descriptor but the channel, the type and the image name, which gets the
    project and the prefix of the type. *)
Theorem resolve_and_rewrite_sound (s : AppState) descr user rc descr'
    (Hf : faults s = []) (Hwf : channels_wf (pool s))
    (Hok : (run (resolve_and_rewrite descr user) s).1 = Ok (rc, descr')) :
  resolution_ok s descr user rc descr'.
Proof. by apply resolve_and_rewrite_ok. Qed.

(** A submission to an existing channel and type by a user with a granting
    role resolves, to exactly that channel and type. *)
Theorem resolve_and_rewrite_complete (s : AppState) descr user c t role
    (Hf : faults s = []) (Hwf : channels_wf (pool s))
    (Hc : t_channels (pool s) !! ch_id c = Some c) (Hca : channel_active c = true)
    (Ht : t_channel_types (pool s) !! ct_id t = Some t) (Hta : type_active t = true)
    (Htc : ct_channel_id t = ch_id c)
    (Hwc : wants_channel descr user c) (Hwt : wants_type descr c t)
    (Hrole : (ur_email user, role) ∈ t_user_roles (pool s))
    (Hgr : role_grants (pool s) role (ScopeChannel, ch_name c +:+ "/" +:+ ct_type_name t)) :
  ∃ descr', run (resolve_and_rewrite descr user) s =
    (Ok (mkResolvedChannel (ch_id c) (ct_id t) (ct_prefix_template t), descr'), s).
Proof.
  unfold resolve_and_rewrite. rewrite run_bind, run_resolve_channel_state by done.
  rewrite (proj2 (resolve_channel_spec s Hf Hwf descr user (channel_record c))) by eauto.
  rewrite run_bind, run_resolve_type_state by done.
  assert ((run (resolve_type_name descr (channel_record c)) s).1 = Ok (ct_type_name t)) as ->.
  { unfold wants_type in Hwt. unfold resolve_type_name.
    destruct (bd_version_type descr) as [vt|]; [simpl; by rewrite Hwt|].
    simpl. rewrite Hwt, run_bind, run_lookup_or by done. cbn [fst snd].
    by rewrite (proj2 (get_type_spec s Hwf (ct_id t) (type_record t))) by eauto. }
  rewrite run_bind, run_lookup_or by done. cbn [fst snd].
  change (cr_name (channel_record c)) with (ch_name c).
  rewrite (proj2 (resolve_channel_type_spec s Hwf c (ct_type_name t) _ Hc Hca)) by eauto 10.
  rewrite run_bind. destruct (run_check_channel_scope (ur_email user)
    (ch_name c +:+ "/" +:+ ct_type_name t) s Hf) as (b & -> & Hb). cbn [fst snd].
  rewrite (proj2 Hb) by eauto. eexists. rewrite run_ret. done.
Qed.

End Channels.
