(* ===== verification/Components.v ===== *)
(** * Components and descriptor validation (components/mod.rs,
    components/validator.rs)

    The components of the server are read from a directory when it starts. Every
    path on which a build enters the server goes through [validate_descriptor],
    which knows their names. *)

From Stdlib Require Import Strings.Byte.
From stdpp Require Import prelude gmap strings list sorting.
From S2P Require Import Prelude Proto Common FileSystem DbRoles.

Record ComponentInfo := mkComponentInfo { ci_name : string; ci_versions : list string }.

Inductive ValidationError :=
| EmptyComponents
| UnknownComponent (name : string).

Definition validation_error_to_string (e : ValidationError) : string :=
  match e with
  | EmptyComponents => "descriptor `components` array is empty"
  | UnknownComponent name => "unknown component: " +:+ name
  end.

(** The loop over the components. *)
Fixpoint check_known (known : list ComponentInfo) (comps : list BuildComponent)
    : result unit ValidationError :=
  match comps with
  | [] => Ok ()
  | comp :: comps =>
      if existsb (λ c, bool_decide (ci_name c = bc_name comp)) known
      then check_known known comps
      else Err (UnknownComponent (bc_name comp))
  end.

Definition validate_descriptor (descriptor : BuildDescriptor) (known : list ComponentInfo)
    : result unit ValidationError :=
  match bd_components descriptor with
  | [] => Err EmptyComponents
  | comps => check_known known comps
  end.

(** ** The components of the server (components/mod.rs)

    The order of [read_dir] and the YAML parser are parameters. *)

Class ComponentCrates := {
  read_order : list (string * Node) → list (string * Node);
  read_order_perm : ∀ l, read_order l ≡ₚ l;
  component_yaml_name : string → result string string
}.

(** An error of std::io: of a call, of a file that is not UTF-8, or made from
    the error of the parser. *)
Inductive LoadError :=
| LoadOs (e : Errno)
| LoadUtf8
| LoadYaml (message : string).

Definition loader (A : Type) : Type := Fs → result A LoadError * Fs.
Definition lret {A} (a : A) : loader A := λ f, (Ok a, f).
Definition lbind {A B} (m : loader A) (k : A → loader B) : loader B :=
  λ f, match m f with (Ok a, f) => k a f | (Err e, f) => (Err e, f) end.
Definition lcall {A} (m : io A) : loader A :=
  λ f, match m f with (Ok a, f) => (Ok a, f) | (Err e, f) => (Err (LoadOs e), f) end.
#[local] Notation "'let!' x ':=' m 'in' k" := (lbind m (λ x, k))
  (at level 10, x pattern, m at level 100, k at level 200).

(** The names in a directory, with what they are. *)
Definition child_of (l : list string) (e : list string * Node) : option (string * Node) :=
  match last e.1 with
  | Some name => if bool_decide (e.1 = l ++ [name]) then Some (name, e.2) else None
  | None => None
  end.
Definition children (f : Fs) (l : list string) : list (string * Node) :=
  omap (child_of l) (map_to_list (fs_names f)).

Section Load.
Context `{HComp : ComponentCrates}.

(** [std::fs::read_dir]. *)
Definition read_dir (p : Path) : io (list (string * Node)) :=
  syscall (λ f, match resolve f false p with
                | Found l Dir => (Ok (read_order (children f l)), f)
                | Found _ _ => (Err ENOTDIR, f)
                | Missing _ => (Err ENOENT, f)
                | Failed e => (Err e, f)
                end).

(** Reading an entry and its type, which does not follow a link. *)
Definition entry_is_dir (e : string * Node) : io bool :=
  λ f, match syscall (λ f, (Ok (), f)) f with
       | (Ok _, f) => syscall (λ f, (Ok (bool_decide (e.2 = Dir)), f)) f
       | (Err err, f) => (Err err, f)
       end.

(** [std::fs::read_to_string]. *)
Definition read_bytes (p : Path) : io (list byte) :=
  syscall (λ f, match resolve f false p with
                | Found _ (File ino) => (Ok (default [] (i_data <$> fs_inodes f !! ino)), f)
                | Found _ _ => (Err EISDIR, f)
                | Missing _ => (Err ENOENT, f)
                | Failed e => (Err e, f)
                end).
Definition read_to_string (p : Path) : loader string :=
  let! data := lcall (read_bytes p) in
  let text := String.string_of_list_byte data in
  λ f, (if valid_utf8 text then Ok text else Err LoadUtf8, f).

(** The loop over the entries of [containers]; a name that is not UTF-8 is left
    out. *)
Fixpoint version_names (entries : list (string * Node)) : loader (list string) :=
  match entries with
  | [] => lret []
  | e :: entries =>
      let! dir := lcall (entry_is_dir e) in
      let! names := version_names entries in
      lret (if dir && valid_utf8 e.1 then e.1 :: names else names)
  end.

Definition load_versions (containers_dir : Path) : loader (list string) :=
  λ f, if is_dir f containers_dir
       then (let! entries := lcall (read_dir containers_dir) in
             let! versions := version_names entries in
             lret (merge_sort string_le versions)) f
       else (Ok [], f).

(** One entry of the directory: [None] if it is not a component. *)
Definition load_component (components_dir : Path) (e : string * Node) : loader (option ComponentInfo) :=
  let! dir := lcall (entry_is_dir e) in
  let path := join components_dir [Normal e.1] in
  let yaml_path := join path [Normal "cbs.component.yaml"] in
  λ f, if negb dir then (Ok None, f)
       else if negb (path_exists f yaml_path) then (Ok None, f)
       else (let! yaml_contents := read_to_string yaml_path in
             match component_yaml_name yaml_contents with
             | Err e => λ f, (Err (LoadYaml ("failed to parse '" +:+ display yaml_path +:+ "':"
                                             +:+ String lf e)), f)
             | Ok name =>
                 let! versions := load_versions (join path [Normal "containers"]) in
                 lret (Some (mkComponentInfo name versions))
             end) f.

Fixpoint load_entries (components_dir : Path) (entries : list (string * Node)) : loader (list ComponentInfo) :=
  match entries with
  | [] => lret []
  | e :: entries =>
      let! c := load_component components_dir e in
      let! components := load_entries components_dir entries in
      lret (match c with Some c => c :: components | None => components end)
  end.

Definition load_components (components_dir : Path) : loader (list ComponentInfo) :=
  let! entries := lcall (read_dir components_dir) in
  let! components := load_entries components_dir entries in
  lret (merge_sort (on_key string_le ci_name) components).

(** main.rs: without a directory, and after any error, there are no components. *)
Definition loaded_components (components_dir : Path) (f : Fs) : list ComponentInfo :=
  if path_exists f components_dir
  then match (load_components components_dir f).1 with Ok components => components | Err _ => [] end
  else [].
End Load.

(** A component of the registry. *)
Definition is_known (known : list ComponentInfo) (name : string) : Prop :=
  name ∈ ci_name <$> known.

Lemma existsb_known known name :
  existsb (λ c, bool_decide (ci_name c = name)) known = true ↔ is_known known name.
Proof.
  rewrite existsb_spec. unfold is_known. rewrite list_elem_of_fmap.
  setoid_rewrite bool_decide_eq_true. naive_solver.
Qed.

Lemma check_known_spec known comps :
  match check_known known comps with
  | Ok _ => ∀ comp, comp ∈ comps → is_known known (bc_name comp)
  | Err e => ∃ l1 comp l2, comps = l1 ++ comp :: l2 ∧ e = UnknownComponent (bc_name comp) ∧
               ¬ is_known known (bc_name comp) ∧ Forall (λ c, is_known known (bc_name c)) l1
  end.
Proof.
  induction comps as [|comp comps IH]; simpl; [set_solver|].
  destruct (existsb _ known) eqn:E.
  - apply existsb_known in E. destruct (check_known known comps) as [|e].
    + intros c [-> | Hc]%elem_of_cons; auto.
    + destruct IH as (l1 & c & l2 & -> & He & Hn & Hall). exists (comp :: l1), c, l2.
      split_and!; [done..|]. by constructor.
  - exists [], comp, comps. split_and!; [done..| |constructor]. rewrite <- existsb_known. congruence.
Qed.

(** A descriptor is accepted if and only if it lists a component and all its
    components are registered; otherwise the error names the first one that is
    not, or says that the list is empty. *)
Theorem validate_descriptor_spec (d : BuildDescriptor) (known : list ComponentInfo) :
  match validate_descriptor d known with
  | Ok _ => bd_components d ≠ [] ∧ ∀ comp, comp ∈ bd_components d → is_known known (bc_name comp)
  | Err EmptyComponents => bd_components d = []
  | Err (UnknownComponent n) =>
      ∃ l1 comp l2, bd_components d = l1 ++ comp :: l2 ∧ n = bc_name comp ∧
        ¬ is_known known n ∧ Forall (λ c, is_known known (bc_name c)) l1
  end.
Proof.
  unfold validate_descriptor. destruct (bd_components d) as [|c cs] eqn:E; [done|].
  pose proof (check_known_spec known (c :: cs)) as Hs.
  destruct (check_known known (c :: cs)) as [|e]; [done|].
  destruct Hs as (l1 & comp & l2 & Hc & -> & Hn & Hall). by exists l1, comp, l2.
Qed.

(** ** What is loaded *)

(** The text of a file that can be read as a string. *)
Definition file_text (f : Fs) (p : Path) : option string :=
  match resolve f false p with
  | Found _ (File ino) =>
      let text := String.string_of_list_byte (default [] (i_data <$> fs_inodes f !! ino)) in
      if valid_utf8 text then Some text else None
  | _ => None
  end.

Lemma syscall_clear {A} (m : io A) f : fs_faults f = [] → syscall m f = m f.
Proof. intros Hf. unfold syscall. by rewrite Hf. Qed.

Lemma join_location l name : join (of_location l) [Normal name] = of_location (l ++ [name]).
Proof. unfold join, of_location. simpl. by rewrite fmap_app. Qed.

Lemma elem_of_children f l name n : (name, n) ∈ children f l ↔ fs_names f !! (l ++ [name]) = Some n.
Proof.
  unfold children. rewrite list_elem_of_omap. split.
  - intros ([k n'] & Hk%elem_of_map_to_list & Hc). unfold child_of in Hc. simpl in Hc.
    destruct (last k); [|done]. case_bool_decide; [|done]. by simplify_eq.
  - intros Hn. exists (l ++ [name], n). split; [by apply elem_of_map_to_list|].
    unfold child_of. simpl. by rewrite last_snoc, bool_decide_eq_true_2.
Qed.

Section LoadSpec.
Context `{HComp : ComponentCrates}.

(** The directory of a component: its name, with a [cbs.component.yaml]. *)
Definition component_dir (f : Fs) (l : list string) (name : string) : Prop :=
  fs_names f !! (l ++ [name]) = Some Dir ∧
  path_exists f (of_location (l ++ [name; "cbs.component.yaml"])) = true.

(** Its file cannot be read or parsed. *)
Definition broken (f : Fs) (l : list string) (name : string) : Prop :=
  component_dir f l name ∧
  ∀ text, file_text f (of_location (l ++ [name; "cbs.component.yaml"])) = Some text →
          ¬ is_ok (component_yaml_name text).

(** The component of a directory: the name that the file gives, and the
    directories of [containers] in order. *)
Record described (f : Fs) (l : list string) (name : string) (c : ComponentInfo) : Prop := mkDescribed {
  ds_dir : component_dir f l name;
  ds_name : ∃ text, file_text f (of_location (l ++ [name; "cbs.component.yaml"])) = Some text ∧
              component_yaml_name text = Ok (ci_name c);
  ds_versions v : v ∈ ci_versions c ↔
    ∃ loc, resolve f false (of_location (l ++ [name; "containers"])) = Found loc Dir ∧
           fs_names f !! (loc ++ [v]) = Some Dir ∧ valid_utf8 v = true;
  ds_sorted : Sorted string_le (ci_versions c)
}.

Lemma entry_is_dir_ok e f : fs_faults f = [] → entry_is_dir e f = (Ok (bool_decide (e.2 = Dir)), f).
Proof. intros Hf. unfold entry_is_dir. by rewrite !syscall_clear. Qed.

Lemma read_to_string_ok p f :
  fs_faults f = [] →
  match file_text f p with
  | Some text => read_to_string p f = (Ok text, f)
  | None => ∃ e, read_to_string p f = (Err e, f)
  end.
Proof.
  intros Hf. unfold read_to_string, file_text, lbind, lcall, read_bytes. rewrite syscall_clear by done.
  destruct (resolve f false p) as [loc [|t|ino]| |]; try by eexists.
  destruct (valid_utf8 _); [done|by eexists].
Qed.

Lemma version_names_ok entries f :
  fs_faults f = [] →
  ∃ names, version_names entries f = (Ok names, f) ∧
    ∀ v, v ∈ names ↔ (v, Dir) ∈ entries ∧ valid_utf8 v = true.
Proof.
  intros Hf. induction entries as [|[n k] entries (names & Hrun & Hin)].
  { exists []. split; [done|]. intros v. rewrite !elem_of_nil. tauto. }
  cbn [version_names]. unfold lbind at 1, lcall. rewrite entry_is_dir_ok by done. unfold lbind.
  rewrite Hrun. eexists. split; [done|]. intros v. rewrite elem_of_cons. simpl.
  destruct (bool_decide (k = Dir)) eqn:E; simpl.
  - apply bool_decide_eq_true in E as ->. destruct (valid_utf8 n) eqn:Hv.
    + rewrite elem_of_cons, Hin. split; [intros [->|[? ?]]; auto|intros [[[= ->]|?] ?]; auto].
    + rewrite Hin. split; [intros [? ?]; auto|intros [[[= ->]|?] ?]; [congruence|auto]].
  - apply bool_decide_eq_false in E. rewrite Hin. split; [intros [? ?]; auto|intros [[[= -> <-]|?] ?]; [done|auto]].
Qed.

#[global] Instance string_le_total : Total string_le.
Proof. intros a b. unfold string_le. destruct (String.leb_total a b); auto. Qed.

#[global] Instance on_key_total {A} (g : A → string) : Total (on_key string_le g).
Proof. intros a b. apply (total string_le). Qed.

Lemma load_versions_ok p f :
  fs_faults f = [] →
  ∃ versions, load_versions p f = (Ok versions, f) ∧ Sorted string_le versions ∧
    ∀ v, v ∈ versions ↔ ∃ loc, resolve f false p = Found loc Dir ∧
                               fs_names f !! (loc ++ [v]) = Some Dir ∧ valid_utf8 v = true.
Proof.
  intros Hf. unfold load_versions, is_dir. destruct (resolve f false p) as [loc n| |] eqn:E;
    [destruct n|..]; try by (exists []; split_and!; [done|constructor|]; intros v; rewrite elem_of_nil; naive_solver).
  unfold lbind, lcall, read_dir. rewrite syscall_clear, E by done.
  destruct (version_names_ok (read_order (children f loc)) f Hf) as (names & -> & Hin).
  eexists. split; [done|]. split; [apply (Sorted_merge_sort _)|].
  intros v. rewrite elem_of_merge_sort, Hin, read_order_perm, elem_of_children. naive_solver.
Qed.

(** One entry. *)
Lemma load_component_ok f l name n :
  fs_faults f = [] → fs_names f !! (l ++ [name]) = Some n →
  match load_component (of_location l) (name, n) f with
  | (Ok (Some c), f') => f' = f ∧ described f l name c
  | (Ok None, f') => f' = f ∧ ¬ component_dir f l name
  | (Err _, _) => broken f l name
  end.
Proof.
  intros Hf Hn. unfold load_component. unfold lbind at 1, lcall. rewrite entry_is_dir_ok by done. simpl fst. simpl snd.
  rewrite !join_location, <- !app_assoc. simpl app.
  case_bool_decide as Hd; simpl; [|split; [done|]; by intros [Hc _]; congruence]. subst n.
  destruct (path_exists f _) eqn:Hex; simpl; [|split; [done|]; intros [_ Hc]; congruence].
  assert (component_dir f l name) as Hdir by done.
  pose proof (read_to_string_ok (of_location (l ++ [name; "cbs.component.yaml"])) f Hf) as Hr.
  unfold lbind at 1. destruct (file_text f _) as [text|] eqn:Ht.
  - rewrite Hr. destruct (component_yaml_name text) as [nm|e] eqn:Hy.
    + unfold lbind. destruct (load_versions_ok (of_location (l ++ [name; "containers"])) f Hf)
        as (vs & -> & Hs & Hv). simpl. split; [done|].
      apply mkDescribed; [done| |done|done]. exists text. by split.
    + split; [done|]. intros t. rewrite Ht. intros [= <-].
      rewrite Hy. simpl. tauto.
  - destruct Hr as [e ->]. split; [done|]. intros t. by rewrite Ht.
Qed.

Lemma load_entries_ok f l entries :
  fs_faults f = [] → (∀ e, e ∈ entries → fs_names f !! (l ++ [e.1]) = Some e.2) →
  match load_entries (of_location l) entries f with
  | (Ok cs, f') => f' = f ∧ (∀ c, c ∈ cs → ∃ e, e ∈ entries ∧ described f l e.1 c) ∧
      ∀ e, e ∈ entries → component_dir f l e.1 → ∃ c, c ∈ cs ∧ described f l e.1 c
  | (Err _, _) => ∃ e, e ∈ entries ∧ broken f l e.1
  end.
Proof.
  intros Hf. induction entries as [|[name n] entries IH]; intros Hin.
  { split; [done|]. split; [by intros c ?%elem_of_nil|by intros e ?%elem_of_nil]. }
  specialize (IH (λ e He, Hin e (list_elem_of_further _ _ _ He))).
  pose proof (load_component_ok f l name n Hf (Hin (name, n) (list_elem_of_here _ _))) as Hc.
  cbn [load_entries]. unfold lbind at 1. destruct (load_component _ _ f) as [[[c|]|e] f1].
  - destruct Hc as [-> Hc]. unfold lbind. destruct (load_entries _ entries f) as [[cs|e] f2].
    + destruct IH as (-> & H1 & H2). split; [done|]. split.
      * intros c' [->|(e & He & Hd)%H1]%elem_of_cons; [exists (name, n); split; [by left|done]|].
        exists e. split; [by right|done].
      * intros e [->|He]%elem_of_cons Hdir; [exists c; split; [by left|done]|].
        destruct (H2 e He Hdir) as (c' & ? & ?). exists c'. split; [by right|done].
    + destruct IH as (e' & He & Hb). exists e'. split; [by right|done].
  - destruct Hc as [-> Hc]. unfold lbind. destruct (load_entries _ entries f) as [[cs|e] f2].
    + destruct IH as (-> & H1 & H2). split; [done|]. split.
      * intros c' (e & He & Hd)%H1. exists e. split; [by right|done].
      * intros e [->|He]%elem_of_cons Hdir; [done|by apply H2].
    + destruct IH as (e' & He & Hb). exists e'. split; [by right|done].
  - exists (name, n). split; [by left|done].
Qed.

Lemma described_not_broken f l name c : described f l name c → ¬ broken f l name.
Proof. intros [_ (t & Ht & Hn) _ _] [_ Hb]. specialize (Hb t Ht). rewrite Hn in Hb. by apply Hb. Qed.

Lemma load_components_ok (f : Fs) (l : list string)
    (Hf : fs_faults f = []) (Hdir : resolve f false (of_location l) = Found l Dir) :
  ((∀ name, ¬ broken f l name) →
     Sorted (on_key string_le ci_name) (loaded_components (of_location l) f) ∧
     (∀ c, c ∈ loaded_components (of_location l) f → ∃ name, described f l name c) ∧
     ∀ name, component_dir f l name → ∃ c, c ∈ loaded_components (of_location l) f ∧ described f l name c) ∧
  ((∃ name, broken f l name) → loaded_components (of_location l) f = []).
Proof.
  assert (path_exists f (of_location l) = true) as Hex by (unfold path_exists; by rewrite Hdir).
  unfold loaded_components. rewrite Hex.
  unfold load_components, lbind, lcall, read_dir. rewrite syscall_clear, Hdir by done.
  assert (∀ e, e ∈ read_order (children f l) ↔ fs_names f !! (l ++ [e.1]) = Some e.2) as Hin
    by (intros [? ?]; rewrite read_order_perm; apply elem_of_children).
  pose proof (load_entries_ok f l (read_order (children f l)) Hf (λ e, proj1 (Hin e))) as Hl.
  assert (∀ name, component_dir f l name → (name, Dir) ∈ read_order (children f l)) as Hd
    by (intros name [Hn _]; by apply (Hin (name, Dir))).
  destruct (load_entries _ _ f) as [[cs|e] f'].
  - destruct Hl as (_ & H1 & H2). simpl. split.
    + intros _. split_and!.
      * by apply Sorted_merge_sort, on_key_total.
      * intros c. rewrite elem_of_merge_sort. intros (e & _ & He)%H1. by exists e.1.
      * intros name Hn. destruct (H2 _ (Hd name Hn) Hn) as (c & Hc & Hdesc).
        exists c. by rewrite elem_of_merge_sort.
    + intros (name & Hb). destruct (H2 _ (Hd name (proj1 Hb)) (proj1 Hb)) as (c & _ & Hdesc).
      by destruct (described_not_broken _ _ _ _ Hdesc).
  - split; [|done]. intros Hb. destruct Hl as (e' & _ & He). by destruct (Hb e'.1).
Qed.
(** C29: What a server knows after it has read its directory. If every component file
    can be read and parsed, the components are those of the directories that have
    one, sorted, each under the name in the file, with the directories of
    [containers] as versions. A single broken file is enough for the server to
    know no component at all. *)
Theorem load_components_outcome (f : Fs) (l : list string)
    (Hf : fs_faults f = []) (Hdir : resolve f false (of_location l) = Found l Dir) :
  ((∀ name, ¬ broken f l name) →
     Sorted (on_key string_le ci_name) (loaded_components (of_location l) f) ∧
     (∀ c, c ∈ loaded_components (of_location l) f → ∃ name, described f l name c) ∧
     ∀ name, component_dir f l name → ∃ c, c ∈ loaded_components (of_location l) f ∧ described f l name c) ∧
  ((∃ name, broken f l name) → loaded_components (of_location l) f = []).
Proof. by apply load_components_ok. Qed.
End LoadSpec.

(** ** The name of a component and its directory *)

(** A directory [ceph-19] whose file says [name: ceph]. *)
Definition renamed_tree : Fs :=
  mkFs {[ ["components"] := Dir; ["components"; "ceph-19"] := Dir;
          ["components"; "ceph-19"; "cbs.component.yaml"] := File 0 ]}
    {[ 0 := mkInode 420 (String.list_byte_of_string "name: ceph") ]} 1 [].

Lemma renamed_tree_component name :
  fs_names renamed_tree !! (["components"] ++ [name]) = Some Dir → name = "ceph-19".
Proof.
  unfold renamed_tree. simpl. intros Hn.
  apply lookup_insert_Some in Hn as [[[=] _]|[_ Hn]].
  apply lookup_insert_Some in Hn as [[[=] _]|[_ Hn]]; [done|].
  apply lookup_singleton_Some in Hn as [[=] _].
Qed.

(** The validator knows a component by the name in its file, the packing by its
    directory: where they differ, a build of the component is accepted and there
    is nothing to pack for it. *)
Lemma renamed_component_cannot_be_packed `{HComp : ComponentCrates} (d : BuildDescriptor) (comp : BuildComponent)
    (Hyaml : component_yaml_name "name: ceph" = Ok "ceph")
    (Hd : bd_components d = [comp]) (Hcomp : bc_name comp = "ceph") :
  validate_descriptor d (loaded_components (of_location ["components"]) renamed_tree) = Ok () ∧
  path_exists renamed_tree (join (of_location ["components"]) [Normal (bc_name comp)]) = false.
Proof.
  rewrite Hcomp. split; [|by vm_compute].
  assert (component_dir renamed_tree ["components"] "ceph-19") as Hdir by done.
  assert (∀ name, component_dir renamed_tree ["components"] name → name = "ceph-19") as Hone.
  { intros name [Hn _]. by apply renamed_tree_component. }
  assert (file_text renamed_tree (of_location ["components"; "ceph-19"; "cbs.component.yaml"]) = Some "name: ceph")
    as Htext by (by vm_compute).
  destruct (load_components_ok renamed_tree ["components"] eq_refl eq_refl) as [Hok _].
  destruct Hok as (_ & _ & Hall).
  { intros name [Hn Hb]. rewrite (Hone name Hn) in Hb. specialize (Hb _ Htext). by rewrite Hyaml in Hb. }
  destruct (Hall _ Hdir) as (c & Hc & [_ (t & Ht & Hname) _ _]).
  simpl app in Ht. rewrite Htext in Ht. injection Ht as <-. rewrite Hyaml in Hname. injection Hname as Hname.
  unfold validate_descriptor. rewrite Hd. simpl.
  destruct (existsb _ _) eqn:E; [done|]. exfalso.
  assert (is_known (loaded_components (of_location ["components"]) renamed_tree) (bc_name comp)) as Hk
    by (rewrite Hcomp; apply list_elem_of_fmap; by exists c).
  apply existsb_known in Hk. congruence.
Qed.

(** The theorem on this tree, with a parser that knows this one file. *)
#[local, refine] Instance one_file_crates : ComponentCrates := {
  read_order l := l;
  component_yaml_name t := if bool_decide (t = "name: ceph") then Ok "ceph" else Err "unexpected text"
}.
Proof. done. Defined.

Lemma load_components_outcome_witness :
  ∃ c, c ∈ loaded_components (of_location ["components"]) renamed_tree ∧ ci_name c = "ceph" ∧ ci_versions c = [].
Proof.
  destruct (load_components_outcome renamed_tree ["components"] eq_refl eq_refl) as [Hok _].
  destruct Hok as (_ & _ & Hall).
  - intros name [[Hn Hex] Hb]. apply renamed_tree_component in Hn as ->.
    apply (Hb "name: ceph"); [vm_compute; reflexivity|]. exact I.
  - destruct (Hall "ceph-19") as (c & Hc & _); [split; vm_compute; reflexivity|].
    assert (loaded_components (of_location ["components"]) renamed_tree = [mkComponentInfo "ceph" []]) as E
      by (vm_compute; reflexivity).
    exists c. split; [exact Hc|]. rewrite E in Hc. apply list_elem_of_singleton in Hc as ->. by split.
Defined.
