(* ===== verification/Login.v ===== *)
(** * Verification of bearer tokens (auth/token_cache.rs, auth/paseto.rs,
    auth/extractors.rs, ws_upgrade of ws/handler.rs)

    Three kinds of bearer tokens: API keys and robot tokens, looked up by a
    prefix and checked against an Argon2 hash with a cache in front, and PASETO
    tokens, decrypted and looked up by their SHA-256. Argon2, the random
    generator, PASETO and JSON are third-party code ([TokenCrates]). *)

From Stdlib Require Import Strings.Byte.
From stdpp Require Import prelude gmap strings list.
From S2P Require Import Prelude Async Proto Db TokenCache App Logs Dispatch DbRoles.
From S2P Require Import DbCredentials DbUsers Auth ServerConfig.

(** [CbsdTokenPayloadV1]. *)
Record CbsdTokenPayloadV1 := mkPayload { pl_expires : option Z; pl_user : string }.

(** [argon2_check] parses a hash string and verifies the password against it;
    [argon2_hash_password] hashes with the [n]-th salt. [random_bytes n] is the
    [n]-th draw of the generator. [paseto_open] parses, decrypts and validates a
    token under a key at a time and returns its claim [payload] when that is a
    string; [paseto_seal] is the token with an expiry after so many seconds and
    that claim. *)
Class TokenCrates := {
  argon2_check : string → string → bool;
  argon2_hash_password : string → nat → result string string;
  random_bytes : nat → list byte;
  symmetric_key_ok : list Z → bool;
  paseto_open : list Z → string → Z → option string;
  paseto_seal : list Z → Z → string → nat → option string;
  payload_to_json : CbsdTokenPayloadV1 → option string;
  payload_of_json : string → option CbsdTokenPayloadV1;
  join_error_text : string
}.

(** ** auth/token_cache.rs *)

Inductive TokenError :=
| TeDb (e : SqlError)
| TeInvalidFormat
| TeNotFound
| TeExpired
| TeHashError (e : string).

Record CandidateRow := mkCandidateRow {
  cr_id : Z;
  cr_hash : string;
  cr_prefix : string;
  cr_owner_email : string;
  cr_expires_at : option Z
}.

Definition candidate_of_key (r : ApiKeyRow) : CandidateRow :=
  mkCandidateRow (ak_id r) (ak_key_hash r) (ak_key_prefix r) (ak_owner_email r) (ak_expires_at r).

Definition candidate_of_robot (r : TokenCandidate) : CandidateRow :=
  mkCandidateRow (tc_id r) (tc_token_hash r) (tc_token_prefix r) (tc_robot_email r) (tc_expires_at r).

Definition kind_prefix (k : TokenKind) : string :=
  match k with ApiKeyToken => "cbsk_" | RobotToken => "cbrk_" end.

Section Login.
Context `{Env} `{LruCrate} `{TokenCrates}.

Definition token_error_text (e : TokenError) : string :=
  match e with
  | TeDb e => "database error: " +:+ sql_error_text e
  | TeInvalidFormat => "invalid token format"
  | TeNotFound => "token not found or revoked"
  | TeExpired => "token expired"
  | TeHashError e => "hashing error: " +:+ e
  end.

(** The SHA-256 of a bearer string. *)
Definition digest (raw : string) : Digest :=
  String.string_of_list_byte (sha256 (String.list_byte_of_string raw)).

(** A critical section of the cache's mutex. *)
Definition with_cache {A} (f : TokenCache → A * TokenCache) : async A :=
  atomic (λ s, let '(a, c) := f (token_cache s) in (a, upd_token_cache c s)).

Definition purge_owner (email : string) : async unit :=
  with_cache (λ c, ((), remove_by_owner email c)).

Definition purge_prefix (prefix : string) : async unit :=
  with_cache (λ c, ((), remove_by_prefix prefix c)).

Definition is_expired (expires_at : option Z) (t : Z) : bool :=
  match expires_at with Some exp => (exp <? t)%Z | None => false end.

(** [generate_token_material]: the plaintext, the prefix for look-ups and the
    Argon2 hash, computed in a blocking task. *)
Definition generate_token_material (k : TokenKind) : async (result (string * string * string) TokenError) :=
  let* n := atomic alloc in
  let raw := kind_prefix k +:+ hex_encode (random_bytes n) in
  let lookup_prefix := String.substring (String.length (kind_prefix k)) 12 raw in
  let? hashed := io (λ s, let '(salt, s) := alloc s in (argon2_hash_password raw salt, s))
    map_err (λ _, TeHashError join_error_text) in
  match hashed with
  | Err e => Ret (Err (TeHashError e))
  | Ok hash => Ret (Ok (raw, lookup_prefix, hash))
  end.

(** The cached entry of a token, with its expiry checked at the time of the
    look-up. *)
Definition cache_lookup (sha256 : Digest) : async (option (result CachedToken TokenError)) :=
  atomic (λ s,
    let '(hit, c) := cache_get sha256 (token_cache s) in
    (match hit with
     | Some cached =>
         Some (if is_expired (tok_expires_at cached) (clock s) then Err TeExpired else Ok cached)
     | None => None
     end, upd_token_cache c s)).

(** [verify_hashed_token]. Without a candidate the code verifies a dummy hash
    for the sake of timing, which has no effect here. *)
Definition verify_hashed_token (k : TokenKind) (raw : string)
    (fetch_candidates : string → async (result (list CandidateRow) SqlError))
    : async (result CachedToken TokenError) :=
  if negb (String.length raw =? 69) || negb (starts_with (kind_prefix k) raw)
  then Ret (Err TeInvalidFormat)
  else
    let* hit := cache_lookup (digest raw) in
    match hit with
    | Some r => Ret r
    | None =>
        let lookup_prefix := String.substring (String.length (kind_prefix k)) 12 raw in
        let? candidates := fetch_candidates lookup_prefix map_err TeDb in
        match candidates with
        | [] => Ret (Err TeNotFound)
        | _ =>
            let? verified := io (λ s, (find_first (λ c, argon2_check raw (cr_hash c)) candidates, s))
              map_err (λ _, TeHashError join_error_text) in
            match verified with
            | None => Ret (Err TeNotFound)
            | Some c =>
                let entry := mkCachedToken k (cr_id c) (cr_owner_email c) (cr_prefix c) (cr_expires_at c) in
                let* t := now in
                if is_expired (tok_expires_at entry) t then Ret (Err TeExpired)
                else
                  do* with_cache (λ c, ((), cache_insert (digest raw) entry c)) in
                  Ret (Ok entry)
            end
        end
    end.

Definition generate_api_key_material : async (result (string * string * string) TokenError) :=
  generate_token_material ApiKeyToken.

Definition generate_robot_token_material : async (result (string * string * string) TokenError) :=
  generate_token_material RobotToken.

Definition create_api_key (name owner_email : string) : async (result (string * string) TokenError) :=
  let? (raw_key, prefix, hash) := generate_api_key_material map_err id in
  do? query (insert_api_key name owner_email hash prefix) map_err TeDb in
  Ret (Ok (raw_key, prefix)).

Definition fetch_api_keys (prefix : string) : async (result (list CandidateRow) SqlError) :=
  let? rows := query (find_api_keys_by_prefix prefix) map_err id in
  Ret (Ok (candidate_of_key <$> rows)).

Definition fetch_robot_tokens (prefix : string) : async (result (list CandidateRow) SqlError) :=
  let? rows := query (find_active_token_by_prefix prefix) map_err id in
  Ret (Ok (candidate_of_robot <$> rows)).

Definition verify_api_key (raw_key : string) : async (result CachedToken TokenError) :=
  verify_hashed_token ApiKeyToken raw_key fetch_api_keys.

Definition verify_robot_token (raw_token : string) : async (result CachedToken TokenError) :=
  verify_hashed_token RobotToken raw_token fetch_robot_tokens.

(** ** auth/paseto.rs *)

Inductive PasetoError := Serialization | InvalidKey | Creation | InvalidToken | PasetoExpired.

Definition paseto_error_text (e : PasetoError) : string :=
  match e with
  | Serialization => "payload serialization failed"
  | InvalidKey => "invalid secret key"
  | Creation => "token creation failed"
  | InvalidToken => "invalid or corrupted token"
  | PasetoExpired => "token expired"
  end.

Definition hex_value (c : Ascii.ascii) : option Z :=
  let n := Z.of_nat (Ascii.nat_of_ascii c) in
  if (48 <=? n)%Z && (n <=? 57)%Z then Some (n - 48)%Z
  else if (97 <=? n)%Z && (n <=? 102)%Z then Some (n - 87)%Z
  else if (65 <=? n)%Z && (n <=? 70)%Z then Some (n - 55)%Z else None.

(** [u8::from_str_radix] of two characters also takes a sign. *)
Definition hex_byte (a b : Ascii.ascii) : option Z :=
  if Ascii.eqb a (Ascii.ascii_of_nat 43) then hex_value b
  else x ← hex_value a; y ← hex_value b; Some (16 * x + y)%Z.

Fixpoint hex_decode (s : string) : option (list Z) :=
  match s with
  | EmptyString => Some []
  | String a (String b s) => x ← hex_byte a b; l ← hex_decode s; Some (x :: l)
  | String _ EmptyString => None
  end.

Definition sym_key (secret_key_hex : string) : option (list Z) :=
  key ← hex_decode secret_key_hex;
  if symmetric_key_ok key then Some key else None.

Definition token_create (email : string) (max_ttl_secs : Z) (secret_key_hex : string)
    : async (result (string * string) PasetoError) :=
  let* t := now in
  match payload_to_json (mkPayload (Some (t + max_ttl_secs)%Z) email) with
  | None => Ret (Err Serialization)
  | Some payload_json =>
      match sym_key secret_key_hex with
      | None => Ret (Err InvalidKey)
      | Some key =>
          let* nonce := atomic alloc in
          match paseto_seal key max_ttl_secs payload_json nonce with
          | None => Ret (Err Creation)
          | Some raw_token =>
              Ret (Ok (raw_token, hex_encode (sha256 (String.list_byte_of_string raw_token))))
          end
      end
  end.

Definition token_decode (raw_token secret_key_hex : string) : async (result CbsdTokenPayloadV1 PasetoError) :=
  match sym_key secret_key_hex with
  | None => Ret (Err InvalidKey)
  | Some key =>
      let* t := now in
      match paseto_open key raw_token t ≫= payload_of_json with
      | None => Ret (Err InvalidToken)
      | Some payload =>
          if is_expired (pl_expires payload) t then Ret (Err PasetoExpired) else Ret (Ok payload)
      end
  end.

Definition token_hash (raw_token : string) : string :=
  hex_encode (sha256 (String.list_byte_of_string raw_token)).

(** ** auth/extractors.rs *)

Section Extractor.
Variable config : ServerConfig.

Definition validate_paseto (token_str : string) : async (result AuthUser AuthError) :=
  let? payload := token_decode token_str (token_secret_key (secrets config))
    map_err (λ e, auth_error UNAUTHORIZED ("invalid token: " +:+ paseto_error_text e)) in
  let hash := token_hash token_str in
  let? revoked := query (is_token_revoked hash)
    map_err (λ _, auth_error INTERNAL_SERVER_ERROR "failed to check token status") in
  if revoked : bool then Ret (Err (auth_error UNAUTHORIZED "token revoked"))
  else
    let? auth_user := load_authed_user (pl_user payload) map_err id in
    do* query (mark_token_used hash) in
    Ret (Ok auth_user).

(** What the session layer finds for a request without a bearer header. *)
Inductive SessionRead :=
| SessionMissing
| SessionFailed
| SessionToken (paseto_token : option string).

Definition authenticate_api_key (token_str : string) : async (result AuthUser AuthError) :=
  let? cached := verify_api_key token_str
    map_err (λ e, auth_error UNAUTHORIZED ("API key error: " +:+ token_error_text e)) in
  let? auth_user := load_authed_user (tok_owner_email cached) map_err id in
  do* query (mark_api_key_used (tok_id cached)) in
  Ret (Ok auth_user).

Definition authenticate_robot_token (token_str : string) : async (result AuthUser AuthError) :=
  let? cached := verify_robot_token token_str
    map_err (λ e, auth_error UNAUTHORIZED ("robot token error: " +:+ token_error_text e)) in
  let? auth_user := load_authed_user (tok_owner_email cached) map_err id in
  do* query (mark_robot_token_used (tok_id cached)) in
  Ret (Ok auth_user).

Definition from_request_parts (bearer : option string) (session : SessionRead)
    : async (result AuthUser AuthError) :=
  match bearer with
  | Some token_str =>
      if starts_with "cbsk_" token_str then authenticate_api_key token_str
      else if starts_with "cbrk_" token_str then authenticate_robot_token token_str
      else validate_paseto token_str
  | None =>
      match session with
      | SessionMissing => Ret (Err (auth_error UNAUTHORIZED "authentication required"))
      | SessionFailed => Ret (Err (auth_error INTERNAL_SERVER_ERROR "session error"))
      | SessionToken None => Ret (Err (auth_error UNAUTHORIZED "authentication required"))
      | SessionToken (Some token_str) => validate_paseto token_str
      end
  end.

End Extractor.

(** ** ws/handler.rs *)

(** [ws_upgrade] up to the accepted connection: its id and the registered
    worker that [handle_connection] runs for. *)
Definition ws_upgrade (authorization : option string) : async (result (string * WorkerRow) StatusCode) :=
  match authorization ≫= strip_prefix "Bearer " with
  | None => Ret (Err UNAUTHORIZED)
  | Some token =>
      if negb (starts_with "cbsk_" token) then Ret (Err UNAUTHORIZED)
      else
        let? cached := verify_api_key token map_err (λ _, UNAUTHORIZED) in
        let? row := query (get_worker_by_api_key_id (tok_id cached))
          map_err (λ _, INTERNAL_SERVER_ERROR) in
        match row with
        | None => Ret (Err FORBIDDEN)
        | Some worker_row =>
            let* n := atomic alloc in
            Ret (Ok (uuid_v4 n, worker_row))
        end
  end.
End Login.
