(* ===== verification/AuthRoutes.v ===== *)
(** * Logins and the credentials of users (routes/auth.rs, auth/oauth.rs)

    The OAuth login with its session, and the endpoints of [/api/auth]. The
    session of tower-sessions is a value that a handler reads and changes; what
    a handler that fails with a server error did to it is not saved, so only a
    success carries the new session. HTTP calls to Google, base64 and JSON are
    third-party code ([WebCrates]). *)

From Stdlib Require Import Strings.Byte.
From stdpp Require Import prelude gmap strings list pretty.
From S2P Require Import Prelude Async Proto Common ServerConfig Db TokenCache App Logs DbRoles.
From S2P Require Import DbCredentials DbUsers Auth Channels Login.

(** ** auth/oauth.rs *)

Record OAuthState := mkOAuthState { client_id : string; client_secret : string; redirect_uri : string }.

Definition oauth_dummy : OAuthState := mkOAuthState "" "" "".

Record GoogleUserInfo := mkGoogleUserInfo { gi_email : string; gi_name : string; gi_email_verified : bool }.

Inductive AuthRejection := EmailNotVerified | DomainNotAllowed.

Definition is_email_domain_allowed (email : string) (allowed_domains : list string)
    (allow_any_google_account : bool) : bool :=
  if allow_any_google_account then true
  else
    let domain := match rsplit_once at_sign email with Some (_, d) => d | None => "" end in
    existsb (λ d, bool_decide (d = domain)) allowed_domains.

Definition validate_user_info (info : GoogleUserInfo) (allowed_domains : list string)
    (allow_any_google_account : bool) : result unit AuthRejection :=
  if negb (gi_email_verified info) then Err EmailNotVerified
  else if negb (is_email_domain_allowed (gi_email info) allowed_domains allow_any_google_account)
  then Err DomainNotAllowed
  else Ok ().

Inductive OAuthError := OAuthConfigError (e : string) | OAuthRequest (e : string) | OAuthGoogle (e : string).

(** The file of the client secrets: [web.client_id], [web.client_secret] and
    [web.redirect_uris]. *)
Record GoogleWebSecrets := mkGoogleWebSecrets {
  gw_client_id : string;
  gw_client_secret : string;
  gw_redirect_uris : list string
}.

(** A response of reqwest: whether its status is a success, and its body. *)
Record HttpResponse := mkHttpResponse { hr_success : bool; hr_body : string }.

Class WebCrates := {
  read_secrets_file : string → result string string;
  google_secrets_of_json : string → result GoogleWebSecrets string;
  http_post_form : string → list (string * string) → result HttpResponse string;
  http_get_bearer : string → string → result HttpResponse string;
  access_token_of_json : string → result string string;
  userinfo_of_json : string → result GoogleUserInfo string;
  base64url_encode : string → string
}.

(** The keys and values of a tower session, the number of its id, and the
    idle time after which it expires when it was changed. *)
Record Session := mkSession {
  ses_data : gmap string string;
  ses_id : nat;
  ses_idle_secs : option Z
}.

(** [unreserved]: what the percent encoding keeps. *)
Definition is_unreserved (c : Ascii.ascii) : bool :=
  let n := Ascii.nat_of_ascii c in
  ((65 <=? n) && (n <=? 90)) || ((97 <=? n) && (n <=? 122)) || is_digit c
  || (n =? 45) || (n =? 95) || (n =? 46) || (n =? 126).

Definition HEX_CHARS (n : nat) : Ascii.ascii := char_of (if n <? 10 then 48 + n else 55 + n).

Fixpoint urlencoding (s : string) : string :=
  match s with
  | EmptyString => EmptyString
  | String c s =>
      if is_unreserved c then String c (urlencoding s)
      else
        let b := Ascii.nat_of_ascii c in
        String (char_of 37) (String (HEX_CHARS (b / 16)) (String (HEX_CHARS (b mod 16)) (urlencoding s)))
  end.

Definition build_google_auth_url (state : OAuthState) (oauth_state : string) (hd : option string)
    : string :=
  let url := "https://accounts.google.com/o/oauth2/v2/auth"
    +:+ "?client_id=" +:+ urlencoding (client_id state)
    +:+ "&redirect_uri=" +:+ urlencoding (redirect_uri state)
    +:+ "&response_type=code"
    +:+ "&scope=openid%20email%20profile"
    +:+ "&access_type=offline"
    +:+ "&state=" +:+ urlencoding oauth_state in
  match hd with
  | Some domain => url +:+ "&hd=" +:+ urlencoding domain
  | None => url
  end.

Section OAuth.
Context `{WebCrates}.

Definition load_oauth_config (path : string) : result OAuthState OAuthError :=
  match read_secrets_file path with
  | Err e => Err (OAuthConfigError ("failed to read " +:+ path +:+ ": " +:+ e))
  | Ok contents =>
      match google_secrets_of_json contents with
      | Err e => Err (OAuthConfigError ("failed to parse secrets JSON: " +:+ e))
      | Ok secrets =>
          match gw_redirect_uris secrets with
          | [] => Err (OAuthConfigError "no redirect_uris in secrets file")
          | uri :: _ => Ok (mkOAuthState (gw_client_id secrets) (gw_client_secret secrets) uri)
          end
      end
  end.

Definition exchange_code_for_userinfo (state : OAuthState) (code : string)
    : result GoogleUserInfo OAuthError :=
  match http_post_form "https://oauth2.googleapis.com/token"
          [("code", code); ("client_id", client_id state); ("client_secret", client_secret state);
           ("redirect_uri", redirect_uri state); ("grant_type", "authorization_code")] with
  | Err e => Err (OAuthRequest e)
  | Ok token_resp =>
      if negb (hr_success token_resp)
      then Err (OAuthGoogle ("token exchange failed: " +:+ hr_body token_resp))
      else
        match access_token_of_json (hr_body token_resp) with
        | Err e => Err (OAuthGoogle ("failed to parse token response: " +:+ e))
        | Ok token =>
            match http_get_bearer "https://www.googleapis.com/oauth2/v2/userinfo" token with
            | Err e => Err (OAuthRequest e)
            | Ok userinfo_resp =>
                if negb (hr_success userinfo_resp)
                then Err (OAuthGoogle ("userinfo request failed: " +:+ hr_body userinfo_resp))
                else
                  match userinfo_of_json (hr_body userinfo_resp) with
                  | Err e => Err (OAuthGoogle ("failed to parse userinfo: " +:+ e))
                  | Ok user_info => Ok user_info
                  end
            end
        end
  end.
End OAuth.

(** ** routes/auth.rs *)

Record CallbackQuery := mkCallbackQuery {
  cq_code : option string;
  cq_state : string;
  cq_dev_email : option string
}.

Record WhoamiResponse := mkWhoami {
  who_email : string;
  who_name : string;
  who_is_robot : bool;
  who_roles : list string;
  who_effective_caps : list string
}.

Record CreateApiKeyResponse := mkCreateApiKeyResponse {
  cak_key : string;
  cak_prefix : string;
  cak_name : string
}.

(** A temporary redirect. *)
Definition Redirect : Type := string.

Definition internal (msg : string) {E} (_ : E) : AuthError := auth_error INTERNAL_SERVER_ERROR msg.

Definition build_cli_token_redirect (token_b64 : string) : string := "/#cli-token=" +:+ token_b64.

Section Routes.
Context `{Env} `{LruCrate} `{TokenCrates} `{WebCrates} (config : ServerConfig) (oauth_state : OAuthState).

(** The store behind the session can fail. *)
Definition session_get (key : string) (ses : Session) : async (result (option string) IoError) :=
  io (λ s, (ses_data ses !! key, s)).

Definition session_insert (key value : string) (ses : Session) : async (result Session IoError) :=
  io (λ s, (mkSession (<[key := value]> (ses_data ses)) (ses_id ses) (ses_idle_secs ses), s)).

Definition session_cycle_id (ses : Session) : async (result Session IoError) :=
  io (λ s, let '(n, s) := alloc s in (mkSession (ses_data ses) n (ses_idle_secs ses), s)).

Definition session_flush (ses : Session) : async (result Session IoError) :=
  io (λ s, (mkSession ∅ (ses_id ses) None, s)).

Definition login (client : string) (ses : Session) : async (result (Redirect * Session) AuthError) :=
  let* n := atomic alloc in
  let oauth_nonce := uuid_v4 n in
  let? ses := session_insert "oauth_state" oauth_nonce ses map_err internal "session error" in
  let? ses := session_insert "client_type" client ses map_err internal "session error" in
  if dev_enabled (dev config) then
    match seed_admin (seed config) with
    | None => Ret (Err (internal "dev mode requires seed-admin in config" ()))
    | Some email =>
        Ret (Ok ("/api/auth/callback?state=" +:+ oauth_nonce +:+ "&dev_email=" +:+ email, ses))
    end
  else
    let hd := match allowed_domains (oauth config) with [d] => Some d | _ => None end in
    Ret (Ok (build_google_auth_url oauth_state oauth_nonce hd, ses)).

(** The identity the callback logs in: the email of development mode, or what
    Google says of the code. *)
Definition resolve_user_info (params : CallbackQuery) : async (result GoogleUserInfo AuthError) :=
  match (if dev_enabled (dev config) then cq_dev_email params else None) with
  | Some email =>
      let email := normalize_email email in
      Ret (Ok (mkGoogleUserInfo email (split_head at_sign email) true))
  | None =>
      match cq_code params with
      | None => Ret (Err (auth_error BAD_REQUEST "missing authorization code"))
      | Some code =>
          match exchange_code_for_userinfo oauth_state code with
          | Err _ => Ret (Err (auth_error BAD_GATEWAY "failed to authenticate with Google"))
          | Ok info =>
              let info := mkGoogleUserInfo (normalize_email (gi_email info)) (gi_name info)
                            (gi_email_verified info) in
              match validate_user_info info (allowed_domains (oauth config))
                      (allow_any_google_account (oauth config)) with
              | Err _ => Ret (Err (auth_error UNAUTHORIZED
                           "authentication failed; contact your administrator"))
              | Ok _ => Ret (Ok info)
              end
          end
      end
  end.

Definition create_user_error (e : CreateOrUpdateUserError) : AuthError :=
  match e with
  | CouRobotNamePrefix =>
      auth_error FORBIDDEN "display name starting with 'robot:' is reserved for service accounts"
  | CouDb _ | CouRowNotFound => auth_error INTERNAL_SERVER_ERROR "failed to create user"
  end.

Definition callback (params : CallbackQuery) (ses : Session)
    : async (result (Redirect * Session) AuthError) :=
  let? stored_state := session_get "oauth_state" ses map_err internal "session error" in
  match stored_state with
  | None => Ret (Err (auth_error BAD_REQUEST "missing OAuth state in session"))
  | Some stored_state =>
      if negb (bool_decide (stored_state = cq_state params))
      then Ret (Err (auth_error BAD_REQUEST "OAuth state mismatch"))
      else
        let? client_type := session_get "client_type" ses map_err internal "session error" in
        let client_type := default "web" client_type in
        let? user_info := resolve_user_info params map_err id in
        do? create_or_update_user (gi_email user_info) (gi_name user_info) map_err create_user_error in
        let max_ttl := max_token_ttl_seconds (secrets config) in
        let* t := now in
        let expires_at := Some (t + max_ttl)%Z in
        let? (raw_token, hash) :=
          token_create (gi_email user_info) max_ttl (token_secret_key (secrets config))
          map_err internal "failed to create token" in
        do? query (insert_token (gi_email user_info) hash expires_at)
          map_err internal "failed to store token" in
        let? ses := session_cycle_id ses map_err internal "session error" in
        if bool_decide (client_type = "cli") then
          Ret (Ok (build_cli_token_redirect (base64url_encode raw_token), ses))
        else
          let? ses := session_insert "paseto_token" raw_token ses
            map_err internal "failed to store session" in
          Ret (Ok ("/", mkSession (ses_data ses) (ses_id ses) (Some WEB_SESSION_IDLE_SECS)))
  end.

Definition whoami (user : AuthUser) : async (result WhoamiResponse AuthError) :=
  let? user_roles := query (get_user_roles (au_email user))
    map_err internal "failed to load user roles" in
  Ret (Ok (mkWhoami (au_email user) (au_name user) (au_is_robot user)
             (urs_role_name <$> user_roles) (au_caps user))).

(** [authorization] is the header as text; [None] covers a header that is not
    text in the second look-up only, since the first asks for its presence. *)
Definition revoke_token_route (user : AuthUser) (authorization : option string)
    : async (result unit AuthError) :=
  match authorization with
  | None => Ret (Err (auth_error BAD_REQUEST "use POST /api/auth/logout for web sessions"))
  | Some v =>
      match strip_prefix "Bearer " v with
      | None => Ret (Err (auth_error UNAUTHORIZED "missing bearer token"))
      | Some auth_header =>
          if starts_with "cbsk_" auth_header then
            Ret (Err (auth_error BAD_REQUEST
                        "use DELETE /api/auth/api-keys/:prefix to revoke API keys"))
          else if starts_with "cbrk_" auth_header then
            Ret (Err (auth_error BAD_REQUEST
                        "robot accounts cannot self-revoke — use DELETE /api/admin/robots/{name}/token"))
          else
            do? query (revoke_token (token_hash auth_header))
              map_err internal "failed to revoke token" in
            Ret (Ok ())
      end
  end.

Definition revoke_all_tokens (user : AuthUser) (body_user_email : string)
    : async (result Z AuthError) :=
  if au_is_robot user then
    Ret (Err (auth_error BAD_REQUEST ("robot accounts cannot call revoke-all-tokens — "
                +:+ "use DELETE /api/admin/robots/{name}/token")))
  else if negb (has_cap user "permissions:manage") then
    Ret (Err (auth_error FORBIDDEN "missing required capability: permissions:manage"))
  else
    let user_email := normalize_email body_user_email in
    let? target := query (get_user user_email) map_err internal "database error" in
    match target with
    | None => Ret (Err (auth_error NOT_FOUND "user not found"))
    | Some _ =>
        let? count := query (revoke_all_for_user user_email)
          map_err internal "failed to revoke tokens" in
        Ret (Ok count)
    end.

Definition logout (ses : Session) : async (result Session AuthError) :=
  let* stored := session_get "paseto_token" ses in
  do* match stored with
      | Ok (Some raw_token) => let* _ := query (revoke_token (token_hash raw_token)) in Ret ()
      | _ => Ret ()
      end in
  let? ses := session_flush ses map_err internal "failed to clear session" in
  Ret (Ok ses).

Definition create_api_key_handler (user : AuthUser) (name : string)
    : async (result (StatusCode * CreateApiKeyResponse) AuthError) :=
  if au_is_robot user then
    Ret (Err (auth_error BAD_REQUEST ("robot accounts cannot create API keys — "
                +:+ "use POST /api/admin/robots/{name}/token")))
  else if negb (has_cap user "apikeys:create:own") then
    Ret (Err (auth_error FORBIDDEN "missing required capability: apikeys:create:own"))
  else if starts_with "worker:" name then
    Ret (Err (auth_error BAD_REQUEST
                "key names starting with 'worker:' are reserved for worker registration"))
  else
    let? (key, prefix) := create_api_key name (au_email user)
      map_err internal "failed to create API key" in
    Ret (Ok (CREATED, mkCreateApiKeyResponse key prefix name)).

Definition list_api_keys_handler (user : AuthUser) : async (result (list ApiKeyListItem) AuthError) :=
  if negb (has_cap user "apikeys:create:own") then
    Ret (Err (auth_error FORBIDDEN "missing required capability: apikeys:create:own"))
  else
    let? keys := query (list_api_keys_for_user (au_email user))
      map_err internal "failed to list API keys" in
    Ret (Ok (filter (λ k, starts_with "worker:" (akl_name k) = false) keys)).

Definition revoke_api_key_handler (user : AuthUser) (prefix : string) : async (result unit AuthError) :=
  if negb (has_cap user "apikeys:create:own") then
    Ret (Err (auth_error FORBIDDEN "missing required capability: apikeys:create:own"))
  else
    let? revoked := query (revoke_api_key_by_prefix (au_email user) prefix)
      map_err internal "failed to revoke API key" in
    if negb revoked then Ret (Err (auth_error NOT_FOUND "API key not found"))
    else
      do* purge_prefix prefix in
      Ret (Ok ()).
End Routes.
