(* ===== verification/LoginSpec.v ===== *)
(** * Logins and logouts

    The token that a login hands out authenticates its user until it is revoked,
    and no longer. *)

From Stdlib Require Import Strings.Byte.
From stdpp Require Import prelude gmap strings list.
From S2P Require Import Prelude Async Common ServerConfig Proto Db TokenCache App Logs DbRoles.
From S2P Require Import DbCredentials DbUsers Auth Channels Dispatch Login AuthRoutes.

Section LoginSpec.
Context `{HEnv : Env} `{HLru : LruCrate} `{HTok : TokenCrates} `{HWeb : WebCrates}
  (config : ServerConfig) (oauth_state : OAuthState).

(** The token of the session or of the redirect. *)
Definition hands_out (client_type raw redirect : string) (ses' : Session) : Prop :=
  if bool_decide (client_type = "cli") then redirect = build_cli_token_redirect (base64url_encode raw)
  else redirect = "/" ∧ ses_data ses' !! "paseto_token" = Some raw.

(** Whom Google vouches for. *)
Record vouched (params : CallbackQuery) (email name : string) : Prop := mkVouched {
  vo_code : ∃ code info, cq_code params = Some code ∧
    exchange_code_for_userinfo oauth_state code = Ok info ∧ gi_email_verified info = true ∧
    email = normalize_email (gi_email info) ∧ name = gi_name info;
  vo_domain : is_email_domain_allowed email (allowed_domains (oauth config))
                (allow_any_google_account (oauth config)) = true
}.

Lemma resolve_ok params s info s' :
  dev_enabled (dev config) = false →
  run (resolve_user_info config oauth_state params) s = (Ok info, s') →
  s' = s ∧ vouched params (gi_email info) (gi_name info).
Proof.
  intros Hdev. unfold resolve_user_info. rewrite Hdev. destruct (cq_code params) as [code|] eqn:Hc; [|done].
  destruct (exchange_code_for_userinfo oauth_state code) as [i|] eqn:He; [|done].
  unfold validate_user_info. simpl. destruct (negb (gi_email_verified i)) eqn:Hv; [done|].
  destruct (negb (is_email_domain_allowed _ _ _)) eqn:Hd; [done|]. rewrite run_ret. intros [= <- <-]. split; [done|].
  apply negb_false_iff in Hv, Hd. split; [|done]. by exists code, i.
Qed.

(** Storing the user of a login. *)
Definition logged_in_row (email name : string) (t : Z) (old : option UserRow) : UserRow :=
  match old with
  | None => mkUserRow (mkUserRecord email name true None false) None t t (Some t)
  | Some u => mkUserRow (mkUserRecord (ur_email u) name (ur_active u) (ur_default_channel_id u)
                           (ur_is_robot u)) (u_robot_description u) (u_created_at u) t
                (coalesce (u_first_login_at u) (Some t))
  end.

Lemma create_or_update_ok email name s r s' :
  faults s = [] → run (create_or_update_user email name) s = (Ok r, s') →
  s' = upd_pool (set_users (<[email := logged_in_row email name (clock s) (user_row email (pool s))]>
                              (t_users (pool s))) (pool s)) s.
Proof.
  intros Hf. unfold create_or_update_user. destruct (starts_with _ _); [done|].
  rewrite run_or_fail, run_query, exec_stmt_no_fault by done. unfold upsert_user.
  destruct (user_row email (pool s)) as [u|] eqn:Hu; cbn [fst snd logged_in_row];
    rewrite run_or_fail, run_read by done; cbn [fst snd];
    simpl; rewrite run_ret; by intros [= _ <-].
Qed.

(** The stored token of a login. *)
Lemma insert_token_ok e h x t d i d' :
  insert_token e h x t d = (Ok i, d') →
  t_users d' = t_users d ∧ t_tokens d' = <[i := mkTokenRow e h x false t None None]> (t_tokens d) ∧
  (∀ j y, t_tokens d !! j = Some y → tk_token_hash y ≠ h).
Proof.
  unfold insert_token. destruct (exists_row _ _) eqn:E; [done|]. destruct (bool_decide _); [done|].
  intros [= <- <-]. split_and!; [done|done|]. intros j y Hy.
  pose proof (exists_row_false _ _ E j y Hy) as Hb. by apply bool_decide_eq_false_1 in Hb.
Qed.

(** Reading the session needs no failure of its store to succeed. *)
Lemma run_session {A} (f : AppState → A * AppState) s :
  faults s = [] → run (io f) s = (Ok (f s).1, (f s).2).
Proof. intros Hf. unfold io. rewrite run_atomic. unfold next_fault. rewrite Hf. by destruct (f s). Qed.

(** What a login outside of development mode has done when it succeeds. *)
Record login_done (s : AppState) (params : CallbackQuery) (ses : Session) (redirect : string)
    (ses' : Session) (s' : AppState) : Prop := mkLoginDone {
  ld_state : ses_data ses !! "oauth_state" = Some (cq_state params);
  ld_token : ∃ email name raw payload key i t0,
    vouched params email name ∧
    payload_to_json (mkPayload (Some (clock s + max_token_ttl_seconds (secrets config))%Z) email) = Some payload ∧
    sym_key (token_secret_key (secrets config)) = Some key ∧
    (∃ nonce, paseto_seal key (max_token_ttl_seconds (secrets config)) payload nonce = Some raw) ∧
    hands_out (default "web" (ses_data ses !! "client_type")) raw redirect ses' ∧
    t_users (pool s') = <[email := logged_in_row email name (clock s) (user_row email (pool s))]>
                          (t_users (pool s)) ∧
    t_tokens (pool s') = <[i := mkTokenRow email (token_hash raw)
      (Some (clock s + max_token_ttl_seconds (secrets config))%Z) false t0 None None]> (t_tokens (pool s)) ∧
    (∀ j y, t_tokens (pool s) !! j = Some y → tk_token_hash y ≠ token_hash raw);
  ld_frame : faults s' = [] ∧ clock s' = clock s
}.

Lemma callback_ok s params ses redirect ses' s' :
  faults s = [] → dev_enabled (dev config) = false →
  run (callback config oauth_state params ses) s = (Ok (redirect, ses'), s') →
  login_done s params ses redirect ses' s'.
Proof.
  intros Hf Hdev. unfold callback, session_get, session_insert, session_cycle_id.
  rewrite run_or_fail, run_session by done. cbn [fst snd].
  destruct (ses_data ses !! "oauth_state") as [st|] eqn:Hst; [|done].
  destruct (bool_decide (st = cq_state params)) eqn:Heq; [|done]. apply bool_decide_eq_true_1 in Heq as ->.
  cbn [negb]. rewrite run_or_fail, run_session by done. cbn [fst snd].
  rewrite run_or_fail. destruct (run (resolve_user_info _ _ _) s) as [[info|] s1] eqn:Hinfo; [|done].
  apply resolve_ok in Hinfo as [-> Hv]; [|done]. cbn [fst snd].
  rewrite run_or_fail. destruct (run (create_or_update_user _ _) s) as [[u|] s1] eqn:Hu; [|done].
  apply create_or_update_ok in Hu as ->; [|done]. cbn [fst snd]. set (s1 := upd_pool _ s).
  rewrite run_bind, run_now. cbn [fst snd].
  rewrite run_or_fail. unfold token_create. rewrite run_bind, run_now. cbn [fst snd].
  change (clock s1) with (clock s).
  destruct (payload_to_json _) as [payload|] eqn:Hp; [|done].
  destruct (sym_key _) as [key|] eqn:Hkey; [|done].
  rewrite run_bind, run_atomic. cbn [fst snd].
  destruct (paseto_seal _ _ _ _) as [raw|] eqn:Hseal; [|done]. cbn [fst snd]. rewrite run_ret. cbn [fst snd].
  fold (token_hash raw). set (s2 := (alloc s1).2). assert (faults s2 = []) as Hf2 by done.
  rewrite run_or_fail, run_query, exec_stmt_no_fault by done.
  destruct (insert_token (gi_email info) (token_hash raw) _ (clock s2) (pool s2)) as [[i|] d] eqn:Hi; [|done]. cbn [fst snd].
  apply insert_token_ok in Hi as (Hus & Htk & Hfresh). set (s3 := upd_pool d s2).
  rewrite run_or_fail, run_session by done. simpl. case_bool_decide as Hcli.
  - rewrite run_ret. intros [= <- <- <-]. split; [done| |done].
    exists (gi_email info), (gi_name info), raw, payload, key, i. eexists.
    split_and!; [done..|by eexists| |by simpl; rewrite Hus|done|done].
    unfold hands_out. by rewrite bool_decide_eq_true_2.
  - rewrite run_or_fail, run_session by done. simpl. rewrite run_ret. intros [= <- <- <-]. split; [done| |done].
    exists (gi_email info), (gi_name info), raw, payload, key, i. eexists.
    split_and!; [done..|by eexists| |by simpl; rewrite Hus|done|done].
    unfold hands_out. rewrite bool_decide_eq_false_2 by done. split; [done|]. simpl. by rewrite lookup_insert_eq.
Qed.

(** The look-up of a stored token. *)
Lemma token_found d h : token_by_hash h d =
  find_first (λ t, bool_decide (tk_token_hash t = h)) (map_to_list (t_tokens d)).*2.
Proof. done. Qed.

(** The two ways a request can carry a token of a login. *)
Definition carries_login (raw : string) (bearer : option string) (session : SessionRead) : Prop :=
  bearer = Some raw ∨ bearer = None ∧ session = SessionToken (Some raw).

(** The extractor on a token that opens, is stored and is not revoked: it decides
    by the user's row. *)
Lemma validate_stored (s : AppState) raw key payload email expires (row : TokenRow) (u : UserRecord) :
  faults s = [] → sym_key (token_secret_key (secrets config)) = Some key →
  paseto_open key raw (clock s) = Some payload →
  payload_of_json payload = Some (mkPayload (Some expires) email) → (clock s ≤ expires)%Z →
  token_by_hash (token_hash raw) (pool s) = Some row → tk_revoked row = false →
  user_record email (pool s) = Some u →
  if ur_active u
  then ∃ caps, (run (validate_paseto config raw) s).1 = Ok (mkAuthUser (ur_email u) (ur_name u) caps (ur_is_robot u))
  else (run (validate_paseto config raw) s).1 = Err (auth_error UNAUTHORIZED "user account deactivated").
Proof.
  intros Hf Hkey Hopen Hjson Hexp Htok Hrev Hu. unfold validate_paseto, token_decode. rewrite Hkey.
  rewrite run_or_fail, run_bind, run_now. cbn [fst snd]. rewrite Hopen. cbn [mbind option_bind]. rewrite Hjson.
  cbn [pl_expires]. assert (is_expired (Some expires) (clock s) = false) as -> by (simpl; apply Z.ltb_ge; lia).
  rewrite run_ret. cbn [fst snd].
  rewrite run_or_fail, run_read by done. unfold is_token_revoked. cbn [fst snd]. rewrite Htok, Hrev.
  cbn [pl_user]. unfold load_authed_user. rewrite run_or_fail, run_bind, run_read by done.
  unfold get_user. cbn [fst snd]. rewrite Hu. destruct (ur_active u); cbn [negb]; [|done].
  rewrite run_bind, run_read by done. cbn [fst snd get_effective_caps]. rewrite run_ret. cbn [fst snd].
  rewrite run_bind. cbn [fst snd]. rewrite run_ret. by eexists.
Qed.

Lemma other_prefix p q raw :
  starts_with p raw = true → starts_with q p = false → String.length q ≤ String.length p → starts_with q raw = false.
Proof.
  intros [y ->]%starts_with_spec Hq Hl. apply not_true_iff_false. intros [z Hz]%starts_with_spec.
  apply not_true_iff_false in Hq. apply Hq, starts_with_spec. clear Hq.
  revert q Hl Hz. induction p as [|c p IH]; intros [|d q] Hl Hz; simpl in *; try lia; try by eexists.
  injection Hz as -> Hz. destruct (IH q ltac:(lia) Hz) as [x Hx]. exists x. simpl. by rewrite Hx at 1.
Qed.

(** C7: A login outside of development mode succeeds only for the email that
    Google says is verified, of an allowed domain, in the session that carries
    the state of the request; it leaves the user's row with that email, the name
    that Google gives and whether the account is active as it was. The token that
    it hands out is stored, not revoked. In every later state in which it still
    is, until it expires, a request with the token, as a bearer or in the web
    session, is answered by the account: authenticated with its email if the
    account is active, refused if it has been deactivated. The assumptions are
    the laws of PASETO and of the JSON of the payload: what was sealed with a key
    is opened by it before it expires, and carries the prefix of its version. *)
Theorem login_token_accepted (s s' : AppState) params ses redirect ses'
    (Hf : faults s = []) (Hdev : dev_enabled (dev config) = false)
    (Hrun : run (callback config oauth_state params ses) s = (Ok (redirect, ses'), s'))
    (Hopen : ∀ key payload nonce raw t,
       paseto_seal key (max_token_ttl_seconds (secrets config)) payload nonce = Some raw →
       (clock s ≤ t < clock s + max_token_ttl_seconds (secrets config))%Z →
       paseto_open key raw t = Some payload)
    (Hv4 : ∀ key ttl payload nonce raw, paseto_seal key ttl payload nonce = Some raw →
       starts_with "v4.local." raw = true)
    (Hjson : ∀ p j, payload_to_json p = Some j → payload_of_json j = Some p)
    (Husers : ∀ e (u : UserRow), t_users (pool s) !! e = Some u → ur_email u = e) :
  let expires := (clock s + max_token_ttl_seconds (secrets config))%Z in
  let stored raw (d : Db) := ∃ row, token_by_hash (token_hash raw) d = Some row ∧ tk_revoked row = false in
  ses_data ses !! "oauth_state" = Some (cq_state params) ∧
  ∃ email name raw,
    vouched params email name ∧ hands_out (default "web" (ses_data ses !! "client_type")) raw redirect ses' ∧
    (∃ u, user_record email (pool s') = Some u ∧ ur_email u = email ∧ ur_name u = name ∧
          ur_active u = from_option ur_active true (user_record email (pool s))) ∧
    stored raw (pool s') ∧
    ∀ s2 bearer session u, faults s2 = [] → (clock s ≤ clock s2 < expires)%Z → stored raw (pool s2) →
      carries_login raw bearer session → user_record email (pool s2) = Some u →
      if ur_active u
      then ∃ caps, (run (from_request_parts config bearer session) s2).1
                   = Ok (mkAuthUser (ur_email u) (ur_name u) caps (ur_is_robot u))
      else (run (from_request_parts config bearer session) s2).1
           = Err (auth_error UNAUTHORIZED "user account deactivated").
Proof.
  destruct (callback_ok _ _ _ _ _ _ Hf Hdev Hrun) as [Hst (email & name & raw & payload & key & i & t0 &
    Hv & Hp & Hkey & (nonce & Hseal) & Hout & Hus & Htk & Hfresh) _].
  cbv zeta. split; [done|]. exists email, name, raw. split_and!; [done..| | |].
  - unfold user_record, user_row. rewrite Hus, lookup_insert_eq. eexists. split; [done|].
    unfold logged_in_row, user_row. destruct (t_users (pool s) !! email) as [u|] eqn:Hu; simpl; [|done].
    by rewrite (Husers _ _ Hu).
  - eexists. rewrite token_found, Htk, find_first_inserted; [done|by apply bool_decide_eq_true_2|].
    intros j y Hy. apply bool_decide_eq_false_2. by eapply Hfresh.
  - intros s2 bearer session u Hf2 Ht (row & Htok & Hrev) Hpres Hu.
    pose proof (validate_stored s2 raw key payload email _ row u Hf2 Hkey (Hopen _ _ _ _ _ Hseal Ht)
                  (Hjson _ _ Hp) ltac:(lia) Htok Hrev Hu) as Hval.
    pose proof (Hv4 _ _ _ _ _ Hseal) as Hpre.
    destruct Hpres as [->|[-> ->]]; cbn [from_request_parts]; [|exact Hval].
    rewrite (other_prefix _ "cbsk_" raw Hpre), (other_prefix _ "cbrk_" raw Hpre) by (done || simpl; lia).
    exact Hval.
Qed.

(** Once a token is revoked through its own endpoint, no request with it is
    authenticated, whatever fails in between. *)
Theorem revoked_token_refused (s : AppState) (user : AuthUser) raw (fs : list bool) ses u
    (Hf : faults s = []) (Hraw : starts_with "cbsk_" raw || starts_with "cbrk_" raw = false)
    (Hrun : (run (revoke_token_route user (Some ("Bearer " +:+ raw))) s).1 = Ok ()) :
  let s' := upd_faults fs (run (revoke_token_route user (Some ("Bearer " +:+ raw))) s).2 in
  (run (from_request_parts config (Some raw) ses) s').1 ≠ Ok u ∧
  (run (from_request_parts config None (SessionToken (Some raw))) s').1 ≠ Ok u.
Proof.
  apply orb_false_iff in Hraw as [H1 H2]. unfold revoke_token_route in *.
  rewrite strip_prefix_app, H1, H2 in *. rewrite run_or_fail, run_query, exec_stmt_no_fault in * by done.
  unfold revoke_token in *. set (q := λ t : TokenRow, _ && _) in *.
  pose proof (eq_refl (update_where q revoked_token (t_tokens (pool s))).2) as Hrows. revert Hrows.
  destruct (update_where q revoked_token (t_tokens (pool s))) as [n rows] eqn:Hup. simpl. intros _.
  set (s' := upd_faults fs _). assert (∀ t, token_by_hash (token_hash raw) (pool s') = Some t → tk_revoked t = true)
    as Hrev.
  { intros t Ht. apply find_first_Some in Ht as [Hin Hh%bool_decide_eq_true_1].
    apply list_elem_of_fmap in Hin as ([j t'] & -> & Hin%elem_of_map_to_list). simpl in *.
    assert (rows = (λ v, if q v then revoked_token v else v) <$> t_tokens (pool s)) as Hr by by injection Hup.
    rewrite Hr, lookup_fmap in Hin. apply fmap_Some in Hin as (t0 & _ & ->). destruct (q t0) eqn:Hq; [done|].
    subst q. simpl in Hq. rewrite bool_decide_eq_true_2 in Hq by done. simpl in Hq. by apply negb_false_iff in Hq. }
  assert ((run (validate_paseto config raw) s').1 ≠ Ok u) as Hno; [|unfold from_request_parts; by rewrite H1, H2].
  unfold validate_paseto. rewrite run_or_fail. unfold token_decode. destruct (sym_key _) as [key|]; [|done].
  rewrite run_bind, run_now. cbn [fst snd]. destruct (paseto_open _ _ _ ≫= _) as [payload|]; [|done].
  destruct (is_expired _ _); [done|]. rewrite run_ret. cbn [fst snd]. rewrite run_or_fail, run_query.
  assert (∀ t, is_token_revoked (token_hash raw) t (pool s') = (Ok true, pool s')) as Hst.
  { intros t. unfold is_token_revoked. destruct (token_by_hash _ _) as [row|] eqn:Ht; [|done].
    by rewrite (Hrev row eq_refl). }
  unfold exec_stmt, next_fault. destruct (faults s') as [|[] fs']; [by rewrite Hst|done|].
  simpl pool. change (pool (upd_faults fs' s')) with (pool s'). by rewrite Hst.
Qed.
End LoginSpec.
