(* ===== verification/Admin.v ===== *)
(** * Entities, workers and roles (routes/admin.rs, routes/permissions.rs,
    routes/workers.rs, routes/components.rs)

    The administrative endpoints around the statements on users, roles, API keys
    and workers: permission checks, the guard of the last administrator,
    registration of workers and their forced disconnection. The body of a reply
    is its data; texts that only repeat the request are kept where they are the
    whole reply. *)

From Stdlib Require Import Strings.Byte.
From stdpp Require Import prelude gmap strings list pretty.
From S2P Require Import Prelude Async Proto Common ServerConfig Queue Db TokenCache App Logs DbRoles.
From S2P Require Import DbChannels DbCredentials DbUsers Auth Channels Dispatch Handler.
From S2P Require Import Components Login AuthRoutes.

Definition require_cap {A} (user : AuthUser) (cap : string) (k : async (result A AuthError))
    : async (result A AuthError) :=
  if has_cap user cap then k
  else Ret (Err (auth_error FORBIDDEN ("missing required capability: " +:+ cap))).

(** [query(..).map_err(internal error)?.ok_or_else(not found)?]. *)
Definition found {A} (missing : AuthError) (st : stmt (option A)) : async (result A AuthError) :=
  let? r := query st map_err internal "database error" in
  match r with
  | Some a => Ret (Ok a)
  | None => Ret (Err missing)
  end.

Definition user_not_found : AuthError := auth_error NOT_FOUND "user not found".

(** ** routes/permissions.rs *)

Definition KNOWN_CAPS : list string :=
  ["builds:create"; "builds:revoke:own"; "builds:revoke:any"; "builds:list:own"; "builds:list:any";
   "admin:queue:view"; "permissions:view"; "permissions:manage"; "apikeys:create:own";
   "robots:manage"; "robots:view"; "workers:view"; "workers:manage"; "periodic:create";
   "periodic:view"; "periodic:manage:own"; "periodic:manage:any"; "channels:manage";
   "channels:view"; "*"].

Definition SCOPE_DEPENDENT_CAPS : list string := ["builds:create"].
Definition KNOWN_SCOPE_TYPES : list string := ["channel"; "registry"; "repository"].

Record CreateRoleBody := mkCreateRoleBody {
  crb_name : string;
  crb_description : option string;
  crb_caps : list string;
  crb_scopes : list ScopeEntry
}.

Record RoleResponse := mkRoleResponse {
  rre_name : string;
  rre_description : string;
  rre_builtin : bool;
  rre_caps : list string;
  rre_scopes : list ScopeEntry;
  rre_created_at : Z
}.

Definition validate_caps (caps : list string) : result unit AuthError :=
  match find_first (λ cap, negb (bool_decide (cap ∈ KNOWN_CAPS))) caps with
  | Some cap => Err (auth_error BAD_REQUEST ("unknown capability: " +:+ cap))
  | None => Ok ()
  end.

Definition role_is_scope_dependent (caps : list string) : bool :=
  if bool_decide ("*" ∈ caps) then false
  else existsb (λ c, bool_decide (c ∈ SCOPE_DEPENDENT_CAPS)) caps.

Definition scope_error (scope : ScopeEntry) : option AuthError :=
  if negb (bool_decide (scope_type scope ∈ KNOWN_SCOPE_TYPES)) then
    Some (auth_error BAD_REQUEST ("unknown scope type '" +:+ scope_type scope
            +:+ "': must be one of channel, registry, repository"))
  else if bool_decide (scope_type scope = "channel") && negb (contains "/" (pattern scope))
          && negb (bool_decide (pattern scope = "*")) then
    Some (auth_error BAD_REQUEST ("channel scope pattern '" +:+ pattern scope
            +:+ "' must contain '/' (e.g. 'ces/dev' or 'ces/*')"))
  else None.

Definition validate_scopes (scopes : list ScopeEntry) : result unit AuthError :=
  match find_map scope_error scopes with Some e => Err e | None => Ok () end.

(** The checks that creating and updating a role share. *)
Definition validate_role_body (body : CreateRoleBody) : result unit AuthError :=
  match validate_caps (crb_caps body) with
  | Err e => Err e
  | Ok _ =>
      match validate_scopes (crb_scopes body) with
      | Err e => Err e
      | Ok _ =>
          if role_is_scope_dependent (crb_caps body) && bool_decide (crb_scopes body = []) then
            Err (auth_error BAD_REQUEST ("role contains scope-dependent capabilities and requires "
                   +:+ "at least one scope"))
          else Ok ()
      end
  end.

Definition last_admin_guard (who : string) : async (result unit AuthError) :=
  let? count := query count_active_wildcard_holders map_err internal "failed to check admin count" in
  if (count =? 0)%Z then
    Ret (Err (auth_error CONFLICT ("operation would remove the last admin — at least one active "
                +:+ who +:+ " must hold the wildcard (*) capability")))
  else Ret (Ok ()).

Definition list_roles_route (user : AuthUser) : async (result (list RoleRecord) AuthError) :=
  require_cap user "permissions:view" (
    let? roles := query list_roles map_err internal "failed to list roles" in
    Ret (Ok roles)).

Definition create_role_route (user : AuthUser) (body : CreateRoleBody)
    : async (result (StatusCode * RoleResponse) AuthError) :=
  require_cap user "permissions:manage" (
    match validate_role_body body with
    | Err e => Ret (Err e)
    | Ok _ =>
        let name := crb_name body in
        do? query (create_role name (default "" (crb_description body)) false)
          map_err (λ _, auth_error CONFLICT ("role '" +:+ name +:+ "' already exists")) in
        do? query (set_role_caps_and_scopes name (crb_caps body) (crb_scopes body))
          map_err internal "failed to set role capabilities and scopes" in
        let? role := query (get_role name) map_err internal "failed to get role" in
        match role with
        | None => Ret (Err (internal "role not found after create" ()))
        | Some role =>
            Ret (Ok (CREATED, mkRoleResponse (rr_name role) (rr_description role) (rr_builtin role)
                                (crb_caps body) (crb_scopes body) (rr_created_at role)))
        end
    end).

Definition get_role_route (user : AuthUser) (name : string) : async (result RoleResponse AuthError) :=
  require_cap user "permissions:view" (
    let? role := query (get_role name) map_err internal "failed to get role" in
    match role with
    | None => Ret (Err (auth_error NOT_FOUND "role not found"))
    | Some role =>
        let? caps := query (get_role_caps name) map_err internal "failed to get role capabilities" in
        let? scopes := query (get_role_scopes name) map_err internal "failed to get role scopes" in
        Ret (Ok (mkRoleResponse (rr_name role) (rr_description role) (rr_builtin role) caps scopes
                   (rr_created_at role)))
    end).

Definition update_role_route (user : AuthUser) (name : string) (body : CreateRoleBody)
    : async (result RoleResponse AuthError) :=
  require_cap user "permissions:manage" (
    match validate_role_body body with
    | Err e => Ret (Err e)
    | Ok _ =>
        let? builtin := query (is_role_builtin name) map_err internal "database error" in
        if builtin : bool then Ret (Err (auth_error CONFLICT "cannot modify a builtin role"))
        else
          let? role := query (get_role name) map_err internal "failed to get role" in
          match role with
          | None => Ret (Err (auth_error NOT_FOUND "role not found"))
          | Some role =>
              let? old_caps := query (get_role_caps name) map_err internal "database error" in
              let? old_scopes := query (get_role_scopes name) map_err internal "database error" in
              let had_wildcard := bool_decide ("*" ∈ old_caps) in
              let has_wildcard := bool_decide ("*" ∈ crb_caps body) in
              do? query (set_role_caps_and_scopes name (crb_caps body) (crb_scopes body))
                map_err internal "failed to update role capabilities and scopes" in
              let* guard := if had_wildcard && negb has_wildcard
                            then last_admin_guard "user" else Ret (Ok ()) in
              match guard with
              | Err e =>
                  do* query (set_role_caps_and_scopes name old_caps old_scopes) in
                  Ret (Err e)
              | Ok _ =>
                  Ret (Ok (mkRoleResponse (rr_name role) (rr_description role) (rr_builtin role)
                             (crb_caps body) (crb_scopes body) (rr_created_at role)))
              end
          end
    end).

Definition delete_role_route (user : AuthUser) (name : string) : async (result string AuthError) :=
  require_cap user "permissions:manage" (
    let? builtin := query (is_role_builtin name) map_err internal "database error" in
    if builtin : bool then Ret (Err (auth_error CONFLICT "cannot delete a builtin role"))
    else
      let? caps := query (get_role_caps name) map_err internal "database error" in
      let has_wildcard := bool_decide ("*" ∈ caps) in
      let? deleted := delete_role name map_err internal "failed to delete role" in
      if negb deleted then Ret (Err (auth_error NOT_FOUND "role not found"))
      else
        do? (if has_wildcard then last_admin_guard "user" else Ret (Ok ())) map_err id in
        Ret (Ok ("role '" +:+ name +:+ "' deleted"))).

(** ** routes/admin.rs: entities *)

Record AdminReply := mkAdminReply {
  ar_detail : string;
  ar_tokens_revoked : option Z;
  ar_api_keys_revoked : option Z
}.

Record EntityRoleItem := mkEntityRoleItem { eri_role : string; eri_scopes : list ScopeEntry }.

Record EntityWithRolesItem := mkEntityWithRoles {
  ewr_email : string;
  ewr_name : string;
  ewr_active : bool;
  ewr_is_robot : bool;
  ewr_first_login_at : option Z;
  ewr_roles : list EntityRoleItem
}.

Definition role_items (roles : list UserRoleWithScopes) : list EntityRoleItem :=
  (λ ur, mkEntityRoleItem (urs_role_name ur) (urs_scopes ur)) <$> roles.

(** The transaction of [deactivate_entity]: rolled back when it would leave no
    active administrator. *)
Definition deactivate_tx (email : string) (now : Z) (d : Db) : result (unit * Db) AuthError :=
  let d := update_user email (with_active false now) d in
  if (Z.of_nat (size (wildcard_holders d)) =? 0)%Z then
    Err (auth_error CONFLICT ("cannot deactivate the last admin — at least one active user must "
           +:+ "hold the wildcard (*) capability"))
  else Ok ((), d).

Definition activate_user (email : string) : stmt unit :=
  λ now d, (Ok (), update_user email (with_active true now) d).

Section Entities.
Context `{Env} `{LruCrate} `{TokenCrates} `{HashIter} `{Serde}.

Definition deactivate_entity (user : AuthUser) (email : string)
    : async (result AdminReply AuthError) :=
  let email := normalize_email email in
  require_cap user "permissions:manage" (
    let? target := found user_not_found (get_user email) map_err id in
    if negb (ur_active target) then
      Ret (Ok (mkAdminReply ("entity '" +:+ email +:+ "' already deactivated") None None))
    else
      do? query_tx (internal "database error") (deactivate_tx email) map_err id in
      do* purge_owner email in
      let detail := "entity '" +:+ email +:+ "' deactivated" in
      if ur_is_robot target then Ret (Ok (mkAdminReply detail None None))
      else
        let? tokens_revoked := query (revoke_all_for_user email)
          map_err internal "failed to revoke tokens" in
        let? keys_revoked := query (revoke_all_api_keys_for_user email)
          map_err internal "failed to revoke API keys" in
        Ret (Ok (mkAdminReply detail (Some tokens_revoked) (Some keys_revoked)))).

Definition activate_entity (user : AuthUser) (email : string) : async (result AdminReply AuthError) :=
  let email := normalize_email email in
  require_cap user "permissions:manage" (
    let? target := found user_not_found (get_user email) map_err id in
    let? has_token := (if ur_is_robot target then query (has_non_revoked_token email)
                       else Ret (Ok true)) map_err internal "database error" in
    if negb has_token then
      Ret (Err (auth_error BAD_REQUEST ("cannot activate robot with no token — use POST "
                  +:+ "/api/admin/robots to revive it with a new token")))
    else
      do? query (activate_user email) map_err internal "database error" in
      do* purge_owner email in
      Ret (Ok (mkAdminReply ("entity '" +:+ email +:+ "' activated") None None))).

Definition queue_status (user : AuthUser) : async (result (nat * nat * nat) AuthError) :=
  require_cap user "admin:queue:view" (
    let* counts := read_queue pending_counts in
    Ret (Ok counts)).

Definition set_entity_default_channel (user : AuthUser) (email : string) (channel_id : option Z)
    : async (result string AuthError) :=
  let email := normalize_email email in
  require_cap user "permissions:manage" (
    let? target := found user_not_found (get_user email) map_err id in
    do? match channel_id with
        | None => Ret (Ok ())
        | Some id =>
            do? found (auth_error NOT_FOUND "channel not found") (get_channel_by_id id) map_err Datatypes.id in
            if ur_is_robot target then
              let? types := query (list_types_for_channel id) map_err internal "database error" in
              match find_first (λ t, prefix_template_contains_username (ctr_prefix_template t)) types with
              | Some t => Ret (Err (auth_error BAD_REQUEST ("channel type '" +:+ ctr_type_name t
                            +:+ "' uses the ${username} template — "
                            +:+ "robot accounts cannot be assigned to such channels")))
              | None => Ret (Ok ())
              end
            else Ret (Ok ())
        end map_err Datatypes.id in
    do? query (set_default_channel email channel_id) map_err internal "failed to set default channel" in
    Ret (Ok (match channel_id with
             | Some id => "default channel set to " +:+ pretty id
             | None => "default channel cleared"
             end))).

Fixpoint entities_with_roles (entities : list EntitySummary)
    : async (result (list EntityWithRolesItem) AuthError) :=
  match entities with
  | [] => Ret (Ok [])
  | row :: entities =>
      let? roles := query (get_user_roles (es_email row)) map_err internal "database error" in
      let? rest := entities_with_roles entities map_err id in
      Ret (Ok (mkEntityWithRoles (es_email row) (es_name row) (es_active row) (es_is_robot row)
                 (es_first_login_at row) (role_items roles) :: rest))
  end.

Definition list_entities (user : AuthUser) (entity_type : option string)
    : async (result (list EntityWithRolesItem) AuthError) :=
  require_cap user "permissions:view" (
    let filter :=
      match entity_type with
      | None => Ok FilterAll
      | Some t =>
          if bool_decide (t = "user") then Ok FilterUser
          else if bool_decide (t = "robot") then Ok FilterRobot
          else if bool_decide (t = "all") then Ok FilterAll
          else Err (auth_error BAD_REQUEST ("invalid type filter '" +:+ t
                      +:+ "': expected user, robot, or all"))
      end in
    match filter with
    | Err e => Ret (Err e)
    | Ok filter =>
        let? entities := query (list_entities_filtered filter)
          map_err internal "failed to list entities" in
        entities_with_roles entities
    end).

Definition provision_error (e : ProvisionUserError) : AuthError :=
  match e with
  | AlreadyExists | RobotCollision | ProvisionUniqueViolation =>
      auth_error CONFLICT (provision_error_text e)
  | ProvisionRobotNamePrefix => auth_error FORBIDDEN (provision_error_text e)
  | UnknownRole _ => auth_error BAD_REQUEST (provision_error_text e)
  | ProvisionDb _ | ProvisionRowNotFound => auth_error INTERNAL_SERVER_ERROR "failed to provision user"
  end.

Definition create_entity (config : ServerConfig) (user : AuthUser) (body_email : string)
    (body_name : option string) (body_roles : list string)
    : async (result (StatusCode * EntityWithRolesItem) AuthError) :=
  require_cap user "permissions:manage" (
    let email := normalize_email body_email in
    if negb (dev_enabled (dev config))
       && negb (is_email_domain_allowed email (allowed_domains (oauth config))
                  (allow_any_google_account (oauth config)))
    then Ret (Err (auth_error BAD_REQUEST "email domain not allowed"))
    else
      let name := default (split_head at_sign email) body_name in
      do? provision_user email name body_roles map_err provision_error in
      let? roles := query (get_user_roles email) map_err internal "database error" in
      Ret (Ok (CREATED, mkEntityWithRoles email name true false None (role_items roles)))).

Definition get_entity_roles (user : AuthUser) (email : string)
    : async (result (list EntityRoleItem) AuthError) :=
  let email := normalize_email email in
  require_cap user "permissions:view" (
    let? roles := query (get_user_roles email) map_err internal "database error" in
    Ret (Ok (role_items roles))).

Definition forbidden_cap_error (role cap : string) : AuthError :=
  auth_error BAD_REQUEST ("role '" +:+ role +:+ "' carries cap '" +:+ cap
    +:+ "' which robots cannot hold").

Definition missing_role_error (role : string) : AuthError :=
  auth_error BAD_REQUEST ("role '" +:+ role +:+ "' does not exist").

(** A role that is about to be assigned exists, and carries nothing a robot may
    not hold when the target is one. *)
Definition check_assignable (target_is_robot : bool) (role : string) : async (result unit AuthError) :=
  do? found (missing_role_error role) (get_role role) map_err id in
  if target_is_robot then
    let? caps := query (get_role_caps role) map_err internal "database error" in
    match first_robot_forbidden_cap caps with
    | Some cap => Ret (Err (forbidden_cap_error role cap))
    | None => Ret (Ok ())
    end
  else Ret (Ok ()).

Fixpoint check_all_assignable (target_is_robot : bool) (roles : list string)
    : async (result unit AuthError) :=
  match roles with
  | [] => Ret (Ok ())
  | role :: roles =>
      do? check_assignable target_is_robot role map_err id in
      check_all_assignable target_is_robot roles
  end.

Definition replace_entity_roles (user : AuthUser) (email : string) (roles : list string)
    : async (result (list EntityRoleItem) AuthError) :=
  let email := normalize_email email in
  require_cap user "permissions:manage" (
    let? target := query (get_user email) map_err internal "database error" in
    let target_is_robot := match target with Some u => ur_is_robot u | None => false end in
    do? check_all_assignable target_is_robot roles map_err id in
    do? query (set_user_roles email roles) map_err internal "failed to set entity roles" in
    do? last_admin_guard "entity" map_err id in
    let? roles := query (get_user_roles email) map_err internal "database error" in
    Ret (Ok (role_items roles))).

(** The target is looked up between the two checks on the role. *)
Definition add_entity_role (user : AuthUser) (email role : string)
    : async (result (StatusCode * EntityRoleItem) AuthError) :=
  let email := normalize_email email in
  require_cap user "permissions:manage" (
    do? check_assignable false role map_err id in
    let? target := found user_not_found (get_user email) map_err id in
    do? (if ur_is_robot target then
           let? caps := query (get_role_caps role) map_err internal "database error" in
           match first_robot_forbidden_cap caps with
           | Some cap => Ret (Err (forbidden_cap_error role cap))
           | None => Ret (Ok ())
           end
         else Ret (Ok ())) map_err id in
    do? query (add_user_role email role) map_err internal "failed to add entity role" in
    let? scopes := query (get_role_scopes role) map_err internal "database error" in
    Ret (Ok (CREATED, mkEntityRoleItem role scopes))).

Definition remove_entity_role (user : AuthUser) (email role : string)
    : async (result string AuthError) :=
  let email := normalize_email email in
  require_cap user "permissions:manage" (
    let? removed := query (remove_user_role email role)
      map_err internal "failed to remove entity role" in
    if negb removed then Ret (Err (auth_error NOT_FOUND "role assignment not found"))
    else
      do? last_admin_guard "entity" map_err id in
      Ret (Ok ("role '" +:+ role +:+ "' removed from entity '" +:+ email +:+ "'"))).
End Entities.
