(* ===== verification/WorkerAdmin.v ===== *)
(** * Registration of workers and the robot accounts (routes/admin.rs,
    routes/robots.rs, routes/workers.rs) *)

From Stdlib Require Import Strings.Byte.
From stdpp Require Import prelude gmap strings list sorting pretty.
From S2P Require Import Prelude Async Proto Common ServerConfig Queue Db TokenCache App Logs DbRoles.
From S2P Require Import DbChannels DbCredentials DbUsers Auth Channels Dispatch Handler.
From S2P Require Import Components Login AuthRoutes Admin.

(** ** routes/admin.rs: workers *)

Definition is_alphanumeric (c : Ascii.ascii) : bool :=
  let n := Ascii.nat_of_ascii c in
  is_digit c || ((65 <=? n) && (n <=? 90)) || ((97 <=? n) && (n <=? 122)).

(** [[a-zA-Z0-9][a-zA-Z0-9_-]{0,63}]. *)
Definition is_valid_worker_name (name : string) : bool :=
  match name with
  | EmptyString => false
  | String first rest =>
      (String.length name <=? 64) && is_alphanumeric first
      && all_chars (λ c, is_alphanumeric c || Ascii.eqb c (char_of 45) || Ascii.eqb c (char_of 95)) rest
  end.

Record RegisterWorkerResponse := mkRegisterWorkerResponse {
  rw_worker_id : string;
  rw_name : string;
  rw_arch : string;
  rw_worker_token : string
}.

(** chrono and the JSON of a worker token. A date is its day number; [date_succ]
    has no value after the last date chrono knows. *)
Class AdminCrates := {
  worker_token_to_json : WorkerToken → string;
  parse_iso_date : string → result Z string;
  date_succ : Z → option Z
}.

Definition worker_not_found : AuthError := auth_error NOT_FOUND "worker not found".

Definition worker_name_taken : AuthError := auth_error CONFLICT "worker name already exists".

Definition or_conflict (e : SqlError) : AuthError :=
  if is_unique_violation e then worker_name_taken else internal "database error" e.

Definition register_tx (worker_id name arch owner hash prefix : string) (now : Z) (d : Db)
    : result (unit * Db) AuthError :=
  match insert_api_key_in_tx ("worker:" +:+ name) owner hash prefix now d with
  | Err e => Err (or_conflict e)
  | Ok (api_key_id, d) =>
      match insert_worker worker_id name arch api_key_id owner now d with
      | Err e => Err (or_conflict e)
      | Ok d => Ok ((), d)
      end
  end.

Definition deregister_tx (api_key_id : Z) (worker_id : string) (now : Z) (d : Db)
    : result (unit * Db) AuthError :=
  let '(_, d) := revoke_key_row api_key_id d in
  Ok ((), set_worker_rows (delete worker_id (t_workers d)) d).

(** Insert the new key, point the worker to it, revoke the old one. *)
Definition regenerate_tx (worker_id name owner hash prefix : string) (old_api_key_id : Z) (now : Z)
    (d : Db) : result (unit * Db) AuthError :=
  match insert_api_key_in_tx ("worker:" +:+ name) owner hash prefix now d with
  | Err e => Err (internal "database error" e)
  | Ok (new_api_key_id, d) =>
      match update_api_key_id worker_id new_api_key_id d with
      | Err e => Err (internal "database error" e)
      | Ok d => Ok ((), (revoke_key_row old_api_key_id d).2)
      end
  end.

Section Workers.
Context `{Env} `{LruCrate} `{TokenCrates} `{WebCrates} `{AdminCrates} `{HashIter} `{Serde}.

Definition build_worker_token (worker_id name api_key arch : string) : string :=
  base64url_encode (worker_token_to_json (mkWorkerToken worker_id name api_key arch)).

Definition register_worker (user : AuthUser) (name arch : string)
    : async (result (StatusCode * RegisterWorkerResponse) AuthError) :=
  require_cap user "workers:manage" (
    if negb (is_valid_worker_name name) then
      Ret (Err (auth_error BAD_REQUEST
                  "invalid worker name: must match [a-zA-Z0-9][a-zA-Z0-9_-]{0,63}"))
    else if negb (bool_decide (arch = "x86_64")) && negb (bool_decide (arch = "aarch64")) then
      Ret (Err (auth_error BAD_REQUEST "invalid arch: must be x86_64 or aarch64"))
    else
      let* n := atomic alloc in
      let worker_id := uuid_v4 n in
      let? (plaintext_key, prefix, hash) := generate_api_key_material
        map_err internal "failed to generate API key" in
      do? query_tx (internal "database error")
            (register_tx worker_id name arch (au_email user) hash prefix) map_err id in
      Ret (Ok (CREATED, mkRegisterWorkerResponse worker_id name arch
                          (build_worker_token worker_id name plaintext_key arch)))).

(** The critical section of [force_disconnect_worker]. *)
Definition take_worker_connection (registered_id : string) (q : BuildQueue)
    : option ConnectionId * BuildQueue :=
  match find_first (λ cw, bool_decide (registered_worker_id cw.2 = Some registered_id))
          (hash_iter (q_workers q)) with
  | Some (cid, _) => (Some cid, (remove_worker cid q).2)
  | None => (None, q)
  end.

Definition force_disconnect_worker (registered_id : string) : async unit :=
  let* connection_id := with_queue (take_worker_connection registered_id) in
  match connection_id with
  | Some cid => do* remove_sender cid in handle_worker_dead cid
  | None => Ret ()
  end.

(** After the commit: the key of that row leaves the cache, unless its prefix
    cannot be read. *)
Definition purge_key (api_key_id : Z) : async unit :=
  let* prefix := query (get_key_prefix_by_id api_key_id) in
  match prefix with
  | Ok (Some prefix) => purge_prefix prefix
  | _ => Ret ()
  end.

Definition deregister_worker (user : AuthUser) (worker_id : string)
    : async (result string AuthError) :=
  require_cap user "workers:manage" (
    let? worker := found worker_not_found (get_worker_by_id worker_id) map_err id in
    do? query_tx (internal "database error") (deregister_tx (wr_api_key_id worker) worker_id)
      map_err id in
    do* purge_key (wr_api_key_id worker) in
    do* force_disconnect_worker worker_id in
    Ret (Ok ("worker '" +:+ wr_name worker +:+ "' deregistered"))).

Definition regenerate_worker_token (user : AuthUser) (worker_id : string)
    : async (result RegisterWorkerResponse AuthError) :=
  require_cap user "workers:manage" (
    let? worker := found worker_not_found (get_worker_by_id worker_id) map_err id in
    let old_api_key_id := wr_api_key_id worker in
    let? (plaintext_key, prefix, hash) := generate_api_key_material
      map_err internal "failed to generate API key" in
    do? query_tx (internal "database error")
          (regenerate_tx worker_id (wr_name worker) (au_email user) hash prefix old_api_key_id)
      map_err id in
    do* purge_key old_api_key_id in
    do* force_disconnect_worker worker_id in
    Ret (Ok (mkRegisterWorkerResponse worker_id (wr_name worker) (wr_arch worker)
               (build_worker_token worker_id (wr_name worker) plaintext_key (wr_arch worker))))).

(** ** routes/workers.rs *)

Record WorkerInfoResponse := mkWorkerInfo {
  wi_worker_id : string;
  wi_name : string;
  wi_arch : Arch;
  wi_status : string;
  wi_version : option string;
  wi_last_seen : option Z;
  wi_created_by : string;
  wi_created_at : Z;
  wi_current_build_id : option Z
}.

(** The status of one connection, with its build and version. *)
Definition connection_status (q : BuildQueue) (cid : ConnectionId) (ws : WorkerState)
    : string * option Z * option string :=
  let active_build_id := ab_build_id <$>
    find_first (λ ab, bool_decide (ab_connection_id ab = cid)) (hash_values (q_active q)) in
  match ws with
  | Connected _ _ _ _ _ version =>
      (if bool_decide (is_Some active_build_id) then "building" else "connected", active_build_id, version)
  | Stopping _ _ => ("stopping", active_build_id, None)
  | Disconnected _ _ _ _ => ("disconnected", active_build_id, None)
  | Dead => ("dead", active_build_id, None)
  end.

(** A later connection of a worker replaces an earlier one. *)
Definition status_map (q : BuildQueue) : gmap string (string * option Z * option string) :=
  foldl (λ m '(cid, ws), match registered_worker_id ws with
                         | Some reg_id => <[reg_id := connection_status q cid ws]> m
                         | None => m
                         end) ∅ (hash_iter (q_workers q)).

Definition arch_of_column (arch : string) : Arch :=
  if bool_decide (arch = "aarch64") then Aarch64 else X86_64.

Definition worker_info (m : gmap string (string * option Z * option string)) (row : WorkerRow)
    : WorkerInfoResponse :=
  let '(status, current_build_id, version) := default ("offline", None, None) (m !! wr_id row) in
  mkWorkerInfo (wr_id row) (wr_name row) (arch_of_column (wr_arch row)) status version
    (wr_last_seen row) (wr_created_by row) (wr_created_at row) current_build_id.

Definition list_workers_route (user : AuthUser) : async (result (list WorkerInfoResponse) AuthError) :=
  require_cap user "workers:view" (
    let? db_workers := query list_workers map_err internal "database error" in
    let* m := read_queue status_map in
    Ret (Ok (worker_info m <$> db_workers))).

(** ** routes/components.rs *)

Definition list_components (components : list ComponentInfo) (user : AuthUser)
    : async (result (list ComponentInfo) AuthError) := Ret (Ok components).

(** ** routes/robots.rs *)

(** The JSON value of [expires]. *)
Inductive ExpiresValue := ExpiresNull | ExpiresString (s : string) | ExpiresOther.

Definition parse_iso_date_to_next_day_epoch (s : string) : result Z string :=
  match parse_iso_date s with
  | Err e => Err ("invalid expires date '" +:+ s +:+ "': " +:+ e)
  | Ok date =>
      match date_succ date with
      | None => Err ("date '" +:+ s +:+ "' overflows when computing the next day")
      | Some next_day => Ok (next_day * 86400)%Z
      end
  end.

Definition parse_expires_wire (v : ExpiresValue) : result (option Z) string :=
  match v with
  | ExpiresNull => Ok None
  | ExpiresString s =>
      match parse_iso_date_to_next_day_epoch s with Ok t => Ok (Some t) | Err e => Err e end
  | ExpiresOther => Err "expires must be a YYYY-MM-DD string or null"
  end.

Record CreateRobotBody := mkCreateRobotBody {
  crt_name : string;
  crt_description : option string;
  crt_expires : ExpiresValue;
  crt_roles : list string
}.

Record CreateRobotResponse := mkCreateRobotResponse {
  crr_name : string;
  crr_display_name : string;
  crr_email : string;
  crr_active : bool;
  crr_description : option string;
  crr_token : string;
  crr_token_prefix : string;
  crr_token_expires_at : option Z;
  crr_created_at : Z;
  crr_roles : list string;
  crr_revived : bool
}.

Record RotateTokenResponse := mkRotateTokenResponse {
  rtr_token : string;
  rtr_token_prefix : string;
  rtr_expires_at : option Z
}.

Record RobotDetail := mkRobotDetail {
  rd_name : string;
  rd_robot : RobotRow;
  rd_roles : list string;
  rd_effective_caps : list string
}.

Definition robot_not_found : AuthError := auth_error NOT_FOUND "robot not found".

Definition create_robot_error (name : string) (e : CreateRobotError) : AuthError :=
  match e with
  | AlreadyActive => auth_error CONFLICT ("robot '" +:+ name +:+ "' already exists and is active")
  | HumanCollision =>
      auth_error CONFLICT ("name '" +:+ name +:+ "' conflicts with an existing human account")
  | RobotUniqueViolation =>
      auth_error CONFLICT ("robot '" +:+ name +:+ "' was modified concurrently; retry the request")
  | RobotDb _ => auth_error INTERNAL_SERVER_ERROR "failed to create robot"
  end.

Definition rotate_error (name : string) (e : RotateTokenError) : AuthError :=
  match e with
  | RobotNotFound => robot_not_found
  | RobotTombstoned =>
      auth_error CONFLICT ("robot '" +:+ name +:+ "' is tombstoned — revive it first")
  | NonRevokedTokenExists =>
      auth_error CONFLICT ("robot '" +:+ name
        +:+ "' already has an active token — pass renew=true to replace it")
  | RotateUniqueViolation =>
      auth_error CONFLICT ("robot '" +:+ name +:+ "' was modified concurrently; retry the request")
  | RotateDb _ => auth_error INTERNAL_SERVER_ERROR "failed to rotate robot token"
  end.

Definition create_or_revive_robot (user : AuthUser) (body : CreateRobotBody)
    : async (result (StatusCode * CreateRobotResponse) AuthError) :=
  require_cap user "robots:manage" (
    let name := to_lowercase (crt_name body) in
    match validate_robot_name name with
    | Err e => Ret (Err (auth_error BAD_REQUEST ("invalid robot name: " +:+ e)))
    | Ok _ =>
        do? check_all_assignable true (crt_roles body) map_err id in
        match parse_expires_wire (crt_expires body) with
        | Err msg => Ret (Err (auth_error BAD_REQUEST msg))
        | Ok expires_at =>
            let email := name_to_synthetic_email name in
            let? (plaintext_token, token_prefix, hash) := generate_robot_token_material
              map_err internal "failed to generate robot token" in
            let? outcome := create_or_revive name (crt_description body) expires_at hash
                              token_prefix (crt_roles body) map_err create_robot_error name in
            let revived := match outcome with Revived => true | Created => false end in
            do* (if revived : bool then purge_owner email else Ret ()) in
            let? committed := get_robot_by_name name map_err internal "database error" in
            match committed with
            | None => Ret (Err (internal "robot disappeared after create" ()))
            | Some committed =>
                Ret (Ok (CREATED, mkCreateRobotResponse name (rob_display_name committed)
                  (rob_email committed) (rob_active committed) (rob_description committed)
                  plaintext_token token_prefix expires_at (rob_created_at committed)
                  (crt_roles body) revived))
            end
        end
    end).

Definition require_robot_view {A} (user : AuthUser) (k : async (result A AuthError))
    : async (result A AuthError) :=
  if negb (has_cap user "robots:view") && negb (has_cap user "robots:manage")
  then Ret (Err (auth_error FORBIDDEN "missing required capability: robots:view")) else k.

(** A list item: the name of the robot and its row. *)
Definition list_robots_route (user : AuthUser) : async (result (list (string * RobotRow)) AuthError) :=
  require_robot_view user (
    let? robots := list_robots map_err internal "failed to list robots" in
    Ret (Ok ((λ r, (default (rob_email r) (synthetic_email_to_name (rob_email r)), r)) <$> robots))).

Definition robot_by_name (name : string) : async (result RobotRow AuthError) :=
  let? robot := get_robot_by_name name map_err internal "database error" in
  match robot with Some r => Ret (Ok r) | None => Ret (Err robot_not_found) end.

(** The capabilities come sorted from the database, and stay so. *)
Definition get_robot (user : AuthUser) (name : string) : async (result RobotDetail AuthError) :=
  require_robot_view user (
    let? robot := robot_by_name name map_err id in
    let? role_entries := query (get_user_roles (rob_email robot)) map_err internal "database error" in
    let? caps := query (get_effective_caps (rob_email robot)) map_err internal "database error" in
    let effective_caps := merge_sort string_le (filter (λ c, c ∉ ROBOT_FORBIDDEN_CAPS) caps) in
    Ret (Ok (mkRobotDetail name robot (urs_role_name <$> role_entries) effective_caps))).

Definition tombstone_robot (user : AuthUser) (name : string) : async (result Z AuthError) :=
  require_cap user "robots:manage" (
    let? robot := robot_by_name name map_err id in
    let? tokens_revoked := tombstone_robot_tx (rob_email robot)
      map_err internal "failed to tombstone robot" in
    do* purge_owner (rob_email robot) in
    Ret (Ok tokens_revoked)).

Definition create_or_rotate_token (user : AuthUser) (name : string) (expires : ExpiresValue) (renew : bool)
    : async (result (StatusCode * RotateTokenResponse) AuthError) :=
  require_cap user "robots:manage" (
    match parse_expires_wire expires with
    | Err msg => Ret (Err (auth_error BAD_REQUEST msg))
    | Ok expires_at =>
        let? (plaintext_token, token_prefix, hash) := generate_robot_token_material
          map_err internal "failed to generate robot token" in
        do? rotate_token name renew hash token_prefix expires_at map_err rotate_error name in
        do* purge_owner (name_to_synthetic_email name) in
        Ret (Ok (CREATED, mkRotateTokenResponse plaintext_token token_prefix expires_at))
    end).

Definition revoke_robot_token (user : AuthUser) (name : string) : async (result Z AuthError) :=
  require_cap user "robots:manage" (
    let? robot := robot_by_name name map_err id in
    let? revoked := query (revoke_all_active_tokens (rob_email robot))
      map_err internal "failed to revoke robot token" in
    do* purge_owner (rob_email robot) in
    Ret (Ok revoked)).

Definition set_robot_description (user : AuthUser) (name : string) (description : option string)
    : async (result string AuthError) :=
  require_cap user "robots:manage" (
    let? updated := query (set_description (name_to_synthetic_email name) description)
      map_err internal "failed to update robot description" in
    if negb updated then Ret (Err robot_not_found)
    else Ret (Ok ("description updated for robot '" +:+ name +:+ "'"))).
End Workers.
