(* ===== verification/TokenSpec.v ===== *)
(** * Who a request is authenticated as

    A request with an API key or a robot token is accepted for the owner of a
    credential that is stored and not revoked. The cache of verified tokens is
    what endangers this: it has to forget a token whenever a request revokes it.
    The invariant [sound] says that every cached token still has its row; it is
    kept by every request that runs alone, and an interleaving can break it. *)

From Stdlib Require Import Strings.Byte.
From stdpp Require Import prelude gmap strings list relations sorting.
From S2P Require Import Prelude Async Common ServerConfig Proto Queue Db TokenCache App Logs DbRoles.
From S2P Require Import DbChannels DbCredentials DbUsers Auth Channels Dispatch Handler.
From S2P Require Import Components Login AuthRoutes Admin WorkerAdmin.

(** ** Live credentials *)

(** The row of a token that is not revoked, as the fetch of candidates shows it. *)
Definition live_row (d : Db) (k : TokenKind) (i : Z) : option CandidateRow :=
  match k with
  | ApiKeyToken =>
      match (t_api_keys d !! i : option ApiKey) with
      | Some r => if ak_revoked r then None else Some (candidate_of_key r)
      | None => None
      end
  | RobotToken =>
      match t_robot_tokens d !! i with
      | Some r => if rt_revoked r then None
                  else Some (mkCandidateRow (rt_id r) (rt_token_hash r) (rt_token_prefix r)
                               (rt_robot_email r) (rt_expires_at r))
      | None => None
      end
  end.

(** The cache entry that is made of a candidate. *)
Definition entry_of (k : TokenKind) (c : CandidateRow) : CachedToken :=
  mkCachedToken k (cr_id c) (cr_owner_email c) (cr_prefix c) (cr_expires_at c).

Definition live `{TokenCrates} (d : Db) (e : CachedToken) (raw : string) : Prop :=
  ∃ c, live_row d (tok_kind e) (tok_id e) = Some c ∧ e = entry_of (tok_kind e) c ∧
       argon2_check raw (cr_hash c) = true.

(** Rows are stored under their ids, which the sequences have passed. *)
Record creds_wf (d : Db) : Prop := mkCredsWf {
  wf_keys : ∀ i (r : ApiKey), t_api_keys d !! i = Some r → ak_id r = i ∧ (i < t_next_api_key_id d)%Z;
  wf_robot_tokens : ∀ i r, t_robot_tokens d !! i = Some r →
    rt_id r = i ∧ (i < t_next_robot_token_id d)%Z
}.

(** No live row is lost. *)
Definition keeps_live (d d' : Db) : Prop :=
  creds_wf d → creds_wf d' ∧ ∀ k i c, live_row d k i = Some c → live_row d' k i = Some c.

(** The tables of credentials are the same. *)
Definition same_creds (d d' : Db) : Prop :=
  t_api_keys d' = t_api_keys d ∧ t_next_api_key_id d' = t_next_api_key_id d ∧
  t_robot_tokens d' = t_robot_tokens d ∧ t_next_robot_token_id d' = t_next_robot_token_id d.

Lemma same_refl d : same_creds d d.
Proof. done. Qed.
Lemma same_trans d1 d2 d3 : same_creds d1 d2 → same_creds d2 d3 → same_creds d1 d3.
Proof. unfold same_creds. intuition congruence. Qed.
Lemma same_live_row d d' k i : same_creds d d' → live_row d' k i = live_row d k i.
Proof. intros (H1 & _ & H2 & _). unfold live_row. by rewrite H1, H2. Qed.
Lemma same_wf d d' : same_creds d d' → creds_wf d → creds_wf d'.
Proof. intros (H1 & H2 & H3 & H4) [W1 W2]. split; [by rewrite H1, H2|by rewrite H3, H4]. Qed.
Lemma same_keeps_live d d' : same_creds d d' → keeps_live d d'.
Proof.
  intros Hs Hw. split; [by eapply same_wf|]. intros k i c. by rewrite (same_live_row d d').
Qed.
Lemma keeps_live_trans d1 d2 d3 : keeps_live d1 d2 → keeps_live d2 d3 → keeps_live d1 d3.
Proof. intros H1 H2 Hw. destruct (H1 Hw) as [W2 L2]. destruct (H2 W2) as [W3 L3]. split; eauto. Qed.

(** ** Statements on credentials *)

Definition st_live {A} (st : stmt A) : Prop := ∀ t d, keeps_live d (st t d).2.
Definition st_same {A} (st : stmt A) : Prop := ∀ t d, same_creds d (st t d).2.
Definition tx_live {A E} (body : Z → Db → result (A * Db) E) : Prop :=
  ∀ t d a d', body t d = Ok (a, d') → keeps_live d d'.

Lemma st_same_live {A} (st : stmt A) : st_same st → st_live st.
Proof. intros H t d. apply same_keeps_live, H. Qed.

Lemma st_live_as_stmt {A} (f : Z → Db → result (A * Db) SqlError) : tx_live f → st_live (as_stmt f).
Proof.
  intros Hf t d. unfold as_stmt. destruct (f t d) as [[a d']|e] eqn:E; simpl; [by eapply Hf|].
  by apply same_keeps_live.
Qed.

(** Rewriting rows of a table without touching what [live_row] reads. *)
Lemma keeps_live_keys d (rows : gmap Z ApiKey) :
  (∀ i (r : ApiKey), rows !! i = Some r →
     ∃ r' : ApiKey, t_api_keys d !! i = Some r' ∧ ak_row r = ak_row r') →
  (∀ i (r' : ApiKey), t_api_keys d !! i = Some r' → ∃ r : ApiKey, rows !! i = Some r ∧ ak_row r = ak_row r') →
  keeps_live d (set_api_keys rows d).
Proof.
  intros H1 H2 [Hk Hr]. split.
  - split; [|done]. simpl. intros i r (r' & Hr' & E)%H1. rewrite E. by apply Hk.
  - intros [] i c; [|done]. unfold live_row. simpl. destruct (t_api_keys d !! i) as [r'|] eqn:E; [|done].
    destruct (H2 _ _ E) as (r & -> & ->). done.
Qed.

Lemma keeps_live_new_key d (r : ApiKey) :
  ak_id r = t_next_api_key_id d →
  keeps_live d (set_next_api_key_id (t_next_api_key_id d + 1)
                  (set_api_keys (<[t_next_api_key_id d := r]> (t_api_keys d)) d)).
Proof.
  intros Hi [Hk Hr]. split.
  - split; [|done]. simpl. intros i r' [[<- <-]|[_ E]]%lookup_insert_Some; [lia|].
    apply Hk in E as [? ?]. lia.
  - intros [] i c; [|done]. unfold live_row. simpl. destruct (t_api_keys d !! i) as [r'|] eqn:E; [|done].
    rewrite lookup_insert_ne; [by rewrite E|]. apply Hk in E. lia.
Qed.

Lemma insert_key_live name o h p : tx_live (insert_api_key_row name o h p).
Proof.
  intros t d a d'. unfold insert_api_key_row. repeat case_match; try done. intros [= <- <-].
  by apply keeps_live_new_key.
Qed.

Lemma mark_key_live i : st_live (mark_api_key_used i).
Proof.
  intros t d. apply keeps_live_keys; simpl.
  - intros j r. rewrite lookup_fmap. intros (r' & -> & ->)%fmap_Some. eexists. split; [done|].
    by destruct (_ && _).
  - intros j r' Hr. rewrite lookup_fmap, Hr. simpl. eexists. split; [done|]. by destruct (_ && _).
Qed.

Lemma keeps_live_tokens d rows :
  (∀ i r, rows !! i = Some r → rt_id r = i ∧ (i < t_next_robot_token_id d)%Z) →
  (∀ i r', t_robot_tokens d !! i = Some r' → rt_revoked r' = false → ∃ r, rows !! i = Some r ∧
     rt_revoked r = false ∧ rt_id r = rt_id r' ∧ rt_token_hash r = rt_token_hash r' ∧
     rt_token_prefix r = rt_token_prefix r' ∧ rt_robot_email r = rt_robot_email r' ∧
     rt_expires_at r = rt_expires_at r') →
  keeps_live d (set_robot_tokens rows d).
Proof.
  intros H1 H2 [Hk Hr]. split; [by split|].
  intros [] i c; [done|]. unfold live_row. simpl.
  destruct (t_robot_tokens d !! i) as [r'|] eqn:E; [|done].
  destruct (rt_revoked r') eqn:Hv; [done|].
  destruct (H2 _ _ E Hv) as (r & -> & -> & -> & -> & -> & -> & ->). done.
Qed.

Lemma mark_robot_token_live i : st_live (mark_robot_token_used i).
Proof.
  intros t d [Hk Hr]. apply keeps_live_tokens; simpl; [..|by split].
  - intros j r. rewrite lookup_fmap. intros (r' & Hj & ->)%fmap_Some. apply Hr in Hj. by case_match.
  - intros j r' E Hv. rewrite lookup_fmap, E. simpl. eexists. split; [done|]. by case_match.
Qed.

Lemma insert_robot_token_live email h p e t d d' :
  insert_robot_token email h p e t d = Ok d' → keeps_live d d'.
Proof.
  unfold insert_robot_token. repeat case_match; try done. intros [= <-] [Hk Hr]. split.
  - split; [done|]. simpl. intros i r' [[<- <-]|[_ E]]%lookup_insert_Some; [split; [done|lia]|].
    apply Hr in E as [? ?]. lia.
  - intros [] i c; [done|]. unfold live_row. simpl.
    destruct (t_robot_tokens d !! i) as [r'|] eqn:E; [|done].
    rewrite lookup_insert_ne; [by rewrite E|]. apply Hr in E. lia.
Qed.

(** ** The invariant of the cache *)

(** Only live rows that [P] describes are lost. *)
Definition keeps_live_but (P : CachedToken → Prop) (d d' : Db) : Prop :=
  creds_wf d → creds_wf d' ∧
  ∀ k i c, live_row d k i = Some c → ¬ P (entry_of k c) → live_row d' k i = Some c.

Definition no_exception : CachedToken → Prop := λ _, False.
Definition owned_by (o : string) : CachedToken → Prop := λ e, tok_owner_email e = o.
Definition prefixed_by (p : string) : CachedToken → Prop := λ e, tok_prefix e = p.

Section Invariant.
Context `{HEnv : Env} `{HLru : LruCrate} `{HTok : TokenCrates}.

(** Every cached token, those of [P] apart, was computed from a live row and the
    text it is stored under. *)
Record cached_live (P : CachedToken → Prop) (s : AppState) : Prop := mkCachedLive {
  cl_faults : faults s = [];
  cl_wf : creds_wf (pool s);
  cl_indexed : cache_indexed (token_cache s);
  cl_live : ∀ h e, cached (token_cache s) h = Some e → ¬ P e →
    ∃ raw, digest raw = h ∧ live (pool s) e raw
}.

Definition sound : AppState → Prop := cached_live no_exception.

(** The cache has no token of the owner. *)
Definition no_owner (o : string) (s : AppState) : Prop :=
  ∀ h e, cached (token_cache s) h = Some e → tok_owner_email e ≠ o.

Lemma live_mono P d d' e raw :
  keeps_live_but P d d' → creds_wf d → ¬ P e → live d e raw → live d' e raw.
Proof.
  intros Hk Hw HP (c & Hc & He & Ha). exists c. split_and!; [|done..].
  apply Hk; [done..|]. by rewrite <- He.
Qed.

Lemma keeps_live_any P d d' : keeps_live d d' → keeps_live_but P d d'.
Proof. intros H Hw. destruct (H Hw) as [? Hl]. split; [done|]. eauto. Qed.

(** A step of the database that leaves the cache alone. *)
Lemma cached_live_step P s s' :
  faults s' = [] → token_cache s' = token_cache s → keeps_live_but P (pool s) (pool s') →
  sound s → cached_live P s'.
Proof.
  intros Hf Hc Hk [_ Hw Hi Hl]. split; [done|by apply Hk|by rewrite Hc|].
  intros h e He HP. rewrite Hc in He. destruct (Hl h e He) as (raw & Hr & Hlive); [intros []|].
  exists raw. split; [done|]. by eapply live_mono.
Qed.

Lemma exec_stmt_cache {A} (st : stmt A) s :
  faults s = [] →
  faults (exec_stmt st s).2 = [] ∧ token_cache (exec_stmt st s).2 = token_cache s ∧
  pool (exec_stmt st s).2 = (st (clock s) (pool s)).2.
Proof. intros Hf. by rewrite exec_stmt_no_fault. Qed.

Lemma triple_query_but {A} P (st : stmt A) :
  (∀ t d, keeps_live_but P d (st t d).2) → triple sound (query st) (λ _, cached_live P).
Proof.
  intros Hst s Hs. rewrite run_query.
  destruct (exec_stmt_cache st s (cl_faults _ _ Hs)) as (H1 & H2 & H3).
  eapply cached_live_step; [done|done| |exact Hs]. rewrite H3. apply Hst.
Qed.

Lemma query_tx_cases {A E} (from : SqlError → E) (body : Z → Db → result (A * Db) E) s :
  faults s = [] →
  match body (clock s) (pool s) with
  | Ok (a, d) => run (query_tx from body) s = (Ok a, upd_pool d s)
  | Err e => run (query_tx from body) s = (Err e, s)
  end.
Proof.
  intros Hf. unfold query_tx. rewrite run_atomic. unfold next_fault. rewrite Hf.
  by destruct (body (clock s) (pool s)) as [[a d]|e].
Qed.

(** A transaction that fails changes nothing. *)
Lemma triple_tx_but {A E} (P : A → CachedToken → Prop) (from : SqlError → E)
    (body : Z → Db → result (A * Db) E) :
  (∀ t d a d', body t d = Ok (a, d') → keeps_live_but (P a) d d') →
  triple sound (query_tx from body)
    (λ r s, match r with Ok a => cached_live (P a) s | Err _ => sound s end).
Proof.
  intros Hb s Hs. pose proof (query_tx_cases from body s (cl_faults _ _ Hs)) as Hc.
  destruct (body (clock s) (pool s)) as [[a d]|e] eqn:Hd; rewrite Hc; simpl; [|done].
  apply (cached_live_step (P a) s); [apply (cl_faults _ _ Hs)|done| |done]. by eapply Hb.
Qed.

(** A step that changes neither the tables of credentials nor the cache. *)
Lemma cached_live_frame P s s' :
  faults s' = [] → token_cache s' = token_cache s → keeps_live (pool s) (pool s') →
  cached_live P s → cached_live P s'.
Proof.
  intros Hf Hc Hk [_ Hw Hi Hl]. split; [done|by apply Hk|by rewrite Hc|].
  intros h e He HP. rewrite Hc in He. destruct (Hl h e He HP) as (raw & Hr & Hlive).
  exists raw. split; [done|]. by eapply (live_mono no_exception), Hlive; [apply keeps_live_any| |intros []].
Qed.

Lemma keeps_query {A} P (st : stmt A) : st_live st → keeps (cached_live P) (query st).
Proof.
  intros Hst s Hs. rewrite run_query.
  destruct (exec_stmt_cache st s (cl_faults _ _ Hs)) as (H1 & H2 & H3).
  eapply cached_live_frame; [done|done| |exact Hs]. rewrite H3. apply Hst.
Qed.

Lemma keeps_query_same {A} P (st : stmt A) : st_same st → keeps (cached_live P) (query st).
Proof. intros H. by apply keeps_query, st_same_live. Qed.

Lemma keeps_read {A} P (st : stmt A) : reads st → keeps (cached_live P) (query st).
Proof. intros H. apply keeps_query_same. intros t d. by rewrite H. Qed.

Lemma keeps_tx {A E} (from : SqlError → E) (body : Z → Db → result (A * Db) E) :
  tx_live body → keeps sound (query_tx from body).
Proof.
  intros Hb. eapply triple_conseq; [|done|].
  - apply (triple_tx_but (λ _, no_exception)). intros t d a d' Hd. by eapply keeps_live_any, Hb.
  - by intros [] s.
Qed.

(** ** Purges *)

Lemma triple_purge_owner o :
  triple (cached_live (owned_by o)) (purge_owner o) (λ _ s, sound s ∧ no_owner o s).
Proof.
  intros s [Hf Hw Hi Hl]. unfold purge_owner, with_cache. rewrite run_atomic. simpl.
  pose proof (λ h e, remove_by_owner_cached o (token_cache s) h e Hi) as Hr.
  split; [split|]; simpl; [done|done|by apply remove_by_owner_indexed| |].
  - intros h e [He Ho]%Hr _. by apply Hl.
  - intros h e [He Ho]%Hr. done.
Qed.

Lemma triple_purge_prefix p :
  triple (cached_live (prefixed_by p)) (purge_prefix p) (λ _, sound).
Proof.
  intros s [Hf Hw Hi Hl]. unfold purge_prefix, with_cache. rewrite run_atomic. simpl.
  pose proof (λ h e, remove_by_prefix_cached p (token_cache s) h e Hi) as Hr.
  split; simpl; [done|done|by apply remove_by_prefix_indexed|].
  intros h e [He Ho]%Hr _. by apply Hl.
Qed.

Lemma cached_live_weaken (P Q : CachedToken → Prop) s :
  (∀ e, P e → Q e) → cached_live P s → cached_live Q s.
Proof. intros H [Hf Hw Hi Hl]. split; [done..|]. intros h e He HQ. apply Hl; [done|]. auto. Qed.

Lemma sound_weaken P s : sound s → cached_live P s.
Proof. by apply cached_live_weaken. Qed.

Lemma no_owner_sound o s : cached_live (owned_by o) s → no_owner o s → sound s.
Proof. intros [Hf Hw Hi Hl] Hn. split; [done..|]. intros h e He _. by eapply Hl, Hn. Qed.

Lemma keeps_purge_owner o : keeps sound (purge_owner o).
Proof.
  eapply triple_conseq; [apply triple_purge_owner|apply sound_weaken|]. by intros ? s [? ?].
Qed.

Lemma keeps_purge_prefix p : keeps sound (purge_prefix p).
Proof. eapply triple_conseq; [apply triple_purge_prefix|apply sound_weaken|done]. Qed.

(** ** Programs that touch no credential *)

Definition quiet {A} (m : async A) : Prop := ∀ P, preserves (cached_live P) m.

Lemma quiet_atomic {R} (act : AppState → R * AppState) :
  (∀ s, faults s = [] → faults (act s).2 = [] ∧ token_cache (act s).2 = token_cache s ∧
                        same_creds (pool s) (pool (act s).2)) → quiet (atomic act).
Proof.
  intros Ha P. apply preserves_atomic. intros s Hs. destruct (Ha s (cl_faults _ _ Hs)) as (H1 & H2 & H3).
  by eapply cached_live_frame, Hs; [| |apply same_keeps_live].
Qed.

Lemma quiet_bind {A B} (m : async A) (f : A → async B) :
  quiet m → (∀ a, quiet (f a)) → quiet (bind m f).
Proof. intros Hm Hf P. apply preserves_bind; [apply Hm|intros a; apply Hf]. Qed.

Lemma quiet_ret {A} (a : A) : quiet (Ret a).
Proof. intros P. apply preserves_ret. Qed.

Lemma quiet_for_each {A} (l : list A) (f : A → async unit) : (∀ x, quiet (f x)) → quiet (for_each l f).
Proof. intros Hf P. apply preserves_for_each. intros x. apply Hf. Qed.

Lemma quiet_query {A} (st : stmt A) : st_same st → quiet (query st).
Proof.
  intros Hst. apply quiet_atomic. intros s Hf. destruct (exec_stmt_cache st s Hf) as (-> & -> & ->).
  split_and!; [done..|]. apply Hst.
Qed.

Lemma quiet_read {A} (st : stmt A) : reads st → quiet (query st).
Proof. intros Hst. apply quiet_query. intros t d. by rewrite Hst. Qed.

Lemma quiet_with_queue {A} (f : BuildQueue → A * BuildQueue) : quiet (with_queue f).
Proof. apply quiet_atomic. intros s Hf. by destruct (f (queue s)). Qed.

Lemma quiet_frame {R} (act : AppState → R * AppState) :
  (∀ s, faults (act s).2 = faults s ∧ token_cache (act s).2 = token_cache s ∧
        pool (act s).2 = pool s) → quiet (atomic act).
Proof. intros Ha. apply quiet_atomic. intros s Hf. by destruct (Ha s) as (-> & -> & ->). Qed.

Lemma quiet_io {A} (f : AppState → A * AppState) :
  (∀ s, faults (f s).2 = faults s ∧ token_cache (f s).2 = token_cache s ∧ pool (f s).2 = pool s) →
  quiet (io f).
Proof.
  intros Ha. apply quiet_atomic. intros s Hf. unfold next_fault. rewrite Hf.
  destruct (Ha s) as (H1 & H2 & H3). destruct (f s) as [a s']. simpl in *. by rewrite H1, H2, H3.
Qed.

Lemma keeps_quiet {A} P (m : async A) : quiet m → keeps (cached_live P) m.
Proof. intros Hm. apply preserves_keeps, Hm. Qed.

End Invariant.

Create HintDb quiet.
#[export] Hint Extern 1 (reads _) => (intros ? ?; reflexivity) : quiet.

(** A statement that does not mention the tables of credentials. *)
Ltac same_tac :=
  intros ? ?; repeat case_match; simplify_eq/=; done.

(** Structural rules, applied as long as they fit. *)
Ltac quiet_tac :=
  repeat (intros; first
    [ apply quiet_ret
    | apply quiet_with_queue
    | solve [eauto 2 with quiet]
    | solve [apply quiet_read; intros ? ?; reflexivity]
    | apply quiet_bind
    | apply quiet_for_each
    | case_match ]).

Section BuildPrograms.
Context `{HEnv : Env} `{HLru : LruCrate} `{HTok : TokenCrates} `{HHash : HashIter} `{HSerde : Serde}.

Lemma same_update_build i f : ∀ d, same_creds d (update_build i f d).2.
Proof. intros d. unfold update_build. by case_match. Qed.

Lemma quiet_update i (st : stmt bool) :
  (∀ t, ∃ f, ∀ d, st t d = update_build i f d) → quiet (query st).
Proof. intros Hst. apply quiet_query. intros t d. destruct (Hst t) as [f ->]. apply same_update_build. Qed.

Lemma quiet_log (st : stmt unit) :
  (∀ t, ∃ i f, ∀ d, st t d = (Ok (), update_log i f d)) → quiet (query st).
Proof.
  intros Hst. apply quiet_query. intros t d. destruct (Hst t) as (i & f & ->). simpl.
  unfold update_log. by case_match.
Qed.

Lemma quiet_cancel t : quiet (cancel t).
Proof. by apply quiet_frame. Qed.
Lemma quiet_now : quiet now.
Proof. by apply quiet_frame. Qed.
Lemma quiet_remove_watcher i : quiet (remove_watcher i).
Proof. by apply quiet_frame. Qed.
Lemma quiet_remove_sender c : quiet (remove_sender c).
Proof. by apply quiet_frame. Qed.
Lemma quiet_spawn t : quiet (spawn t).
Proof. by apply quiet_frame. Qed.
Hint Resolve quiet_cancel quiet_now quiet_remove_watcher quiet_remove_sender quiet_spawn : quiet.

Lemma quiet_cleanup i t r : quiet (cleanup_terminal_state i t r).
Proof.
  unfold cleanup_terminal_state, modify_queue. apply quiet_bind.
  { apply (quiet_update i). intros t0. by eexists. }
  intros _. apply quiet_bind; [|quiet_tac]. apply quiet_log. intros t0. by do 2 eexists.
Qed.

Lemma quiet_rollback i : quiet (rollback_active_to_queued i).
Proof.
  unfold rollback_active_to_queued, modify_queue. apply quiet_bind; [quiet_tac|]. intros [ab|]; [|quiet_tac].
  apply quiet_bind; [quiet_tac|]. intros _. apply quiet_bind; [|quiet_tac].
  apply (quiet_update i). intros t0. by eexists.
Qed.
Hint Resolve quiet_cleanup quiet_rollback : quiet.

Lemma quiet_dispatch : quiet (atomic dispatch_under_lock).
Proof.
  apply quiet_atomic. intros s Hf. unfold dispatch_under_lock.
  destruct (next_pending (queue s)) as [[b|] q']; [|done].
  destruct (find_worker _ q') as [[cid w]|]; [|done]. simpl.
  set (st := set_build_dispatched _ _ _).
  destruct (exec_stmt_cache st (upd_next_handle (S (next_handle s)) (upd_queue q' s)) Hf) as (H1 & H2 & H3).
  pose proof (same_update_build (build_id_0 (qb_build_id b)) (λ r, update_row r Dispatched (Some w)
    (Some (uuid_v4 (next_handle s))) (br_error r) (br_started_at r) (br_finished_at r)
    (br_build_report r)) (pool s)) as H4.
  destruct (exec_stmt st _) as [[ok|e] s2]; simpl in *; rewrite H1, H2, H3; done.
Qed.

Lemma send_frames_frame cid fs s :
  let s' := (send_frames cid fs s).2 in
  faults s' = faults s ∧ token_cache s' = token_cache s ∧ pool s' = pool s.
Proof.
  unfold send_frames. destruct (worker_senders s !! cid) as [tx|]; [|done].
  assert (∀ (acc : result () DispatchError * AppState) f, let s' := (match acc with
    | (Ok _, s) => match chan_send tx f s with
                   | (true, s) => (Ok (), s)
                   | (false, s) => (Err (Send "channel closed"), s)
                   end
    | (Err e, s) => (Err e, s) end).2 in
    faults s' = faults acc.2 ∧ token_cache s' = token_cache acc.2 ∧ pool s' = pool acc.2) as Hstep.
  { intros [[] s0] f; [|done]. unfold chan_send. by repeat case_match; simplify_eq/=. }
  apply (foldl_ind (λ acc, faults acc.2 = faults s ∧ token_cache acc.2 = token_cache s ∧
                           pool acc.2 = pool s)); [done|].
  intros acc f (H1 & H2 & H3). destruct (Hstep acc f) as (-> & -> & ->). done.
Qed.

Lemma quiet_try_dispatch : quiet try_dispatch.
Proof.
  unfold try_dispatch, pack_for, pack_components, send_and_recover, handle_dispatch_send_failure,
    spawn_ack_timer, read_queue.
  apply quiet_bind; [apply quiet_dispatch|]. intros [info|e]; [|quiet_tac].
  apply quiet_bind; [case_match; [quiet_tac|by apply quiet_io]|].
  intros [[bytes h]|e]; [|quiet_tac].
  apply quiet_bind; [|quiet_tac]. apply quiet_bind; [|quiet_tac].
  apply quiet_frame. apply send_frames_frame.
Qed.
Hint Resolve quiet_try_dispatch : quiet.

Lemma quiet_worker_dead cid : quiet (handle_worker_dead cid).
Proof. unfold handle_worker_dead, resolve_dead_build, read_queue, modify_queue. quiet_tac. Qed.

Lemma quiet_force_disconnect w : quiet (force_disconnect_worker w).
Proof. unfold force_disconnect_worker. pose proof quiet_worker_dead. quiet_tac. Qed.
End BuildPrograms.
#[export] Hint Resolve quiet_force_disconnect quiet_now : quiet.

(** ** Verification of a token *)

Section Verification.
Context `{HEnv : Env} `{HLru : LruCrate} `{HTok : TokenCrates}.

Definition fetch_of (k : TokenKind) : string → async (result (list CandidateRow) SqlError) :=
  match k with ApiKeyToken => fetch_api_keys | RobotToken => fetch_robot_tokens end.

Lemma rows_where_lookup {V} (p : V → bool) (m : gmap Z V) x :
  x ∈ rows_where p m → ∃ i, m !! i = Some x ∧ p x = true.
Proof.
  unfold rows_where. intros ([i y] & -> & [Hp Hin]%list_elem_of_filter)%list_elem_of_fmap.
  exists i. split; [|done]. apply elem_of_map_to_list. by rewrite merge_sort_Permutation in Hin.
Qed.

Lemma live_row_key d i (k : ApiKey) :
  t_api_keys d !! i = Some k → ak_revoked k = false →
  live_row d ApiKeyToken i = Some (candidate_of_key k).
Proof. intros Hk Hr. unfold live_row. by rewrite Hk, Hr. Qed.

(** Fetched candidates are live rows, and fetching changes nothing. *)
Lemma fetch_run k p s :
  faults s = [] → creds_wf (pool s) →
  ∃ cs, run (fetch_of k p) s = (Ok cs, s) ∧
        ∀ c, c ∈ cs → live_row (pool s) k (cr_id c) = Some c.
Proof.
  intros Hf [Wk Wr]. destruct k; simpl.
  - unfold fetch_api_keys. rewrite run_or_fail, run_read by done. simpl. eexists. split; [done|].
    intros c (r & -> & Hr)%list_elem_of_fmap. apply list_elem_of_fmap in Hr as (k & -> & Hk).
    apply rows_where_lookup in Hk as (i & Hi & [_ Hv%negb_true_iff]%andb_true_iff).
    simpl. destruct (Wk _ _ Hi) as [-> _]. by apply live_row_key.
  - unfold fetch_robot_tokens. rewrite run_or_fail, run_read by done. simpl. eexists. split; [done|].
    intros c (r & -> & Hr)%list_elem_of_fmap. apply list_elem_of_fmap in Hr as (k & -> & Hk).
    apply rows_where_lookup in Hk as (i & Hi & [_ Hv%negb_true_iff]%andb_true_iff).
    simpl. destruct (Wr _ _ Hi) as [-> _]. rewrite Hi, Hv. unfold candidate_of_robot. simpl.
    by destruct (Wr _ _ Hi) as [-> _].
Qed.

Lemma sound_insert s h e raw :
  sound s → digest raw = h → live (pool s) e raw →
  sound (upd_token_cache (cache_insert h e (token_cache s)) s).
Proof.
  intros [Hf Hw Hi Hl] Hd Hlive. split; simpl; [done|done|by apply insert_indexed|].
  intros h' e' He' _. rewrite cached_insert in He'. case_bool_decide as E.
  - simplify_eq. by exists raw.
  - apply Hl; [|intros []]. destruct (lru_push _ _ _).1 as [[k v]|]; [by case_bool_decide|done].
Qed.

Lemma sound_get s h :
  sound s → sound (upd_token_cache (cache_get h (token_cache s)).2 s).
Proof.
  intros [Hf Hw Hi Hl]. split; simpl; [done|done|by apply get_indexed|].
  intros h' e He _. destruct (cached_get h (token_cache s) h') as [Hc _]. rewrite Hc in He.
  apply Hl; [done|intros []].
Qed.

(** What a successful verification of [raw] in the state [s] means. *)
Definition verified (s : AppState) (raw : string) (r : result CachedToken TokenError) : Prop :=
  ∀ e, r = Ok e → ∃ raw', digest raw' = digest raw ∧ live (pool s) e raw' ∧
    is_expired (tok_expires_at e) (clock s) = false.

Lemma verify_run k raw s :
  sound s →
  let '(r, s') := run (verify_hashed_token k raw (fetch_of k)) s in
  sound s' ∧ pool s' = pool s ∧ clock s' = clock s ∧ verified s raw r.
Proof.
  intros Hs. unfold verify_hashed_token. destruct (negb _ || negb _); [by split_and!|].
  rewrite run_bind. unfold cache_lookup. rewrite run_atomic. cbv beta zeta.
  pose proof (sound_get s (digest raw) Hs) as Hg.
  pose proof (proj2 (cached_get (digest raw) (token_cache s) (digest raw))) as Hhit.
  destruct (cache_get (digest raw) (token_cache s)) as [hit c]. simpl in Hg, Hhit |- *.
  set (s1 := upd_token_cache c s) in *. destruct hit as [e|].
  { rewrite run_ret. split_and!; [done..|]. intros e' He'. destruct (is_expired _ _) eqn:Hx; [done|].
    injection He' as <-. destruct (cl_live _ _ Hs (digest raw) e) as (raw' & ? & ?); [done|intros []|].
    by exists raw'. }
  destruct (fetch_run k (String.substring (String.length (kind_prefix k)) 12 raw) s1)
    as (cs & Hrun & Hcs); [apply Hg..|].
  rewrite run_or_fail, Hrun. simpl. destruct cs as [|c0 cs]; [by split_and!|].
  rewrite run_or_fail. unfold io. rewrite run_atomic. unfold next_fault. rewrite (cl_faults _ _ Hg).
  cbn [fst snd]. destruct (find_first (λ c, argon2_check raw (cr_hash c)) (c0 :: cs)) as [cand|] eqn:Hfind;
    [|by split_and!].
  apply find_first_Some in Hfind as [Hin Ha].
  rewrite run_bind. unfold now. rewrite run_atomic. simpl.
  destruct (is_expired (cr_expires_at cand) (clock s)) eqn:Hx; [by split_and!|].
  rewrite run_bind. unfold with_cache. rewrite run_atomic. simpl.
  assert (live (pool s) (entry_of k cand) raw) as Hlive.
  { exists cand. split_and!; [by apply (Hcs cand)|done|done]. }
  split_and!; [|done..|].
  - by apply (sound_insert s1 (digest raw) (entry_of k cand) raw).
  - intros e [= <-]. by exists raw.
Qed.

Lemma keeps_verify k raw : keeps sound (verify_hashed_token k raw (fetch_of k)).
Proof. intros s Hs. pose proof (verify_run k raw s Hs) as Hv. by destruct (run _ s) as [r s']; destruct Hv. Qed.

End Verification.

(** ** Requests *)

Create HintDb keep.

Ltac keep :=
  repeat (intros; first
    [ apply keeps_ret
    | solve [eauto 2 with keep]
    | solve [apply keeps_read; intros ? ?; reflexivity]
    | apply keeps_bind
    | apply keeps_or_fail
    | case_match ]).

(** What a request about credentials asks for. *)
Inductive Request :=
| Authenticate (bearer : option string) (session : SessionRead)
| ConnectWorker (authorization : option string)
| Callback (params : CallbackQuery) (ses : Session)
| CreateApiKey (user : AuthUser) (name : string)
| RevokeApiKey (user : AuthUser) (prefix : string)
| RevokeToken (user : AuthUser) (authorization : option string)
| RevokeAllTokens (user : AuthUser) (email : string)
| Logout (ses : Session)
| RegisterWorker (user : AuthUser) (name arch : string)
| DeregisterWorker (user : AuthUser) (worker_id : string)
| RegenerateWorkerToken (user : AuthUser) (worker_id : string)
| DeactivateEntity (user : AuthUser) (email : string)
| ActivateEntity (user : AuthUser) (email : string)
| CreateRobot (user : AuthUser) (body : CreateRobotBody)
| TombstoneRobot (user : AuthUser) (name : string)
| RotateRobotToken (user : AuthUser) (name : string) (expires : ExpiresValue) (renew : bool)
| RevokeRobotToken (user : AuthUser) (name : string).

Section Requests.
Context `{HEnv : Env} `{HLru : LruCrate} `{HTok : TokenCrates} `{HWeb : WebCrates} `{HAdm : AdminCrates}
  `{HHash : HashIter} `{HSerde : Serde} (config : ServerConfig) (oauth_state : OAuthState).

Definition ignore {A} (m : async A) : async unit := do* m in Ret ().

Definition handle_request (r : Request) : async unit :=
  match r with
  | Authenticate bearer session => ignore (from_request_parts config bearer session)
  | ConnectWorker authorization => ignore (ws_upgrade authorization)
  | Callback params ses => ignore (callback config oauth_state params ses)
  | CreateApiKey user name => ignore (create_api_key_handler user name)
  | RevokeApiKey user prefix => ignore (revoke_api_key_handler user prefix)
  | RevokeToken user authorization => ignore (revoke_token_route user authorization)
  | RevokeAllTokens user email => ignore (revoke_all_tokens user email)
  | Logout ses => ignore (logout ses)
  | RegisterWorker user name arch => ignore (register_worker user name arch)
  | DeregisterWorker user worker_id => ignore (deregister_worker user worker_id)
  | RegenerateWorkerToken user worker_id => ignore (regenerate_worker_token user worker_id)
  | DeactivateEntity user email => ignore (deactivate_entity user email)
  | ActivateEntity user email => ignore (activate_entity user email)
  | CreateRobot user body => ignore (create_or_revive_robot user body)
  | TombstoneRobot user name => ignore (tombstone_robot user name)
  | RotateRobotToken user name expires renew => ignore (create_or_rotate_token user name expires renew)
  | RevokeRobotToken user name => ignore (revoke_robot_token user name)
  end.

Lemma keeps_now : keeps sound now.
Proof. by apply keeps_quiet, quiet_now. Qed.

Lemma keeps_alloc : keeps sound (atomic alloc).
Proof. by apply keeps_quiet, quiet_frame. Qed.

Lemma keeps_io {A} (f : AppState → A * AppState) :
  (∀ s, faults (f s).2 = faults s ∧ token_cache (f s).2 = token_cache s ∧ pool (f s).2 = pool s) →
  keeps sound (io f).
Proof. intros Hf. by apply keeps_quiet, quiet_io. Qed.

Lemma keeps_load email : keeps sound (load_authed_user email).
Proof. unfold load_authed_user. keep. Qed.

Lemma same_insert_token e h x : st_same (insert_token e h x).
Proof. intros t d. unfold insert_token. by repeat case_match. Qed.
Lemma same_revoke_token h : st_same (revoke_token h).
Proof. done. Qed.
Lemma same_revoke_tokens e : st_same (revoke_all_for_user e).
Proof. done. Qed.
Lemma same_mark_token h : st_same (mark_token_used h).
Proof. done. Qed.
Lemma same_update_user e f d : same_creds d (update_user e f d).
Proof. unfold update_user. by case_match. Qed.
Lemma same_activate e : st_same (activate_user e).
Proof. intros t d. apply same_update_user. Qed.

Hint Resolve keeps_now keeps_alloc keeps_load keeps_purge_owner keeps_purge_prefix mark_key_live
  mark_robot_token_live : keep.
Hint Resolve keeps_query_same same_insert_token same_revoke_token same_revoke_tokens same_mark_token
  same_activate keeps_query : keep.

Lemma keeps_material k : keeps sound (generate_token_material k).
Proof. unfold generate_token_material. keep. by apply keeps_io. Qed.
Hint Resolve keeps_material : keep.

Lemma keeps_verify_key raw : keeps sound (verify_api_key raw).
Proof. apply (keeps_verify ApiKeyToken). Qed.
Lemma keeps_verify_robot raw : keeps sound (verify_robot_token raw).
Proof. apply (keeps_verify RobotToken). Qed.
Hint Resolve keeps_verify_key keeps_verify_robot : keep.

Lemma keeps_authenticate bearer ses : keeps sound (from_request_parts config bearer ses).
Proof.
  unfold from_request_parts, authenticate_api_key, authenticate_robot_token, validate_paseto, token_decode.
  keep.
Qed.

Lemma keeps_upgrade a : keeps sound (ws_upgrade a).
Proof. unfold ws_upgrade. keep. Qed.

Lemma keeps_create_or_update email name : keeps sound (create_or_update_user email name).
Proof.
  unfold create_or_update_user. keep. apply keeps_query_same. intros t d. unfold upsert_user. by case_match.
Qed.
Hint Resolve keeps_create_or_update : keep.

Lemma keeps_callback params ses : keeps sound (callback config oauth_state params ses).
Proof.
  unfold callback, session_get, session_insert, session_cycle_id, resolve_user_info, token_create.
  keep; by apply keeps_io.
Qed.

(** ** Revocations *)

Lemma update_where_none {K V} `{Countable K} (p : V → bool) (f : V → V) (m : gmap K V) :
  (update_where p f m).1 = 0%Z → (update_where p f m).2 = m.
Proof.
  simpl. intros Hn. apply map_eq. intros i. rewrite lookup_fmap. destruct (m !! i) as [v|] eqn:E; [|done].
  simpl. destruct (p v) eqn:Hp; [|done]. exfalso.
  assert ((i, v) ∈ filter (λ kv : K * V, p kv.2 = true) (map_to_list m)) as Hin.
  { apply list_elem_of_filter. split; [done|]. by apply elem_of_map_to_list. }
  destruct (filter _ _); [set_solver|simpl in Hn; lia].
Qed.

Lemma update_where_count {K V} `{Countable K} (p : V → bool) (f : V → V) (m : gmap K V) :
  (0 ≤ (update_where p f m).1)%Z.
Proof. simpl. lia. Qed.

Lemma revoke_keys_but P (p : ApiKey → bool) d :
  (∀ i (k : ApiKey), t_api_keys d !! i = Some k → ak_id k = i → p k = true →
     P (entry_of ApiKeyToken (candidate_of_key k))) →
  keeps_live_but P d (set_api_keys (update_where p revoked_key (t_api_keys d)).2 d).
Proof.
  intros Hp [Hk Hr]. split.
  - split; [|done]. simpl. intros i r. rewrite lookup_fmap. intros (k & Hi & ->)%fmap_Some.
    apply Hk in Hi. by case_match.
  - intros [] i c; [|done]. unfold live_row. simpl. rewrite lookup_fmap.
    destruct (t_api_keys d !! i) as [k|] eqn:E; [|done]. simpl.
    destruct (ak_revoked k) eqn:Hv; [done|]. intros [= <-] HP.
    destruct (p k) eqn:Hpk; [exfalso; eapply HP, Hp; [done| |done]; by apply Hk|]. by rewrite Hv.
Qed.

Lemma revoke_robot_tokens_but email d :
  keeps_live_but (owned_by email) d (revoke_all_active_tokens_in_conn email d).2.
Proof.
  intros [Hk Hr]. unfold revoke_all_active_tokens_in_conn. simpl. split.
  - split; [done|]. simpl. intros i r. rewrite lookup_fmap. intros (k & Hi & ->)%fmap_Some.
    apply Hr in Hi. by case_match.
  - intros [] i c; [done|]. unfold live_row. simpl. rewrite lookup_fmap.
    destruct (t_robot_tokens d !! i) as [k|] eqn:E; [|done]. simpl.
    destruct (rt_revoked k) eqn:Hv; [done|]. intros [= <-] HP.
    destruct (is_active_token_of email k) eqn:Hpk.
    + exfalso. apply HP. apply andb_true_iff in Hpk as [->%bool_decide_eq_true_1 _]. done.
    + by rewrite Hv.
Qed.

Lemma triple_revoke_by_prefix o p :
  triple sound (query (revoke_api_key_by_prefix o p))
    (λ r s, match r with Ok true => cached_live (prefixed_by p) s | _ => sound s end).
Proof.
  intros s Hs. rewrite run_query, exec_stmt_no_fault by apply Hs. unfold revoke_api_key_by_prefix.
  set (q := λ k : ApiKey, _ && _). pose proof (revoke_keys_but (prefixed_by p) q (pool s)) as Hb.
  pose proof (update_where_count q revoked_key (t_api_keys (pool s))) as Hc.
  pose proof (update_where_none q revoked_key (t_api_keys (pool s))) as Hn.
  destruct (update_where q revoked_key (t_api_keys (pool s))) as [n rows]. simpl in *.
  destruct (Z.ltb_spec 0 n).
  - apply (cached_live_step _ s); [apply Hs|done| |done]. apply Hb. intros i k _ _ Hq. subst q. simpl in Hq.
    apply andb_true_iff in Hq as [[_ Hq%bool_decide_eq_true_1]%andb_true_iff _]. done.
  - rewrite Hn by lia. apply (cached_live_frame no_exception s); [apply Hs|done| |done].
    by apply same_keeps_live.
Qed.

Lemma keeps_revoke_key user prefix : keeps sound (revoke_api_key_handler user prefix).
Proof.
  unfold revoke_api_key_handler. case_match; [apply keeps_ret|].
  eapply triple_or_fail; [apply triple_revoke_by_prefix| |done]. intros [|]; [|apply keeps_ret].
  eapply triple_bind; [apply triple_purge_prefix|]. intros []. apply keeps_ret.
Qed.

(** The key with an id was revoked; its row tells the prefix of what is stale. *)
Definition key_revoked (i : Z) (s : AppState) : Prop :=
  match (t_api_keys (pool s) !! i : option ApiKey) with
  | Some k => cached_live (prefixed_by (ak_key_prefix k)) s
  | None => sound s
  end.

Lemma triple_purge_key i : triple (key_revoked i) (purge_key i) (λ _, sound).
Proof.
  intros s Hs. unfold purge_key. assert (faults s = []) as Hf.
  { unfold key_revoked in Hs. case_match; apply Hs. }
  rewrite run_bind, run_read by done. unfold get_key_prefix_by_id. simpl. unfold key_revoked in Hs.
  destruct (t_api_keys (pool s) !! i) as [k|]; simpl; [|done]. by apply triple_purge_prefix.
Qed.

Lemma revoke_key_row_but d i :
  keeps_live_but (λ e, ∃ k : ApiKey, t_api_keys d !! i = Some k ∧ tok_prefix e = ak_key_prefix k)
    d (revoke_key_row i d).2.
Proof.
  unfold revoke_key_row. simpl. apply revoke_keys_but. intros j k Hj Hi Hp. exists k.
  apply andb_true_iff in Hp as [Hp%bool_decide_eq_true_1 _]. by subst.
Qed.

Lemma revoke_key_row_prefix d i (k : ApiKey) :
  t_api_keys (revoke_key_row i d).2 !! i = Some k →
  ∃ k0 : ApiKey, t_api_keys d !! i = Some k0 ∧ ak_key_prefix k = ak_key_prefix k0.
Proof.
  unfold revoke_key_row. simpl. rewrite lookup_fmap. intros (k0 & Hk & ->)%fmap_Some.
  exists k0. split; [done|]. by case_match.
Qed.

(** A transaction that ends with revoking the key [i]. *)
Lemma triple_tx_revoke {E} (from : SqlError → E) (body : Z → Db → result (unit * Db) E) i :
  (∀ t d d', body t d = Ok ((), d') → ∃ d1 d2, keeps_live d d1 ∧ d2 = (revoke_key_row i d1).2 ∧
     same_creds d2 d') →
  triple sound (query_tx from body)
    (λ r s, match r with Ok _ => key_revoked i s | Err _ => sound s end).
Proof.
  intros Hb s Hs. pose proof (query_tx_cases from body s (cl_faults _ _ Hs)) as Hc.
  destruct (body (clock s) (pool s)) as [[[] d]|e] eqn:Hd; rewrite Hc; simpl; [|done].
  apply Hb in Hd as (d1 & d2 & Hk & -> & Hsame). pose proof Hs as [Hf Hw Hi Hl].
  assert (creds_wf d) as Hw'.
  { eapply same_wf; [exact Hsame|]. apply revoke_key_row_but. by apply Hk. }
  unfold key_revoked. simpl. destruct (t_api_keys d !! i) as [k|] eqn:Hi'.
  - apply (cached_live_step _ s); [done..| |done]. simpl. intros _. split; [done|].
    intros k' j c Hj HP. rewrite (same_live_row _ _ _ _ Hsame).
    rewrite (proj1 Hsame) in Hi'. apply revoke_key_row_prefix in Hi' as (k0 & Hk0 & Hpre).
    apply (revoke_key_row_but d1 i); [by apply Hk|by apply Hk|].
    intros (k1 & Hk1 & Hp1). apply HP. unfold prefixed_by. rewrite Hp1. congruence.
  - apply (cached_live_step _ s); [done..| |done]. simpl. intros _. split; [done|].
    intros k' j c Hj _. rewrite (same_live_row _ _ _ _ Hsame).
    apply (revoke_key_row_but d1 i); [by apply Hk|by apply Hk|].
    intros (k1 & Hk1 & _). rewrite (proj1 Hsame) in Hi'. unfold revoke_key_row in Hi'. simpl in Hi'.
    rewrite lookup_fmap, Hk1 in Hi'. done.
Qed.

Lemma same_insert_worker id name arch k o t d d' :
  insert_worker id name arch k o t d = Ok d' → same_creds d d'.
Proof. unfold insert_worker. repeat case_match; try done. by intros [= <-]. Qed.

Lemma keeps_register user name arch : keeps sound (register_worker user name arch).
Proof.
  unfold register_worker, require_cap. case_match; [|apply keeps_ret]. case_match; [apply keeps_ret|].
  case_match; [apply keeps_ret|]. apply keeps_bind; [apply keeps_alloc|intros n].
  apply keeps_or_fail; [apply keeps_material|]. intros [[key prefix] hash].
  apply keeps_or_fail; [|keep]. apply keeps_tx. intros t d [] d'. unfold register_tx, insert_api_key_in_tx.
  destruct (insert_api_key_row _ _ _ _ t d) as [[i d1]|] eqn:E1; [|done].
  destruct (insert_worker _ _ _ _ _ t d1) as [d2|] eqn:E2; [|done]. intros [= <-].
  eapply keeps_live_trans; [by eapply insert_key_live|]. apply same_keeps_live.
  by eapply same_insert_worker.
Qed.

Lemma keeps_found {A} missing (st : stmt (option A)) : reads st → keeps sound (found missing st).
Proof. intros Hr. unfold found. apply keeps_or_fail; [by apply keeps_read|]. keep. Qed.

Lemma deregister_shape i w t d d' :
  deregister_tx i w t d = Ok ((), d') →
  ∃ d1 d2, keeps_live d d1 ∧ d2 = (revoke_key_row i d1).2 ∧ same_creds d2 d'.
Proof.
  unfold deregister_tx. destruct (revoke_key_row i d) as [n d2] eqn:Hn. intros [= <-].
  exists d, d2. split; [by apply same_keeps_live|]. by rewrite Hn.
Qed.

Lemma keeps_deregister user w : keeps sound (deregister_worker user w).
Proof.
  unfold deregister_worker, require_cap. case_match; [|apply keeps_ret].
  apply keeps_or_fail; [by apply keeps_found|]. intros row.
  eapply triple_or_fail; [apply (triple_tx_revoke _ _ (wr_api_key_id row))| |done].
  - intros t d d' Hd. eapply deregister_shape, Hd.
  - intros []. eapply triple_bind; [apply triple_purge_key|]. intros [].
    apply keeps_bind; [apply keeps_quiet, quiet_force_disconnect|keep].
Qed.

Lemma same_update_api_key i k d d' : update_api_key_id i k d = Ok d' → same_creds d d'.
Proof. unfold update_api_key_id. repeat case_match; try done; by intros [= <-]. Qed.

Lemma keeps_regenerate user w : keeps sound (regenerate_worker_token user w).
Proof.
  unfold regenerate_worker_token, require_cap. case_match; [|apply keeps_ret].
  apply keeps_or_fail; [by apply keeps_found|]. intros row. cbv zeta.
  apply keeps_or_fail; [apply keeps_material|]. intros [[key prefix] hash].
  eapply triple_or_fail; [apply (triple_tx_revoke _ _ (wr_api_key_id row))| |done].
  - intros t d d'. unfold regenerate_tx, insert_api_key_in_tx.
    destruct (insert_api_key_row _ _ _ _ t d) as [[i d1]|] eqn:E1; [|done].
    destruct (update_api_key_id w i d1) as [d2|] eqn:E2; [|done]. intros [= <-].
    exists d2. eexists. split; [|split; [done|apply same_refl]].
    eapply keeps_live_trans; [by eapply insert_key_live|]. apply same_keeps_live.
    by eapply same_update_api_key.
  - intros []. eapply triple_bind; [apply triple_purge_key|]. intros [].
    apply keeps_bind; [apply keeps_quiet, quiet_force_disconnect|keep].
Qed.

(** ** Entities and robots *)

Lemma keeps_no_owner {A} o (st : stmt A) :
  st_same st → keeps (λ s, sound s ∧ no_owner o s) (query st).
Proof.
  intros Hst s [Hs Hn]. split; [by apply keeps_query_same|]. rewrite run_query.
  destruct (exec_stmt_cache st s (cl_faults _ _ Hs)) as (_ & H2 & _).
  intros h e He. rewrite H2 in He. by eapply Hn.
Qed.

Lemma triple_revoke_keys o :
  triple (λ s, sound s ∧ no_owner o s) (query (revoke_all_api_keys_for_user o)) (λ _, sound).
Proof.
  intros s [Hs Hn]. apply (no_owner_sound o).
  - revert s Hs Hn. cut (triple sound (query (revoke_all_api_keys_for_user o)) (λ _, cached_live (owned_by o))).
    { intros Ht s Hs _. by apply Ht. }
    apply triple_query_but. intros t d. apply revoke_keys_but. intros i k _ _ Hp.
    apply andb_true_iff in Hp as [Hp%bool_decide_eq_true_1 _]. done.
  - intros h e He. rewrite run_query, exec_stmt_no_fault in He by apply Hs. by eapply Hn.
Qed.

Lemma deactivate_same email t d d' : deactivate_tx email t d = Ok ((), d') → same_creds d d'.
Proof. unfold deactivate_tx. case_match; [done|]. intros [= <-]. apply same_update_user. Qed.

Lemma keeps_deactivate user email : keeps sound (deactivate_entity user email).
Proof.
  unfold deactivate_entity, require_cap. cbv zeta. case_match; [|apply keeps_ret].
  apply keeps_or_fail; [by apply keeps_found|]. intros target. case_match; [apply keeps_ret|].
  apply keeps_or_fail.
  { apply keeps_tx. intros t d [] d' Hd. by apply same_keeps_live, (deactivate_same _ _ _ _ Hd). }
  intros []. eapply triple_bind.
  { eapply triple_conseq; [apply triple_purge_owner|apply sound_weaken|done]. }
  intros []. case_match; [apply triple_ret; by intros ? [? ?]|].
  eapply triple_or_fail; [by apply keeps_no_owner| |by intros ? ? [? ?]]. intros n1.
  eapply triple_or_fail; [apply triple_revoke_keys| |done]. intros n2. apply keeps_ret.
Qed.

Lemma keeps_activate user email : keeps sound (activate_entity user email).
Proof.
  unfold activate_entity, require_cap. cbv zeta. case_match; [|apply keeps_ret].
  apply keeps_or_fail; [by apply keeps_found|]. keep.
Qed.

Lemma same_assign_roles email roles d d' :
  insert_all (assign_role email) roles d = Ok d' → same_creds d d'.
Proof.
  revert d. induction roles as [|r roles IH]; intros d; simpl; [by intros [= <-]|].
  destruct (assign_role email r d) as [d1|] eqn:E1; [|done]. intros E2.
  eapply same_trans; [|by eapply IH]. unfold assign_role, insert_user_role in E1.
  repeat case_match; simplify_eq; done.
Qed.

Lemma same_insert_user email u d d' : insert_user_row email u d = Ok d' → same_creds d d'.
Proof. unfold insert_user_row. case_match; [done|]. by intros [= <-]. Qed.

Lemma keeps_live_but_then P d d1 d2 : keeps_live_but P d d1 → keeps_live d1 d2 → keeps_live_but P d d2.
Proof. intros H1 H2 Hw. destruct (H1 Hw) as [W1 L1]. destruct (H2 W1) as [W2 L2]. split; eauto. Qed.

Lemma keeps_live_then_but P d d1 d2 : keeps_live d d1 → keeps_live_but P d1 d2 → keeps_live_but P d d2.
Proof. intros H1 H2 Hw. destruct (H1 Hw) as [W1 L1]. destruct (H2 W1) as [W2 L2]. split; eauto. Qed.

Lemma rotate_but email renew h p e t d o d' :
  rotate_token_inner email renew h p e t d = Ok (o, d') → keeps_live_but (owned_by email) d d'.
Proof.
  unfold rotate_token_inner. destruct (user_row email d) as [u|]; [|done].
  destruct (negb _); [done|]. destruct (negb _); [done|]. destruct (_ && _); [done|].
  pose proof (revoke_robot_tokens_but email d) as Hb.
  destruct (revoke_all_active_tokens_in_conn email d) as [n d1]. simpl in Hb.
  destruct (insert_robot_token _ _ _ _ t d1) as [d2|] eqn:E2; [|done]. intros [= _ <-].
  eapply keeps_live_but_then; [exact Hb|]. by eapply insert_robot_token_live.
Qed.

(** Deleting the tokens of a robot. *)
Lemma delete_tokens_but email d :
  keeps_live_but (owned_by email) d
    (set_robot_tokens (filter (λ kv, rt_robot_email kv.2 ≠ email) (t_robot_tokens d)) d).
Proof.
  intros [Hk Hr]. split.
  - split; [done|]. simpl. intros i r [Hi _]%map_lookup_filter_Some. by apply Hr.
  - intros [] i c; [done|]. unfold live_row. simpl. intros Hl HP.
    destruct (t_robot_tokens d !! i) as [r|] eqn:E; [|done].
    assert (rt_robot_email r ≠ email) as Hne.
    { intros He. apply HP. destruct (rt_revoked r); [done|]. by injection Hl as <-. }
    by rewrite (map_lookup_filter_Some_2 _ _ i r).
Qed.

Lemma create_robot_live name desc x h p roles t d d' :
  create_robot_in_conn name desc x h p roles t d = Ok d' → keeps_live d d'.
Proof.
  unfold create_robot_in_conn. destruct (insert_user_row _ _ d) as [d1|] eqn:E1; [|done].
  destruct (insert_robot_token _ _ _ _ t d1) as [d2|] eqn:E2; [|done]. intros E3.
  eapply keeps_live_trans; [by eapply same_keeps_live, same_insert_user|].
  eapply keeps_live_trans; [by eapply insert_robot_token_live|]. by eapply same_keeps_live, same_assign_roles.
Qed.

Lemma revive_robot_but email name desc x h p roles t d d' :
  revive_robot_in_conn email name desc x h p roles t d = Ok d' → keeps_live_but (owned_by email) d d'.
Proof.
  unfold revive_robot_in_conn. set (d1 := set_user_role_rows _ d). set (d2 := set_robot_tokens _ d1).
  set (d3 := update_user email _ d2). destruct (insert_all _ _ d3) as [d4|] eqn:E; [|done]. intros E2.
  assert (keeps_live_but (owned_by email) d1 d2) as H2 by apply delete_tokens_but.
  assert (same_creds d2 d3) as H3 by apply same_update_user. apply same_assign_roles in E.
  eapply keeps_live_but_then; [|by eapply insert_robot_token_live].
  eapply keeps_live_but_then; [|by eapply same_keeps_live].
  eapply keeps_live_but_then; [|by eapply same_keeps_live].
  eapply keeps_live_then_but, H2. by apply same_keeps_live.
Qed.

Lemma triple_create_or_revive name desc x h p roles :
  triple sound (create_or_revive name desc x h p roles)
    (λ r s, match r with
            | Ok Revived => cached_live (owned_by (name_to_synthetic_email name)) s
            | _ => sound s
            end).
Proof.
  eapply triple_conseq; [|done|].
  - apply (triple_tx_but (λ o, match o with
      | Revived => owned_by (name_to_synthetic_email name) | Created => no_exception end)).
    intros t d o d'. unfold create_or_revive_inner.
    destruct (user_row _ d) as [u|].
    + destruct (negb _); [done|]. destruct (ur_active u); [done|].
      destruct (revive_robot_in_conn _ _ _ _ _ _ _ t d) as [d1|] eqn:E; [|done]. intros [= <- <-].
      by eapply revive_robot_but.
    + destruct (create_robot_in_conn _ _ _ _ _ _ t d) as [d1|] eqn:E; [|done]. intros [= <- <-].
      by eapply keeps_live_any, create_robot_live.
  - by intros [[]|] s.
Qed.

Lemma keeps_robot_by_name name : keeps sound (get_robot_by_name name).
Proof. unfold get_robot_by_name. keep. Qed.

Lemma keeps_check_assignable b roles : keeps sound (check_all_assignable b roles).
Proof.
  induction roles as [|r roles IH]; simpl; [apply keeps_ret|]. apply keeps_or_fail; [|done].
  unfold check_assignable. apply keeps_or_fail; [by apply keeps_found|]. keep.
Qed.
Hint Resolve keeps_robot_by_name keeps_check_assignable : keep.

Lemma keeps_create_robot user body : keeps sound (create_or_revive_robot user body).
Proof.
  unfold create_or_revive_robot, require_cap. cbv zeta. case_match; [|apply keeps_ret].
  case_match; [|apply keeps_ret]. apply keeps_or_fail; [auto with keep|]. intros [].
  case_match; [|apply keeps_ret]. apply keeps_or_fail; [apply keeps_material|]. intros [[raw prefix] hash].
  eapply triple_or_fail; [apply triple_create_or_revive| |done]. intros [].
  - keep.
  - eapply triple_bind; [apply triple_purge_owner|]. intros [].
    eapply triple_conseq; [|by intros s [Hs _]; exact Hs|by intros ? ? Hs; exact Hs]. keep.
Qed.

(** A revocation of a robot's tokens and the purge after it. *)
Lemma triple_then_purge {A B} o (m : async (result A B)) (k : A → async (result Z AuthError)) f :
  triple sound m (λ r s, match r with Ok _ => cached_live (owned_by o) s | Err _ => sound s end) →
  (∀ a, triple (cached_live (owned_by o)) (k a) (λ _, sound)) →
  keeps sound (or_fail m f k).
Proof. intros Hm Hk. eapply triple_or_fail; [exact Hm|done|done]. Qed.

Lemma triple_purge_ret {A} o (a : A) :
  triple (cached_live (owned_by o)) (do* purge_owner o in Ret a) (λ _, sound).
Proof. eapply triple_bind; [apply triple_purge_owner|]. intros []. apply triple_ret. by intros s [? ?]. Qed.

Lemma keeps_find_robot name : keeps sound (robot_by_name name).
Proof. unfold robot_by_name. keep. Qed.

Lemma keeps_tombstone user name : keeps sound (tombstone_robot user name).
Proof.
  unfold tombstone_robot, require_cap. case_match; [|apply keeps_ret].
  apply keeps_or_fail; [apply keeps_find_robot|]. intros robot.
  apply (triple_then_purge (rob_email robot)); [|intros n; apply triple_purge_ret].
  apply (triple_tx_but (λ _, owned_by (rob_email robot))). intros t d n d' Hd.
  pose proof (revoke_robot_tokens_but (rob_email robot) (update_user (rob_email robot) (with_active false t) d)) as Hb.
  assert (d' = (revoke_all_active_tokens_in_conn (rob_email robot)
                  (update_user (rob_email robot) (with_active false t) d)).2) as ->.
  { unfold tombstone_robot_inner in Hd. destruct (revoke_all_active_tokens_in_conn _ _). by injection Hd. } eapply keeps_live_then_but, Hb. apply same_keeps_live, same_update_user.
Qed.

Lemma keeps_revoke_robot user name : keeps sound (revoke_robot_token user name).
Proof.
  unfold revoke_robot_token, require_cap. case_match; [|apply keeps_ret].
  apply keeps_or_fail; [apply keeps_find_robot|]. intros robot.
  apply (triple_then_purge (rob_email robot)); [|intros n; apply triple_purge_ret].
  intros s Hs. rewrite run_query, exec_stmt_no_fault by apply Hs. unfold revoke_all_active_tokens.
  pose proof (revoke_robot_tokens_but (rob_email robot) (pool s)) as Hb.
  destruct (revoke_all_active_tokens_in_conn _ _) as [n d]. simpl in *.
  by apply (cached_live_step _ s); [apply Hs|..].
Qed.

Lemma keeps_rotate user name expires renew : keeps sound (create_or_rotate_token user name expires renew).
Proof.
  unfold create_or_rotate_token, require_cap. case_match; [|apply keeps_ret].
  case_match; [|apply keeps_ret]. apply keeps_or_fail; [apply keeps_material|]. intros [[raw prefix] hash].
  eapply triple_or_fail.
  - apply (triple_tx_but (λ _, owned_by (name_to_synthetic_email name))). intros ? d o d'. apply rotate_but.
  - intros o. apply triple_purge_ret.
  - by intros [].
Qed.

Lemma keeps_handle r : keeps sound (handle_request r).
Proof.
  destruct r; (apply keeps_bind; [|intros; apply keeps_ret]).
  - apply keeps_authenticate.
  - apply keeps_upgrade.
  - apply keeps_callback.
  - unfold create_api_key_handler, create_api_key. keep. by apply keeps_query, st_live_as_stmt, insert_key_live.
  - apply keeps_revoke_key.
  - unfold revoke_token_route. keep.
  - unfold revoke_all_tokens. keep.
  - unfold logout, session_get, session_flush. keep; by apply keeps_io.
  - apply keeps_register.
  - apply keeps_deregister.
  - apply keeps_regenerate.
  - apply keeps_deactivate.
  - apply keeps_activate.
  - apply keeps_create_robot.
  - apply keeps_tombstone.
  - apply keeps_rotate.
  - apply keeps_revoke_robot.
Qed.

(** Requests handled one after the other. *)
Definition handle_requests (rs : list Request) : async unit := for_each rs handle_request.

Lemma keeps_requests rs : keeps sound (handle_requests rs).
Proof.
  unfold handle_requests. induction rs as [|r rs IH]; [apply keeps_ret|].
  apply keeps_bind; [apply keeps_handle|done].
Qed.
End Requests.

(** ** What the invariant gives, and what interleavings break *)

Section Acceptance.
Context `{HEnv : Env} `{HLru : LruCrate} `{HTok : TokenCrates} `{HWeb : WebCrates} `{HAdm : AdminCrates}
  `{HHash : HashIter} `{HSerde : Serde} (config : ServerConfig) (oauth_state : OAuthState).

Lemma load_ok email s u :
  faults s = [] → (run (load_authed_user email) s).1 = Ok u →
  ∃ row, user_record email (pool s) = Some row ∧ ur_active row = true ∧ au_email u = ur_email row.
Proof.
  intros Hf. unfold load_authed_user. rewrite run_bind, run_read by done. simpl.
  destruct (user_record email (pool s)) as [row|]; [|done]. destruct (ur_active row) eqn:Ha; [|done]. simpl.
  rewrite run_bind, run_read by done. simpl. intros [= <-]. by exists row.
Qed.

(** C5: Whoever is authenticated with an API key or a robot token presents the
    text of a credential that is stored, not revoked and not expired, and is its
    owner, who is active. This holds after any requests that create, use, rotate
    and revoke credentials, one after the other: the cache never keeps a token
    that a request has revoked. *)
Theorem accepted_token_is_live (s : AppState) (rs : list Request) (raw : string) (ses : SessionRead) u
    (Hs : sound s)
    (Hp : starts_with "cbsk_" raw || starts_with "cbrk_" raw = true)
    (Hu : (run (from_request_parts config (Some raw) ses)
              (run (handle_requests config oauth_state rs) s).2).1 = Ok u) :
  let s1 := (run (handle_requests config oauth_state rs) s).2 in
  ∃ e raw' row, digest raw' = digest raw ∧ live (pool s1) e raw' ∧
    is_expired (tok_expires_at e) (clock s1) = false ∧
    user_record (tok_owner_email e) (pool s1) = Some row ∧ ur_active row = true ∧
    au_email u = ur_email row.
Proof.
  intros s1. fold s1 in Hu. assert (sound s1) as Hs1 by by apply (keeps_requests config oauth_state rs s).
  assert (∀ k (mark : CachedToken → async (result unit SqlError)) (pre : TokenError → AuthError), (run (or_fail (verify_hashed_token k raw (fetch_of k)) pre (λ e,
            or_fail (load_authed_user (tok_owner_email e)) id (λ u, do* mark e in Ret (Ok u)))) s1).1 = Ok u →
          ∃ e, verified s1 raw (Ok e) ∧ ∃ row, user_record (tok_owner_email e) (pool s1) = Some row ∧
            ur_active row = true ∧ au_email u = ur_email row) as Hk.
  { intros k mark pre. rewrite run_or_fail. pose proof (verify_run k raw s1 Hs1) as Hv.
    destruct (run (verify_hashed_token k raw (fetch_of k)) s1) as [[e|e] s2]; simpl; [|done].
    destruct Hv as (Hs2 & Hpool & Hclock & Hv). intros Hr. exists e. split; [done|].
    rewrite <- Hpool. apply load_ok; [apply Hs2|]. rewrite run_or_fail in Hr.
    destruct (run (load_authed_user _) s2) as [[u'|] s3]; simpl in *; [|done].
    rewrite run_bind in Hr. exact Hr. }
  assert (∃ e, verified s1 raw (Ok e) ∧ ∃ row, user_record (tok_owner_email e) (pool s1) = Some row ∧
            ur_active row = true ∧ au_email u = ur_email row) as (e & Hv & row & Hr).
  { unfold from_request_parts in Hu. destruct (starts_with "cbsk_" raw); [|destruct (starts_with "cbrk_" raw); [|done]].
    - by eapply (Hk ApiKeyToken (λ e, query (mark_api_key_used (tok_id e)))).
    - by eapply (Hk RobotToken (λ e, query (mark_robot_token_used (tok_id e)))). }
  destruct (Hv e eq_refl) as (raw' & H1 & H2 & H3). by exists e, raw', row.
Qed.

(** The stored key that [raw] is the text of. *)
Record presents (s : AppState) (raw : string) (i : Z) (k : ApiKey) : Prop := mkPresents {
  pr_length : String.length raw = 69;
  pr_kind : starts_with "cbsk_" raw = true;
  pr_row : t_api_keys (pool s) !! i = Some k;
  pr_prefix : ak_key_prefix k = String.substring 5 12 raw;
  pr_hash : argon2_check raw (ak_key_hash k) = true;
  pr_only : ∀ j (k' : ApiKey), t_api_keys (pool s) !! j = Some k' →
    argon2_check raw (ak_key_hash k') = true → j = i
}.

Lemma rows_where_elem {V} (p : V → bool) (m : gmap Z V) i x :
  m !! i = Some x → p x = true → x ∈ rows_where p m.
Proof.
  intros Hi Hp. unfold rows_where. apply list_elem_of_fmap. exists (i, x). split; [done|].
  apply list_elem_of_filter. split; [done|]. rewrite merge_sort_Permutation. by apply elem_of_map_to_list.
Qed.

Lemma fetch_finds s raw i (k : ApiKey) :
  faults s = [] → creds_wf (pool s) → presents s raw i k → ak_revoked k = false →
  ∃ cs, run (fetch_api_keys (String.substring 5 12 raw)) s = (Ok cs, s) ∧ cs ≠ [] ∧
        find_first (λ c, argon2_check raw (cr_hash c)) cs = Some (candidate_of_key k).
Proof.
  intros Hf Hw [Hl Hk Hrow Hpre Hhash Honly] Hr.
  destruct (fetch_run ApiKeyToken (String.substring 5 12 raw) s Hf Hw) as (cs & Hrun & Hcs).
  exists cs. split; [done|]. assert (candidate_of_key k ∈ cs) as Hin.
  { simpl in Hrun. unfold fetch_api_keys in Hrun. rewrite run_or_fail, run_read in Hrun by done.
    simpl in Hrun. injection Hrun as <-. apply list_elem_of_fmap. exists (ak_row k). split; [done|].
    apply list_elem_of_fmap. exists k. split; [done|]. apply (rows_where_elem _ _ i); [done|].
    by rewrite bool_decide_eq_true_2, Hr. }
  split; [by intros ->; apply not_elem_of_nil in Hin|].
  destruct (find_first _ cs) as [c|] eqn:Hfind.
  - apply find_first_Some in Hfind as [Hc Ha]. apply Hcs in Hc. unfold live_row in Hc.
    destruct (t_api_keys (pool s) !! cr_id c) as [k'|] eqn:E; [|done].
    destruct (ak_revoked k'); [done|]. injection Hc as <-.
    assert (ak_id k' = i) as Hid by by eapply (Honly _ k').
    simpl in E. rewrite Hid, Hrow in E. by injection E as ->.
  - apply (find_first_None _ _ _ Hfind) in Hin. simpl in Hin. congruence.
Qed.

(** The text of a live key that is not cached is verified as the key. *)
Lemma verify_presented s raw i (k : ApiKey) :
  faults s = [] → creds_wf (pool s) → presents s raw i k → ak_revoked k = false →
  is_expired (ak_expires_at k) (clock s) = false → cached (token_cache s) (digest raw) = None →
  ∃ s', run (verify_api_key raw) s = (Ok (entry_of ApiKeyToken (candidate_of_key k)), s') ∧
        pool s' = pool s ∧ faults s' = [] ∧ next_handle s' = next_handle s.
Proof.
  intros Hf Hw Hpres Hlive Hexp Hmiss. unfold verify_api_key, verify_hashed_token.
  assert (negb (String.length raw =? 69) || negb (starts_with (kind_prefix ApiKeyToken) raw) = false) as ->.
  { simpl. by rewrite (pr_length _ _ _ _ Hpres), (pr_kind _ _ _ _ Hpres). }
  rewrite run_bind. unfold cache_lookup. rewrite run_atomic.
  pose proof (proj2 (cached_get (digest raw) (token_cache s) (digest raw))) as Hh. rewrite Hmiss in Hh.
  destruct (cache_get (digest raw) (token_cache s)) as [hit c]. simpl in Hh. subst hit. cbv zeta. cbn [fst snd].
  set (s1 := upd_token_cache c s).
  destruct (fetch_finds s1 raw i k) as (cs & Hrun & Hne & Hfind); [done|done|by destruct Hpres|done|].
  change (String.length (kind_prefix ApiKeyToken)) with 5.
  rewrite run_or_fail, Hrun. cbn [fst snd]. destruct cs as [|c0 cs]; [done|].
  rewrite run_or_fail. unfold io. rewrite run_atomic. unfold next_fault. simpl faults. rewrite Hf.
  cbn [fst snd]. rewrite Hfind. rewrite run_bind. unfold now. rewrite run_atomic. cbn [fst snd].
  simpl clock. simpl tok_expires_at. rewrite Hexp, run_bind. unfold with_cache. rewrite run_atomic. simpl.
  by eexists.
Qed.

(** What the revocation of a key leaves in its row. *)
Lemma revoked_row user s i (k : ApiKey) :
  t_api_keys (pool s) !! i = Some k → faults s = [] → ak_owner_email k = au_email user →
  has_cap user "apikeys:create:own" = true → 
  let s' := (run (ignore (revoke_api_key_handler user (ak_key_prefix k))) s).2 in
  clock s' = clock s ∧
  ∃ k' : ApiKey, t_api_keys (pool s') !! i = Some k' ∧ ak_revoked k' = true.
Proof.
  intros Hk Hf Ho Hc. simpl. unfold ignore, revoke_api_key_handler. rewrite Hc. simpl negb. cbv iota.
  rewrite run_bind, run_or_fail, run_query, exec_stmt_no_fault by done. unfold revoke_api_key_by_prefix.
  set (q := λ k : ApiKey, _ && _).
  assert (∃ k' : ApiKey, (update_where q revoked_key (t_api_keys (pool s))).2 !! i = Some k' ∧ ak_revoked k' = true)
    as (k' & Hk' & Hr).
  { simpl. rewrite lookup_fmap, Hk. simpl. eexists. split; [done|]. subst q. simpl.
    rewrite !bool_decide_eq_true_2 by done. by destruct (ak_revoked k) eqn:E. }
  destruct (update_where q revoked_key (t_api_keys (pool s))) as [n rows]. simpl in Hk' |- *.
  destruct (0 <? n)%Z; (split; [done|by exists k']).
Qed.

(** C21: Revoking an API key can be undone by a request that is under way. If a
    request has fetched the row of the key and is about to put it into the cache
    while the revocation marks the row and purges the cache, the key ends up in
    the cache after the purge, and is accepted from then on although its row is
    revoked. *)
Theorem revocation_race (s : AppState) (user : AuthUser) (raw : string) i (k : ApiKey)
    (Hf : faults s = []) (Hw : creds_wf (pool s)) (Hpres : presents s raw i k)
    (Hlive : ak_revoked k = false) (Hexp : is_expired (ak_expires_at k) (clock s) = false)
    (Hmiss : cached (token_cache s) (digest raw) = None)
    (Howner : ak_owner_email k = au_email user) (Hcap : has_cap user "apikeys:create:own" = true) :
  ∃ s', rtc pool_step
      (s, [ignore (verify_api_key raw); ignore (revoke_api_key_handler user (ak_key_prefix k))])
      (s', [Ret (); Ret ()]) ∧
    (∃ k' : ApiKey, t_api_keys (pool s') !! i = Some k' ∧ ak_revoked k' = true) ∧
    (run (verify_api_key raw) s').1 = Ok (entry_of ApiKeyToken (candidate_of_key k)).
Proof.
  set (e := entry_of ApiKeyToken (candidate_of_key k)).
  assert (negb (String.length raw =? 69) || negb (starts_with (kind_prefix ApiKeyToken) raw) = false) as Hformat.
  { simpl. by rewrite (pr_length _ _ _ _ Hpres), (pr_kind _ _ _ _ Hpres). }
  set (c1 := (cache_get (digest raw) (token_cache s)).2). set (s1 := upd_token_cache c1 s).
  set (insert := with_cache (λ c, ((), cache_insert (digest raw) e c))).
  (* the request, up to the insertion *)
  assert (rtc task_step (ignore (verify_api_key raw), s)
            (bind (do* insert in Ret (Ok (E:=TokenError) e)) (λ _, Ret ()), s1)) as Hverify.
  { apply task_steps_bind. unfold verify_api_key, verify_hashed_token. rewrite Hformat.
    etrans.
    { apply task_steps_first. unfold cache_lookup. rewrite run_atomic.
      pose proof (proj2 (cached_get (digest raw) (token_cache s) (digest raw))) as Hh.
      rewrite Hmiss in Hh. unfold s1, c1.
      destruct (cache_get (digest raw) (token_cache s)) as [hit c]. simpl in *. by subst hit. }
    cbv iota. destruct (fetch_finds s1 raw i k) as (cs & Hrun & Hne & Hfind); [done|done| |done|].
    { by destruct Hpres. }
    etrans; [by apply task_steps_first|]. cbv iota. destruct cs as [|c0 cs]; [done|].
    etrans.
    { apply task_steps_first. unfold io. rewrite run_atomic. unfold next_fault. simpl faults.
      rewrite Hf. cbv iota beta zeta. rewrite Hfind. reflexivity. }
    cbv iota. etrans.
    { apply task_steps_first. unfold now. by rewrite run_atomic. }
    simpl. by rewrite Hexp. }
  (* the revocation *)
  set (s2 := (run (ignore (revoke_api_key_handler user (ak_key_prefix k))) s1).2).
  set (s3 := upd_token_cache (cache_insert (digest raw) e (token_cache s2)) s2).
  destruct (revoked_row user s1 i k) as (Hclock & k' & Hk' & Hr); [by destruct Hpres|done..|].
  fold s2 in Hclock, Hk'. exists s3. split; [|split].
  - etrans; [by apply (task_steps_pool _ _ _ _ [] _ Hverify)|].
    etrans; [by apply (run_is_schedule _ _ [_] [])|].
    destruct (run (ignore (revoke_api_key_handler user (ak_key_prefix k))) s1).1.
    etrans.
    { apply (task_steps_pool (bind (do* insert in Ret (Ok (E:=TokenError) e)) (λ _, Ret ())) (Ret ()) s2 s3 []).
      apply task_steps_run. }
    done.
  - by exists k'.
  - unfold verify_api_key, verify_hashed_token. rewrite Hformat, run_bind. unfold cache_lookup.
    rewrite run_atomic. assert ((cache_get (digest raw) (token_cache s3)).1 = Some e) as Hh.
    { rewrite (proj2 (cached_get (digest raw) (token_cache s3) (digest raw))). simpl.
      by rewrite cached_insert, bool_decide_eq_true_2. }
    destruct (cache_get (digest raw) (token_cache s3)) as [hit c]. simpl in Hh. subst hit. simpl.
    rewrite Hclock. simpl. by rewrite Hexp.
Qed.
End Acceptance.
