(* ===== verification/AdminSpec.v ===== *)
(** * What the administrative requests guarantee

    Registration of a worker up to its first connection, the regeneration of its
    token, and the guard of the last administrator. *)

From Stdlib Require Import Strings.Byte.
From stdpp Require Import prelude gmap strings list relations sorting pretty.
From S2P Require Import Prelude Async Common ServerConfig Proto Queue Db TokenCache App Logs DbRoles.
From S2P Require Import DbChannels DbCredentials DbUsers Auth Channels Dispatch Handler.
From S2P Require Import Components Login AuthRoutes Admin WorkerAdmin TokenSpec.

Section Registration.
Context `{HEnv : Env} `{HLru : LruCrate} `{HTok : TokenCrates} `{HWeb : WebCrates} `{HAdm : AdminCrates}
  `{HHash : HashIter} `{HSerde : Serde}.

(** The key that the [n]-th handle gives out. *)
Definition nth_key (n : nat) : string := "cbsk_" +:+ hex_encode (random_bytes n).

(** The generated material, when hashing succeeds. *)
Lemma material_run s :
  faults s = [] →
  let raw := nth_key (next_handle s) in
  let s' := upd_next_handle (S (S (next_handle s))) s in
  run generate_api_key_material s =
  (match argon2_hash_password raw (S (next_handle s)) with
   | Ok hash => Ok (raw, String.substring 5 12 raw, hash)
   | Err e => Err (TeHashError e)
   end, s').
Proof.
  intros Hf. simpl. unfold generate_api_key_material, generate_token_material.
  rewrite run_bind. unfold alloc at 1. rewrite run_atomic. cbn [fst snd].
  rewrite run_or_fail. unfold io. rewrite run_atomic. unfold next_fault. simpl. rewrite Hf. simpl.
  unfold nth_key. by destruct (argon2_hash_password _ _).
Qed.

(** What a registration that succeeded has done. *)
Record registered (s : AppState) (user : AuthUser) (name arch : string)
    (resp : RegisterWorkerResponse) (s' : AppState) : Prop := mkRegistered {
  reg_id : rw_worker_id resp = uuid_v4 (next_handle s);
  reg_token : rw_worker_token resp =
    build_worker_token (rw_worker_id resp) name (nth_key (S (next_handle s))) arch;
  reg_pool : ∃ hash i d,
    argon2_hash_password (nth_key (S (next_handle s))) (S (S (next_handle s))) = Ok hash ∧
    insert_api_key_row ("worker:" +:+ name) (au_email user) hash
      (String.substring 5 12 (nth_key (S (next_handle s)))) (clock s) (pool s) = Ok (i, d) ∧
    insert_worker (uuid_v4 (next_handle s)) name arch i (au_email user) (clock s) d = Ok (pool s');
  reg_frame : faults s' = [] ∧ clock s' = clock s ∧ token_cache s' = token_cache s
}.

Lemma register_worker_ok s user name arch code resp s' :
  faults s = [] → run (register_worker user name arch) s = (Ok (code, resp), s') →
  registered s user name arch resp s'.
Proof.
  intros Hf. unfold register_worker, require_cap. destruct (has_cap user _); [|done].
  destruct (negb _); [done|]. destruct (negb _ && negb _); [done|].
  rewrite run_bind. unfold alloc at 1 2. rewrite run_atomic. cbn [fst snd].
  rewrite run_or_fail, material_run by done. cbn [fst snd]. simpl next_handle.
  destruct (argon2_hash_password _ _) as [hash|e] eqn:Hh; [|done].
  rewrite run_or_fail. set (s1 := upd_next_handle _ _).
  pose proof (query_tx_cases (internal "database error") (register_tx (uuid_v4 (next_handle s)) name arch
    (au_email user) hash (String.substring 5 12 (nth_key (S (next_handle s))))) s1 Hf) as Hq.
  unfold register_tx, insert_api_key_in_tx in Hq |- *.
  destruct (insert_api_key_row _ _ _ _ (clock s1) (pool s1)) as [[i d]|] eqn:Hk; [|by rewrite Hq].
  destruct (insert_worker _ _ _ _ _ (clock s1) d) as [d2|] eqn:Hw; [|by rewrite Hq].
  rewrite Hq. cbn [fst snd]. rewrite run_ret. intros [= <- <- <-].
  split; [done|done| |done]. by exists hash, i, d.
Qed.

Lemma hex_encode_length l : String.length (hex_encode l) = 2 * length l.
Proof. induction l as [|b l IH]; simpl; [done|]. rewrite IH. lia. Qed.

Lemma insert_key_ok name o h p t d i d' :
  insert_api_key_row name o h p t d = Ok (i, d') →
  i = t_next_api_key_id d ∧ t_workers d' = t_workers d ∧ t_users d' = t_users d ∧
  t_api_keys d' = <[i := mkApiKey (mkApiKeyRow i name h p o None false t) None None]> (t_api_keys d).
Proof. unfold insert_api_key_row. repeat case_match; try done. by intros [= <- <-]. Qed.

Lemma insert_worker_ok id name arch i o t d d' :
  insert_worker id name arch i o t d = Ok d' →
  t_workers d' = <[id := mkWorkerRow id name arch i o t None]> (t_workers d) ∧
  t_workers d !! id = None ∧ t_api_keys d' = t_api_keys d ∧
  ∀ j w, t_workers d !! j = Some w → wr_api_key_id w ≠ i.
Proof.
  unfold insert_worker. destruct (negb _ || _) eqn:E1; [done|].
  destruct (existsb _ _) eqn:E2; [done|]. destruct (bool_decide (_ = None) || _); [done|]. intros [= <-].
  apply orb_false_iff in E1 as [_ E1%bool_decide_eq_false_1]. split; [done|]. split; [by apply eq_None_not_Some|].
  split; [done|]. intros j w Hw Hi. apply not_true_iff_false in E2. apply E2, existsb_spec. exists w.
  split; [apply list_elem_of_fmap; exists (j, w); split; [done|by apply elem_of_map_to_list]|].
  by rewrite (bool_decide_eq_true_2 (wr_api_key_id w = i)), orb_true_r.
Qed.

(** C8: A worker that was just registered can connect: the answer of the
    registration carries a token with a key in it, and the upgrade request with
    that key is accepted and recognised as the registered worker. The
    assumptions are what Argon2 and the random generator provide: the hash of a
    key verifies the key, no stored hash verifies a fresh one, and a draw has 32
    bytes. *)
Theorem registered_worker_connects (s s' : AppState) user name arch code resp
    (Hf : faults s = []) (Hw : creds_wf (pool s))
    (Hreg : run (register_worker user name arch) s = (Ok (code, resp), s'))
    (Hlen : ∀ n, length (random_bytes n) = 32)
    (Hhash : ∀ raw salt hash, argon2_hash_password raw salt = Ok hash → argon2_check raw hash = true)
    (Hfresh : ∀ j (k : ApiKey), t_api_keys (pool s) !! j = Some k →
       argon2_check (nth_key (S (next_handle s))) (ak_key_hash k) = false)
    (Hmiss : cached (token_cache s) (digest (nth_key (S (next_handle s)))) = None) :
  ∃ key cid row s'',
    rw_worker_token resp = build_worker_token (rw_worker_id resp) name key arch ∧
    run (ws_upgrade (Some ("Bearer " +:+ key))) s' = (Ok (cid, row), s'') ∧
    wr_id row = rw_worker_id resp ∧ wr_name row = name ∧ wr_arch row = arch.
Proof.
  destruct (register_worker_ok _ _ _ _ _ _ _ Hf Hreg) as [Hid Htok (hash & i & d & Hh & Hk & Hi) (Hf' & Hc & Hcache)].
  set (key := nth_key (S (next_handle s))) in *.
  pose proof (insert_key_live _ _ _ _ _ _ _ _ Hk Hw) as [Hwd _].
  apply insert_key_ok in Hk as (_ & Hws & _ & Hkeys).
  pose proof (same_wf _ _ (same_insert_worker _ _ _ _ _ _ _ _ Hi) Hwd) as Hw'.
  apply insert_worker_ok in Hi as (Hrows & Hnone & Hkeys' & Hother).
  set (k := mkApiKey _ None None) in Hkeys.
  assert (presents s' key i k) as Hpres.
  { split; [|apply string_prefix_app|by rewrite Hkeys', Hkeys, lookup_insert_eq|reflexivity|by apply (Hhash _ _ _ Hh)|].
    - unfold key, nth_key. rewrite string_app_length, hex_encode_length, Hlen. done.
    - intros j k' Hj Ha. rewrite Hkeys', Hkeys in Hj. apply lookup_insert_Some in Hj as [[<- _]|[_ Hj]]; [done|].
      apply Hfresh in Hj. congruence. }
  destruct (verify_presented s' key i k) as (s2 & Hv & Hp2 & Hf2 & Hn2); [done..|by rewrite Hcache|].
  exists key. do 3 eexists. split; [done|]. split.
  - unfold ws_upgrade. cbn [mbind option_bind]. rewrite strip_prefix_app.
    rewrite (pr_kind _ _ _ _ Hpres). simpl negb. cbv iota.
    rewrite run_or_fail, Hv. cbn [fst snd]. rewrite run_or_fail, run_read by done.
    unfold get_worker_by_api_key_id. cbn [fst snd]. rewrite Hp2, Hrows.
    rewrite find_first_inserted; [|by apply bool_decide_eq_true_2|].
    + rewrite run_bind, run_atomic. reflexivity.
    + intros j w Hj. apply bool_decide_eq_false_2. by apply (Hother j).
  - done.
Qed.

(** The administrator who registered a worker cannot regenerate its token.
    The new key gets the name of the first one, and names of keys are unique per
    owner, revoked or not, so the transaction fails and the request is answered
    with an internal error; no table changes. *)
Theorem registrant_cannot_regenerate (s s' : AppState) user name arch code resp
    (Hf : faults s = []) (Hreg : run (register_worker user name arch) s = (Ok (code, resp), s')) :
  let '(r, s'') := run (regenerate_worker_token user (rw_worker_id resp)) s' in
  (∃ msg, r = Err (INTERNAL_SERVER_ERROR, msg)) ∧ pool s'' = pool s'.
Proof.
  assert (has_cap user "workers:manage" = true) as Hcap.
  { unfold register_worker, require_cap in Hreg. by destruct (has_cap user _). }
  destruct (register_worker_ok _ _ _ _ _ _ _ Hf Hreg) as [Hid _ (hash & i & d & Hh & Hk & Hi) (Hf' & Hc & _)].
  apply insert_key_ok in Hk as (_ & Hws & _ & Hkeys). apply insert_worker_ok in Hi as (Hrows & Hnone & Hkeys' & _).
  unfold regenerate_worker_token, require_cap. rewrite Hcap.
  rewrite run_or_fail. unfold found. rewrite run_or_fail, run_read by done. unfold get_worker_by_id. simpl fst.
  rewrite Hrows, Hid, lookup_insert_eq. cbn [fst snd]. rewrite run_ret. cbn [fst snd].
  rewrite run_or_fail, material_run by done. cbn [fst snd].
  destruct (argon2_hash_password (nth_key (next_handle s')) _) as [hash'|e]; [|cbn; split; [by eexists|done]].
  rewrite run_or_fail. set (s1 := upd_next_handle _ s').
  pose proof (query_tx_cases (internal "database error") (regenerate_tx (uuid_v4 (next_handle s)) name
    (au_email user) hash' (String.substring 5 12 (nth_key (next_handle s'))) i) s1 Hf') as Hq.
  unfold regenerate_tx, insert_api_key_in_tx, insert_api_key_row in Hq |- *.
  assert (∀ h p, api_key_conflict ("worker:" +:+ name) (au_email user) h p (pool s1) = true) as Hconf.
  { intros h p. unfold api_key_conflict, exists_row. apply existsb_spec. eexists. split.
    - apply list_elem_of_fmap. eexists (i, _). split; [done|]. apply elem_of_map_to_list. simpl.
      by rewrite Hkeys', Hkeys, lookup_insert_eq.
    - simpl. apply orb_true_iff. right. apply andb_true_iff. by rewrite !bool_decide_eq_true. }
  rewrite Hconf in Hq. simpl wr_name. simpl wr_api_key_id. rewrite Hq. cbn. split; [by eexists|done].
Qed.
End Registration.

(** ** The last administrator *)

Section Administrators.
Context `{HEnv : Env} `{HLru : LruCrate} `{HTok : TokenCrates} `{HHash : HashIter} `{HSerde : Serde}.

Lemma elem_of_wildcard_holders d e :
  e ∈ wildcard_holders d ↔
  ∃ u : UserRow, t_users d !! e = Some u ∧ ur_active u = true ∧ ur_is_robot u = false ∧
    ∃ r, (e, r) ∈ t_user_roles d ∧ (r, "*") ∈ t_role_caps d.
Proof.
  unfold wildcard_holders. rewrite elem_of_list_to_set, list_elem_of_fmap. split.
  - intros ([e' u] & -> & [(Ha & Hr & Hx) Hin]%list_elem_of_filter). simpl in *. exists u.
    split_and!; [by apply elem_of_map_to_list|done|done|].
    apply Exists_exists in Hx as (r & Hr1 & Hr2). exists r.
    by rewrite <- elem_of_roles_of, <- elem_of_caps_of.
  - intros (u & Hu & Ha & Hr & r & H1 & H2). exists (e, u). split; [done|].
    apply list_elem_of_filter. split; [|by apply elem_of_map_to_list]. split_and!; [done..|].
    apply Exists_exists. exists r. by rewrite elem_of_roles_of, elem_of_caps_of.
Qed.

(** The holders depend on three tables. *)
Definition same_admins (d d' : Db) : Prop :=
  t_users d' = t_users d ∧ t_user_roles d' = t_user_roles d ∧ t_role_caps d' = t_role_caps d.

Lemma same_admins_holders d d' : same_admins d d' → wildcard_holders d' = wildcard_holders d.
Proof.
  intros (H1 & H2 & H3). apply set_eq. intros e. by rewrite !elem_of_wildcard_holders, H1, H2, H3.
Qed.

Definition has_admin (s : AppState) : Prop := wildcard_holders (pool s) ≠ ∅.

(** A statement that keeps the three tables, whether it fails or not. *)
Lemma admin_query {A} (st : stmt A) :
  (∀ t d, same_admins d (st t d).2) → keeps has_admin (query st).
Proof.
  intros Hst s Hs. rewrite run_query. unfold exec_stmt, next_fault, has_admin in *.
  assert (∀ s' : AppState, wildcard_holders (pool s') ≠ ∅ →
    wildcard_holders (pool (let '(r, d) := st (clock s') (pool s') in (r, upd_pool d s')).2) ≠ ∅) as Hrun.
  { intros s' Hs'. pose proof (Hst (clock s') (pool s')) as Hd. destruct (st _ _) as [r d]. simpl in *.
    by rewrite (same_admins_holders _ _ Hd). }
  destruct (faults s) as [|[] fs]; [by apply Hrun|done|]. by apply (Hrun (upd_faults fs s)).
Qed.

Lemma admin_found {A} missing (st : stmt (option A)) : reads st → keeps has_admin (found missing st).
Proof.
  intros Hr. unfold found. apply keeps_or_fail.
  - apply admin_query. intros t d. by rewrite Hr.
  - intros [a|]; apply keeps_ret.
Qed.

Lemma admin_deactivate_tx email : keeps has_admin (query_tx (internal "database error") (deactivate_tx email)).
Proof.
  apply keeps_atomic. intros s Hs. unfold next_fault.
  assert (∀ s' : AppState, has_admin s' → has_admin (match deactivate_tx email (clock s') (pool s') with
            | Ok (a, d) => (Ok a, upd_pool d s') | Err e => (Err e, s') end).2) as Hrun.
  { intros s' Hs'. unfold deactivate_tx. set (d' := update_user _ _ _).
    destruct (Z.eqb_spec (Z.of_nat (size (wildcard_holders d'))) 0); [done|]. unfold has_admin. simpl.
    intros He. rewrite He, size_empty in n. done. }
  destruct (faults s) as [|[] fs]; [by apply Hrun|done|]. by apply (Hrun (upd_faults fs s)).
Qed.

(** C6: Deactivating an entity never leaves the system without an administrator,
    whatever fails on the way; and without a failure, the attempt on the only
    administrator is refused and changes nothing. *)
Theorem last_admin_stays (s : AppState) (user : AuthUser) (email : string) (Hs : has_admin s) :
  has_admin (run (deactivate_entity user email) s).2 ∧
  (faults s = [] → has_cap user "permissions:manage" = true →
   wildcard_holders (pool s) = {[normalize_email email]} →
   ∃ msg, run (deactivate_entity user email) s = (Err (CONFLICT, msg), s)).
Proof.
  split.
  - revert s Hs. unfold deactivate_entity, require_cap. cbv zeta. case_match; [|apply keeps_ret].
    apply keeps_or_fail; [by apply admin_found|]. intros target. case_match; [apply keeps_ret|].
    apply keeps_or_fail; [apply admin_deactivate_tx|]. intros []. apply keeps_bind; [by apply keeps_atomic|].
    intros []. case_match; [apply keeps_ret|]. apply keeps_or_fail; [by apply admin_query|]. intros n1.
    apply keeps_or_fail; [by apply admin_query|]. intros n2. apply keeps_ret.
  - intros Hf Hcap Hh. set (e := normalize_email email) in *.
    assert (e ∈ wildcard_holders (pool s)) as He by set_solver.
    apply elem_of_wildcard_holders in He as (u & Hu & Ha & Hr & _).
    unfold deactivate_entity, require_cap. rewrite Hcap. fold e.
    rewrite run_or_fail. unfold found. rewrite run_or_fail, run_read by done. unfold get_user. simpl fst.
    unfold user_record, user_row. rewrite Hu. cbn [fmap option_fmap option_map fst snd]. rewrite run_ret.
    cbn [fst snd]. rewrite Ha. simpl negb. cbv iota. rewrite run_or_fail.
    pose proof (query_tx_cases (internal "database error") (deactivate_tx e) s Hf) as Hq.
    assert (wildcard_holders (update_user e (with_active false (clock s)) (pool s)) = ∅) as Hempty.
    { unfold update_user, user_row. rewrite Hu. apply set_eq. intros e'. rewrite elem_of_wildcard_holders. simpl.
      split; [|set_solver]. intros (u' & Hu' & Ha' & Hr' & r & H1 & H2). exfalso.
      apply lookup_insert_Some in Hu' as [[<- <-]|[Hne Hu']]; [done|]. apply Hne. symmetry.
      assert (e' ∈ wildcard_holders (pool s)) as He'; [|set_solver].
      apply elem_of_wildcard_holders. exists u'. eauto 10. }
    unfold deactivate_tx in Hq |- *. rewrite Hempty, size_empty in Hq. simpl in Hq. rewrite Hq. cbn.
    by eexists.
Qed.

(** C22: The guard of the last administrator comes too late when a role is taken
    from an entity. Removing the role that makes the only administrator is
    answered with 409, as if it were refused, but the assignment is gone: no
    administrator is left. *)
Theorem last_admin_removed (s : AppState) (user : AuthUser) (email role : string)
    (Hf : faults s = []) (Hcap : has_cap user "permissions:manage" = true)
    (Hh : wildcard_holders (pool s) = {[normalize_email email]})
    (Hrole : ∀ r, (normalize_email email, r) ∈ t_user_roles (pool s) →
       (r, "*") ∈ t_role_caps (pool s) → r = role) :
  let '(r, s') := run (remove_entity_role user email role) s in
  (∃ msg, r = Err (CONFLICT, msg)) ∧ wildcard_holders (pool s') = ∅.
Proof.
  set (e := normalize_email email) in *. assert (e ∈ wildcard_holders (pool s)) as He by set_solver.
  apply elem_of_wildcard_holders in He as (u & Hu & Ha & Hr & r & Hr1 & Hr2).
  pose proof (Hrole r Hr1 Hr2) as ->.
  unfold remove_entity_role, require_cap. rewrite Hcap. fold e.
  rewrite run_or_fail, run_query, exec_stmt_no_fault by done. unfold remove_user_role.
  rewrite bool_decide_eq_true_2 by done. cbn [fst snd negb].
  set (d := set_user_role_rows _ (pool s)). set (s1 := upd_pool d s).
  assert (wildcard_holders d = ∅) as Hempty.
  { apply set_eq. intros e'. rewrite elem_of_wildcard_holders. split; [|set_solver].
    intros (u' & Hu' & Ha' & Hro' & r & H1 & H2). exfalso. subst d. simpl in *.
    apply elem_of_difference in H1 as [H1 Hn].
    assert (e' ∈ wildcard_holders (pool s)) as He'. { apply elem_of_wildcard_holders. exists u'. eauto 10. }
    assert (e' = e) as -> by set_solver. assert (r = role) as -> by auto. set_solver. }
  rewrite run_or_fail. unfold last_admin_guard. rewrite run_or_fail, run_query, exec_stmt_no_fault by done.
  unfold count_active_wildcard_holders. cbn [fst snd]. subst s1. simpl pool. rewrite Hempty, size_empty.
  cbn. split; [by eexists|done].
Qed.
End Administrators.

(** ** Tokens of robots *)

(** The active tokens of a robot. *)
Definition active_token (d : Db) (email : string) (i : Z) (r : RobotTokenRow) : Prop :=
  t_robot_tokens d !! i = Some r ∧ is_active_token_of email r = true.

Lemma has_active_token_spec email d :
  has_active_token email d = true ↔ ∃ i r, active_token d email i r.
Proof.
  unfold has_active_token, exists_row. rewrite existsb_spec. split.
  - intros (r & ([i r'] & -> & Hin%elem_of_map_to_list)%list_elem_of_fmap & Hr). by exists i, r'.
  - intros (i & r & Hi & Hr). exists r. split; [|done]. apply list_elem_of_fmap. exists (i, r).
    split; [done|by apply elem_of_map_to_list].
Qed.

Lemma insert_robot_token_spec email h p x t d d' :
  insert_robot_token email h p x t d = Ok d' →
  t_robot_tokens d' = <[t_next_robot_token_id d := mkRobotTokenRow (t_next_robot_token_id d) email h p x
    false None None t]> (t_robot_tokens d) ∧ ¬ (∃ i r, active_token d email i r).
Proof.
  unfold insert_robot_token. destruct (exists_row _ _) eqn:E; [done|]. destruct (bool_decide _); [done|].
  intros [= <-]. split; [done|]. intros (i & r & Hi & Hr).
  pose proof (exists_row_false _ _ E i r Hi) as Hb. cbv beta in Hb. by rewrite Hr, orb_true_r in Hb.
Qed.

(** Issuing a token for a robot leaves it with exactly that one active token,
    and leaves the tokens of the others alone. Without [renew] an active token is
    never replaced, and a name that is no robot, or that was tombstoned, gets
    none; a refusal changes nothing. *)
Theorem rotate_token_outcome (email h p : string) (renew : bool) (x : option Z) (t : Z) (d : Db)
    (Hw : creds_wf d) :
  match rotate_token_inner email renew h p x t d with
  | Ok (o, d') =>
      (∃ u, t_users d !! email = Some u ∧ ur_is_robot (u_record u) = true ∧ ur_active (u_record u) = true) ∧
      (o = Rotated ↔ ∃ i r, active_token d email i r) ∧ (o = Rotated → renew = true) ∧
      (∃ i, t_robot_tokens d !! i = None ∧
        ∀ j r, active_token d' email j r ↔ j = i ∧ r = mkRobotTokenRow i email h p x false None None t) ∧
      (∀ j r, rt_robot_email r ≠ email → t_robot_tokens d' !! j = Some r ↔ t_robot_tokens d !! j = Some r)
  | Err RobotNotFound =>
      ∀ u, t_users d !! email = Some u → ur_is_robot (u_record u) = false
  | Err RobotTombstoned =>
      ∃ u, t_users d !! email = Some u ∧ ur_is_robot (u_record u) = true ∧ ur_active (u_record u) = false
  | Err NonRevokedTokenExists => renew = false ∧ ∃ i r, active_token d email i r
  | Err _ => ∃ j r, t_robot_tokens d !! j = Some r ∧ rt_token_hash r = h
  end.
Proof.
  unfold rotate_token_inner, user_row. destruct (t_users d !! email) as [u|] eqn:Hu; [|done].
  destruct (ur_is_robot u) eqn:Hr; [|by intros ? [= <-]].
  destruct (ur_active u) eqn:Ha; [|by exists u]. cbn [negb].
  destruct (has_active_token email d && negb renew) eqn:Hn.
  { apply andb_true_iff in Hn as [Hn Hre%negb_true_iff]. split; [done|]. by apply has_active_token_spec. }
  unfold revoke_all_active_tokens_in_conn. cbn [update_where fst snd].
  set (rows := _ <$> t_robot_tokens d). set (d1 := set_robot_tokens rows d).
  assert (∀ j r, rows !! j = Some r → ∃ r0, t_robot_tokens d !! j = Some r0 ∧
            r = if is_active_token_of email r0 then revoked_robot_token r0 else r0) as Hrows.
  { intros j r. unfold rows. rewrite lookup_fmap. by intros (r0 & ? & ->)%fmap_Some; exists r0. }
  assert (∀ j r, ¬ active_token d1 email j r) as Hnone.
  { intros j r [(r0 & _ & ->)%Hrows Hact]. destruct (is_active_token_of email r0) eqn:E; [|congruence].
    unfold is_active_token_of in Hact. simpl in Hact. by rewrite andb_false_r in Hact. }
  destruct (insert_robot_token email h p x t d1) as [d2|e] eqn:Hi.
  - apply insert_robot_token_spec in Hi as [Hi _]. simpl in Hi. split_and!.
    + by exists u.
    + rewrite <- has_active_token_spec. by destruct (has_active_token email d).
    + destruct (has_active_token email d), renew; done.
    + exists (t_next_robot_token_id d). split.
      { apply eq_None_not_Some. intros [r Hr']. apply Hw in Hr'. lia. }
      intros j r. split.
      * intros [Hj Hact]. rewrite Hi in Hj. apply lookup_insert_Some in Hj as [[<- <-]|[_ Hj]]; [done|].
        by destruct (Hnone j r).
      * intros [-> ->]. split; [by rewrite Hi, lookup_insert_eq|]. unfold is_active_token_of. simpl.
        by rewrite bool_decide_eq_true_2.
    + intros j r Hne. rewrite Hi. split.
      * intros [[_ <-]|[_ Hj]]%lookup_insert_Some; [done|]. apply Hrows in Hj as (r0 & Hr0 & ->).
        destruct (is_active_token_of email r0) eqn:E; [|done]. exfalso. apply Hne. simpl.
        by apply andb_true_iff in E as [?%bool_decide_eq_true_1 _].
      * intros Hj. rewrite lookup_insert_ne; [|intros <-; apply Hw in Hj; lia]. unfold rows.
        rewrite lookup_fmap, Hj. simpl. unfold is_active_token_of. by rewrite bool_decide_eq_false_2.
  - assert (e = UniqueViolation ∧ ∃ j r, t_robot_tokens d !! j = Some r ∧ rt_token_hash r = h) as [-> Hh].
    { unfold insert_robot_token in Hi. destruct (exists_row _ _) eqn:E.
      - injection Hi as <-. split; [done|]. apply existsb_spec in E as (r & Hin & Hr').
        apply list_elem_of_fmap in Hin as ([j r'] & -> & Hin%elem_of_map_to_list). simpl in *.
        apply orb_true_iff in Hr' as [Hh%bool_decide_eq_true_1|Hact]; [|by destruct (Hnone j r')].
        apply Hrows in Hin as (r0 & Hr0 & ->). exists j, r0. split; [done|]. by destruct (is_active_token_of _ _).
      - simpl in Hi. rewrite Hu in Hi. done. }
    done.
Qed.
