(* ===== verification/ChannelRoutes.v ===== *)
(** * Channels and channel types (routes/channels.rs)

    The endpoints of [/api/channels] around the statements of DbChannels.v: who
    may see and change a channel, validation, and the default type. *)

From stdpp Require Import prelude gmap strings list pretty.
From S2P Require Import Prelude Async Proto Db App DbRoles DbChannels Auth AuthRoutes Admin.

Record UpdateChannelBody := mkUpdateChannelBody {
  uc_name : option string;
  uc_description : option string
}.

Record AddTypeBody := mkAddTypeBody {
  at_type_name : string;
  at_project : string;
  at_prefix_template : string
}.

Record UpdateTypeBody := mkUpdateTypeBody {
  ut_project : option string;
  ut_prefix_template : option string
}.

Record TypeResponse := mkTypeResponse {
  tr_id : Z;
  tr_type_name : string;
  tr_project : string;
  tr_prefix_template : string;
  tr_created_at : Z;
  tr_updated_at : Z
}.

Record ChannelResponse := mkChannelResponse {
  cre_id : Z;
  cre_name : string;
  cre_description : string;
  cre_default_type_id : option Z;
  cre_types : list TypeResponse;
  cre_created_at : Z;
  cre_updated_at : Z
}.

Definition type_to_response (t : ChannelTypeRecord) : TypeResponse :=
  mkTypeResponse (ctr_id t) (ctr_type_name t) (ctr_project t) (ctr_prefix_template t)
    (ctr_created_at t) (ctr_updated_at t).

Definition channel_not_found : AuthError := auth_error NOT_FOUND "channel not found".
Definition type_not_found : AuthError := auth_error NOT_FOUND "type not found".

Definition build_channel_response (channel : ChannelRecord) : async (result ChannelResponse AuthError) :=
  let? types := query (list_types_for_channel (cr_id channel))
    map_err internal "failed to list channel types" in
  Ret (Ok (mkChannelResponse (cr_id channel) (cr_name channel) (cr_description channel)
             (cr_default_type_id channel) (type_to_response <$> types) (cr_created_at channel)
             (cr_updated_at channel))).

(** An assignment that makes a channel visible: one without scopes, or with a
    channel scope that covers it. *)
Definition assignment_shows (channel_name : string) (a : AssignmentWithScopes) : bool :=
  match as_scopes a with
  | [] => true
  | scopes => existsb (λ s, bool_decide (scope_type s = "channel")
                            && scope_covers_channel (pattern s) channel_name) scopes
  end.

Definition user_can_view_channel (user : AuthUser) (channel_name : string) : async (result bool AuthError) :=
  if has_cap user "*" || has_cap user "channels:manage" || has_cap user "channels:view"
  then Ret (Ok true)
  else
    let? assignments := get_user_assignments_with_scopes (au_email user)
      map_err internal "failed to check channel visibility" in
    Ret (Ok (existsb (assignment_shows channel_name) assignments)).

Definition create_channel_route (user : AuthUser) (name description : string)
    : async (result (StatusCode * ChannelResponse) AuthError) :=
  require_cap user "channels:manage" (
    if bool_decide (name = "") then Ret (Err (auth_error BAD_REQUEST "channel name must not be empty"))
    else
      let? id := query (create_channel name description)
        map_err (λ e, if is_unique_violation e
                      then auth_error CONFLICT ("channel '" +:+ name +:+ "' already exists")
                      else internal "failed to create channel" e) in
      let? channel := query (get_channel_by_id id) map_err internal "database error" in
      match channel with
      | None => Ret (Err (internal "channel not found after create" ()))
      | Some channel =>
          let? resp := build_channel_response channel map_err Datatypes.id in
          Ret (Ok (CREATED, resp))
      end).

(** The visible ones among the channels, one after the other. *)
Fixpoint visible_channels (user : AuthUser) (channels : list ChannelRecord)
    : async (result (list ChannelResponse) AuthError) :=
  match channels with
  | [] => Ret (Ok [])
  | channel :: channels =>
      let? visible := user_can_view_channel user (cr_name channel) map_err id in
      let? here := (if visible : bool
                    then let? resp := build_channel_response channel map_err id in Ret (Ok [resp])
                    else Ret (Ok [])) map_err id in
      let? rest := visible_channels user channels map_err id in
      Ret (Ok (here ++ rest))
  end.

Definition list_channels_route (user : AuthUser) : async (result (list ChannelResponse) AuthError) :=
  let? channels := query list_active_channels map_err internal "failed to list channels" in
  visible_channels user channels.

Definition get_channel_route (user : AuthUser) (id : Z) : async (result ChannelResponse AuthError) :=
  let? channel := found channel_not_found (get_channel_by_id id) map_err Datatypes.id in
  let? visible := user_can_view_channel user (cr_name channel) map_err Datatypes.id in
  if negb visible then Ret (Err channel_not_found)
  else build_channel_response channel.

Definition update_channel_route (user : AuthUser) (id : Z) (body : UpdateChannelBody)
    : async (result ChannelResponse AuthError) :=
  require_cap user "channels:manage" (
    let? existing := found channel_not_found (get_channel_by_id id) map_err Datatypes.id in
    let name := default (cr_name existing) (uc_name body) in
    let description := default (cr_description existing) (uc_description body) in
    if bool_decide (name = "") then Ret (Err (auth_error BAD_REQUEST "channel name must not be empty"))
    else
      do? query (update_channel id name description)
        map_err (λ e, if is_unique_violation e
                      then auth_error CONFLICT ("channel name '" +:+ name +:+ "' already in use")
                      else internal "failed to update channel" e) in
      let? channel := found (auth_error NOT_FOUND "channel not found after update")
                        (get_channel_by_id id) map_err Datatypes.id in
      build_channel_response channel).

Definition delete_channel_route (user : AuthUser) (id : Z) : async (result string AuthError) :=
  require_cap user "channels:manage" (
    let? deleted := query (soft_delete_channel id) map_err internal "failed to delete channel" in
    if negb deleted then Ret (Err channel_not_found)
    else Ret (Ok ("channel " +:+ pretty id +:+ " deleted"))).

Definition add_type_route (user : AuthUser) (channel_id : Z) (body : AddTypeBody)
    : async (result (StatusCode * TypeResponse) AuthError) :=
  require_cap user "channels:manage" (
    if negb (known_type_name (at_type_name body)) then
      Ret (Err (auth_error BAD_REQUEST ("invalid type_name '" +:+ at_type_name body
                  +:+ "': must be one of dev, release, test, ci")))
    else
      let? channel := found channel_not_found (get_channel_by_id channel_id) map_err id in
      let? type_id := query (create_type channel_id (at_type_name body) (at_project body)
                               (at_prefix_template body))
        map_err (λ e, if is_unique_violation e
                      then auth_error CONFLICT ("type '" +:+ at_type_name body
                             +:+ "' already exists for channel '" +:+ cr_name channel +:+ "'")
                      else internal "failed to create type" e) in
      do* (if bool_decide (cr_default_type_id channel = None)
           then let* _ := query (set_default_type channel_id type_id) in Ret ()
           else Ret ()) in
      let? ct := query (get_type type_id) map_err internal "database error" in
      match ct with
      | None => Ret (Err (internal "type not found after create" ()))
      | Some ct => Ret (Ok (CREATED, type_to_response ct))
      end).

(** The type, when it belongs to the channel; [foreign] is the answer when it
    belongs to another one. *)
Definition type_of_channel (channel_id tid : Z) (foreign : StatusCode)
    : async (result ChannelTypeRecord AuthError) :=
  do? found channel_not_found (get_channel_by_id channel_id) map_err id in
  let? existing := found type_not_found (get_type tid) map_err id in
  if bool_decide (ctr_channel_id existing = channel_id) then Ret (Ok existing)
  else Ret (Err (auth_error foreign "type does not belong to this channel")).

Definition update_type_route (user : AuthUser) (channel_id tid : Z) (body : UpdateTypeBody)
    : async (result TypeResponse AuthError) :=
  require_cap user "channels:manage" (
    let? existing := type_of_channel channel_id tid NOT_FOUND map_err id in
    let project := default (ctr_project existing) (ut_project body) in
    let prefix_template := default (ctr_prefix_template existing) (ut_prefix_template body) in
    do? query (update_type tid project prefix_template) map_err internal "failed to update type" in
    let? ct := found (auth_error NOT_FOUND "type not found after update") (get_type tid) map_err id in
    Ret (Ok (type_to_response ct))).

Definition delete_type_route (user : AuthUser) (channel_id tid : Z) : async (result string AuthError) :=
  require_cap user "channels:manage" (
    do? type_of_channel channel_id tid NOT_FOUND map_err id in
    let? deleted := query (soft_delete_type tid) map_err internal "failed to delete type" in
    if negb deleted then Ret (Err type_not_found)
    else Ret (Ok ("type " +:+ pretty tid +:+ " deleted"))).

Definition set_default_type_route (user : AuthUser) (channel_id type_id : Z)
    : async (result string AuthError) :=
  require_cap user "channels:manage" (
    do? type_of_channel channel_id type_id BAD_REQUEST map_err id in
    do? query (set_default_type channel_id type_id) map_err internal "failed to set default type" in
    Ret (Ok ("default type set to " +:+ pretty type_id))).
