(* ===== verification/Routes.v ===== *)
(** * Build submission, listing and revocation (routes/builds.rs)

    The handlers of [/api/builds]: [insert_build_internal], which the scheduler
    shares, the submission with its permission checks, and the revocation. *)

From stdpp Require Import prelude gmap strings list pretty.
From S2P Require Import Prelude Async Proto Queue Db App Auth DbRoles DbChannels.
From S2P Require Import Channels Components Logs Dispatch.

Record SubmitBuildBody := mkSubmitBody { sb_descriptor : BuildDescriptor; sb_priority : Priority }.

Record SubmitBuildResponse := mkSubmitResponse {
  sr_id : Z;
  sr_state : string;
  sr_is_robot : bool;
  sr_warning : option string
}.

Record ListBuildsQuery := mkListQuery { lq_user : option string; lq_state : option string }.

(** [descriptor.signed_off_by] overwritten with the authenticated user. *)
Definition sign_off (u : AuthUser) (d : BuildDescriptor) : BuildDescriptor :=
  mkDescriptor (bd_version d) (bd_channel d) (bd_version_type d)
    (mkSignedOffBy (au_name u) (au_email u)) (bd_dst_image d) (bd_components d) (bd_build d).

(** The scope checks of the components with a repository of their own. *)
Definition repository_checks (d : BuildDescriptor) : list (ScopeType * string) :=
  omap (λ comp, (λ repo, (ScopeRepository, repo)) <$> bc_repo comp) (bd_components d).

Section Routes.
Context `{Env} `{HashIter} `{Serde} (components : list ComponentInfo).

(** The critical section of the insertion: enqueue and count. *)
Definition enqueue_and_count (b : QueuedBuild) (q : BuildQueue) : nat * BuildQueue :=
  let q := enqueue b q in
  let '(h, n, l) := pending_counts q in
  (h + n + l, q).

Definition insert_build_internal (descriptor : BuildDescriptor) (user_email : string)
    (priority : Priority) (periodic_task_id : option string)
    (channel_id channel_type_id : option Z) : async (result (Z * nat) string) :=
  let descriptor_json := descriptor_to_json descriptor in
  let priority_str := priority_to_string priority in
  let* inserted := query (insert_build descriptor_json user_email priority_str periodic_task_id
                            channel_id channel_type_id) in
  match inserted with
  | Err e => Ret (Err ("failed to insert build: " +:+ sql_error_text e))
  | Ok build_id =>
      let log_path := "builds/" +:+ pretty build_id +:+ ".log" in
      let* logged := query (insert_build_log_row build_id log_path) in
      match logged with
      | Err e => Ret (Err ("failed to insert build_logs row: " +:+ sql_error_text e))
      | Ok _ =>
          let* queued_at := now in
          let queued_build := mkQueued (mkBuildId build_id) priority descriptor user_email queued_at in
          let* pending_count := with_queue (enqueue_and_count queued_build) in
          do* spawn TaskTryDispatch in
          Ret (Ok (build_id, pending_count))
      end
  end.

(** The repository scope checks, when there are any. *)
Definition check_repository_scopes (user : AuthUser) (d : BuildDescriptor)
    : async (result unit AuthError) :=
  match repository_checks d with
  | [] => Ret (Ok ())
  | scope_checks => require_scopes_all user scope_checks
  end.

Definition submit_build (user : AuthUser) (body : SubmitBuildBody)
    : async (result (StatusCode * SubmitBuildResponse) AuthError) :=
  if negb (has_cap user "builds:create") then
    Ret (Err (auth_error FORBIDDEN "missing required capability: builds:create"))
  else
  match validate_descriptor (sb_descriptor body) components with
  | Err e => Ret (Err (auth_error BAD_REQUEST (validation_error_to_string e)))
  | Ok _ =>
  let* scoped := check_repository_scopes user (sb_descriptor body) in
  match scoped with
  | Err e => Ret (Err e)
  | Ok _ =>
  let descriptor := sign_off user (sb_descriptor body) in
  let* user_record := query (get_user (au_email user)) in
  match user_record with
  | Err _ => Ret (Err (auth_error INTERNAL_SERVER_ERROR "database error"))
  | Ok None => Ret (Err (auth_error INTERNAL_SERVER_ERROR "user record not found"))
  | Ok (Some user_record) =>
  let* resolved := resolve_and_rewrite descriptor user_record in
  match resolved with
  | Err e => Ret (Err (auth_error BAD_REQUEST e))
  | Ok (resolved, descriptor) =>
  if ur_is_robot user_record && prefix_template_contains_username (rc_prefix_template resolved)
  then Ret (Err (auth_error BAD_REQUEST
         "robot accounts cannot submit builds to channels that use the ${username} prefix template"))
  else
  let* inserted := insert_build_internal descriptor (au_email user) (sb_priority body) None
                     (Some (rc_channel_id resolved)) (Some (rc_channel_type_id resolved)) in
  match inserted with
  | Err e => Ret (Err (auth_error INTERNAL_SERVER_ERROR e))
  | Ok (build_id, pending_count) =>
      let warning := if (1 <? pending_count)
                     then Some (pretty pending_count +:+ " build(s) in queue") else None in
      Ret (Ok (ACCEPTED, mkSubmitResponse build_id "queued" (au_is_robot user) warning))
  end end end end end.

Definition list_builds_route (user : AuthUser) (params : ListBuildsQuery)
    : async (result (list BuildListRecord) AuthError) :=
  let can_list_any := has_cap user "builds:list:any" in
  let can_list_own := has_cap user "builds:list:own" in
  if negb can_list_any && negb can_list_own then
    Ret (Err (auth_error FORBIDDEN
      "missing required capability: builds:list:own or builds:list:any"))
  else
    let user_filter := if can_list_any then lq_user params else Some (au_email user) in
    let* builds := query (list_builds user_filter (lq_state params)) in
    match builds with
    | Err _ => Ret (Err (auth_error INTERNAL_SERVER_ERROR "failed to list builds"))
    | Ok builds => Ret (Ok builds)
    end.

(** The lookup and the [:own]/[:any] gate that the view and log endpoints share. *)
Definition get_build_route (user : AuthUser) (id : Z) : async (result BuildRecord AuthError) :=
  let* build := query (get_build id) in
  match build with
  | Err _ => Ret (Err (auth_error INTERNAL_SERVER_ERROR "database error"))
  | Ok None => Ret (Err (auth_error NOT_FOUND "build not found"))
  | Ok (Some build) =>
      if has_cap user "builds:list:any" then Ret (Ok build)
      else if negb (has_cap user "builds:list:own") then
        Ret (Err (auth_error FORBIDDEN
          "missing required capability: builds:list:own or builds:list:any"))
      else if negb (bool_decide (rec_user_email build = au_email user)) then
        Ret (Err (auth_error NOT_FOUND "build not found"))
      else Ret (Ok build)
  end.

Definition revoke_build (user : AuthUser) (id : Z) : async (result string AuthError) :=
  let can_revoke_any := has_cap user "builds:revoke:any" in
  let can_revoke_own := has_cap user "builds:revoke:own" in
  if negb can_revoke_any && negb can_revoke_own then
    Ret (Err (auth_error FORBIDDEN
      "missing required capability: builds:revoke:own or builds:revoke:any"))
  else
  let* build := query (get_build id) in
  match build with
  | Err _ => Ret (Err (auth_error INTERNAL_SERVER_ERROR "database error"))
  | Ok None => Ret (Err (auth_error NOT_FOUND "build not found"))
  | Ok (Some build) =>
  if negb can_revoke_any && negb (bool_decide (rec_user_email build = au_email user)) then
    Ret (Err (auth_error NOT_FOUND "build not found"))
  else
  match rec_state build with
  | Queued =>
      do* modify_queue (λ q, (remove_by_id (mkBuildId id) q).2) in
      let* updated := query (update_build_state id Revoked None) in
      match updated with
      | Err _ => Ret (Err (auth_error INTERNAL_SERVER_ERROR "database error"))
      | Ok _ => Ret (Ok ("build " +:+ pretty id +:+ " revoked"))
      end
  | Dispatched | Started =>
      let* sent := send_build_revoke id in
      match sent with
      | Err _ => Ret (Err (auth_error INTERNAL_SERVER_ERROR "failed to send revoke"))
      | Ok _ => Ret (Ok ("build " +:+ pretty id +:+ " revoke sent — now revoking"))
      end
  | Revoking => Ret (Ok ("build " +:+ pretty id +:+ " already revoking"))
  | Success | Failure | Revoked =>
      Ret (Err (auth_error CONFLICT
        ("build already in terminal state: " +:+ build_state_to_string (rec_state build))))
  end
  end.

End Routes.
