(* ===== verification/Submission.v ===== *)
(** * Submission and revocation by users refine the lifecycle

    The handlers of routes/builds.rs against the specification of Lifecycle.v,
    and what an accepted submission implies. *)

From stdpp Require Import prelude gmap strings list relations pretty.
From S2P Require Import Prelude Async Proto Queue Db App Auth DbRoles DbChannels.
From S2P Require Import Channels Components Logs Dispatch Handler Lifecycle Coherence.
From S2P Require Import Refinement Routes.

Section Submission.
Context `{HEnv : Env} `{HHash : HashIter} `{HSerde : Serde} (components : list ComponentInfo).

Lemma pending_counts_sum q :
  let '(h, n, l) := pending_counts q in h + n + l = length (pending q).
Proof. unfold pending_counts, pending. rewrite !length_app. lia. Qed.

Lemma enqueue_and_count_spec b q :
  enqueue_and_count b q = (S (length (pending q)), enqueue b q).
Proof.
  unfold enqueue_and_count. pose proof (pending_counts_sum (enqueue b q)) as Hs.
  destruct (pending_counts (enqueue b q)) as [[h n] l]. rewrite Hs. f_equal.
  by rewrite pending_enqueue_perm.
Qed.

(** The row of a new build. *)
Definition new_row (id : Z) (d : BuildDescriptor) (email : string) (p : Priority)
    (task : option string) (cid tid : option Z) (t : Z) : BuildRow :=
  mkBuildRow id (descriptor_to_json d) 1 email (priority_to_string p) task cid tid t t
    Queued None None None None None None.

(** The effect of an insertion that the database accepts. *)
Record inserted (s : AppState) (d : BuildDescriptor) (email : string) (p : Priority)
    (task : option string) (cid tid : option Z) (s' : AppState) : Prop := mkInserted {
  ins_builds : t_builds (pool s') =
    <[t_next_build_id (pool s) := new_row (t_next_build_id (pool s)) d email p task cid tid (clock s)]>
      (t_builds (pool s));
  ins_ids : ids s' = ((ids s).1 + 1, {[(ids s).1]} ∪ (ids s).2)%Z;
  ins_log : bl_finished <$> t_build_logs (pool s') !! t_next_build_id (pool s) = Some false;
  ins_queue : queue s' =
    enqueue (mkQueued (mkBuildId (t_next_build_id (pool s))) p d email (clock s)) (queue s);
  ins_spawned : spawned s' = spawned s ++ [TaskTryDispatch];
  ins_faults : faults s' = []
}.

Lemma insert_build_internal_ok s d email p task cid tid :
  Coh s → build_references_exist email task cid tid (pool s) = true →
  ∃ s', run (insert_build_internal d email p task cid tid) s =
          (Ok (t_next_build_id (pool s), S (length (pending (queue s)))), s') ∧
        inserted s d email p task cid tid s'.
Proof.
  intros [Hc Hf] Href. unfold insert_build_internal.
  rewrite run_bind, run_query, exec_stmt_no_fault by done. unfold insert_build at 1. rewrite Href.
  cbn [fst snd]. unfold insert_build. rewrite Href. cbn [fst snd].
  rewrite run_bind, run_query, exec_stmt_no_fault by done. unfold insert_build_log_row. simpl.
  assert (t_build_logs (pool s) !! t_next_build_id (pool s) = None) as Hl.
  { apply not_elem_of_dom. intros Hin. apply (coh_logs _ _ _ Hc) in Hin. simpl in Hin. lia. }
  rewrite Hl, lookup_insert_eq. simpl.
  rewrite run_bind. unfold now. rewrite run_atomic. cbn [fst snd].
  rewrite run_bind, run_with_queue, !enqueue_and_count_spec. cbn [fst snd].
  rewrite run_bind. unfold spawn. rewrite run_atomic. cbn [fst snd]. rewrite run_ret.
  eexists. split; [done|]. split; simpl; try done.
  - unfold ids, db_ids. simpl. by rewrite dom_insert_L.
  - by rewrite lookup_insert_eq.
Qed.

Lemma insert_build_internal_err s d email p task cid tid :
  faults s = [] → build_references_exist email task cid tid (pool s) = false →
  ∃ e, run (insert_build_internal d email p task cid tid) s = (Err e, s).
Proof.
  intros Hf Href. unfold insert_build_internal.
  rewrite run_bind, run_query, exec_stmt_no_fault by done. unfold insert_build. rewrite Href.
  cbn [fst snd]. rewrite upd_pool_id. by eexists.
Qed.

Lemma inserted_states s d email p task cid tid s' :
  inserted s d email p task cid tid s' →
  states s' = <[(ids s).1 := Queued]> (states s).
Proof. intros [Hb _ _ _ _ _]. unfold states. rewrite Hb. by rewrite fmap_insert. Qed.

Lemma refines_insert P d email p task cid tid :
  refines P (insert_build_internal d email p task cid tid).
Proof.
  intros s Hs _. destruct (build_references_exist email task cid tid (pool s)) eqn:Href.
  - destruct (insert_build_internal_ok s d email p task cid tid Hs Href) as (s' & -> & Hi).
    simpl. pose proof (inserted_states _ _ _ _ _ _ _ _ Hi) as Hst. destruct Hi, Hs as [Hc Hf].
    unfold Coh. rewrite Hst, ins_ids0, ins_queue0. split.
    + split; [|done]. by apply (coh_submit Hc).
    + apply rtc_once. constructor.
      replace (states s !! (ids s).1) with (@None BuildState); [constructor|]. symmetry.
      apply eq_None_not_Some. intros Hi. apply (coh_ids _ _ _ Hc) in Hi. lia.
  - destruct (insert_build_internal_err s d email p task cid tid (proj2 Hs) Href) as (e & ->).
    split; [done|apply rtc_refl].
Qed.

(** ** Statements that only read *)

Lemma refines_read {A B} P (st : stmt A) (k : result A SqlError → async B) :
  keeps_builds st → (∀ r, refines (λ _, True) (k r)) → refines P (bind (query st) k).
Proof. intros Hst Hk. apply refines_seq; [apply refines_eff_id; auto with eff|done]. Qed.

Lemma keeps_reads {A} (st : stmt A) : reads st → keeps_builds st.
Proof. intros Hr t d. by rewrite Hr. Qed.

Lemma eff_assignments email : eff (get_user_assignments_with_scopes email) id id.
Proof.
  apply eff_bind_id; [by apply eff_query_keeps|]. intros []; [|apply eff_ret].
  apply eff_bind_id; [by apply eff_query_keeps|]. intros []; apply eff_ret.
Qed.

Lemma eff_require_scopes u checks : eff (require_scopes_all u checks) id id.
Proof. apply eff_bind_id; [apply eff_assignments|]. intros []; [case_match|]; apply eff_ret. Qed.

Lemma eff_lookup_or {A} what missing (st : stmt (option A)) :
  reads st → eff (lookup_or what missing st) id id.
Proof.
  intros Hr. apply eff_bind_id; [by apply eff_query_keeps, keeps_reads|].
  intros [[]|]; apply eff_ret.
Qed.

Lemma eff_resolve descr u : eff (resolve_and_rewrite descr u) id id.
Proof.
  apply eff_bind_id.
  { unfold resolve_channel. repeat case_match; first [by apply eff_lookup_or|apply eff_ret]. }
  intros [c|]; [|apply eff_ret]. apply eff_bind_id.
  { unfold resolve_type_name. case_match; [apply eff_ret|]. case_match; [|apply eff_ret].
    apply eff_bind_id; [by apply eff_lookup_or|]. intros []; apply eff_ret. }
  intros [ty|]; [|apply eff_ret]. apply eff_bind_id; [by apply eff_lookup_or|].
  intros [r|]; [|apply eff_ret]. apply eff_bind_id.
  { apply eff_bind_id; [apply eff_assignments|]. intros []; apply eff_ret. }
  intros [[]|]; apply eff_ret.
Qed.

(** ** The handlers *)

Lemma refines_submit P u body : refines P (submit_build components u body).
Proof.
  unfold submit_build. case_match; [auto with eff|]. case_match; [|auto with eff].
  apply refines_seq.
  { unfold check_repository_scopes. case_match; [auto with eff|].
    apply refines_eff_id, eff_require_scopes. }
  intros []; [|auto with eff]. apply refines_read; [done|]. intros [[ur|]|]; [|auto with eff..].
  apply refines_seq; [apply refines_eff_id, eff_resolve|]. intros [[rc descr]|]; [|auto with eff].
  case_match; [auto with eff|]. apply refines_seq; [apply refines_insert|].
  intros [[]|]; auto with eff.
Qed.

(** The cancellation of a queued build. *)
Lemma refines_cancel i b :
  rec_state b = Queued →
  refines (found i (Ok (Some b)))
    (do* modify_queue (λ q, (remove_by_id (mkBuildId i) q).2) in
     query (update_build_state i Revoked None)).
Proof.
  intros Hb s [Hc Hf] Hfound. specialize (Hfound b eq_refl). rewrite Hb in Hfound.
  assert (eff (do* modify_queue (λ q, (remove_by_id (mkBuildId i) q).2) in
               query (update_build_state i Revoked None))
              (alter (λ _, Revoked) i) (λ q, (remove_by_id (mkBuildId i) q).2)) as He.
  { refine (eff_bind _ _ id (λ q, (remove_by_id (mkBuildId i) q).2) (alter (λ _, Revoked) i) id _ _);
      auto with eff. }
  destruct (He s Hf) as (H1 & H2 & H3 & H4). rewrite (alter_state _ _ _ _ Hfound) in H1.
  unfold Coh. rewrite H1, H2, H3. split.
  - split; [|done]. apply (coh_cancel Hc); [done|]. unfold terminal. auto.
  - apply rtc_once. constructor. rewrite Hfound. constructor.
Qed.

Lemma refines_revoke P u i : refines P (revoke_build u i).
Proof.
  unfold revoke_build. cbv zeta. case_match; [auto with eff|].
  apply refines_get_build. intros [[b|]|e]; [|auto with eff..]. case_match; [auto with eff|].
  destruct (rec_state b) eqn:Hb; auto with eff.
  - apply refines_assoc, refines_seq; [by apply refines_cancel|]. intros []; auto with eff.
  - apply refines_seq; [apply refines_send_build_revoke|]. intros []; auto with eff.
  - apply refines_seq; [apply refines_send_build_revoke|]. intros []; auto with eff.
Qed.

End Submission.
