(* ===== verification/Recovery.v ===== *)
(** * Startup recovery (queue/recovery.rs)

    What the server makes of the builds a previous run left in the database,
    before it accepts connections. *)

From stdpp Require Import prelude gmap strings list relations sorting.
From S2P Require Import Prelude Async Proto Queue Db App Dispatch Lifecycle Coherence.

(** The loop [for row in rows { ...? }]: stops at the first error. *)
Fixpoint try_each {S A E} (l : list A) (f : A → prog S (result unit E)) : prog S (result unit E) :=
  match l with
  | [] => Ret (Ok ())
  | x :: l =>
      let* r := f x in
      match r with
      | Err e => Ret (Err e)
      | Ok _ => try_each l f
      end
  end.

(** [SELECT id FROM builds WHERE state ...]. *)
Definition selected_ids (p : BuildState → bool) (d : Db) : list Z :=
  br_id <$> filter (λ r, p (br_state r) = true) (rows_by id_asc d).
Definition select_ids (p : BuildState → bool) : stmt (list Z) := λ _ d, (Ok (selected_ids p d), d).

Definition is_dispatched_or_started (st : BuildState) : bool :=
  match st with Dispatched | Started => true | _ => false end.
Definition is_revoking (st : BuildState) : bool :=
  match st with Revoking => true | _ => false end.
Definition is_queued (st : BuildState) : bool :=
  match st with Queued => true | _ => false end.

(** [SELECT ... WHERE state = 'queued' ORDER BY queued_at ASC]. *)
Definition queued_rows (d : Db) : list BuildRow :=
  filter (λ r, is_queued (br_state r) = true) (rows_by queued_asc d).
Definition select_queued : stmt (list BuildRow) := λ _ d, (Ok (queued_rows d), d).

(** [SET state = 'failure', error = ?, finished_at = unixepoch()]. *)
Definition fail_build (id : Z) (error : string) : stmt bool :=
  λ now d, update_build id (λ r,
    update_row r Failure (br_worker_id r) (br_trace_id r) (Some error)
      (br_started_at r) (Some now) (br_build_report r)) d.

(** [SET state = 'revoked', finished_at = unixepoch()]. *)
Definition finish_revoked (id : Z) : stmt bool :=
  λ now d, update_build id (λ r,
    update_row r Revoked (br_worker_id r) (br_trace_id r) (br_error r)
      (br_started_at r) (Some now) (br_build_report r)) d.

Definition parse_priority (priority_str : string) : Priority :=
  if bool_decide (priority_str = "high") then High
  else if bool_decide (priority_str = "low") then Low
  else Normal.

(** What the tables satisfy whenever the server stops: rows under their own ids,
    and ids below the sequence. *)
Record db_wf (d : Db) : Prop := mkDbWf {
  dwf_key : ∀ i r, t_builds d !! i = Some r → br_id r = i;
  dwf_ids : ∀ i, is_Some (t_builds d !! i) → (i < t_next_build_id d)%Z;
  dwf_logs : ∀ i, is_Some (t_build_logs d !! i) → (i < t_next_build_id d)%Z
}.

Section Recovery.
Context `{HEnv : Env} `{HHash : HashIter} `{HSerde : Serde}.

(** One row of steps 1 and 2: the terminal state, then the log row. *)
Definition finalize (terminal_stmt : Z → stmt bool) (id : Z) : async (result unit SqlError) :=
  let* r := query (terminal_stmt id) in
  match r with
  | Err e => Ret (Err e)
  | Ok _ => query (set_build_log_finished id)
  end.

(** One row of step 3. *)
Definition requeue (row : BuildRow) : async (result unit SqlError) :=
  match descriptor_of_json (br_descriptor row) with
  | None =>
      let* r := query (fail_build (br_id row) "corrupt descriptor (recovery)") in
      match r with
      | Err e => Ret (Err e)
      | Ok _ => Ret (Ok ())
      end
  | Some descriptor =>
      do* modify_queue (enqueue (mkQueued (mkBuildId (br_id row)) (parse_priority (br_priority row))
                                   descriptor (br_user_email row) (br_queued_at row))) in
      Ret (Ok ())
  end.

(** Steps 1 and 2: every build with one of the states, one by one. *)
Definition finalize_state (p : BuildState → bool) (terminal_stmt : Z → stmt bool)
    : async (result unit SqlError) :=
  let* rows := query (select_ids p) in
  match rows with
  | Err e => Ret (Err e)
  | Ok rows => try_each rows (finalize terminal_stmt)
  end.

Definition run_startup_recovery : async (result unit SqlError) :=
  let* r := finalize_state is_dispatched_or_started (λ id, fail_build id "server restarted") in
  match r with Err e => Ret (Err e) | Ok _ =>
  let* r := finalize_state is_revoking finish_revoked in
  match r with Err e => Ret (Err e) | Ok _ =>
  let* queued_rows := query select_queued in
  match queued_rows with Err e => Ret (Err e) | Ok queued_rows =>
  let* r := try_each queued_rows requeue in
  match r with Err e => Ret (Err e) | Ok _ =>
  do* atomic (λ s, ((), upd_watchers ∅ s)) in
  Ret (Ok ())
  end end end end.

(** ** What recovery does to a row and to the queue *)

Definition fail_row (now : Z) (error : string) (r : BuildRow) : BuildRow :=
  update_row r Failure (br_worker_id r) (br_trace_id r) (Some error)
    (br_started_at r) (Some now) (br_build_report r).
Definition revoke_row (now : Z) (r : BuildRow) : BuildRow :=
  update_row r Revoked (br_worker_id r) (br_trace_id r) (br_error r)
    (br_started_at r) (Some now) (br_build_report r).

Definition queued_of_row (row : BuildRow) : option QueuedBuild :=
  (λ d, mkQueued (mkBuildId (br_id row)) (parse_priority (br_priority row)) d
          (br_user_email row) (br_queued_at row)) <$> descriptor_of_json (br_descriptor row).

Definition recovered (now : Z) (r : BuildRow) : BuildRow :=
  match br_state r with
  | Dispatched | Started => fail_row now "server restarted" r
  | Revoking => revoke_row now r
  | Queued => match descriptor_of_json (br_descriptor r) with
              | Some _ => r
              | None => fail_row now "corrupt descriptor (recovery)" r
              end
  | _ => r
  end.

(** [m'] is [m] with [f] applied to the rows of [l]. *)
Definition mapped_on (l : list Z) (f : BuildRow → BuildRow) (m m' : gmap Z BuildRow) : Prop :=
  ∀ i, m' !! i = (if bool_decide (i ∈ l) then f else id) <$> m !! i.

Lemma mapped_on_nil f m : mapped_on [] f m m.
Proof. intros i. rewrite bool_decide_eq_false_2 by apply not_elem_of_nil. by destruct (m !! i). Qed.

Lemma mapped_on_cons x l f m m' m'' :
  (∀ r, f (f r) = f r) → m' = alter f x m → mapped_on l f m' m'' → mapped_on (x :: l) f m m''.
Proof.
  intros Hf -> Hm i. rewrite Hm, lookup_alter. case_decide as Hx.
  - subst. rewrite (bool_decide_eq_true_2 (i ∈ i :: l)) by by left.
    destruct (m !! i); [|done]. simpl. case_bool_decide; simpl; by rewrite ?Hf.
  - destruct (decide (i ∈ l)).
    + rewrite !bool_decide_eq_true_2; [done|by right|done].
    + rewrite !bool_decide_eq_false_2; [done| |done]. by intros [?|?]%elem_of_cons.
Qed.

(** What stays the same in steps 1 and 2. *)
Definition same_rest (s s' : AppState) : Prop :=
  ids s' = ids s ∧ queue s' = queue s ∧ faults s' = [] ∧ clock s' = clock s.

(** The log rows of [l] are finished, the others are as before. *)
Definition logs_finished (l : list Z) (s s' : AppState) : Prop :=
  ∀ i, bl_finished <$> t_build_logs (pool s') !! i =
       (λ log, bool_decide (i ∈ l) || bl_finished log) <$> t_build_logs (pool s) !! i.

Lemma finalize_run st f i s :
  (∀ t d, st i t d = update_build i (f t) d) → faults s = [] →
  ∃ s', run (finalize st i) s = (Ok (), s') ∧ same_rest s s' ∧
    t_builds (pool s') = alter (f (clock s)) i (t_builds (pool s)) ∧ logs_finished [i] s s'.
Proof.
  intros Hst Hf. unfold finalize. rewrite run_bind, run_query, exec_stmt_no_fault by done.
  rewrite Hst. cbn [fst snd].
  assert (∃ b, (update_build i (f (clock s)) (pool s)).1 = Ok b) as [b ->].
  { unfold update_build. case_match; by eexists. }
  rewrite run_query, exec_stmt_no_fault by done. cbn [fst snd].
  destruct (update_log_keeps i (λ l, mkBuildLogRow (bl_log_path l) (bl_log_size l) true (clock s))
              (update_build i (f (clock s)) (pool s)).2) as [Hb Hi].
  eexists. split; [done|]. unfold same_rest. split_and!; try done.
  - etrans; [exact Hi|]. unfold ids, db_ids, update_build. by case_match.
  - etrans; [exact Hb|]. apply update_build_alter.
  - intros j. simpl.
    assert (t_build_logs (update_build i (f (clock s)) (pool s)).2 = t_build_logs (pool s)) as Hl.
    { unfold update_build. by case_match. }
    unfold update_log. rewrite Hl. destruct (t_build_logs (pool s) !! i) as [l0|] eqn:E; simpl; rewrite ?Hl.
    + rewrite lookup_insert. case_decide as Hd.
      * subst. rewrite E. simpl. by rewrite bool_decide_eq_true_2 by by left.
      * rewrite bool_decide_eq_false_2; [done|]. set_solver.
    + destruct (decide (j = i)) as [->|Hd]; [by rewrite E|].
      rewrite bool_decide_eq_false_2; [done|]. set_solver.
Qed.

Lemma finalize_all st f l s :
  (∀ i t d, st i t d = update_build i (f t) d) → (∀ t r, f t (f t r) = f t r) → faults s = [] →
  ∃ s', run (try_each l (finalize st)) s = (Ok (), s') ∧ same_rest s s' ∧
    mapped_on l (f (clock s)) (t_builds (pool s)) (t_builds (pool s')) ∧ logs_finished l s s'.
Proof.
  intros Hst Hff. revert s. induction l as [|i l IH]; intros s Hf; simpl.
  - exists s. split_and!; [done|done|apply mapped_on_nil|]. intros j.
    rewrite bool_decide_eq_false_2 by apply not_elem_of_nil. by destruct (t_build_logs (pool s) !! j).
  - rewrite run_bind.
    destruct (finalize_run st f i s (Hst i) Hf) as (s1 & -> & (R1 & R2 & R3 & R4) & Hb & Hl). cbn [fst snd].
    destruct (IH s1 R3) as (s2 & -> & (Q1 & Q2 & Q3 & Q4) & Hb2 & Hl2).
    exists s2. split_and!; [done| |by eapply mapped_on_cons; [| |rewrite <- R4]|].
    + unfold same_rest. rewrite Q1, Q2, Q4. done.
    + intros j. rewrite (Hl2 j). destruct (t_build_logs (pool s) !! j) as [l0|] eqn:E.
      * specialize (Hl j). rewrite E in Hl. destruct (t_build_logs (pool s1) !! j); [|done].
        simpl in *. injection Hl as ->. f_equal.
        destruct (decide (j = i)) as [->|Hd].
        -- rewrite (bool_decide_eq_true_2 (i ∈ [i])) by by left.
           rewrite (bool_decide_eq_true_2 (i ∈ i :: l)) by by left. by rewrite orb_true_r.
        -- rewrite (bool_decide_eq_false_2 (j ∈ [i])) by set_solver. simpl.
           f_equal. apply bool_decide_ext. set_solver.
      * specialize (Hl j). rewrite E in Hl. by destruct (t_build_logs (pool s1) !! j).
Qed.

Lemma requeue_all rows s :
  faults s = [] →
  ∃ s', run (try_each rows requeue) s = (Ok (), s') ∧
    ids s' = ids s ∧ faults s' = [] ∧ t_build_logs (pool s') = t_build_logs (pool s) ∧
    queue s' = foldl (λ q b, enqueue b q) (queue s) (omap queued_of_row rows) ∧
    mapped_on (br_id <$> filter (λ r, descriptor_of_json (br_descriptor r) = None) rows)
      (fail_row (clock s) "corrupt descriptor (recovery)") (t_builds (pool s)) (t_builds (pool s')).
Proof.
  revert s. induction rows as [|r rows IH]; intros s Hf; simpl.
  - exists s. split_and!; [done..|]. apply mapped_on_nil.
  - rewrite run_bind, filter_cons. destruct (descriptor_of_json (br_descriptor r)) as [d|] eqn:E.
    + set (b := mkQueued (mkBuildId (br_id r)) (parse_priority (br_priority r)) d
                  (br_user_email r) (br_queued_at r)).
      assert (queued_of_row r = Some b) as -> by (unfold queued_of_row; by rewrite E).
      assert (run (requeue r) s = (Ok (), upd_queue (enqueue b (queue s)) s)) as ->.
      { unfold requeue. rewrite E. unfold modify_queue. by rewrite run_bind, run_with_queue. }
      rewrite decide_False by done. cbn [fst snd].
      destruct (IH (upd_queue (enqueue b (queue s)) s) Hf) as (s' & -> & I). by exists s'.
    + assert (queued_of_row r = None) as -> by (unfold queued_of_row; by rewrite E).
      assert (∃ s1, run (requeue r) s = (Ok (), s1) ∧ faults s1 = [] ∧ ids s1 = ids s ∧
                clock s1 = clock s ∧ queue s1 = queue s ∧
                t_build_logs (pool s1) = t_build_logs (pool s) ∧
                t_builds (pool s1) = alter (fail_row (clock s) "corrupt descriptor (recovery)")
                                       (br_id r) (t_builds (pool s))) as (s1 & -> & F & I0 & C & Q & L & M).
      { unfold requeue. rewrite E, run_bind, run_query, exec_stmt_no_fault by done. cbn [fst snd].
        unfold fail_build, ids, db_ids. rewrite <- update_build_alter. unfold update_build.
        destruct (t_builds (pool s) !! br_id r); eexists; split_and!; done. }
      rewrite decide_True by done. cbn [fst snd].
      destruct (IH s1 F) as (s' & -> & I1 & I2 & I3 & I4 & I5). exists s'.
      rewrite I1, I2, I3, I4, I0, L, Q. split_and!; try done.
      rewrite C in I5. by eapply mapped_on_cons.
Qed.

(** ** The rows of the selections *)

Lemma elem_of_rows (key : BuildRow → BuildRow → Prop) `{∀ x y, Decision (key x y)} d r :
  db_wf d → r ∈ rows_by key d ↔ t_builds d !! br_id r = Some r.
Proof.
  intros Hd. unfold rows_by. rewrite merge_sort_Permutation, list_elem_of_fmap. split.
  - intros ([i r'] & -> & Hin). apply elem_of_map_to_list in Hin. simpl. by rewrite (dwf_key d Hd i r').
  - intros Hr. exists (br_id r, r). split; [done|]. by apply elem_of_map_to_list.
Qed.

Lemma NoDup_row_ids (key : BuildRow → BuildRow → Prop) `{∀ x y, Decision (key x y)} d :
  db_wf d → NoDup (br_id <$> rows_by key d).
Proof.
  intros Hd. unfold rows_by. rewrite merge_sort_Permutation.
  replace (br_id <$> (map_to_list (t_builds d)).*2) with (map_to_list (t_builds d)).*1;
    [apply NoDup_fst_map_to_list|].
  rewrite <- list_fmap_compose. apply list_fmap_ext. intros n [i r] Hi. simpl.
  apply list_elem_of_lookup_2, elem_of_map_to_list in Hi. by rewrite (dwf_key d Hd i r).
Qed.

Lemma elem_of_select (p : BuildState → bool) d i :
  db_wf d →
  i ∈ selected_ids p d ↔ ∃ r, t_builds d !! i = Some r ∧ p (br_state r) = true.
Proof.
  intros Hd. unfold selected_ids. rewrite list_elem_of_fmap. setoid_rewrite list_elem_of_filter. split.
  - intros (r & -> & Hp & Hr). apply elem_of_rows in Hr; eauto.
  - intros (r & Hr & Hp). exists r. rewrite elem_of_rows by done.
    pose proof (dwf_key d Hd i r Hr) as <-. done.
Qed.

Lemma mapped_on_wf l f d d' :
  db_wf d → (∀ r, br_id (f r) = br_id r) → db_ids d' = db_ids d →
  mapped_on l f (t_builds d) (t_builds d') → db_wf d'.
Proof.
  intros [H1 H2 H3] Hf Hi Hm. unfold db_ids in Hi. injection Hi as Hn Hl. split.
  - intros i r. rewrite Hm. intros (r0 & Hr0 & ->)%fmap_Some.
    case_bool_decide; simpl; rewrite ?Hf; by apply H1.
  - intros i. rewrite Hm, fmap_is_Some, Hn. apply H2.
  - intros i. rewrite Hn, <- elem_of_dom, Hl, elem_of_dom. apply H3.
Qed.

(** ** Lists of rows *)

Lemma sublist_omap_ids rows :
  (λ b, build_id_0 (qb_build_id b)) <$> omap queued_of_row rows `sublist_of` br_id <$> rows.
Proof.
  induction rows as [|r rows IH]; simpl; [done|].
  unfold queued_of_row at 1. destruct (descriptor_of_json (br_descriptor r)); simpl; by constructor.
Qed.

Lemma pending_foldl_enqueue bs q :
  pending (foldl (λ q b, enqueue b q) q bs) ≡ₚ bs ++ pending q.
Proof.
  revert q. induction bs as [|b bs IH]; intros q; simpl; [done|].
  rewrite IH, pending_enqueue_perm. by rewrite Permutation_middle.
Qed.

Lemma active_foldl_enqueue bs q : q_active (foldl (λ q b, enqueue b q) q bs) = q_active q.
Proof.
  revert q. induction bs as [|b bs IH]; intros q; simpl; [done|]. rewrite IH.
  unfold enqueue. by rewrite (proj1 (lane_set_rest _ _ _)).
Qed.

Lemma lanes_wf_foldl_enqueue bs q : lanes_wf q → lanes_wf (foldl (λ q b, enqueue b q) q bs).
Proof. revert q. induction bs as [|b bs IH]; intros q Hq; simpl; auto with cbs. Qed.

Lemma StronglySorted_omap {A B} (R : relation A) (R' : relation B) (g : A → option B) l :
  (∀ x y a b, R x y → g x = Some a → g y = Some b → R' a b) →
  StronglySorted R l → StronglySorted R' (omap g l).
Proof.
  intros Hg. induction 1 as [|x l Hl IH Hx]; simpl; [constructor|].
  destruct (g x) as [a|] eqn:E; [|done]. constructor; [done|].
  apply Forall_forall. intros b Hb. apply list_elem_of_omap in Hb as (y & Hy & Hgy).
  rewrite Forall_forall in Hx. eauto.
Qed.

Lemma StronglySorted_filter {A} (R : relation A) (P : A → Prop) `{∀ x, Decision (P x)} l :
  StronglySorted R l → StronglySorted R (filter P l).
Proof.
  induction 1 as [|x l Hl IH Hx]; [constructor|]. rewrite filter_cons. case_decide; [|done].
  constructor; [done|]. apply Forall_forall. intros y [_ Hy]%list_elem_of_filter.
  rewrite Forall_forall in Hx. auto.
Qed.

#[local] Instance queued_asc_trans : Transitive queued_asc.
Proof. intros x y z. unfold queued_asc. lia. Qed.
#[local] Instance queued_asc_total : Total queued_asc.
Proof. intros x y. unfold queued_asc. lia. Qed.

(** Whether the row of a build satisfies [p]. *)
Definition row_is (p : BuildState → bool) (d : Db) (i : Z) : bool :=
  match t_builds d !! i with Some r => p (br_state r) | None => false end.

Lemma row_is_selected p d i : db_wf d → bool_decide (i ∈ selected_ids p d) = row_is p d i.
Proof.
  intros Hd. unfold row_is. destruct (t_builds d !! i) as [r|] eqn:E.
  - destruct (p (br_state r)) eqn:Ep.
    + apply bool_decide_eq_true_2, elem_of_select; eauto.
    + apply bool_decide_eq_false_2. rewrite elem_of_select by done. naive_solver congruence.
  - apply bool_decide_eq_false_2. rewrite elem_of_select by done. naive_solver.
Qed.

(** Steps 1 and 2, row by row. *)
Lemma finalize_state_run p st f s :
  (∀ i t d, st i t d = update_build i (f t) d) → (∀ t r, f t (f t r) = f t r) →
  (∀ t r, br_id (f t r) = br_id r) → faults s = [] → db_wf (pool s) →
  ∃ s', run (finalize_state p st) s = (Ok (), s') ∧ same_rest s s' ∧ db_wf (pool s') ∧
    (∀ i, t_builds (pool s') !! i =
          (λ r, if p (br_state r) then f (clock s) r else r) <$> t_builds (pool s) !! i) ∧
    (∀ i, bl_finished <$> t_build_logs (pool s') !! i =
          (λ log, row_is p (pool s) i || bl_finished log) <$> t_build_logs (pool s) !! i).
Proof.
  intros Hst Hff Hid Hf Hd. unfold finalize_state. rewrite run_bind, run_read by done. cbn [fst snd].
  destruct (finalize_all st f (selected_ids p (pool s)) s Hst Hff Hf) as (s' & Hr & Hs & Hm & Hl).
  exists s'. split_and!; [exact Hr|done| | |].
  - destruct Hs as (Hi & _). eapply mapped_on_wf; [exact Hd|apply Hid|exact Hi|exact Hm].
  - intros i. rewrite Hm, row_is_selected by done. unfold row_is.
    destruct (t_builds (pool s) !! i) as [r|]; [|done]. simpl. by destruct (p (br_state r)).
  - intros i. rewrite (Hl i). by rewrite row_is_selected.
Qed.

(** The rows of step 3 are the builds that were queued before recovery. *)
Lemma elem_of_queued_rows d r : db_wf d →
  r ∈ queued_rows d ↔ t_builds d !! br_id r = Some r ∧ br_state r = Queued.
Proof.
  intros Hd. unfold queued_rows. rewrite list_elem_of_filter, elem_of_rows by done.
  destruct (br_state r); naive_solver.
Qed.

Lemma corrupt_row d i r :
  db_wf d → t_builds d !! i = Some r →
  bool_decide (i ∈ br_id <$> filter (λ r, descriptor_of_json (br_descriptor r) = None)
                                    (queued_rows d)) =
  match br_state r, descriptor_of_json (br_descriptor r) with Queued, None => true | _, _ => false end.
Proof.
  intros Hd Hr. pose proof (dwf_key d Hd i r Hr) as Hid.
  assert (i ∈ br_id <$> filter (λ r, descriptor_of_json (br_descriptor r) = None) (queued_rows d) ↔
          br_state r = Queued ∧ descriptor_of_json (br_descriptor r) = None) as Hiff.
  { rewrite list_elem_of_fmap. setoid_rewrite list_elem_of_filter. split.
    - intros (r' & -> & Hn & Hr'). apply elem_of_queued_rows in Hr' as [Hr' ?]; [|done].
      by simplify_eq.
    - intros [Hq Hn]. exists r. rewrite elem_of_queued_rows, Hid by done. done. }
  rewrite (bool_decide_ext _ _ Hiff).
  destruct (br_state r), (descriptor_of_json (br_descriptor r)); by vm_compute.
Qed.

(** The whole run, composed from the three loops. *)
Lemma recovery_run s :
  faults s = [] → db_wf (pool s) →
  ∃ s' rows, run run_startup_recovery s = (Ok (), s') ∧
    ids s' = ids s ∧ faults s' = [] ∧ log_watchers s' = ∅ ∧
    queue s' = foldl (λ q b, enqueue b q) (queue s) (omap queued_of_row rows) ∧
    (∀ i, t_builds (pool s') !! i = recovered (clock s) <$> t_builds (pool s) !! i) ∧
    (∀ r, r ∈ rows ↔ t_builds (pool s) !! br_id r = Some r ∧ br_state r = Queued) ∧
    NoDup (br_id <$> rows) ∧ StronglySorted queued_asc rows ∧
    (∀ i, bl_finished <$> t_build_logs (pool s') !! i =
          (λ log, row_is (λ st, bool_decide (in_flight st)) (pool s) i || bl_finished log)
            <$> t_build_logs (pool s) !! i).
Proof.
  intros Hf Hd. unfold run_startup_recovery. rewrite run_bind.
  destruct (finalize_state_run is_dispatched_or_started (λ id, fail_build id "server restarted")
              (λ t, fail_row t "server restarted") s) as (s1 & -> & (I1 & Q1 & F1 & C1) & D1 & M1 & L1);
    [done..|]. cbn [fst snd]. rewrite run_bind.
  destruct (finalize_state_run is_revoking finish_revoked revoke_row s1)
    as (s2 & -> & (I2 & Q2 & F2 & C2) & D2 & M2 & L2); [done..|]. cbn [fst snd].
  rewrite run_bind, run_read by done. unfold select_queued. cbn [fst snd].
  rewrite run_bind.
  destruct (requeue_all (queued_rows (pool s2)) s2 F2) as (s3 & -> & I3 & F3 & L3 & Q3 & M3). cbn [fst snd]. rewrite run_bind, run_atomic. cbn [fst snd].
  rewrite C1 in M2. rewrite C2, C1 in M3. eexists _, (queued_rows (pool s2)). split; [by rewrite run_ret|].
  split_and!; try done.
  - etrans; [exact I3|]. by rewrite I2, I1.
  - etrans; [exact Q3|]. by rewrite Q2, Q1.
  - intros i. simpl. rewrite M3. destruct (t_builds (pool s2) !! i) as [r2|] eqn:E2.
    + rewrite (corrupt_row _ _ _ D2 E2). rewrite M2, M1 in E2.
      destruct (t_builds (pool s) !! i) as [r|]; [|done]. simpl in *. injection E2 as <-.
      f_equal. unfold recovered. destruct (br_state r) eqn:Es; do 3 (simpl; rewrite ?Es); try done.
      by destruct (descriptor_of_json (br_descriptor r)).
    + rewrite M2, M1 in E2. by destruct (t_builds (pool s) !! i).
  - intros r. rewrite elem_of_queued_rows, M2, M1 by done.
    destruct (t_builds (pool s) !! br_id r) as [r0|]; [|naive_solver]. simpl.
    destruct (br_state r0) eqn:Es; do 3 (simpl; rewrite ?Es);
      (split; intros [[= <-] Hq]; simpl in Hq; first [congruence|done]).
  - eapply sublist_NoDup; [by apply (NoDup_row_ids queued_asc (pool s2))|].
    apply fmap_sublist, sublist_filter.
  - apply StronglySorted_filter, StronglySorted_merge_sort; apply _.
  - intros i. simpl. rewrite L3, L2. unfold row_is. rewrite M1. specialize (L1 i). unfold row_is in L1.
    destruct (t_build_logs (pool s1) !! i) as [l1|], (t_build_logs (pool s) !! i) as [l0|]; try done.
    simpl in *. injection L1 as ->. f_equal.
    destruct (t_builds (pool s) !! i) as [r|]; [|done]. simpl.
    destruct (br_state r) eqn:Es; do 3 (simpl; rewrite ?Es); done.
Qed.

Lemma recovered_state now r :
  br_state (recovered now r) = Queued ↔
  br_state r = Queued ∧ is_Some (descriptor_of_json (br_descriptor r)).
Proof.
  unfold recovered. destruct (br_state r) eqn:Es; simpl; rewrite ?Es;
    [|split; [done|by intros [? _]]..].
  destruct (descriptor_of_json (br_descriptor r)) as [d|]; simpl; rewrite ?Es.
  - split; [by eauto|done].
  - split; [done|]. by intros [_ []].
Qed.

Lemma recovered_not_in_flight now r : ¬ in_flight (br_state (recovered now r)).
Proof.
  unfold recovered. destruct (br_state r) eqn:Es; simpl; rewrite ?Es; try by intros [|[|]].
  case_match; simpl; rewrite ?Es; by intros [|[|]].
Qed.

Lemma elem_of_queued_ids (rows : list BuildRow) (i : Z) :
  i ∈ (λ b, build_id_0 (qb_build_id b)) <$> omap queued_of_row rows ↔
  ∃ r, r ∈ rows ∧ br_id r = i ∧ is_Some (descriptor_of_json (br_descriptor r)).
Proof.
  rewrite list_elem_of_fmap. setoid_rewrite list_elem_of_omap. split.
  - intros (b & -> & r & Hr & Hb). exists r. unfold queued_of_row in Hb.
    apply fmap_Some in Hb as (d & Hd & ->). split_and!; [done|done|by eexists].
  - intros (r & Hr & <- & [d Hd]). unfold queued_of_row.
    eexists. split; [|exists r; split; [done|rewrite Hd; done]]. done.
Qed.

Lemma recovery_coh s s' rows :
  queue s = queue_new → db_wf (pool s) → ids s' = ids s →
  queue s' = foldl (λ q b, enqueue b q) (queue s) (omap queued_of_row rows) →
  (∀ i, t_builds (pool s') !! i = recovered (clock s) <$> t_builds (pool s) !! i) →
  (∀ r, r ∈ rows ↔ t_builds (pool s) !! br_id r = Some r ∧ br_state r = Queued) →
  NoDup (br_id <$> rows) →
  coh (states s') (ids s') (queue s').
Proof.
  intros Hq [D1 D2 D3] Hi Hq' Hb Hrows Hnd. rewrite Hq in Hq'.
  assert (pending_ids (queue s') ≡ₚ (λ b, build_id_0 (qb_build_id b)) <$> omap queued_of_row rows) as Hp.
  { unfold pending_ids. rewrite Hq', pending_foldl_enqueue, fmap_app. by rewrite app_nil_r. }
  assert (q_active (queue s') = ∅) as Ha by by rewrite Hq', active_foldl_enqueue.
  assert (∀ i, states s' !! i = (λ r, br_state (recovered (clock s) r)) <$> t_builds (pool s) !! i) as Hst.
  { intros i. unfold states. rewrite lookup_fmap, Hb. by destruct (t_builds (pool s) !! i). }
  split; rewrite ?Ha.
  - rewrite Hq'. by apply lanes_wf_foldl_enqueue, lanes_wf_new.
  - rewrite Hp. eapply sublist_NoDup; [exact Hnd|apply sublist_omap_ids].
  - intros i. rewrite Hp, elem_of_queued_ids, Hst. split.
    + intros (r & Hr & <- & Hd). apply Hrows in Hr as [Hr Hs]. rewrite Hr. simpl. f_equal.
      by apply recovered_state.
    + intros (r & Hr & Hs)%fmap_Some. symmetry in Hs. apply recovered_state in Hs as [Hs Hd].
      exists r. rewrite Hrows, (D1 i r Hr). done.
  - intros i. rewrite lookup_empty, Hst. split; [by intros []|]. intros (st & Hs & Hfl).
    apply fmap_Some in Hs as (r & _ & ->). by apply recovered_not_in_flight in Hfl.
  - intros i ab. by rewrite lookup_empty.
  - intros i. rewrite Hst, fmap_is_Some, Hi. apply D2.
  - intros i. rewrite Hi. simpl. rewrite elem_of_dom. apply D3.
Qed.

(** Whatever a previous run left behind, recovery succeeds and ends in a state
    in which the queue agrees with the database: builds that were dispatched or
    started are failed, those being revoked are revoked, and their logs are
    finished; queued builds whose descriptor still parses are enqueued again,
    in each lane in the order in which they were queued; the others are failed. *)
Theorem recovery_establishes_agreement (s : AppState)
    (Hf : faults s = []) (Hq : queue s = queue_new) (Hd : db_wf (pool s)) :
  ∃ s', run run_startup_recovery s = (Ok (), s') ∧ Coh s' ∧ log_watchers s' = ∅ ∧
    (∀ i, t_builds (pool s') !! i = recovered (clock s) <$> t_builds (pool s) !! i) ∧
    (∀ i, bl_finished <$> t_build_logs (pool s') !! i =
          (λ log, row_is (λ st, bool_decide (in_flight st)) (pool s) i || bl_finished log)
            <$> t_build_logs (pool s) !! i) ∧
    (∀ p, StronglySorted (λ a b, qb_queued_at a ≤ qb_queued_at b)%Z (lane p (queue s'))) ∧
    (∀ p b, b ∈ lane p (queue s') ↔ qb_priority b = p ∧
       ∃ r, t_builds (pool s) !! br_id r = Some r ∧ br_state r = Queued ∧ queued_of_row r = Some b).
Proof.
  destruct (recovery_run s Hf Hd) as (s' & rows & Hr & Hi & Hf' & Hw & Hq' & Hb & Hrows & Hnd & Hs & Hl).
  exists s'. split; [exact Hr|]. split; [split; [by eapply recovery_coh|done]|].
  split_and!; try done.
  - intros p. rewrite Hq', lanes_foldl_enqueue, Hq. destruct p; simpl;
      (apply StronglySorted_filter; eapply StronglySorted_omap; [|exact Hs]);
      intros x y a b Hxy Hx Hy; unfold queued_of_row in *;
      apply fmap_Some in Hx as (? & _ & ->); apply fmap_Some in Hy as (? & _ & ->);
      unfold queued_asc in Hxy; simpl; lia.
  - intros p b. rewrite Hq', lanes_foldl_enqueue, Hq.
    assert (lane p queue_new = []) as -> by by destruct p.
    rewrite app_nil_l, list_elem_of_filter, list_elem_of_omap. setoid_rewrite Hrows. naive_solver.
Qed.

End Recovery.
