(* ===== verification/Exclusive.v ===== *)
(** * No build is in two places at once

    Under every interleaving of the server's tasks and every pattern of database
    failures, a build is pending at most once and never both pending and active.
    A task that moves a build (a rollback after it took the entry out of the
    active map, a submission after it inserted the row) owns the build's id
    until it has put it into the queue. *)

From stdpp Require Import prelude gmap strings list relations pretty.
From S2P Require Import Prelude Async Tokens Proto Queue Db App Auth DbRoles DbChannels.
From S2P Require Import Channels Components Logs Dispatch Handler Lifecycle Coherence Routes.
From S2P Require Import Recovery.

(** ** The invariant of the queue *)

Record qexcl (T : gset Z) (known : Z → Prop) (q : BuildQueue) : Prop := mkQexcl {
  qx_lanes : lanes_wf q;
  qx_keys : ∀ id ab, q_active q !! id = Some ab → ab_build_id ab = id;
  qx_nodup : NoDup (pending_ids q);
  qx_apart : ∀ id, id ∈ pending_ids q → q_active q !! id = None;
  qx_tokens : ∀ id, id ∈ T → (id ∉ pending_ids q) ∧ q_active q !! id = None;
  qx_known : ∀ id, id ∈ pending_ids q ∨ is_Some (q_active q !! id) ∨ id ∈ T → known id
}.

Definition row_exists (d : Db) (id : Z) : Prop := is_Some (t_builds d !! id).

Definition excl (T : gset Z) (s : AppState) : Prop :=
  db_wf (pool s) ∧ qexcl T (row_exists (pool s)) (queue s).

Lemma qexcl_mono T T' (known known' : Z → Prop) q :
  T' ⊆ T → (∀ id, known id → known' id) → qexcl T known q → qexcl T' known' q.
Proof. intros HT Hk [H1 H2 H3 H4 H5 H6]. split; try done; [set_solver|]. intros id Hid. set_solver. Qed.

Lemma excl_mono T T' s : T' ⊆ T → excl T s → excl T' s.
Proof. intros HT [Hd Hq]. split; [done|]. by eapply qexcl_mono. Qed.

(** ** Changes of the queue *)

Section QueueChanges.
Context {T : gset Z} {known : Z → Prop} {q : BuildQueue} (Hq : qexcl T known q).

Lemma qexcl_shrink q' :
  (∀ p, lane p q' = lane p q) →
  (∀ id ab', q_active q' !! id = Some ab' →
     ∃ ab, q_active q !! id = Some ab ∧ ab_build_id ab' = ab_build_id ab) →
  qexcl T known q'.
Proof using Hq.
  intros Hl Ha. destruct Hq as [H1 H2 H3 H4 H5 H6].
  assert (pending_ids q' = pending_ids q) as Hp.
  { unfold pending_ids, pending.
    by rewrite (Hl High : q_high q' = _), (Hl Normal : q_normal q' = _), (Hl Low : q_low q' = _). }
  assert (∀ id, q_active q !! id = None → q_active q' !! id = None) as Hn.
  { intros id Hid. destruct (q_active q' !! id) eqn:E; [|done]. apply Ha in E as (ab & E & _). congruence. }
  split; rewrite ?Hp; try done.
  - intros p. rewrite Hl. apply H1.
  - intros id ab' Hab'. destruct (Ha _ _ Hab') as (ab & Hab & ->). by apply H2.
  - auto.
  - intros id HT. destruct (H5 id HT). auto.
  - intros id [Hid | [[ab' Hab'] | Hid]]; apply H6; [by left| |by right; right].
    right; left. destruct (Ha _ _ Hab') as (ab & -> & _). by eexists.
Qed.

Lemma qexcl_workers w : qexcl T known (set_workers w q).
Proof using Hq. apply qexcl_shrink; [by intros []|]. simpl. eauto. Qed.

Lemma qexcl_remove_active id : qexcl T known (remove_active id q).
Proof using Hq.
  apply qexcl_shrink; [by intros []|]. intros id' ab'. simpl. rewrite lookup_delete.
  case_decide; [done|]. eauto.
Qed.

Lemma qexcl_update_active id ab ab' :
  q_active q !! id = Some ab → ab_build_id ab' = ab_build_id ab →
  qexcl T known (set_active (<[id := ab']> (q_active q)) q).
Proof using Hq.
  intros Hab Heq. apply qexcl_shrink; [by intros []|]. intros id' ab''. simpl. rewrite lookup_insert.
  case_decide; [|eauto]. intros [= <-]. subst. eauto.
Qed.

(** Taking an entry out of the active map: the task owns the build. *)
Lemma qexcl_take id ab :
  q_active q !! id = Some ab →
  (id ∉ T) ∧ qexcl ({[id]} ∪ T) known (remove_active id q).
Proof using Hq.
  intros Hab. assert (id ∉ T) as HnT.
  { intros HT. apply (qx_tokens _ _ _ Hq) in HT as [_ HT]. congruence. }
  split; [done|]. pose proof (qexcl_remove_active id) as [H1 H2 H3 H4 H5 H6]. split; try done.
  - intros id'. rewrite elem_of_union, elem_of_singleton. intros [-> | HT]; [|by apply H5].
    simpl. rewrite lookup_delete_eq. split; [|done]. intros Hp.
    apply (qx_apart _ _ _ Hq) in Hp. congruence.
  - intros id'. rewrite elem_of_union, elem_of_singleton. intros [Hp | [Ha | [-> | HT]]]; auto.
    apply (qx_known _ _ _ Hq). right; left. by rewrite Hab.
Qed.

(** The head of the queue leaves it. *)
Lemma qexcl_pop b q' :
  next_pending q = (Some b, q') →
  qexcl T known q' ∧ (build_id_0 (qb_build_id b) ∉ pending_ids q') ∧
  (build_id_0 (qb_build_id b) ∉ T) ∧ q_active q !! build_id_0 (qb_build_id b) = None ∧
  q_active q' = q_active q ∧ known (build_id_0 (qb_build_id b)).
Proof using Hq.
  intros Hn. destruct Hq as [H1 H2 H3 H4 H5 H6].
  pose proof (lanes_wf_next_pending q H1) as Hl. rewrite Hn in Hl. simpl in Hl.
  apply next_pending_Some in Hn as (Hp & Ha & _).
  assert (pending_ids q = build_id_0 (qb_build_id b) :: pending_ids q') as Hids.
  { unfold pending_ids. by rewrite Hp. }
  rewrite Hids in *. apply NoDup_cons in H3 as [Hni Hnd].
  split_and!; try done.
  - split; rewrite ?Ha; try done; intros id; set_solver.
  - intros HT. apply H5 in HT as [HT _]. set_solver.
  - apply H4. by left.
  - apply H6. left. by left.
Qed.

Lemma qexcl_remove_by_id bid : qexcl T known (remove_by_id bid q).2.
Proof using Hq.
  destruct (remove_by_id bid q) as [[b|] q'] eqn:E; simpl.
  - pose proof (lanes_wf_remove_by_id bid q (qx_lanes _ _ _ Hq)) as Hl. rewrite E in Hl. simpl in Hl.
    apply remove_by_id_Some in E as (Hp & Hb & Ha & _).
    assert (pending_ids q ≡ₚ build_id_0 bid :: pending_ids q') as Hids.
    { etrans; [apply (pending_ids_perm _ q' [b]), Hp|]. simpl. by rewrite Hb. }
    destruct Hq as [H1 H2 H3 H4 H5 H6]. rewrite Hids in H3. apply NoDup_cons in H3 as [Hni Hnd].
    split; rewrite ?Ha; try done; intros id; specialize (H4 id); specialize (H5 id);
      specialize (H6 id); rewrite Hids in *; set_solver.
  - apply remove_by_id_None in E as [-> _]. done.
Qed.

End QueueChanges.

(** A dispatch: the popped build becomes active. *)
Lemma qexcl_activate T known q ab :
  qexcl T known q → ab_build_id ab ∉ pending_ids q → ab_build_id ab ∉ T →
  known (ab_build_id ab) → qexcl T known (insert_active ab q).
Proof.
  intros [H1 H2 H3 H4 H5 H6] Hp HT Hk. split; simpl; try done.
  - intros id ab'. rewrite lookup_insert. case_decide; [naive_solver|]. apply H2.
  - intros id Hid. rewrite lookup_insert_ne; [by apply H4|]. by intros <-.
  - intros id Hid. rewrite lookup_insert_ne; [by apply H5|]. by intros <-.
  - intros id. rewrite lookup_insert_is_Some'. intros [Hid | [[<- | Hid] | Hid]]; auto.
Qed.

(** The owner of a build puts it into the queue. *)
Lemma qexcl_put T known q q' id :
  qexcl ({[id]} ∪ T) known q → id ∉ T → lanes_wf q' →
  pending_ids q' ≡ₚ id :: pending_ids q → q_active q' = q_active q →
  qexcl T known q'.
Proof.
  intros [H1 H2 H3 H4 H5 H6] HT Hl Hp Ha. destruct (H5 id) as [Hni Hna]; [set_solver|].
  split; rewrite ?Ha; try done.
  - rewrite Hp. by constructor.
  - intros id'. rewrite Hp, elem_of_cons. intros [-> | Hid]; auto.
  - intros id' Hid. rewrite Hp. destruct (H5 id') as [??]; [set_solver|].
    split; [|done]. rewrite elem_of_cons. intros [-> | ?]; done.
  - intros id'. rewrite Hp, elem_of_cons. intros [[-> | Hid] | [Hid | Hid]]; apply H6; set_solver.
Qed.

Lemma enqueue_front_ids b q : pending_ids (enqueue_front b q) ≡ₚ build_id_0 (qb_build_id b) :: pending_ids q.
Proof. apply (pending_ids_perm _ q [b]), pending_enqueue_front_perm. Qed.
Lemma enqueue_ids b q : pending_ids (enqueue b q) ≡ₚ build_id_0 (qb_build_id b) :: pending_ids q.
Proof. apply (pending_ids_perm _ q [b]), pending_enqueue_perm. Qed.
Lemma enqueue_front_active b q : q_active (enqueue_front b q) = q_active q.
Proof. unfold enqueue_front. by rewrite (proj1 (lane_set_rest _ _ _)). Qed.
Lemma enqueue_active b q : q_active (enqueue b q) = q_active q.
Proof. unfold enqueue. by rewrite (proj1 (lane_set_rest _ _ _)). Qed.

(** ** Statements *)

(** A statement that keeps the tables well formed and deletes no build. *)
Definition db_ok {A} (st : stmt A) : Prop :=
  ∀ t d, db_wf d → db_wf (st t d).2 ∧ ∀ id, row_exists d id → row_exists (st t d).2 id.

Lemma db_ok_reads {A} (st : stmt A) : reads st → db_ok st.
Proof. intros Hr t d Hd. split; [|intros id]; by rewrite Hr. Qed.

Lemma update_build_ok id f d :
  (∀ r, br_id (f r) = br_id r) → db_wf d →
  db_wf (update_build id f d).2 ∧ ∀ i, row_exists d i → row_exists (update_build id f d).2 i.
Proof.
  intros Hf [H1 H2 H3]. unfold update_build, row_exists.
  destruct (t_builds d !! id) as [r|] eqn:E; [|done]. simpl. split.
  - split; simpl; [| |done].
    + intros i r'. rewrite lookup_insert. case_decide; [|apply H1]. intros [= <-]. subst.
      rewrite Hf. by apply H1.
    + intros i. rewrite lookup_insert_is_Some'. intros [<-|Hi]; apply H2; [by rewrite E|done].
  - intros i Hi. apply lookup_insert_is_Some'. auto.
Qed.

Lemma update_log_ok id f d :
  db_wf d → db_wf (update_log id f d) ∧ ∀ i, row_exists d i → row_exists (update_log id f d) i.
Proof.
  intros [H1 H2 H3]. unfold update_log, row_exists.
  destruct (t_build_logs d !! id) as [l|] eqn:E; [|done]. simpl. split; [|done].
  split; simpl; [done..|]. intros i. rewrite lookup_insert_is_Some'. intros [<-|Hi]; apply H3; [by rewrite E|done].
Qed.

Lemma last_seen_ok w : db_ok (update_last_seen w).
Proof. intros t d [H1 H2 H3]. unfold update_last_seen. by case_match. Qed.

Lemma insert_log_ok id path : db_ok (insert_build_log_row id path).
Proof.
  intros t d Hd. unfold insert_build_log_row.
  destruct (t_build_logs d !! id); [done|]. destruct (t_builds d !! id) as [r|] eqn:E; [|done].
  destruct Hd as [H1 H2 H3]. split; [|done]. split; simpl; [done..|].
  intros i. rewrite lookup_insert_is_Some'. intros [<-|Hi]; [apply H2; by rewrite E|by apply H3].
Qed.

(** ** Neutral actions *)

(** An action that leaves the database and the queue alone. *)
Lemma neutral_frame {R} (act : AppState → R * AppState) :
  (∀ s, pool (act s).2 = pool s ∧ queue (act s).2 = queue s) → neutral excl act.
Proof. intros Ha T s [Hd Hq]. destruct (Ha s) as [H1 H2]. split; by rewrite H1, ?H2. Qed.

Lemma neutral_queue {R} (act : AppState → R * AppState) :
  (∀ s, pool (act s).2 = pool s) →
  (∀ T s, excl T s → qexcl T (row_exists (pool s)) (queue (act s).2)) → neutral excl act.
Proof. intros Hp Hq T s Hs. split; rewrite Hp; [apply Hs|by apply Hq]. Qed.

Lemma neutral_stmt {A} (st : stmt A) : db_ok st → neutral excl (exec_stmt st).
Proof.
  intros Hst T s [Hd Hq]. unfold exec_stmt, next_fault.
  assert (∀ s0, pool s0 = pool s → queue s0 = queue s →
    excl T (let '(r, d) := st (clock s0) (pool s0) in (r, upd_pool d s0)).2) as Hx.
  { intros s0 Hp0 Hq0. destruct (Hst (clock s0) (pool s) Hd) as [Hd' Hk]. rewrite Hp0.
    destruct (st (clock s0) (pool s)) as [r d']. simpl in *. split; [done|]. simpl. rewrite Hq0.
    by eapply qexcl_mono. }
  destruct (faults s) as [|[] fs]; [by apply Hx|done|]. by apply Hx.
Qed.

Lemma exec_stmt_rest {A} (st : stmt A) s id :
  db_ok st → db_wf (pool s) → row_exists (pool s) id →
  queue (exec_stmt st s).2 = queue s ∧ row_exists (pool (exec_stmt st s).2) id.
Proof.
  intros Hst Hd Hid. unfold exec_stmt, next_fault.
  destruct (faults s) as [|[] fs]; simpl; [|done|];
    (destruct (Hst (clock s) (pool s) Hd) as [_ Hk]; apply Hk in Hid; by destruct (st _ _)).
Qed.

Lemma balanced_query {A} (st : stmt A) : db_ok st → balanced excl (query st).
Proof. intros Hst. by apply balanced_atomic, neutral_stmt. Qed.

Lemma balanced_read {A} (st : stmt A) : reads st → balanced excl (query st).
Proof. intros Hr. by apply balanced_query, db_ok_reads. Qed.

Lemma balanced_frame {R} (act : AppState → R * AppState) :
  (∀ s, pool (act s).2 = pool s ∧ queue (act s).2 = queue s) → balanced excl (atomic act).
Proof. intros Ha. by apply balanced_atomic, neutral_frame. Qed.

Lemma balanced_with_queue {A} (f : BuildQueue → A * BuildQueue) :
  (∀ T known q, qexcl T known q → qexcl T known (f q).2) → balanced excl (with_queue f).
Proof.
  intros Hf. apply balanced_atomic, neutral_queue; intros; simpl; [by destruct (f (queue s))|].
  pose proof (Hf T (row_exists (pool s)) (queue s) (proj2 H)) as Hq. by destruct (f (queue s)).
Qed.

Lemma balanced_modify_queue f :
  (∀ T known q, qexcl T known q → qexcl T known (f q)) → balanced excl (modify_queue f).
Proof. intros Hf. by apply balanced_with_queue. Qed.

Lemma balanced_read_queue {A} (f : BuildQueue → A) : balanced excl (read_queue f).
Proof. by apply balanced_with_queue. Qed.

Lemma pool_queue_chan_send c f s :
  pool (chan_send c f s).2 = pool s ∧ queue (chan_send c f s).2 = queue s.
Proof. unfold chan_send. by repeat case_match. Qed.

Lemma balanced_io `{Env} {A} (f : AppState → A * AppState) :
  (∀ s, pool (f s).2 = pool s ∧ queue (f s).2 = queue s) → balanced excl (io f).
Proof.
  intros Hf. apply balanced_frame. intros s. unfold next_fault.
  destruct (faults s) as [|[] fs]; simpl; try done.
  - destruct (Hf s). by destruct (f s).
  - destruct (Hf (upd_faults fs s)). by destruct (f (upd_faults fs s)).
Qed.

Lemma set_worker_excl T known cid w q : qexcl T known q → qexcl T known (set_worker_state cid w q).
Proof. intros Hq. unfold set_worker_state. case_match; [|done]. by apply qexcl_workers. Qed.
Lemma remove_active_excl T known id q : qexcl T known q → qexcl T known (remove_active id q).
Proof. intros Hq. by apply qexcl_remove_active. Qed.
Lemma remove_by_id_excl T known bid q : qexcl T known q → qexcl T known (remove_by_id bid q).2.
Proof. intros Hq. by apply qexcl_remove_by_id. Qed.

Create HintDb excl.
#[export] Hint Resolve balanced_query balanced_read balanced_read_queue balanced_modify_queue
  balanced_frame balanced_io last_seen_ok insert_log_ok set_worker_excl remove_active_excl
  remove_by_id_excl : excl.

#[export] Hint Extern 1 (reads _) => (intros ? ?; reflexivity) : excl.

(** The statements that set the state of a build. *)
Ltac solve_update := intros ? ? ?; by apply update_build_ok.
Lemma update_build_state_ok id st e : db_ok (update_build_state id st e).
Proof. solve_update. Qed.
Lemma rollback_ok id : db_ok (rollback_dispatch_to_queued id).
Proof. solve_update. Qed.
Lemma dispatched_ok id t w : db_ok (set_build_dispatched id t w).
Proof. solve_update. Qed.
Lemma started_ok id : db_ok (set_build_started id).
Proof. solve_update. Qed.
Lemma finished_ok id st e r : db_ok (set_build_finished id st e r).
Proof. solve_update. Qed.
Lemma revoking_ok id : db_ok (set_build_revoking id).
Proof. solve_update. Qed.
Lemma log_finished_ok id : db_ok (set_build_log_finished id).
Proof. intros t d Hd. by apply update_log_ok. Qed.
Lemma log_size_ok id z : db_ok (update_build_log_size id z).
Proof. intros t d Hd. by apply update_log_ok. Qed.
#[export] Hint Resolve update_build_state_ok rollback_ok dispatched_ok started_ok finished_ok
  revoking_ok log_finished_ok log_size_ok : excl.

(** Structural rules, applied as long as they fit. *)
Ltac bal :=
  repeat (intros; first
    [ apply balanced_ret
    | solve [eauto 3 with excl]
    | apply balanced_bind
    | apply balanced_for_each
    | case_match ]).

(** ** The programs *)

Section Programs.
Context `{HEnv : Env} `{HHash : HashIter} `{HSerde : Serde} (components : list ComponentInfo).

Lemma balanced_cancel t : balanced excl (cancel t).
Proof. by apply balanced_frame. Qed.
Lemma balanced_now : balanced excl now.
Proof. by apply balanced_frame. Qed.
Lemma balanced_notify : balanced excl notify_scheduler.
Proof. by apply balanced_frame. Qed.
Lemma balanced_notified : balanced excl notified.
Proof. by apply balanced_frame. Qed.
Lemma balanced_remove_watcher i : balanced excl (remove_watcher i).
Proof. by apply balanced_frame. Qed.
Lemma balanced_remove_sender c : balanced excl (remove_sender c).
Proof. by apply balanced_frame. Qed.
Lemma balanced_spawn t : balanced excl (spawn t).
Proof. by apply balanced_frame. Qed.
Hint Resolve balanced_cancel balanced_now balanced_notified balanced_remove_watcher
  balanced_remove_sender balanced_spawn : excl.

Lemma balanced_cleanup i t r : balanced excl (cleanup_terminal_state i t r).
Proof. unfold cleanup_terminal_state. bal. Qed.
Hint Resolve balanced_cleanup : excl.

(** The rollback owns the build between the two critical sections. *)
Lemma owned_rollback_tail T i ab :
  i ∉ T →
  owned excl ({[i]} ∪ T)
    (do* cancel (ab_ack_cancel ab) in
     do* query (rollback_dispatch_to_queued i) in
     let* t := now in
     do* modify_queue (enqueue_front
           (mkQueued (mkBuildId i) (ab_priority ab) (ab_descriptor ab) "" t)) in
     do* remove_watcher i in
     Ret true) (λ T' _, T' = T).
Proof.
  intros HT.
  apply owned_bind. eapply owned_mono; [apply balanced_cancel|]. intros ? _ ->.
  apply owned_bind. eapply owned_mono; [apply balanced_query; auto with excl|]. intros ? _ ->.
  apply owned_bind. eapply owned_mono; [apply balanced_now|]. intros ? t ->.
  intros s F HF [Hd Hq]. exists T. split; [set_solver|]. split.
  - split; [done|]. simpl. eapply (qexcl_put _ _ (queue s) _ i).
    + by rewrite (assoc_L (∪)).
    + set_solver.
    + apply lanes_wf_enqueue_front, Hq.
    + apply enqueue_front_ids.
    + apply enqueue_front_active.
  - apply (balanced_bind excl (remove_watcher i) (λ _, Ret true)); bal.
Qed.

Lemma balanced_rollback i : balanced excl (rollback_active_to_queued i).
Proof.
  intros T s F HF [Hd Hq]. cbn [take_active fst snd].
  destruct (q_active (queue s) !! i) as [ab|] eqn:E.
  - destruct (qexcl_take Hq i ab E) as [HnT Hq']. exists ({[i]} ∪ T). split; [set_solver|].
    split.
    + split; [done|]. simpl. by rewrite <- (assoc_L (∪)).
    + apply owned_rollback_tail. set_solver.
  - exists T. split; [done|]. split; [|done].
    split; [done|]. simpl. by apply qexcl_remove_active.
Qed.
Hint Resolve balanced_rollback : excl.

Lemma neutral_dispatch : neutral excl dispatch_under_lock.
Proof.
  intros T s [Hd Hq]. unfold dispatch_under_lock.
  destruct (next_pending (queue s)) as [[b|] q'] eqn:Hn.
  2: { apply next_pending_None in Hn as [_ ->]. done. }
  destruct (qexcl_pop Hq b q' Hn) as (Hq' & Hni & HnT & Hna & Ha & Hk).
  destruct (find_worker _ q') as [[cid w]|].
  2: { split; [done|]. simpl. apply (qexcl_shrink Hq).
       - intros p. apply enqueue_front_pending; [done|apply Hq].
       - intros id ab. rewrite enqueue_front_active, Ha. eauto. }
  simpl. set (s1 := upd_next_handle _ _).
  set (st := set_build_dispatched _ _ _). assert (db_ok st) as Hst by apply dispatched_ok.
  pose proof (neutral_stmt st Hst T s1 (conj Hd Hq')) as [Hd2 Hq2].
  destruct (exec_stmt_rest st s1 (build_id_0 (qb_build_id b)) Hst Hd Hk) as [Hqs Hks].
  destruct (exec_stmt st s1) as [[ok|e] s2]; simpl in *; [|done].
  split; [done|]. simpl. rewrite Hqs in *. by apply qexcl_activate.
Qed.

Lemma balanced_dispatch : balanced excl (atomic dispatch_under_lock).
Proof. apply balanced_atomic, neutral_dispatch. Qed.
Hint Resolve balanced_dispatch : excl.

Lemma pool_queue_send_frames cid fs s :
  pool (send_frames cid fs s).2 = pool s ∧ queue (send_frames cid fs s).2 = queue s.
Proof. destruct (frame_send_frames cid fs s) as (? & ? & ?). done. Qed.

Lemma balanced_try_dispatch : balanced excl try_dispatch.
Proof.
  unfold try_dispatch, pack_for, pack_components, send_and_recover, handle_dispatch_send_failure,
    spawn_ack_timer.
  bal. apply balanced_frame, pool_queue_send_frames.
Qed.
Hint Resolve balanced_try_dispatch : excl.

Lemma balanced_ack_timer i t : balanced excl (ack_timer_fired i t).
Proof. unfold ack_timer_fired. bal. Qed.

Lemma balanced_send_text cid m : balanced excl (send_text_to_connection cid m).
Proof. apply balanced_frame. intros s. simpl. case_match; [apply pool_queue_chan_send|done]. Qed.
Hint Resolve balanced_send_text : excl.

Lemma balanced_claim cid i : balanced excl (atomic (claim_assignment cid i)).
Proof.
  apply balanced_atomic, neutral_queue; intros; unfold claim_assignment; [by case_match|].
  case_match eqn:E; [|apply H]. unfold active_build_for_connection in E.
  destruct (q_active (queue s) !! i) as [ab|] eqn:E'; [|done]. case_bool_decide; simplify_eq.
  simpl. by eapply (qexcl_update_active (proj2 H)).
Qed.
Hint Resolve balanced_claim : excl.

Lemma balanced_authorized cid b a k : balanced excl k → balanced excl (authorized cid b a k).
Proof.
  intros Hk. unfold authorized, authorize_lifecycle_message, send_unauthorized_action,
    send_reporter_directed_revoke. bal.
Qed.

Lemma balanced_write_lines i seq0 n off lines es : balanced excl (write_lines i seq0 n off lines es).
Proof.
  revert n off es. induction lines as [|l lines IH]; intros n off es; simpl; [bal|].
  unfold write_all. bal.
Qed.
Hint Resolve balanced_write_lines : excl.

Lemma balanced_write_output i cid seq0 lines : balanced excl (write_build_output i cid seq0 lines).
Proof. unfold write_build_output, open_append, file_len, extend_index. bal. Qed.

Lemma balanced_build_finished cid i st e r : balanced excl (handle_build_finished cid i st e r).
Proof. unfold handle_build_finished, finish_build_log. bal. Qed.

Lemma balanced_build_rejected cid i reason : balanced excl (handle_build_rejected cid i reason).
Proof. unfold handle_build_rejected. bal. Qed.

Lemma balanced_send_build_revoke i : balanced excl (send_build_revoke i).
Proof. unfold send_build_revoke. bal. Qed.

Lemma balanced_revoke_timeout i : balanced excl (handle_revoke_timeout i).
Proof. unfold handle_revoke_timeout. bal. Qed.

Lemma balanced_worker_dead cid : balanced excl (handle_worker_dead cid).
Proof. unfold handle_worker_dead, resolve_dead_build. bal. Qed.
Hint Resolve balanced_build_finished balanced_build_rejected balanced_send_build_revoke
  balanced_revoke_timeout balanced_worker_dead balanced_write_output : excl.

Lemma balanced_grace_expired cid : balanced excl (grace_period_expired cid).
Proof. unfold grace_period_expired. bal. Qed.

Lemma balanced_attach_received i cid : balanced excl (attach_connection_and_mark_received i cid).
Proof.
  apply balanced_atomic, neutral_queue; intros; simpl; [by case_match|].
  case_match; [|apply H]. simpl. by eapply (qexcl_update_active (proj2 H)).
Qed.

Lemma attach_excl T known i cid q : qexcl T known q →
  qexcl T known (match q_active q !! i with
    | Some ab => set_active (<[i := attach_connection cid ab]> (q_active q)) q
    | None => q
    end).
Proof. intros Hq. case_match; [|done]. by eapply (qexcl_update_active Hq). Qed.
Hint Resolve balanced_attach_received attach_excl : excl.

Lemma balanced_worker_status cid w st b : balanced excl (handle_worker_status cid w st b).
Proof.
  unfold handle_worker_status, idle_reconcile_one, handle_status_building, send_unauthorized_action,
    send_reporter_directed_revoke. bal.
Qed.
Hint Resolve balanced_worker_status balanced_authorized : excl.

Lemma balanced_build_accepted cid i : balanced excl (handle_build_accepted cid i).
Proof. apply balanced_frame. intros s. simpl. by case_match. Qed.
Hint Resolve balanced_build_accepted : excl.

Lemma balanced_worker_message cid name w msg : balanced excl (handle_worker_message cid name w msg).
Proof.
  destruct msg; unfold handle_worker_message, handle_build_started;
    try apply balanced_authorized; bal.
Qed.
Hint Resolve balanced_worker_message : excl.

Lemma balanced_receive_loop cid name w frames : balanced excl (receive_loop cid name w frames).
Proof.
  induction frames as [|f frames IH]; simpl; [bal|]. destruct f as [[]| | |]; bal.
Qed.

Lemma balanced_cleanup_worker cid name w b : balanced excl (cleanup_worker cid name w b).
Proof. unfold cleanup_worker. bal. Qed.

Lemma migrate_excl T known w cid st q :
  qexcl T known q → qexcl T known (migrate_connection w cid st q).2.
Proof.
  intros Hq. unfold migrate_connection. destruct (find_old_connection _ _ _) as [[old was]|]; simpl.
  - apply (qexcl_shrink Hq); [by intros []|]. intros id ab'. simpl. rewrite lookup_fmap.
    intros (ab & Hab & ->)%fmap_Some. exists ab. split; [done|]. by case_bool_decide.
  - apply (qexcl_shrink Hq); [by intros []|]. simpl. eauto.
Qed.

Lemma balanced_migrate w cid st : balanced excl (with_queue (migrate_connection w cid st)).
Proof. apply balanced_with_queue. intros. by apply migrate_excl. Qed.
Hint Resolve balanced_receive_loop balanced_cleanup_worker balanced_migrate : excl.

Lemma balanced_revoke_superseded cid l : balanced excl (revoke_and_remove_superseded cid l).
Proof.
  apply balanced_frame. intros s. simpl. case_match; [|done]. simpl. clear.
  revert s. induction l as [|i l IH]; intros s; simpl; [done|].
  match goal with |- context [chan_send n ?f s] => destruct (pool_queue_chan_send n f s) as [<- <-] end.
  apply IH.
Qed.
Hint Resolve balanced_revoke_superseded : excl.

Lemma balanced_handle_connection cid row n frames : balanced excl (handle_connection cid row n frames).
Proof.
  unfold handle_connection, retire_old_connection, open_channel, close_connection.
  assert (∀ m, balanced excl (send_json m)) as Hsj.
  { intros m. apply balanced_frame. intros s. unfold next_fault. by destruct (faults s) as [|[]]. }
  assert (∀ c, balanced excl (drop_receiver c)) as Hdr.
  { intros c. apply balanced_frame. intros s. simpl. by case_match. }
  bal.
Qed.

Lemma balanced_sweep n : balanced excl (sweep_tick n).
Proof.
  unfold sweep_tick. assert (balanced excl (sweep_loop n)); [|bal].
  induction n as [|n IH]; simpl; bal.
Qed.

(** ** Submission and revocation *)

Lemma insert_build_excl T d email p task cid tid s :
  excl T s →
  match exec_stmt (insert_build d email p task cid tid) s with
  | (Ok id, s') => (id ∉ T) ∧ excl ({[id]} ∪ T) s'
  | (Err _, s') => excl T s'
  end.
Proof.
  intros [Hd Hq]. unfold exec_stmt, next_fault.
  assert (∀ s0, pool s0 = pool s → queue s0 = queue s →
    match (let '(r, d0) := insert_build d email p task cid tid (clock s0) (pool s0) in (r, upd_pool d0 s0)) with
    | (Ok id, s') => (id ∉ T) ∧ excl ({[id]} ∪ T) s'
    | (Err _, s') => excl T s'
    end) as Hx.
  { intros s0 Hp0 Hq0. unfold insert_build. rewrite Hp0.
    destruct (build_references_exist _ _ _ _ _);
      [|by rewrite <- Hp0, upd_pool_id; split; rewrite ?Hp0, ?Hq0].
    set (id := t_next_build_id (pool s)).
    assert (¬ row_exists (pool s) id) as Hfresh.
    { intros Hi. apply (dwf_ids _ Hd) in Hi. unfold id in Hi. lia. }
    destruct Hd as [D1 D2 D3], Hq as [H1 H2 H3 H4 H5 H6].
    split; [intros HT; apply Hfresh, H6; auto|]. split; simpl.
    - split; simpl.
      + intros i r. rewrite lookup_insert. case_decide; [naive_solver|]. apply D1.
      + intros i. rewrite lookup_insert_is_Some'. intros [<-|Hi]; [lia|]. apply D2 in Hi. lia.
      + intros i Hi. apply D3 in Hi. lia.
    - rewrite Hq0. split; try done.
      + intros i. rewrite elem_of_union, elem_of_singleton. intros [-> | HT]; [|by apply H5].
        split; [intros Hp; apply Hfresh, H6; auto|].
        apply eq_None_not_Some. intros Ha. apply Hfresh, H6. auto.
      + intros i Hi. unfold row_exists. simpl. apply lookup_insert_is_Some'.
        rewrite elem_of_union, elem_of_singleton in Hi.
        destruct (decide (id = i)); [by left|right]. apply H6. naive_solver. }
  destruct (faults s) as [|[] fs]; [by apply Hx|done|by apply Hx].
Qed.

Lemma balanced_insert d email p task cid tid :
  balanced excl (insert_build_internal d email p task cid tid).
Proof.
  intros T. apply owned_bind. intros s F HF Hs.
  pose proof (insert_build_excl _ (descriptor_to_json d) email (priority_to_string p) task cid tid s Hs) as Hi.
  destruct (exec_stmt _ s) as [[id|e] s']; cbn [fst snd] in *.
  2: { exists T. done. }
  destruct Hi as [HnT Hs']. exists ({[id]} ∪ T). split; [set_solver|].
  split; [by rewrite <- (assoc_L (∪))|]. clear s s' Hs Hs' HF. assert (id ∉ T) as HT by set_solver.
  apply owned_bind. intros s F' HF Hs.
  pose proof (neutral_stmt _ (insert_log_ok id ("builds/" +:+ pretty id +:+ ".log")) _ s Hs) as Hs'.
  destruct (exec_stmt _ s) as [[|e] s']; cbn [fst snd] in *.
  2: { exists T. split; [set_solver|]. split; [|done]. eapply excl_mono; [|exact Hs']. set_solver. }
  exists ({[id]} ∪ T). split_and!; [done|done|]. clear s s' Hs Hs' HF.
  apply owned_bind. eapply owned_mono; [apply balanced_now|]. intros ? queued_at ->.
  intros s F'' HF [Hd Hq]. exists T. split; [set_solver|].
  unfold enqueue_and_count. destruct (pending_counts _) as [[h n] l]. cbn [fst snd]. split.
  - split; [done|]. simpl. eapply (qexcl_put _ _ (queue s) _ id).
    + by rewrite (assoc_L (∪)).
    + set_solver.
    + apply lanes_wf_enqueue, Hq.
    + apply enqueue_ids.
    + apply enqueue_active.
  - match goal with |- owned _ _ ?m _ => assert (balanced excl m) as Hb by bal; apply Hb end.
Qed.
Hint Resolve balanced_insert : excl.

Lemma balanced_assignments email : balanced excl (get_user_assignments_with_scopes email).
Proof. unfold get_user_assignments_with_scopes. bal. Qed.
Hint Resolve balanced_assignments : excl.

Lemma balanced_lookup_or {A} what missing (st : stmt (option A)) :
  reads st → balanced excl (lookup_or what missing st).
Proof. intros Hr. unfold lookup_or. bal. Qed.
Hint Resolve balanced_lookup_or : excl.

Lemma balanced_resolve descr u : balanced excl (resolve_and_rewrite descr u).
Proof. unfold resolve_and_rewrite, resolve_channel, resolve_type_name, check_channel_scope. bal. Qed.
Hint Resolve balanced_resolve : excl.

Lemma balanced_submit u body : balanced excl (submit_build components u body).
Proof. unfold submit_build, check_repository_scopes, require_scopes_all. bal. Qed.

Lemma balanced_revoke u i : balanced excl (revoke_build u i).
Proof. unfold revoke_build. bal. Qed.

End Programs.
