(* ===== verification/TagFormat.v ===== *)
(** * Tag formats of periodic builds (scheduler/tag_format.rs)

    The validation of a format at task creation, its interpolation when the
    task fires, and the check of the result against the OCI rules. Strings are
    UTF-8 bytes: the braces are ASCII, so scanning bytes and scanning characters
    find the same placeholders. *)

From stdpp Require Import prelude strings list pretty.
From S2P Require Import Prelude Proto.

(** The fields of a [DateTime<Utc>]. *)
Record DateTime := mkDateTime {
  year : Z; month : Z; day : Z; hour : Z; minute : Z; second : Z
}.

Definition open_brace : Ascii.ascii := Ascii.ascii_of_nat 123.
Definition close_brace : Ascii.ascii := Ascii.ascii_of_nat 125.

Definition KNOWN_PLACEHOLDERS : list string :=
  ["Y"; "m"; "d"; "H"; "M"; "S"; "DT"; "version"; "base_tag"; "channel"; "user"; "arch";
   "distro"; "os_version"].

Fixpoint zeros (n : nat) : string :=
  match n with 0 => "" | S n => String (Ascii.ascii_of_nat 48) (zeros n) end.

(** [format!("{:0w}", z)]: padded with zeros, the sign counting. *)
Definition zero_pad (w : nat) (z : Z) : string :=
  if (z <? 0)%Z
  then let digits := pretty (- z)%Z in "-" +:+ zeros (w - 1 - String.length digits) +:+ digits
  else let digits := pretty z in zeros (w - String.length digits) +:+ digits.

Definition resolve_placeholder (name : string) (descriptor : BuildDescriptor) (now : DateTime)
    : option string :=
  if bool_decide (name = "Y") then Some (zero_pad 4 (year now))
  else if bool_decide (name = "m") then Some (zero_pad 2 (month now))
  else if bool_decide (name = "d") then Some (zero_pad 2 (day now))
  else if bool_decide (name = "H") then Some (zero_pad 2 (hour now))
  else if bool_decide (name = "M") then Some (zero_pad 2 (minute now))
  else if bool_decide (name = "S") then Some (zero_pad 2 (second now))
  else if bool_decide (name = "DT") then
    Some (zero_pad 4 (year now) +:+ zero_pad 2 (month now) +:+ zero_pad 2 (day now) +:+ "T"
          +:+ zero_pad 2 (hour now) +:+ zero_pad 2 (minute now) +:+ zero_pad 2 (second now))
  else if bool_decide (name = "version") then Some (bd_version descriptor)
  else if bool_decide (name = "base_tag") then Some (di_tag (bd_dst_image descriptor))
  else if bool_decide (name = "channel") then Some (default "" (bd_channel descriptor))
  else if bool_decide (name = "user") then Some (so_user (bd_signed_off_by descriptor))
  else if bool_decide (name = "arch") then Some (arch_to_string (bt_arch (bd_build descriptor)))
  else if bool_decide (name = "distro") then Some (bt_distro (bd_build descriptor))
  else if bool_decide (name = "os_version") then Some (bt_os_version (bd_build descriptor))
  else None.

(** The loop of [validate_tag_format]. [name] is [Some] inside braces. *)
Fixpoint unknown_placeholders (name : option string) (format : string) : list string :=
  let report n := if bool_decide (n ≠ "") && negb (bool_decide (n ∈ KNOWN_PLACEHOLDERS))
                  then [n] else [] in
  match format, name with
  | EmptyString, None => []
  | EmptyString, Some n => report n
  | String ch rest, None =>
      if Ascii.eqb ch open_brace then unknown_placeholders (Some "") rest
      else unknown_placeholders None rest
  | String ch rest, Some n =>
      if Ascii.eqb ch close_brace then report n ++ unknown_placeholders None rest
      else unknown_placeholders (Some (n +:+ String ch "")) rest
  end.

Definition validate_tag_format (format : string) : result unit (list string) :=
  match unknown_placeholders None format with
  | [] => Ok ()
  | unknown => Err unknown
  end.

(** The loop of [interpolate_tag]. *)
Fixpoint interpolate (descriptor : BuildDescriptor) (now : DateTime) (name : option string)
    (format : string) : string :=
  match format, name with
  | EmptyString, None => ""
  | EmptyString, Some n => String open_brace n
  | String ch rest, None =>
      if Ascii.eqb ch open_brace then interpolate descriptor now (Some "") rest
      else String ch (interpolate descriptor now None rest)
  | String ch rest, Some n =>
      if Ascii.eqb ch close_brace then
        match resolve_placeholder n descriptor now with
        | Some value => value
        | None => String open_brace n +:+ String close_brace ""
        end +:+ interpolate descriptor now None rest
      else interpolate descriptor now (Some (n +:+ String ch "")) rest
  end.

Definition interpolate_tag (format : string) (descriptor : BuildDescriptor) (now : DateTime) : string :=
  interpolate descriptor now None format.

(** [char::is_ascii_alphanumeric]. *)
Definition is_ascii_alphanumeric (c : Ascii.ascii) : bool :=
  let n := Ascii.nat_of_ascii c in
  ((48 <=? n) && (n <=? 57)) || ((65 <=? n) && (n <=? 90)) || ((97 <=? n) && (n <=? 122)).

Definition tag_start (c : Ascii.ascii) : bool :=
  is_ascii_alphanumeric c || Ascii.eqb c (Ascii.ascii_of_nat 95).
Definition tag_char (c : Ascii.ascii) : bool :=
  is_ascii_alphanumeric c || Ascii.eqb c (Ascii.ascii_of_nat 95)
  || Ascii.eqb c (Ascii.ascii_of_nat 46) || Ascii.eqb c (Ascii.ascii_of_nat 45).

(** The bytes of the character at the head: a first byte and the continuation
    bytes after it. *)
Fixpoint continuation (s : string) : string :=
  match s with
  | String b s => let n := Ascii.nat_of_ascii b in
                  if (128 <=? n) && (n <=? 191) then String b (continuation s) else ""
  | EmptyString => ""
  end.

Fixpoint check_tag_chars (tag : string) : result unit string :=
  match tag with
  | EmptyString => Ok ()
  | String c rest =>
      if tag_char c then check_tag_chars rest
      else Err ("tag contains invalid character '" +:+ String c (continuation rest)
                +:+ "'; allowed: [a-zA-Z0-9_.-]")
  end.

Definition validate_oci_tag (tag : string) : result unit string :=
  match tag with
  | EmptyString => Err "tag must not be empty"
  | String c rest =>
      if (128 <? Z.of_nat (String.length tag))%Z
      then Err ("tag exceeds 128 characters (got " +:+ pretty (Z.of_nat (String.length tag)) +:+ ")")
      else if tag_start c then check_tag_chars rest
      else Err ("tag must start with [a-zA-Z0-9_], got '" +:+ String c (continuation rest) +:+ "'")
  end.

(** ** Formats as sequences of segments *)

Inductive segment :=
| Lit (c : Ascii.ascii)
| Placeholder (name : string)
| Unclosed (name : string).

(** The text of a segment; a placeholder's name has no closing brace. *)
Definition segment_text (seg : segment) : string :=
  match seg with
  | Lit c => String c ""
  | Placeholder n => String open_brace n +:+ String close_brace ""
  | Unclosed n => String open_brace n
  end.

Fixpoint segments (name : option string) (format : string) : list segment :=
  match format, name with
  | EmptyString, None => []
  | EmptyString, Some n => [Unclosed n]
  | String ch rest, None =>
      if Ascii.eqb ch open_brace then segments (Some "") rest else Lit ch :: segments None rest
  | String ch rest, Some n =>
      if Ascii.eqb ch close_brace then Placeholder n :: segments None rest
      else segments (Some (n +:+ String ch "")) rest
  end.

Definition concat_strings (l : list string) : string := foldr String.append "" l.

(** The value of a segment in an interpolation. *)
Definition segment_value (d : BuildDescriptor) (now : DateTime) (seg : segment) : string :=
  match seg with
  | Placeholder n => default (segment_text seg) (resolve_placeholder n d now)
  | _ => segment_text seg
  end.

Definition pending_name (name : option string) : string :=
  match name with None => "" | Some n => String open_brace n end.

(** The segments are a partition of the format. *)
Lemma segments_text name format :
  concat_strings (segment_text <$> segments name format) = pending_name name +:+ format.
Proof.
  revert name. induction format as [|ch rest IH]; intros [n|]; simpl.
  - by rewrite string_app_nil_r.
  - done.
  - destruct (Ascii.eqb_spec ch close_brace) as [->|]; simpl; rewrite IH; simpl.
    + by rewrite <- string_app_assoc.
    + change (String open_brace (n +:+ String ch "")) with (String open_brace n +:+ String ch "").
      by rewrite <- string_app_assoc.
  - destruct (Ascii.eqb_spec ch open_brace) as [->|]; simpl; by rewrite IH.
Qed.

Lemma interpolate_segments d now name format :
  interpolate d now name format = concat_strings (segment_value d now <$> segments name format).
Proof.
  revert name. induction format as [|ch rest IH]; intros [n|]; simpl; try done.
  - by rewrite string_app_nil_r.
  - destruct (Ascii.eqb ch close_brace); [|by rewrite IH]. simpl. rewrite IH.
    by destruct (resolve_placeholder n d now).
  - destruct (Ascii.eqb ch open_brace); simpl; by rewrite IH.
Qed.

(** The placeholder names that a format mentions. *)
Definition placeholder_names (segs : list segment) : list string :=
  omap (λ seg, match seg with Placeholder n | Unclosed n => Some n | Lit _ => None end) segs.

Lemma unknown_segments name format :
  unknown_placeholders name format =
  filter (λ n, n ≠ "" ∧ n ∉ KNOWN_PLACEHOLDERS) (placeholder_names (segments name format)).
Proof.
  assert (∀ n l, (if bool_decide (n ≠ "") && negb (bool_decide (n ∈ KNOWN_PLACEHOLDERS))
                  then [n] else []) ++ filter (λ n, n ≠ "" ∧ n ∉ KNOWN_PLACEHOLDERS) l =
                 filter (λ n, n ≠ "" ∧ n ∉ KNOWN_PLACEHOLDERS) (n :: l)) as Hc.
  { intros n l. rewrite filter_cons. rewrite <- bool_decide_not, <- bool_decide_and.
    case_bool_decide; case_decide; done. }
  revert name. induction format as [|ch rest IH]; intros [n|]; simpl.
  - by rewrite <- Hc, app_nil_r.
  - done.
  - destruct (Ascii.eqb ch close_brace); [|by rewrite IH]. rewrite IH. apply Hc.
  - destruct (Ascii.eqb ch open_brace); by rewrite IH.
Qed.

(** The table of known names and the resolver agree. *)
Lemma resolve_known name d now :
  is_Some (resolve_placeholder name d now) ↔ name ∈ KNOWN_PLACEHOLDERS.
Proof.
  unfold resolve_placeholder, KNOWN_PLACEHOLDERS. rewrite !elem_of_cons, elem_of_nil.
  repeat (case_bool_decide; [split; [tauto|by eexists]|]).
  split; [by intros []|]. tauto.
Qed.

(** A format is accepted if and only if every placeholder in it, closed or
    not, is empty or known, and the error lists the unknown ones in order; the
    segments the scan finds are a partition of the format, and an interpolation
    replaces each closed known placeholder by its value and nothing else. *)
Theorem tag_format_segments (format : string) (d : BuildDescriptor) (now : DateTime) :
  let segs := segments None format in
  concat_strings (segment_text <$> segs) = format ∧
  interpolate_tag format d now = concat_strings (segment_value d now <$> segs) ∧
  validate_tag_format format =
    match filter (λ n, n ≠ "" ∧ n ∉ KNOWN_PLACEHOLDERS) (placeholder_names segs) with
    | [] => Ok ()
    | unknown => Err unknown
    end ∧
  (∀ n, is_Some (resolve_placeholder n d now) ↔ n ∈ KNOWN_PLACEHOLDERS).
Proof.
  simpl. split_and!.
  - apply segments_text.
  - apply interpolate_segments.
  - unfold validate_tag_format. by rewrite unknown_segments.
  - intros n. apply resolve_known.
Qed.

(** ** OCI tags *)

Lemma check_tag_chars_spec s :
  check_tag_chars s = Ok () ↔ Forall (λ c, tag_char c = true) (String.list_ascii_of_string s).
Proof.
  induction s as [|c s IH]; simpl; [by split; [constructor|]|]. rewrite Forall_cons.
  destruct (tag_char c); naive_solver.
Qed.

(** The OCI check accepts exactly the strings of one to 128 bytes that start
    with a letter, a digit or an underscore and continue with those, dots and
    dashes. *)
Theorem validate_oci_tag_spec (tag : string) :
  validate_oci_tag tag = Ok () ↔
  ∃ c rest, tag = String c rest ∧ String.length tag ≤ 128 ∧ tag_start c = true ∧
            Forall (λ c, tag_char c = true) (String.list_ascii_of_string rest).
Proof.
  destruct tag as [|c rest]; [naive_solver|]. unfold validate_oci_tag.
  destruct (Z.ltb_spec 128 (Z.of_nat (String.length (String c rest)))).
  - split; [done|]. intros (c' & rest' & [= <- <-] & Hl & _). lia.
  - destruct (tag_start c) eqn:Es.
    + rewrite check_tag_chars_spec. split.
      * intros Hf. exists c, rest. split_and!; try done. lia.
      * by intros (c' & rest' & [= <- <-] & _ & _ & Hf).
    + split; [done|]. intros (c' & rest' & [= <- <-] & _ & Hs & _). congruence.
Qed.

Lemma list_ascii_app a b :
  String.list_ascii_of_string (a +:+ b) =
  String.list_ascii_of_string a ++ String.list_ascii_of_string b.
Proof. induction a as [|c a IH]; [done|]. simpl. by f_equal. Qed.

Lemma Forall_concat_strings (P : Ascii.ascii → Prop) l :
  Forall P (String.list_ascii_of_string (concat_strings l)) ↔
  Forall (λ s, Forall P (String.list_ascii_of_string s)) l.
Proof.
  induction l as [|s l IH]; simpl; [by split; constructor|].
  by rewrite list_ascii_app, Forall_app, IH, Forall_cons.
Qed.

(** A segment that an accepted tag can come from. *)
Definition segment_resolved (seg : segment) : Prop :=
  match seg with
  | Lit c => tag_char c = true
  | Placeholder n => n ∈ KNOWN_PLACEHOLDERS
  | Unclosed _ => False
  end.

(** If the interpolated tag passes the OCI check, then the format consisted of
    tag characters and closed known placeholders only: an empty, unknown or
    unclosed placeholder never gets through, since its braces stay in the tag. *)
Theorem oci_tag_resolved (format : string) (d : BuildDescriptor) (now : DateTime)
    (Hok : validate_oci_tag (interpolate_tag format d now) = Ok ()) :
  Forall segment_resolved (segments None format).
Proof.
  apply validate_oci_tag_spec in Hok as (c & rest & Heq & _ & Hs & Hr).
  assert (Forall (λ c, tag_char c = true) (String.list_ascii_of_string (interpolate_tag format d now))) as Ha.
  { rewrite Heq. simpl. constructor; [|done]. unfold tag_start in Hs. unfold tag_char. by rewrite Hs. }
  unfold interpolate_tag in Ha. rewrite interpolate_segments, Forall_concat_strings, Forall_fmap in Ha.
  eapply Forall_impl; [exact Ha|]. intros seg Hseg. cbv beta in Hseg.
  destruct seg as [c'|n|n]; simpl in *.
  - by apply Forall_cons in Hseg as [? _].
  - destruct (resolve_placeholder n d now) eqn:E.
    + apply (resolve_known n d now). by rewrite E.
    + by apply Forall_cons in Hseg as [? _].
  - by apply Forall_cons in Hseg as [? _].
Qed.

(** The check of a format is weaker: it lets empty braces through, which no
    descriptor and no time make an OCI tag of. *)
Lemma empty_braces_never_a_tag (d : BuildDescriptor) (now : DateTime) :
  validate_tag_format "test{}value" = Ok () ∧
  ∃ e, validate_oci_tag (interpolate_tag "test{}value" d now) = Err e.
Proof. split; [reflexivity|]. by eexists. Qed.

(** The witness: a nightly format. *)
Definition sample_descriptor : BuildDescriptor :=
  mkDescriptor "19.2.3" (Some "ces") (Some Dev) (mkSignedOffBy "a" "a@clyso.com")
    (mkDestImage "ceph" "v1") [mkComponent "ceph" "main" None] (mkTarget "rockylinux" "9" "rpm" X86_64).
Definition sample_time : DateTime := mkDateTime 2026 3 7 4 5 6.

Example nightly_tag :
  interpolate_tag "v{version}-nightly.{Y}{m}{d}" sample_descriptor sample_time
    = "v19.2.3-nightly.20260307".
Proof. vm_compute. reflexivity. Qed.

Lemma oci_tag_resolved_witness :
  validate_oci_tag (interpolate_tag "v{version}" sample_descriptor sample_time) = Ok () ∧
  Forall segment_resolved (segments None "v{version}").
Proof.
  split; [reflexivity|]. apply (oci_tag_resolved "v{version}" sample_descriptor sample_time).
  reflexivity.
Defined.
