(* ===== verification/Scheduler.v ===== *)
(** * Periodic builds (scheduler/, db/periodic.rs)

    The statements on [periodic_tasks], the trigger of a periodic build and one
    pass of the scheduler loop. Times of the schedule are nanoseconds; the
    database and [timestamp()] count seconds. *)

From stdpp Require Import prelude gmap strings list sorting pretty.
From S2P Require Import Prelude Async Proto Queue Db App Auth DbRoles DbChannels.
From S2P Require Import Channels Components Routes TagFormat Recovery.

(** croner and chrono, third-party crates: parsing a cron expression, its next
    occurrence strictly after a time, the instant of a UNIX time when it is in
    range, and the civil date of a UNIX time. *)
Class Chrono := {
  Cron : Type;
  cron_from_str : string → option Cron;
  find_next_occurrence : Cron → Z → option Z;
  timestamp_opt : Z → option Z;
  civil : Z → DateTime
}.

(** ** db/periodic.rs *)

Definition set_task (id : string) (f : PeriodicTaskRow → PeriodicTaskRow) (d : Db) : bool * Db :=
  match t_periodic_tasks d !! id with
  | Some t => (true, set_periodic_tasks (<[id := f t]> (t_periodic_tasks d)) d)
  | None => (false, d)
  end.

(** The columns these statements change. *)
Definition task_row (t : PeriodicTaskRow) (enabled : bool) (updated_at retry_count : Z)
    (retry_at : option Z) (last_error : option string) (last_triggered_at last_build_id : option Z)
    : PeriodicTaskRow :=
  mkPeriodicTaskRow (pt_id t) (pt_cron_expr t) (pt_tag_format t) (pt_descriptor t)
    (pt_descriptor_version t) (pt_priority t) (pt_summary t) enabled (pt_created_by t)
    (pt_created_at t) updated_at retry_count retry_at last_error last_triggered_at last_build_id.

Definition insert_task (id cron_expr tag_format descriptor priority : string)
    (summary : option string) (created_by : string) : stmt unit :=
  λ now d,
    if bool_decide (t_periodic_tasks d !! id ≠ None) || bool_decide (t_users d !! created_by = None)
       || negb (bool_decide (priority = "high") || bool_decide (priority = "normal")
                || bool_decide (priority = "low"))
    then (Err ConstraintViolation, d)
    else (Ok (), set_periodic_tasks (<[id := mkPeriodicTaskRow id cron_expr tag_format descriptor 1
           priority summary true created_by now now 0 None None None None]> (t_periodic_tasks d)) d).

Definition get_task (id : string) : stmt (option PeriodicTaskRow) :=
  λ _ d, (Ok (t_periodic_tasks d !! id), d).

Definition list_tasks : stmt (list PeriodicTaskRow) :=
  λ _ d, (Ok (merge_sort (on_key Z.le pt_created_at) (map_to_list (t_periodic_tasks d)).*2), d).

Definition list_enabled_tasks : stmt (list PeriodicTaskRow) :=
  λ _ d, (Ok (filter (λ t, pt_enabled t = true)
                (merge_sort (on_key Z.le pt_created_at) (map_to_list (t_periodic_tasks d)).*2)), d).

(** [DELETE], with [ON DELETE SET NULL] on [builds.periodic_task_id]. *)
Definition delete_task (id : string) : stmt bool :=
  λ _ d,
    match t_periodic_tasks d !! id with
    | Some _ =>
        (Ok true, set_periodic_tasks (delete id (t_periodic_tasks d))
          (set_builds ((λ r, if bool_decide (br_periodic_task_id r = Some id)
             then mkBuildRow (br_id r) (br_descriptor r) (br_descriptor_version r) (br_user_email r)
                    (br_priority r) None (br_channel_id r) (br_channel_type_id r) (br_submitted_at r)
                    (br_queued_at r) (br_state r) (br_worker_id r) (br_trace_id r) (br_error r)
                    (br_started_at r) (br_finished_at r) (br_build_report r)
             else r) <$> t_builds d) d))
    | None => (Ok false, d)
    end.

Definition set_enabled (id : string) (enabled clear_retry : bool) : stmt bool :=
  λ now d,
    let '(updated, d) := set_task id (λ t,
      if clear_retry
      then task_row t enabled now 0 None None (pt_last_triggered_at t) (pt_last_build_id t)
      else task_row t enabled now (pt_retry_count t) (pt_retry_at t) (pt_last_error t)
             (pt_last_triggered_at t) (pt_last_build_id t)) d in
    (Ok updated, d).

Definition update_trigger_success (id : string) (build_id : Z) : stmt unit :=
  λ now d,
    (Ok (), (set_task id (λ t,
      task_row t (pt_enabled t) now 0 None None (Some now) (Some build_id)) d).2).

Definition record_manual_trigger (id : string) (build_id : Z) : stmt unit :=
  λ now d,
    (Ok (), (set_task id (λ t,
      task_row t (pt_enabled t) (pt_updated_at t) (pt_retry_count t) (pt_retry_at t)
        (pt_last_error t) (Some now) (Some build_id)) d).2).

Definition update_retry (id : string) (retry_count retry_at : Z) (last_error : string) : stmt unit :=
  λ now d,
    (Ok (), (set_task id (λ t,
      task_row t (pt_enabled t) now retry_count (Some retry_at) (Some last_error)
        (pt_last_triggered_at t) (pt_last_build_id t)) d).2).

Definition enable_task (id : string) : stmt bool :=
  λ now d,
    let '(updated, d) := set_task id (λ t,
      task_row t true now 0 None None (pt_last_triggered_at t) (pt_last_build_id t)) d in
    (Ok updated, d).

Definition disable_task (id : string) : stmt bool :=
  λ now d,
    let '(updated, d) := set_task id (λ t,
      task_row t false now (pt_retry_count t) None (pt_last_error t) (pt_last_triggered_at t)
        (pt_last_build_id t)) d in
    (Ok updated, d).

Definition disable_with_error (id last_error : string) : stmt unit :=
  λ now d,
    (Ok (), (set_task id (λ t,
      task_row t false now (pt_retry_count t) None (Some last_error) (pt_last_triggered_at t)
        (pt_last_build_id t)) d).2).

(** ** scheduler/trigger.rs *)

Inductive TriggerError :=
| OwnerAccountMissing
| Transient (msg : string)
| Fatal (msg : string).

Definition TRIGGER_REQUIRED_CAPS : list string := ["periodic:create"; "builds:create"].

Definition caps_satisfy_trigger_requirements (caps : list string) : bool :=
  if existsb (λ c, bool_decide (c = "*")) caps then true
  else forallb (λ req, existsb (λ c, bool_decide (c = req)) caps) TRIGGER_REQUIRED_CAPS.

Definition FATAL_PATTERNS : list string :=
  ["insufficient scope"; "not found"; "not configured"; "no default"].

Definition classify_resolution_error (msg : string) : TriggerError :=
  if existsb (λ p, contains p msg) FATAL_PATTERNS then Fatal msg else Transient msg.

(** [descriptor.dst_image.tag = tag]. *)
Definition set_tag (tag : string) (d : BuildDescriptor) : BuildDescriptor :=
  mkDescriptor (bd_version d) (bd_channel d) (bd_version_type d) (bd_signed_off_by d)
    (mkDestImage (di_name (bd_dst_image d)) tag) (bd_components d) (bd_build d).

Definition sign_off_record (u : UserRecord) (d : BuildDescriptor) : BuildDescriptor :=
  mkDescriptor (bd_version d) (bd_channel d) (bd_version_type d)
    (mkSignedOffBy (ur_name u) (ur_email u)) (bd_dst_image d) (bd_components d) (bd_build d).

(** The retry parameters of scheduler/mod.rs. *)
Definition MAX_RETRY_COUNT : Z := 10.

(** [(30.0 * 1.5.powi(n)).min(600.0) as i64]. The product is [30 * 3^n / 2^n];
    an [f64] holds it exactly for [n <= 30], and the scheduler gets here with
    [n <= 8] only. *)
Definition backoff_secs (n : nat) : Z :=
  Z.min 600 (30 * 3 ^ Z.of_nat n / 2 ^ Z.of_nat n)%Z.

Section Scheduler.
Context `{HEnv : Env} `{HHash : HashIter} `{HSerde : Serde} `{HChrono : Chrono}
  (components : list ComponentInfo).

(** Steps 1 to 2b: the owner, active and with the capabilities. *)
Definition check_owner (task : PeriodicTaskRow) : async (result UserRecord TriggerError) :=
  let* active := query (is_user_active (pt_created_by task)) in
  match active with
  | Err e => Ret (Err (Transient ("failed to check user active: " +:+ sql_error_text e)))
  | Ok false => Ret (Err OwnerAccountMissing)
  | Ok true =>
  let* user := query (get_user (pt_created_by task)) in
  match user with
  | Err e => Ret (Err (Transient ("failed to get user: " +:+ sql_error_text e)))
  | Ok None => Ret (Err OwnerAccountMissing)
  | Ok (Some user) =>
  let* caps := query (get_effective_caps (ur_email user)) in
  match caps with
  | Err e => Ret (Err (Transient ("failed to load caps: " +:+ sql_error_text e)))
  | Ok caps =>
      let caps := if ur_is_robot user
                  then filter (λ c, c ∉ ROBOT_FORBIDDEN_CAPS) caps else caps in
      if caps_satisfy_trigger_requirements caps then Ret (Ok user) else Ret (Err OwnerAccountMissing)
  end end end.

(** Steps 3 to 7: the descriptor of this run. *)
Definition prepare_descriptor (task : PeriodicTaskRow) (user : UserRecord) (now : DateTime)
    : result BuildDescriptor TriggerError :=
  match descriptor_of_json (pt_descriptor task) with
  | None => Err (Fatal ("invalid descriptor JSON: " +:+ json_error_text (pt_descriptor task)))
  | Some descriptor =>
      match validate_descriptor descriptor components with
      | Err e => Err (Fatal ("descriptor validation failed: " +:+ validation_error_to_string e))
      | Ok _ =>
          let descriptor := sign_off_record user descriptor in
          let interpolated_tag := interpolate_tag (pt_tag_format task) descriptor now in
          match validate_oci_tag interpolated_tag with
          | Err e => Err (Fatal ("interpolated tag '" +:+ interpolated_tag
                                 +:+ "' is not a valid OCI tag: " +:+ e))
          | Ok _ => Ok (set_tag interpolated_tag descriptor)
          end
      end
  end.

Definition trigger_periodic_build (task : PeriodicTaskRow) : async (result Z TriggerError) :=
  let* user := check_owner task in
  match user with
  | Err e => Ret (Err e)
  | Ok user =>
  let* t := now in
  match prepare_descriptor task user (civil t) with
  | Err e => Ret (Err e)
  | Ok descriptor =>
  let* resolved := resolve_and_rewrite descriptor user in
  match resolved with
  | Err e => Ret (Err (classify_resolution_error e))
  | Ok (resolved, descriptor) =>
  let priority := parse_priority (pt_priority task) in
  let* inserted := insert_build_internal descriptor (ur_email user) priority (Some (pt_id task))
                     (Some (rc_channel_id resolved)) (Some (rc_channel_type_id resolved)) in
  match inserted with
  | Err e => Ret (Err (Transient e))
  | Ok (build_id, _) => Ret (Ok build_id)
  end end end end.

(** ** scheduler/mod.rs *)

(** Step 2: the fire time of one task. *)
Definition next_fire (now_chrono : Z) (task : PeriodicTaskRow) : option Z :=
  match pt_retry_at task ≫= timestamp_opt with
  | Some retry_time => Some (if (now_chrono <? retry_time)%Z then retry_time else now_chrono)
  | None =>
      match cron_from_str (pt_cron_expr task) with
      | None => None
      | Some cron =>
          match find_next_occurrence cron now_chrono with
          | None => None
          | Some next_time =>
              if (next_time <=? now_chrono)%Z then find_next_occurrence cron next_time
              else Some next_time
          end
      end
  end.

(** By fire time, then by task id. *)
Definition fire_le (a b : Z * string) : Prop :=
  (a.1 < b.1)%Z ∨ a.1 = b.1 ∧ string_le a.2 b.2.
#[global] Instance fire_le_dec a b : Decision (fire_le a b).
Proof. unfold fire_le. apply _. Defined.

Definition compute_schedule (now_chrono : Z) (tasks : list PeriodicTaskRow) : list (Z * string) :=
  merge_sort fire_le (omap (λ t, (λ time, (time, pt_id t)) <$> next_fire now_chrono t) tasks).

(** Steps 9 to 12: the bookkeeping of an outcome. A failed statement is logged. *)
Definition record_outcome (task : PeriodicTaskRow) (r : result Z TriggerError) : async unit :=
  match r with
  | Ok build_id => do* query (update_trigger_success (pt_id task) build_id) in Ret ()
  | Err OwnerAccountMissing =>
      do* query (disable_with_error (pt_id task) "owner_account_missing") in Ret ()
  | Err (Fatal msg) => do* query (disable_with_error (pt_id task) msg) in Ret ()
  | Err (Transient msg) =>
      let new_retry_count := (pt_retry_count task + 1)%Z in
      if (MAX_RETRY_COUNT <=? new_retry_count)%Z then
        do* query (disable_with_error (pt_id task)
              ("max retries (" +:+ pretty MAX_RETRY_COUNT +:+ ") exceeded: " +:+ msg)) in Ret ()
      else
        let* t := now in
        do* query (update_retry (pt_id task) new_retry_count
              (t + backoff_secs (Z.to_nat (pt_retry_count task)))%Z msg) in Ret ()
  end.

(** Steps 7 to 12 for the task at the head of the schedule. *)
Definition fire_task (task_id : string) : async unit :=
  let* task := query (get_task task_id) in
  match task with
  | Ok (Some task) =>
      if pt_enabled task then
        let* r := trigger_periodic_build task in
        record_outcome task r
      else Ret ()
  | _ => Ret ()
  end.

(** One pass of the loop at the time [now_chrono]; [fired] says that the sleep
    ended before a notification came. *)
Definition scheduler_pass (now_chrono : Z) (fired : bool) : async unit :=
  let* tasks := query list_enabled_tasks in
  match tasks with
  | Err _ => Ret ()
  | Ok tasks =>
      match compute_schedule now_chrono tasks with
      | [] => notified
      | (_, task_id) :: _ => if fired then fire_task task_id else notified
      end
  end.

End Scheduler.
