(* ===== verification/PeriodicRoutes.v ===== *)
(** * Management of periodic tasks (routes/periodic.rs)

    The endpoints of [/api/periodic]: the ownership check, creating, reading,
    updating and deleting tasks, and the manual trigger, which attributes the
    build to the requester. A JSON body that must be kept as it was sent is a
    [Value]. *)

From stdpp Require Import prelude gmap strings list pretty.
From S2P Require Import Prelude Async Proto Common Queue Db App Auth DbRoles DbChannels Channels.
From S2P Require Import Components Routes TagFormat Recovery Scheduler AuthRoutes Admin.

Definition can_manage_task (user : AuthUser) (task : PeriodicTaskRow) : bool :=
  has_cap user "periodic:manage:any"
  || (has_cap user "periodic:manage:own" && bool_decide (pt_created_by task = au_email user)).

Definition PERIODIC_MANAGE_DENIED : string :=
  "missing required capability: periodic:manage:own or periodic:manage:any".

Definition task_not_found : AuthError := auth_error NOT_FOUND "periodic task not found".

Record UpdateTaskBody `{JsonValue} := mkUpdateTask {
  up_cron_expr : option string;
  up_tag_format : option string;
  up_descriptor : option Value;
  up_priority : option string;
  up_summary : option string
}.

Record CreateTaskBody `{JsonValue} := mkCreateTask {
  cb_cron_expr : string;
  cb_tag_format : string;
  cb_descriptor : Value;
  cb_priority : string;
  cb_summary : option string
}.

Definition default_priority : string := "normal".

Record PeriodicTaskResponse `{JsonValue} := mkTaskResponse {
  tr_row : PeriodicTaskRow;
  tr_descriptor : Value;
  tr_next_run : option Z
}.

Record TriggerTaskResponse := mkTriggerResponse {
  tt_build_id : Z;
  tt_state : string;
  tt_tag : string;
  tt_priority : string;
  tt_is_robot : bool;
  tt_warning : option string
}.

(** The statement of [update_task]: the columns of the body, and the retry state
    cleared. *)
Definition update_task_row (id cron_expr tag_format descriptor priority : string)
    (summary : option string) : stmt unit :=
  λ now d,
    if bool_decide (t_periodic_tasks d !! id ≠ None)
       && negb (bool_decide (priority = "high") || bool_decide (priority = "normal")
                || bool_decide (priority = "low"))
    then (Err ConstraintViolation, d)
    else (Ok (), (set_task id (λ t,
      mkPeriodicTaskRow (pt_id t) cron_expr tag_format descriptor (pt_descriptor_version t) priority
        summary (pt_enabled t) (pt_created_by t) (pt_created_at t) now 0 None None
        (pt_last_triggered_at t) (pt_last_build_id t)) d).2).

(** The strict reading of a priority override. *)
Definition parse_override (priority : option string) : result (option Priority) AuthError :=
  match priority with
  | None => Ok None
  | Some p =>
      if bool_decide (p = "high") then Ok (Some High)
      else if bool_decide (p = "normal") then Ok (Some Normal)
      else if bool_decide (p = "low") then Ok (Some Low)
      else Err (auth_error BAD_REQUEST "invalid priority: expected 'high', 'normal', or 'low'")
  end.

Section PeriodicRoutes.
Context `{HEnv : Env} `{HHash : HashIter} `{HSerde : Serde} `{HChrono : Chrono} `{HJson : JsonValue}
  (components : list ComponentInfo).

(** The response for a row at the time [t]. *)
Definition task_to_response (t : Z) (row : PeriodicTaskRow) : PeriodicTaskResponse :=
  let next_run :=
    if negb (pt_enabled row) then None
    else match pt_retry_at row with
         | Some retry_at => Some retry_at
         | None => cron ← cron_from_str (pt_cron_expr row);
                   dt ← find_next_occurrence cron (t * 1000000000);
                   Some (dt / 1000000000)%Z
         end in
  mkTaskResponse _ row
    (default (value_string (pt_descriptor row)) (value_from_str (pt_descriptor row))) next_run.

Definition respond (row : PeriodicTaskRow) : async PeriodicTaskResponse :=
  let* t := now in Ret (task_to_response t row).

(** The repository scopes that the descriptor, as JSON, asks for. *)
Definition value_scope_checks (descriptor : Value) : list (ScopeType * string) :=
  match value_get descriptor "components" ≫= as_array with
  | Some components =>
      omap (λ comp, (λ repo, (ScopeRepository, repo)) <$> (value_get comp "repo" ≫= as_str)) components
  | None => []
  end.

Definition validate_descriptor_scopes (user : AuthUser) (descriptor : Value)
    : async (result unit AuthError) :=
  match value_scope_checks descriptor with
  | [] => Ret (Ok ())
  | scope_checks => require_scopes_all user scope_checks
  end.

(** The checks on a cron expression, a tag format and a descriptor. *)
Definition validate_cron (cron_expr : string) : result unit AuthError :=
  match cron_from_str cron_expr with
  | Some _ => Ok ()
  | None => Err (auth_error BAD_REQUEST "invalid cron expression")
  end.

Definition check_tag_format (tag_format : string) : result unit AuthError :=
  match validate_tag_format tag_format with
  | Ok _ => Ok ()
  | Err unknown => Err (auth_error BAD_REQUEST
      ("unknown tag format variables: " +:+ String.concat ", " unknown))
  end.

Definition validate_typed (descriptor : Value) : result unit AuthError :=
  if negb (is_object descriptor) then
    Err (auth_error BAD_REQUEST "descriptor must be a JSON object")
  else
    match descriptor_from_value descriptor with
    | Err e => Err (auth_error BAD_REQUEST ("invalid descriptor: " +:+ e))
    | Ok typed =>
        match validate_descriptor typed components with
        | Err e => Err (auth_error BAD_REQUEST (validation_error_to_string e))
        | Ok _ => Ok ()
        end
    end.

(** A check on a field that a body may leave out. *)
Definition if_given {A} (check : A → result unit AuthError) (x : option A) : result unit AuthError :=
  match x with Some a => check a | None => Ok () end.

Definition create_task (user : AuthUser) (body : CreateTaskBody)
    : async (result (StatusCode * PeriodicTaskResponse) AuthError) :=
  require_cap user "periodic:create" (require_cap user "builds:create" (
    do? Ret (validate_cron (cb_cron_expr body)) map_err id in
    do? Ret (check_tag_format (cb_tag_format body)) map_err id in
    do? Ret (validate_typed (cb_descriptor body)) map_err id in
    do? validate_descriptor_scopes user (cb_descriptor body) map_err id in
    let* n := atomic alloc in
    let task_id := uuid_v4 n in
    do? query (insert_task task_id (cb_cron_expr body) (cb_tag_format body)
                 (value_to_string (cb_descriptor body)) (cb_priority body) (cb_summary body)
                 (au_email user)) map_err internal "failed to create periodic task" in
    do* notify_scheduler in
    let? row := found (internal "task not found after insert" ()) (get_task task_id) map_err id in
    let* response := respond row in
    Ret (Ok (CREATED, response)))).

Definition list_tasks_route (user : AuthUser) : async (result (list PeriodicTaskResponse) AuthError) :=
  require_cap user "periodic:view" (
    let? rows := query list_tasks map_err internal "failed to list periodic tasks" in
    let* t := now in
    Ret (Ok (task_to_response t <$> rows))).

Definition get_task_route (user : AuthUser) (id : string)
    : async (result PeriodicTaskResponse AuthError) :=
  require_cap user "periodic:view" (
    let? row := found task_not_found (get_task id) map_err Datatypes.id in
    let* response := respond row in
    Ret (Ok response)).

(** The task, when the user may change it. *)
Definition managed_task {A} (user : AuthUser) (id : string)
    (k : PeriodicTaskRow → async (result A AuthError)) : async (result A AuthError) :=
  let? task := found task_not_found (get_task id) map_err Datatypes.id in
  if can_manage_task user task then k task
  else Ret (Err (auth_error FORBIDDEN PERIODIC_MANAGE_DENIED)).

Definition no_field (body : UpdateTaskBody) : bool :=
  match up_cron_expr body, up_tag_format body, up_descriptor body, up_priority body,
        up_summary body with
  | None, None, None, None, None => true
  | _, _, _, _, _ => false
  end.

Definition update_task (user : AuthUser) (id : string) (body : UpdateTaskBody)
    : async (result PeriodicTaskResponse AuthError) :=
  managed_task user id (λ current,
    if no_field body then Ret (Err (auth_error BAD_REQUEST "at least one field must be provided"))
    else
      do? match up_descriptor body with
          | Some desc => require_cap user "builds:create" (validate_descriptor_scopes user desc)
          | None => Ret (Ok ())
          end map_err Datatypes.id in
      do? Ret (if_given validate_cron (up_cron_expr body)) map_err Datatypes.id in
      do? Ret (if_given check_tag_format (up_tag_format body)) map_err Datatypes.id in
      do? Ret (if_given validate_typed (up_descriptor body)) map_err Datatypes.id in
      let new_cron_expr := default (pt_cron_expr current) (up_cron_expr body) in
      let new_tag_format := default (pt_tag_format current) (up_tag_format body) in
      let new_priority := default (pt_priority current) (up_priority body) in
      let new_summary := coalesce (up_summary body) (pt_summary current) in
      let new_descriptor := match up_descriptor body with
                            | Some desc => value_to_string desc
                            | None => pt_descriptor current
                            end in
      do? query (update_task_row id new_cron_expr new_tag_format new_descriptor new_priority new_summary)
        map_err internal "database error" in
      do* notify_scheduler in
      let? row := found (internal "task not found after update" ()) (get_task id)
        map_err Datatypes.id in
      let* response := respond row in
      Ret (Ok response)).

(** A statement on a task the user manages, and the notification. *)
Definition change_task (user : AuthUser) (id : string) (st : string → stmt bool) (verb : string)
    : async (result string AuthError) :=
  managed_task user id (λ _,
    let? changed := query (st id) map_err internal "database error" in
    if negb changed then Ret (Err task_not_found)
    else
      do* notify_scheduler in
      Ret (Ok ("periodic task '" +:+ id +:+ "' " +:+ verb))).

Definition delete_task_route (user : AuthUser) (id : string) : async (result string AuthError) :=
  change_task user id delete_task "deleted".

Definition enable_task_route (user : AuthUser) (id : string) : async (result string AuthError) :=
  change_task user id enable_task "enabled".

Definition disable_task_route (user : AuthUser) (id : string) : async (result string AuthError) :=
  change_task user id disable_task "disabled".

(** [body] is the override of an optional request body. *)
Definition trigger_task (user : AuthUser) (id : string) (body : option (option string))
    : async (result (StatusCode * TriggerTaskResponse) AuthError) :=
  managed_task user id (λ task, require_cap user "builds:create" (
    let? override_priority := Ret (parse_override (mjoin body)) map_err Datatypes.id in
    match descriptor_of_json (pt_descriptor task) with
    | None => Ret (Err (auth_error BAD_REQUEST
                ("invalid stored descriptor: " +:+ json_error_text (pt_descriptor task))))
    | Some descriptor =>
    do? Ret (validate_descriptor descriptor components)
      map_err (λ e, auth_error BAD_REQUEST (validation_error_to_string e)) in
    do? check_repository_scopes user descriptor map_err Datatypes.id in
    let descriptor := sign_off user descriptor in
    let* t := now in
    let tag := interpolate_tag (pt_tag_format task) descriptor (civil t) in
    do? Ret (validate_oci_tag tag)
      map_err (λ e, auth_error BAD_REQUEST ("interpolated tag '" +:+ tag
                      +:+ "' is not a valid OCI tag: " +:+ e)) in
    let descriptor := set_tag tag descriptor in
    let? user_record := found (internal "user record not found" ()) (get_user (au_email user))
      map_err Datatypes.id in
    let? (resolved, descriptor) := resolve_and_rewrite descriptor user_record
      map_err auth_error BAD_REQUEST in
    if ur_is_robot user_record && prefix_template_contains_username (rc_prefix_template resolved) then
      Ret (Err (auth_error BAD_REQUEST
        "robot accounts cannot submit builds to channels that use the ${username} prefix template"))
    else
      let priority := default (parse_priority (pt_priority task)) override_priority in
      let? (build_id, pending_count) :=
        insert_build_internal descriptor (au_email user) priority (Some (pt_id task))
          (Some (rc_channel_id resolved)) (Some (rc_channel_type_id resolved))
        map_err auth_error INTERNAL_SERVER_ERROR in
      do* query (record_manual_trigger (pt_id task) build_id) in
      let warning := if (1 <? pending_count)
                     then Some (pretty pending_count +:+ " build(s) in queue") else None in
      Ret (Ok (ACCEPTED, mkTriggerResponse build_id "queued" tag (priority_to_string priority)
                 (au_is_robot user) warning))
    end)).

End PeriodicRoutes.
