(* ===== verification/LogsSpec.v ===== *)
(** * What the log writer guarantees

    The binary search of the sequence index, and the agreement of the log file
    with the index: every line can be found again by its sequence number. *)

From stdpp Require Import prelude gmap strings list sorting.
From S2P Require Import Prelude Async Proto Queue Db App Logs.

(** ** The search *)

(** An index in the order of its sequence numbers. *)
Definition index_sorted (entries : list (Z * Z)) : Prop := StronglySorted Z.lt entries.*1.

Lemma index_sorted_lookup entries i j a b :
  index_sorted entries → entries !! i = Some a → entries !! j = Some b → i < j → (a.1 < b.1)%Z.
Proof.
  unfold index_sorted. revert i j. induction entries as [|e es IH]; intros i j Hs Hi Hj Hij; [done|].
  rewrite fmap_cons in Hs. apply StronglySorted_cons in Hs as [Hall Hs].
  destruct j as [|j]; [lia|]. destruct i as [|i]; simplify_eq/=.
  - rewrite Forall_forall in Hall. apply Hall, list_elem_of_fmap. exists b.
    split; [done|]. by eapply list_elem_of_lookup_2.
  - by eapply (IH i j); [..|lia].
Qed.

Lemma search_loop_spec fuel entries seq base size idx e :
  index_sorted entries → size ≤ fuel → base + size ≤ length entries →
  entries !! idx = Some e → e.1 = seq → base ≤ idx < base + size →
  search_loop fuel entries seq base size = idx.
Proof.
  intros Hs. revert base size. induction fuel as [|fuel IH]; intros base size Hfuel Hlen He Heq Hidx;
    [simpl; lia|]. cbn [search_loop].
  destruct (Nat.leb_spec size 1) as [Hle|Hgt]; [lia|].
  assert (1 ≤ size / 2 ∧ size / 2 ≤ size - size / 2) as [Hh1 Hh2].
  { split; [apply Nat.div_le_lower_bound; lia|].
    assert (2 * (size / 2) ≤ size) by (apply Nat.Div0.mul_div_le). lia. }
  assert (is_Some (entries !! (base + size / 2))) as [[sm om] Hm] by (apply lookup_lt_is_Some; lia).
  rewrite Hm. destruct (Z.ltb_spec seq sm) as [Hlt|Hge].
  - apply IH; try done; try lia. split; [lia|].
    destruct (decide (idx < base + size / 2)); [lia|].
    destruct (decide (idx = base + size / 2)) as [->|]; [simplify_eq/=; lia|].
    pose proof (index_sorted_lookup _ (base + size / 2) idx _ _ Hs Hm He ltac:(lia)). simpl in *. lia.
  - apply IH; try done; try lia. split; [|lia].
    destruct (decide (idx < base + size / 2)); [|lia].
    pose proof (index_sorted_lookup _ idx (base + size / 2) _ _ Hs He Hm ltac:(lia)). simpl in *. lia.
Qed.

Lemma binary_search_spec entries seq idx :
  index_sorted entries →
  binary_search entries seq = Some idx ↔ ∃ off, entries !! idx = Some (seq, off).
Proof.
  intros Hs. unfold binary_search. split.
  - destruct (entries !! _) as [[q off]|] eqn:E; [|done].
    destruct (Z.eqb_spec q seq) as [->|]; [|done]. intros [= <-]. eauto.
  - intros [off He].
    rewrite (search_loop_spec (length entries) entries seq 0 (length entries) idx (seq, off)); try done.
    + by rewrite He, Z.eqb_refl.
    + split; [lia|]. by eapply lookup_lt_Some.
Qed.

(** The resume search is exact. On an index sorted by sequence number,
    [get_seq_offset] answers the offset that the index holds for the number, and
    nothing for a number that the index does not have. *)
Theorem get_seq_offset_exact (s : AppState) build_id entries
    (Hi : seq_indices s !! build_id = Some entries) (Hs : index_sorted entries) seq off :
  get_seq_offset build_id seq s = Some off ↔ (seq, off) ∈ entries.
Proof.
  unfold get_seq_offset. rewrite Hi. simpl. split.
  - intros (idx & Hidx & He)%bind_Some. apply binary_search_spec in Hidx as [off' Ho]; [|done].
    rewrite Ho in He. simplify_eq/=. by eapply list_elem_of_lookup_2.
  - intros [idx Hidx]%list_elem_of_lookup.
    rewrite (proj2 (binary_search_spec entries seq idx Hs)) by eauto. simpl. by rewrite Hidx.
Qed.

(** ** The text and the index of a batch of lines *)

Fixpoint lines_text (lines : list string) : string :=
  match lines with [] => "" | l :: lines => (l +:+ newline) +:+ lines_text lines end.

(** The entries of a batch: consecutive numbers, and the offset where each line
    begins. *)
Fixpoint line_entries (seq off : Z) (lines : list string) : list (Z * Z) :=
  match lines with
  | [] => []
  | l :: lines => (seq, off) :: line_entries (seq + 1) (off + Z.of_nat (String.length (l +:+ newline))) lines
  end.

(** The text of a file from a byte offset on. *)
Fixpoint drop_bytes (n : nat) (s : string) : string :=
  match n, s with 0, _ => s | S n, String _ s => drop_bytes n s | S _, EmptyString => EmptyString end.

Lemma drop_bytes_app a b : drop_bytes (String.length a) (a +:+ b) = b.
Proof. by induction a as [|c a IH]. Qed.

Lemma line_entries_seqs seq off lines q o :
  (q, o) ∈ line_entries seq off lines → (seq ≤ q < seq + Z.of_nat (length lines))%Z.
Proof.
  revert seq off. induction lines as [|l lines IH]; intros seq off Hin; simpl in *; [set_solver|].
  apply elem_of_cons in Hin as [[= -> ->]|Hin]; [lia|]. apply IH in Hin. lia.
Qed.

Lemma line_entries_sorted seq off lines : index_sorted (line_entries seq off lines).
Proof.
  unfold index_sorted. revert seq off. induction lines as [|l lines IH]; intros seq off; simpl; constructor; [apply IH|].
  apply Forall_fmap, Forall_forall. intros [q o] Hin%line_entries_seqs. simpl. lia.
Qed.

Lemma line_entries_text seq pre lines post q o :
  (q, o) ∈ line_entries seq (Z.of_nat (String.length pre)) lines →
  ∃ k l rest, q = (seq + Z.of_nat k)%Z ∧ lines !! k = Some l ∧
    drop_bytes (Z.to_nat o) (pre +:+ lines_text lines +:+ post) = (l +:+ newline) +:+ rest.
Proof.
  revert seq pre. induction lines as [|l lines IH]; intros seq pre Hin; simpl in Hin; [set_solver|].
  apply elem_of_cons in Hin as [[= -> ->]|Hin].
  - exists 0, l. eexists. split_and!; [lia|done|]. rewrite Nat2Z.id, drop_bytes_app.
    cbn [lines_text]. by rewrite <- string_app_assoc.
  - rewrite <- Nat2Z.inj_add, <- string_app_length in Hin.
    destruct (IH _ _ Hin) as (k & l' & rest & -> & Hk & Hd). exists (S k), l', rest.
    split_and!; [lia|done|]. cbn [lines_text]. by rewrite <- !string_app_assoc in *.
Qed.

Section LogsSpec.
Context `{HEnv : Env}.

Lemma run_io {A} (f : AppState → A * AppState) s :
  faults s = [] → run (io f) s = (Ok (f s).1, (f s).2).
Proof.
  intros Hf. unfold io. rewrite run_atomic. unfold next_fault. rewrite Hf. simpl. by destruct (f s).
Qed.

(** What a batch does to the state of the logs. *)
Definition log_appended (i : Z) (text : string) (s s' : AppState) : Prop :=
  file_content i s' = file_content i s +:+ text ∧
  (∀ j, j ≠ i → log_files s' !! j = log_files s !! j) ∧
  pool s' = pool s ∧ seq_indices s' = seq_indices s ∧ clock s' = clock s ∧ faults s' = [] ∧
  queue s' = queue s.

Lemma run_write_lines i seq0 n off lines entries s :
  faults s = [] →
  let r := run (write_lines i seq0 n off lines entries) s in
  r.1 = Ok (entries ++ ((λ e, (wrap_u64 e.1, e.2)) <$> line_entries (seq0 + n) off lines),
            off + Z.of_nat (String.length (lines_text lines)))%Z ∧
  log_appended i (lines_text lines) s r.2.
Proof.
  revert n off entries s. induction lines as [|l lines IH]; intros n off entries s Hf; cbv zeta.
  - simpl. rewrite app_nil_r, Z.add_0_r. split; [done|]. unfold log_appended.
    by rewrite string_app_nil_r.
  - cbn [write_lines]. rewrite run_bind. unfold write_all. rewrite run_io by done. cbn [fst snd].
    set (s1 := upd_log_files _ s).
    destruct (IH (n + 1)%Z (off + Z.of_nat (String.length (l +:+ newline)))%Z
      (entries ++ [(wrap_u64 (seq0 + n), off)]) s1 Hf) as (Hr & Hc & Ho & Hp & Hx & Hk & Hff & Hqq).
    rewrite Hr. split.
    + cbn [line_entries lines_text]. rewrite fmap_cons, <- app_assoc, (string_app_length (l +:+ newline)).
      replace (seq0 + (n + 1))%Z with (seq0 + n + 1)%Z by lia. cbn [app fst snd].
      apply (f_equal Ok), (f_equal2 pair); [done|lia].
    + split_and!; try done.
      * rewrite Hc. unfold s1, file_content at 1. simpl. rewrite lookup_insert_eq. simpl.
        by rewrite !string_app_assoc.
      * intros j Hj. rewrite Ho by done. unfold s1. simpl. by rewrite lookup_insert_ne.
Qed.

Lemma wrap_entries seq off lines :
  (0 ≤ seq)%Z → (seq + Z.of_nat (length lines) ≤ 2 ^ 64)%Z →
  (λ e, (wrap_u64 e.1, e.2)) <$> line_entries seq off lines = line_entries seq off lines.
Proof.
  intros H0 H64. etrans; [|apply list_fmap_id]. apply list_fmap_ext.
  intros k [q o] Hq. apply list_elem_of_lookup_2, line_entries_seqs in Hq. simpl.
  unfold wrap_u64. by rewrite Z.mod_small by lia.
Qed.

Lemma run_write_build_output i cid seq0 lines s :
  faults s = [] → lines ≠ [] →
  let off := Z.of_nat (String.length (file_content i s)) in
  let r := run (write_build_output i cid seq0 lines) s in
  r.1 = Ok () ∧
  file_content i r.2 = file_content i s +:+ lines_text lines ∧
  (∀ j, j ≠ i → log_files r.2 !! j = log_files s !! j) ∧
  seq_indices r.2 = <[i := default [] (seq_indices s !! i) ++
      ((λ e, (wrap_u64 e.1, e.2)) <$> line_entries seq0 off lines)]> (seq_indices s) ∧
  pool r.2 = (update_build_log_size i
    (cast_i64 (off + Z.of_nat (String.length (lines_text lines)))) (clock s) (pool s)).2 ∧
  faults r.2 = [] ∧ queue r.2 = queue s.
Proof.
  intros Hf Hne. cbv zeta. unfold write_build_output. destruct lines as [|l0 ls]; [done|].
  set (lines := l0 :: ls) in *.
  rewrite run_bind, run_io by done. cbn [fst snd]. rewrite run_bind. unfold open_append.
  rewrite run_io by done. cbn [fst snd]. set (s1 := upd_log_files _ s).
  assert (file_content i s1 = file_content i s) as Hfc.
  { unfold s1, file_content. simpl. by rewrite lookup_insert_eq. }
  rewrite run_bind. unfold file_len. rewrite run_io by done. cbn [fst snd]. rewrite run_bind, Hfc.
  destruct (run_write_lines i seq0 0 (Z.of_nat (String.length (file_content i s))) lines [] s1 Hf)
    as (Hr & Hc & Ho & Hp & Hx & Hk & Hff & Hqq). rewrite Z.add_0_r in Hr. rewrite Hr.
  set (s2 := (run (write_lines _ _ _ _ _ _) s1).2) in *. rewrite run_bind, run_io by done. cbn [fst snd].
  rewrite run_bind. unfold extend_index. rewrite run_atomic. cbn [fst snd].
  rewrite run_bind, run_query, exec_stmt_no_fault by done. cbn [fst snd]. rewrite run_ret. cbn [fst snd].
  split_and!; [done|..].
  - change (file_content i s2 = file_content i s +:+ lines_text lines). by rewrite Hc, Hfc.
  - intros j Hj. simpl. rewrite Ho by done. unfold s1. simpl. by rewrite lookup_insert_ne.
  - simpl. by rewrite Hx.
  - simpl. by rewrite Hp, Hk.
  - done.
  - done.
Qed.

(** A logged line can be found again. When the worker's numbers continue the
    index of the build, a batch of output is appended to the log file, the index
    stays sorted and keeps its old answers, and for every line of the batch the
    search yields a byte offset at which exactly that line starts in the file. *)
Theorem logged_lines_addressable (s : AppState) i cid seq0 lines
    (Hf : faults s = []) (Hne : lines ≠ [])
    (Hs : index_sorted (default [] (seq_indices s !! i)))
    (Hlast : ∀ q o, (q, o) ∈ default [] (seq_indices s !! i) → (q < seq0)%Z)
    (H0 : (0 ≤ seq0)%Z) (H64 : (seq0 + Z.of_nat (length lines) ≤ 2 ^ 64)%Z) :
  let r := run (write_build_output i cid seq0 lines) s in
  r.1 = Ok () ∧
  file_content i r.2 = file_content i s +:+ lines_text lines ∧
  index_sorted (default [] (seq_indices r.2 !! i)) ∧
  (∀ q o, get_seq_offset i q s = Some o → get_seq_offset i q r.2 = Some o) ∧
  (∀ k l, lines !! k = Some l →
     ∃ o rest, get_seq_offset i (seq0 + Z.of_nat k) r.2 = Some o ∧
               drop_bytes (Z.to_nat o) (file_content i r.2) = (l +:+ newline) +:+ rest).
Proof.
  cbv zeta. destruct (run_write_build_output i cid seq0 lines s Hf Hne) as (Hr & Hc & _ & Hx & _).
  rewrite wrap_entries in Hx by done. set (s' := (run _ s).2) in *.
  set (old := default [] (seq_indices s !! i)) in *.
  set (new := line_entries seq0 (Z.of_nat (String.length (file_content i s))) lines) in *.
  assert (seq_indices s' !! i = Some (old ++ new)) as Hi by (rewrite Hx; apply lookup_insert_eq).
  assert (index_sorted (old ++ new)) as Hs'.
  { unfold index_sorted. rewrite fmap_app. apply StronglySorted_app_2; [|done|apply line_entries_sorted].
    intros q1 q2 ([q1' o1] & -> & Hq1)%list_elem_of_fmap ([q2' o2] & -> & Hq2)%list_elem_of_fmap.
    apply Hlast in Hq1. apply line_entries_seqs in Hq2. simpl. lia. }
  assert (∀ q o, get_seq_offset i q s' = Some o ↔ (q, o) ∈ old ++ new) as Hget.
  { intros q o. unfold get_seq_offset. rewrite Hi. simpl. split.
    - intros (idx & Hidx & He)%bind_Some. apply binary_search_spec in Hidx as [o' Ho]; [|done].
      rewrite Ho in He. simplify_eq/=. by eapply list_elem_of_lookup_2.
    - intros [idx Hidx]%list_elem_of_lookup.
      rewrite (proj2 (binary_search_spec _ q idx Hs')) by eauto. simpl. by rewrite Hidx. }
  split_and!; [done|done|by rewrite Hi| |].
  - intros q o Hq. apply Hget, elem_of_app. left. unfold get_seq_offset in Hq.
    destruct (seq_indices s !! i) as [es|]; [|done]. simpl in *.
    apply bind_Some in Hq as (idx & Hidx & He). apply binary_search_spec in Hidx as [o' Ho]; [|done].
    unfold old. rewrite Ho in He. simplify_eq/=. by eapply list_elem_of_lookup_2.
  - intros k l Hk.
    assert (∃ o, (seq0 + Z.of_nat k, o)%Z ∈ new) as [o Ho].
    { unfold new. generalize (Z.of_nat (String.length (file_content i s))).
      clear -Hk. revert seq0 k Hk. induction lines as [|l' lines IH]; intros seq0 k Hk off; [done|].
      destruct k as [|k]; simplify_eq/=; [exists off; rewrite Z.add_0_r; by left|].
      destruct (IH (seq0 + 1)%Z k Hk (off + Z.of_nat (String.length (l' +:+ newline)))%Z) as [o Ho].
      exists o. right. by replace (seq0 + Z.of_nat (S k))%Z with (seq0 + 1 + Z.of_nat k)%Z by lia. }
    destruct (line_entries_text seq0 (file_content i s) lines "" _ _ Ho) as (k' & l' & rest & Heq & Hk' & Hd).
    assert (k' = k) as -> by lia. simplify_eq. exists o, rest. split.
    + apply Hget, elem_of_app. by right.
    + by rewrite Hc, <- Hd, string_app_nil_r.
Qed.

End LogsSpec.
