(* ===== verification/LogReaders.v ===== *)
(** * Reading and removing build logs (logs/tail.rs, logs/sse.rs, logs/gc.rs, and
    the log endpoints of routes/builds.rs)

    The last lines of a log within a byte budget, the event stream that follows
    a log while the build runs, and the removal of expired logs. An open file is
    its build id and a byte position, so a follower that still holds the file
    while the collector unlinks it is not modelled. *)

From stdpp Require Import prelude gmap strings list pretty.
From S2P Require Import Prelude Async Proto Common FileSystem ServerConfig Queue Db App Logs.
From S2P Require Import DbRoles DbCredentials Auth Channels Components Routes AuthRoutes Admin.

(** ** Strings of the standard library *)

Fixpoint drop_continuation (s : string) : string :=
  match s with
  | String c t => if is_continuation_byte c then drop_continuation t else s
  | EmptyString => EmptyString
  end.

(** ** logs/tail.rs *)

Record TailReadResult := mkTail {
  tail_lines : list string;
  tail_returned : nat;
  tail_requested : nat;
  tail_truncated : bool;
  tail_bytes_scanned : nat
}.

(** What [read_tail] makes of the window it read. *)
Definition tail_of_window (requested_n : nat) (truncated_start : bool) (buf : string)
    : TailReadResult :=
  let after_leading := if truncated_start then drop_continuation buf else buf in
  let valid_text := valid_prefix after_leading in
  let lines := removelast (split_on lf valid_text) in
  let lines := if truncated_start then tail lines else lines in
  let returned := drop (length lines - requested_n) lines in
  mkTail returned (length returned) requested_n truncated_start (String.length buf).

(** The range of a file that [read_tail] reads: the last [max_bytes] bytes. *)
Definition tail_window (content : string) (max_bytes : Z) : bool * string :=
  let file_size := String.length content in
  let scan_budget := Z.to_nat (Z.of_nat file_size `min` max_bytes) in
  let start_offset := file_size - scan_budget in
  (0 <? start_offset, String.substring start_offset scan_budget content).

Section Readers.
Context `{HEnv : Env} `{HSerde : Serde}.

(** [None] when the file does not exist. *)
Definition open_read (build_id : Z) : async (result (option Z) IoError) :=
  io (λ s, (match log_files s !! build_id with Some _ => Some build_id | None => None end, s)).

Definition read_tail (build_id : Z) (requested_n : nat) (max_bytes : Z)
    : async (result (option TailReadResult) IoError) :=
  let? file := open_read build_id map_err id in
  match file with
  | None => Ret (Ok None)
  | Some f =>
      let? file_size := file_len f map_err id in
      if (file_size =? 0)%Z then Ret (Ok (Some (mkTail [] 0 requested_n false 0)))
      else
        let? window := io (λ s, (tail_window (String.substring 0 (Z.to_nat file_size)
                                                (file_content f s)) max_bytes, s)) map_err id in
        Ret (Ok (Some (tail_of_window requested_n window.1 window.2)))
  end.

(** ** logs/gc.rs *)

(** The path of the log of a build below the log directory, and the build whose
    log is at a path. *)
Definition log_path_of (build_id : Z) : string := "builds/" +:+ pretty build_id +:+ ".log".
Definition build_at (log_path : string) (s : AppState) : option Z :=
  find_first (λ i, bool_decide (log_path_of i = log_path)) (map_to_list (log_files s)).*1.

Definition is_terminal (st : BuildState) : bool :=
  match st with Success | Failure | Revoked => true | _ => false end.

(** The build has a log row and finished before the cutoff. *)
Definition expired (cutoff : Z) (d : Db) (id : Z) : bool :=
  match t_builds d !! id with
  | Some b => is_terminal (br_state b)
              && match br_finished_at b with Some t => (t <? cutoff)%Z | None => false end
  | None => false
  end.

Definition expired_logs (cutoff : Z) : stmt (list (Z * string)) :=
  λ _ d, (Ok ((λ r, (r.1, bl_log_path r.2)) <$>
               filter (λ r, expired cutoff d r.1 = true) (map_to_list (t_build_logs d))), d).

Definition delete_build_log (build_id : Z) : stmt unit :=
  λ _ d, (Ok (), set_build_logs (delete build_id (t_build_logs d)) d).

(** [remove_file]: a missing file is not a failure here. *)
Definition remove_log_file (log_path : string) : async (result unit IoError) :=
  io (λ s, ((), match build_at log_path s with
                | Some f => upd_log_files (delete f (log_files s)) s
                | None => s
                end)).

Fixpoint gc_rows (rows : list (Z * string)) (cleaned : nat) : async nat :=
  match rows with
  | [] => Ret cleaned
  | (build_id, log_path) :: rows =>
      let* removed := remove_log_file log_path in
      match removed with
      | Err _ => gc_rows rows cleaned
      | Ok _ =>
          let* deleted := query (delete_build_log build_id) in
          match deleted with
          | Err _ => gc_rows rows cleaned
          | Ok _ => gc_rows rows (S cleaned)
          end
      end
  end.

Definition run_gc_cycle (retention_days : Z) : async (result nat SqlError) :=
  let retention_secs := (retention_days * 24 * 60 * 60)%Z in
  let* t := now in
  let cutoff := (t - retention_secs)%Z in
  let? rows := query (expired_logs cutoff) map_err id in
  let* cleaned := gc_rows rows 0 in
  Ret (Ok cleaned).

(** ** logs/sse.rs *)

Inductive SseEvent := EventOutput (id : Z) (data : string) | EventDone.

(** The name and the data under which an event is sent. *)
Definition sse_name (e : SseEvent) : string :=
  match e with EventOutput _ _ => "output" | EventDone => "done" end.
Definition sse_data (e : SseEvent) : string :=
  match e with EventOutput _ data => data | EventDone => "build complete" end.

Definition get_build_log_row (build_id : Z) : stmt (option BuildLogRow) :=
  λ _ d, (Ok (t_build_logs d !! build_id), d).

(** [BufReader<File>]: the log of a build and the position in it. *)
Record Reader := mkReader { rd_file : Z; rd_pos : nat }.

(** Split off the first line, with its terminator when there is one. *)
Fixpoint take_line (s : string) : string * string :=
  match s with
  | EmptyString => (EmptyString, EmptyString)
  | String c t => if Ascii.eqb c lf then (String c EmptyString, t)
                  else let '(l, rest) := take_line t in (String c l, rest)
  end.

(** [trim_end_matches('\n')] of a line. *)
Definition trim_newline (line : string) : string := default line (strip_suffix_char lf line).

(** The loop of [read_available_lines] over what is left of the file: the events,
    the bytes consumed and the next number. A line that is not valid UTF-8 ends
    it, after its bytes were consumed. *)
Fixpoint lines_of (fuel : nat) (seq : Z) (rest : string) : list SseEvent * nat * Z :=
  match fuel with
  | 0 => ([], 0, seq)
  | S fuel =>
      match take_line rest with
      | (EmptyString, _) => ([], 0, seq)
      | (line, rest) =>
          if valid_utf8 line then
            let '(events, n, next) := lines_of fuel (wrap_u64 (seq + 1)) rest in
            (EventOutput seq (trim_newline line) :: events, String.length line + n, next)
          else ([], String.length line, seq)
      end
  end.

(** The events and the state of the stream after them. *)
Definition read_available_lines (reader : option Reader) (current_seq : Z)
    : async (list SseEvent * option Reader * Z) :=
  match reader with
  | None => Ret ([], None, current_seq)
  | Some r =>
      atomic (λ s,
        let '(failed, s) := next_fault s in
        if failed then (([], Some r, current_seq), s)
        else
          let content := file_content (rd_file r) s in
          let rest := String.substring (rd_pos r) (String.length content - rd_pos r) content in
          let '(events, n, next) := lines_of (String.length rest) current_seq rest in
          ((events, Some (mkReader (rd_file r) (rd_pos r + n)), next), s))
  end.

(** [subscribe] to the watch channel of a build: the identity of its sender. *)
Definition subscribe (build_id : Z) : async (option nat) :=
  atomic (λ s, (log_watchers s !! build_id, s)).

Definition try_subscribe (build_id : Z) : async (option nat) :=
  let* has_entries := atomic (λ s, (bool_decide (is_Some (seq_indices s !! build_id)), s)) in
  if has_entries : bool then subscribe build_id else Ret None.

(** [rx.changed()]: whether the sender still exists when the wait ends. *)
Definition changed (build_id : Z) (rx : nat) : async bool :=
  atomic (λ s, (bool_decide (log_watchers s !! build_id = Some rx), s)).

(** The loop of an active build. [fuel] is the number of turns after which the
    client goes away. *)
Fixpoint follow_loop (fuel : nat) (build_id : Z) (reader : option Reader) (current_seq : Z)
    (watch_rx : option nat) : async (list SseEvent) :=
  match fuel with
  | 0 => Ret []
  | S fuel =>
      let* reader :=
        match reader with
        | Some r => Ret (Some r)
        | None =>
            let* f := open_read build_id in
            Ret (match f with Ok (Some f) => Some (mkReader f 0) | _ => None end)
        end in
      let* (events, reader, current_seq) := read_available_lines reader current_seq in
      let* row := query (get_build_log_row build_id) in
      if match row with Ok (Some row) => bl_finished row | _ => false end then
        let* (rest, _, _) := read_available_lines reader current_seq in
        Ret (events ++ rest ++ [EventDone])
      else
        match watch_rx with
        | Some rx =>
            let* alive := changed build_id rx in
            if alive : bool then
              let* more := follow_loop fuel build_id reader current_seq watch_rx in
              Ret (events ++ more)
            else
              let* (rest, _, _) := read_available_lines reader current_seq in
              Ret (events ++ rest ++ [EventDone])
        | None =>
            let* new_rx := try_subscribe build_id in
            let* more := follow_loop fuel build_id reader current_seq new_rx in
            Ret (events ++ more)
        end
  end.

(** [found] with the text of the failure in the answer. *)
Definition found_text {A} (missing : string) (st : stmt (option A)) : async (result A AuthError) :=
  let? r := query st
    map_err (λ e, auth_error INTERNAL_SERVER_ERROR ("database error: " +:+ sql_error_text e)) in
  match r with
  | Some a => Ret (Ok a)
  | None => Ret (Err (auth_error NOT_FOUND missing))
  end.

Definition sse_follow (fuel : nat) (build_id : Z) (last_event_id : option Z)
    : async (result (list SseEvent) AuthError) :=
  do? found_text "build not found" (get_build build_id) map_err id in
  let? log_row := found_text "no logs yet" (get_build_log_row build_id) map_err id in
  let? file := io (λ s, (build_at (bl_log_path log_row) s, s))
    map_err (λ e, auth_error INTERNAL_SERVER_ERROR
                    ("failed to open log file: " +:+ io_error_to_string e)) in
  let start_seq := match last_event_id with Some id => wrap_u64 (id + 1) | None => 0%Z end in
  let* seek_offset := if (0 <? start_seq)%Z
                      then atomic (λ s, (get_seq_offset build_id start_seq s, s)) else Ret None in
  let* watch_rx := subscribe build_id in
  let finished_at_start := bl_finished log_row in
  match file with
  | None =>
      if finished_at_start then Ret (Ok [EventDone])
      else let* events := follow_loop fuel build_id None start_seq watch_rx in Ret (Ok events)
  | Some f =>
      let* pos := match seek_offset with
                  | Some offset =>
                      let* sought := io (λ s, (Z.to_nat offset, s)) in
                      Ret (match sought with Ok p => p | Err _ => 0 end)
                  | None => Ret 0
                  end in
      let reader := Some (mkReader f pos) in
      if finished_at_start then
        let* (events, _, _) := read_available_lines reader start_seq in
        Ret (Ok (events ++ [EventDone]))
      else
        let* events := follow_loop fuel build_id reader start_seq watch_rx in
        Ret (Ok events)
  end.

(** ** The log endpoints of routes/builds.rs *)

Definition default_tail_n : nat := 50.
Definition MAX_TAIL_LINES : nat := 1000.
Definition MAX_TAIL_BYTES : Z := 4 * 1024 * 1024.

Definition logs_tail (user : AuthUser) (id n : Z) : async (result TailReadResult AuthError) :=
  let requested := Z.to_nat (n `min` Z.of_nat MAX_TAIL_LINES) in
  do? get_build_route user id map_err Datatypes.id in
  let? r := read_tail id requested MAX_TAIL_BYTES
    map_err internal "failed to read log file" in
  match r with
  | Some r => Ret (Ok r)
  | None => Ret (Err (auth_error NOT_FOUND "no logs yet"))
  end.

Definition logs_follow (fuel : nat) (user : AuthUser) (id : Z) (last_event_id : option Z)
    : async (result (list SseEvent) AuthError) :=
  do? get_build_route user id map_err Datatypes.id in
  sse_follow fuel id last_event_id.

(** The body is the file; what is appended while it is streamed comes too, here
    everything up to the moment of one read. *)
Definition logs_full (user : AuthUser) (id : Z) : async (result string AuthError) :=
  do? get_build_route user id map_err Datatypes.id in
  let? file := open_read id map_err internal "failed to open log file" in
  match file with
  | None => Ret (Err (auth_error NOT_FOUND "no logs yet"))
  | Some f =>
      let* content := atomic (λ s, (file_content f s, s)) in
      Ret (Ok content)
  end.

End Readers.
