(* ===== verification/LogReadersSpec.v ===== *)
(** * What the readers and the collector of build logs promise

    The tail endpoint returns exactly the last complete lines of the window it
    reads, the event stream of a finished build replays the whole log, and the
    collector removes exactly the expired logs. *)

From stdpp Require Import prelude gmap strings list pretty.
From S2P Require Import Prelude Async Proto Common FileSystem ServerConfig Queue Db App Logs LogsSpec.
From S2P Require Import DbRoles DbCredentials Auth Channels Components Routes AuthRoutes Admin LogReaders.

(** ** Lines *)

Definition last_n {A} (n : nat) (l : list A) : list A := drop (length l - n) l.

(** The lines of a text that end in a line feed. *)
Definition complete_lines (s : string) : list string := removelast (split_on lf s).

Lemma split_on_cons c a s : ∃ w ws, split_on c s = w :: ws ∧
  split_on c (String a s) = if Ascii.eqb a c then "" :: w :: ws else String a w :: ws.
Proof.
  assert (∃ w ws, split_on c s = w :: ws) as (w & ws & Hs).
  { destruct s as [|b s]; simpl; [by eauto|]. destruct (split_on c s); [by eauto|]. case_match; eauto. }
  exists w, ws. simpl. by rewrite Hs.
Qed.

Lemma split_on_suffix c a b : ∃ p pre, split_on c (a +:+ b) = p :: pre ++ tail (split_on c b).
Proof.
  induction a as [|x a (p & pre & IH)].
  - change ("" +:+ b) with b. destruct (split_on c b) as [|w ws] eqn:Hs; [|by exists w, []].
    by destruct b as [|y b]; [|destruct (split_on_cons c y b) as (w & ws & _ & Hc); rewrite Hs in Hc; case_match].
  - change (String x a +:+ b) with (String x (a +:+ b)).
    destruct (split_on_cons c x (a +:+ b)) as (w & ws & Hs & ->). rewrite IH in Hs. simplify_eq.
    case_match; [by exists "", (w :: pre)|by exists (String x w), pre].
Qed.

Lemma removelast_tail {A} (l : list A) : removelast (tail l) = tail (removelast l).
Proof. destruct l as [|x [|y l]]; done. Qed.

(** The complete lines of a suffix, its possibly partial first line left out, end
    the complete lines of the text. *)
Lemma complete_lines_suffix a b : tail (split_on lf b) ≠ [] →
  ∃ pre, complete_lines (a +:+ b) = pre ++ tail (complete_lines b).
Proof.
  intros Hb. destruct (split_on_suffix lf a b) as (p & pre & Hs). unfold complete_lines.
  rewrite Hs, <- removelast_tail. exists (p :: pre). by rewrite app_comm_cons, removelast_app.
Qed.

Lemma length_removelast {A} (l : list A) : length (removelast l) = pred (length l).
Proof.
  induction l as [|x l IH]; [done|]. destruct l as [|y l]; [done|].
  change (S (length (removelast (y :: l))) = length (y :: l)). by rewrite IH.
Qed.

Lemma complete_lines_length s : length (complete_lines s) = pred (length (split_on lf s)).
Proof. apply length_removelast. Qed.

Lemma split_on_no_char c a b : Ascii.eqb a c = false →
  tail (split_on c (String a b)) = tail (split_on c b) ∧
  length (split_on c (String a b)) = length (split_on c b).
Proof. intros Ha. destruct (split_on_cons c a b) as (w & ws & -> & ->). by rewrite Ha. Qed.

Lemma continuation_not_lf a : is_continuation_byte a = true → Ascii.eqb a lf = false.
Proof. intros Ha. apply Ascii.eqb_neq. intros ->. discriminate Ha. Qed.

Lemma drop_continuation_lines s :
  tail (split_on lf (drop_continuation s)) = tail (split_on lf s) ∧
  length (split_on lf (drop_continuation s)) = length (split_on lf s).
Proof.
  induction s as [|a s IH]; [done|]. cbn [drop_continuation].
  destruct (is_continuation_byte a) eqn:Ha; [|done].
  apply continuation_not_lf in Ha. by destruct (split_on_no_char lf a s Ha) as [-> ->].
Qed.

(** ** UTF-8: a suffix of a valid text is valid from its first lead byte on *)

Fixpoint all_continuation (s : string) : Prop :=
  match s with
  | EmptyString => True
  | String a s => is_continuation_byte a = true ∧ all_continuation s
  end.

Lemma second_byte_range a b : ∃ lo hi,
  (128 <=? lo) && (hi <=? 191) = true ∧ second_byte_ok a b = byte_in lo hi b.
Proof. unfold second_byte_ok. repeat case_match; eexists _, _; (split; [|reflexivity]); reflexivity. Qed.

Lemma second_byte_continuation a b : second_byte_ok a b = true → is_continuation_byte b = true.
Proof.
  destruct (second_byte_range a b) as (lo & hi & [?%Nat.leb_le ?%Nat.leb_le]%andb_true_iff & ->).
  unfold byte_in, is_continuation_byte. rewrite !andb_true_iff, !Nat.leb_le, Nat.ltb_lt. lia.
Qed.

Lemma lead_not_continuation lo hi a :
  byte_in lo hi a = true → (hi <? 128) || (192 <=? lo) = true → is_continuation_byte a = false.
Proof.
  unfold byte_in, is_continuation_byte. intros [?%Nat.leb_le ?%Nat.leb_le]%andb_true_iff [?%Nat.ltb_lt|?%Nat.leb_le]%orb_true_iff;
    apply andb_false_iff; rewrite Nat.leb_gt, Nat.ltb_ge; lia.
Qed.

(** A valid text starts with a lead byte, its continuation bytes, and a valid
    text. *)
Lemma valid_prefix_step a s : valid_prefix (String a s) = String a s →
  ∃ k rest, s = k +:+ rest ∧ is_continuation_byte a = false ∧ all_continuation k ∧
            valid_prefix rest = rest ∧ String.length rest ≤ String.length s.
Proof.
  cbn [valid_prefix]. destruct (byte_in 0 127 a) eqn:E1.
  { intros [= Hs]. exists "", s. split_and!; [done|by eapply lead_not_continuation|done..]. }
  destruct s as [|b s]; [done|]. destruct (byte_in 194 223 a && is_continuation_byte b) eqn:E2.
  { apply andb_true_iff in E2 as [E2 Hb]. intros [= Hs]. exists (String b ""), s.
    split_and!; [done|by eapply lead_not_continuation|done..|simpl; lia]. }
  destruct s as [|c s]; [done|]. match goal with |- context [if ?x then _ else _] => destruct x eqn:E3 end.
  { apply andb_true_iff in E3 as [[E3 Hb]%andb_true_iff Hc]. apply second_byte_continuation in Hb.
    intros [= Hs]. exists (String b (String c "")), s.
    split_and!; [done|by eapply lead_not_continuation|done..|simpl; lia]. }
  destruct s as [|d s]; [done|]. match goal with |- context [if ?x then _ else _] => destruct x eqn:E4 end; [|done].
  apply andb_true_iff in E4 as [[[E4 Hb]%andb_true_iff Hc]%andb_true_iff Hd].
  apply second_byte_continuation in Hb. intros [= Hs]. exists (String b (String c (String d ""))), s.
  split_and!; [done|by eapply lead_not_continuation|done..|simpl; lia].
Qed.

Lemma drop_continuation_valid s : valid_prefix s = s → drop_continuation s = s.
Proof.
  destruct s as [|a s]; [done|]. intros (k & rest & _ & Ha & _)%valid_prefix_step. simpl. by rewrite Ha.
Qed.

Lemma drop_all_continuation k rest :
  all_continuation k → drop_continuation (k +:+ rest) = drop_continuation rest.
Proof.
  induction k as [|x k IH]; [done|]. intros [Hx Hk].
  change (String x k +:+ rest) with (String x (k +:+ rest)). cbn [drop_continuation].
  rewrite Hx. by apply IH.
Qed.

(** A cut inside [k +:+ rest]: in the continuation bytes, or after them. *)
Lemma cut_continuation k rest a b : all_continuation k → a +:+ b = k +:+ rest →
  drop_continuation b = drop_continuation rest ∨ ∃ a', rest = a' +:+ b ∧ String.length a' ≤ String.length a.
Proof.
  revert a. induction k as [|x k IH]; intros a Hk Heq; [right; by exists a|].
  destruct a as [|y a].
  - left. change ("" +:+ b) with b in Heq. rewrite Heq. by apply drop_all_continuation.
  - destruct Hk as [_ Hk]. injection Heq as _ Heq.
    destruct (IH a Hk Heq) as [?|(a' & ? & ?)]; [by left|].
    right. exists a'. split; [done|]. simpl. lia.
Qed.

Lemma valid_suffix a b : valid_prefix (a +:+ b) = a +:+ b →
  valid_prefix (drop_continuation b) = drop_continuation b.
Proof.
  remember (String.length a) as n eqn:Hn. revert a Hn.
  induction n as [n IH] using lt_wf_ind. intros [|x a] -> Hv.
  - simpl in Hv. by rewrite drop_continuation_valid.
  - change (String x a +:+ b) with (String x (a +:+ b)) in Hv.
    apply valid_prefix_step in Hv as (k & rest & Heq & _ & Hk & Hr & _).
    destruct (cut_continuation k rest a b Hk Heq) as [->|(a' & -> & Hlen)].
    + by rewrite drop_continuation_valid.
    + eapply (IH (String.length a')); [simpl; lia|done|done].
Qed.

(** ** The tail *)

Section Tail.
Context `{HEnv : Env}.

Lemma tail_window_split content max_bytes : (0 ≤ max_bytes)%Z →
  ∃ pre, content = pre +:+ (tail_window content max_bytes).2 ∧
         (tail_window content max_bytes).1 = (0 <? String.length pre).
Proof.
  intros Hmax. unfold tail_window. cbn [fst snd].
  set (budget := Z.to_nat _). set (off := String.length content - budget).
  assert (budget ≤ String.length content) as Hb by lia.
  exists (String.substring 0 off content). rewrite substring_length by lia. split; [|done].
  replace budget with (String.length content - off) by lia. by rewrite substring_split by lia.
Qed.

Lemma tail_of_window_exact pre w n : valid_prefix (pre +:+ w) = pre +:+ w →
  let trunc := 0 <? String.length pre in let k := length (complete_lines w) in
  tail_lines (tail_of_window n trunc w) =
    last_n (n `min` (if trunc then pred k else k)) (complete_lines (pre +:+ w)).
Proof.
  intros Hutf. destruct pre as [|a pre]; cbv zeta.
  - change (0 <? String.length "") with false. change ("" +:+ w) with w in *.
    unfold tail_of_window. cbv beta iota zeta. cbn [tail_lines]. rewrite Hutf. fold (complete_lines w).
    unfold last_n. f_equal. lia.
  - change (0 <? String.length (String a pre)) with true.
    unfold tail_of_window. cbv beta iota zeta. cbn [tail_lines].
    rewrite (valid_suffix _ _ Hutf). destruct (drop_continuation_lines w) as [Ht Hl].
    rewrite <- removelast_tail, Ht. rewrite complete_lines_length.
    destruct (decide (tail (split_on lf w) = [])) as [Hnil|Hne].
    + rewrite Hnil. destruct (split_on lf w) as [|x [|y l]]; [| |done]; simpl;
        rewrite Nat.min_0_r; unfold last_n; by rewrite Nat.sub_0_r, drop_all.
    + destruct (complete_lines_suffix (String a pre) w Hne) as [q ->]. unfold last_n.
      unfold complete_lines. rewrite <- removelast_tail. set (lines := removelast (tail (split_on lf w))).
      assert (length lines = pred (pred (length (split_on lf w)))) as <-.
      { unfold lines. rewrite length_removelast. by destruct (split_on lf w). }
      rewrite length_app, drop_app_ge by lia. f_equal. lia.
Qed.

(** The tail of a log is exact. For a log in valid UTF-8, [read_tail] returns
    the last complete lines of the log: as many as requested, or as many as the
    byte window holds, the first line of a window that does not start at the
    beginning of the file left out. *)
Theorem tail_is_last_lines (s : AppState) (build_id : Z) (content : string) (n : nat) (max_bytes : Z)
    (Hf : faults s = []) (Hfile : log_files s !! build_id = Some content)
    (Hutf : valid_utf8 content = true) (Hmax : (0 < max_bytes)%Z) :
  ∃ r, run (read_tail build_id n max_bytes) s = (Ok (Some r), s) ∧
    tail_truncated r = (tail_window content max_bytes).1 ∧
    let k := length (complete_lines (tail_window content max_bytes).2) in
    tail_lines r = last_n (n `min` (if tail_truncated r then pred k else k)) (complete_lines content).
Proof.
  unfold read_tail, open_read. rewrite run_or_fail, run_io by done. cbn [fst snd]. rewrite Hfile.
  rewrite run_or_fail. unfold file_len. rewrite run_io by done. cbn [fst snd].
  unfold file_content. rewrite Hfile. cbn [default from_option id].
  destruct (Z.eqb_spec (Z.of_nat (String.length content)) 0) as [Hz|Hz].
  { destruct content; [|simpl in Hz; lia]. eexists. split; [done|]. split; [done|].
    symmetry. exact (drop_nil _). }
  rewrite run_or_fail, run_io by done. cbn [fst snd]. rewrite Hfile, run_ret, Nat2Z.id, substring_full.
  eexists. split; [done|]. split; [done|].
  destruct (tail_window_split content max_bytes ltac:(lia)) as (pre & Hsplit & Htrunc).
  apply bool_decide_eq_true in Hutf.
  pose proof (tail_of_window_exact pre (tail_window content max_bytes).2 n) as Ht.
  rewrite <- Hsplit, <- Htrunc in Ht. by apply Ht.
Qed.
End Tail.

(** ** The event stream *)

(** A line as the workers send it: without a line feed, and valid with one. *)
Record clean_line (l : string) : Prop := mkCleanLine {
  cl_no_lf : strip_suffix_char lf (l +:+ newline) = Some l ∧ take_line (l +:+ newline) = (l +:+ newline, "");
  cl_utf8 : valid_utf8 (l +:+ newline) = true
}.

(** The events of consecutive lines. *)
Definition numbered (start : Z) (lines : list string) : list SseEvent :=
  imap (λ i l, EventOutput (start + Z.of_nat i) l) lines.

Lemma numbered_cons start l lines :
  numbered start (l :: lines) = EventOutput start l :: numbered (start + 1) lines.
Proof.
  unfold numbered. simpl. f_equal; [f_equal; lia|]. apply imap_ext. intros i x _. simpl. f_equal. lia.
Qed.

Lemma take_line_app l rest :
  take_line (l +:+ newline) = (l +:+ newline, "") → take_line ((l +:+ newline) +:+ rest) = (l +:+ newline, rest).
Proof.
  induction l as [|c l IH]; [done|].
  change (String c l +:+ newline) with (String c (l +:+ newline)).
  change (String c (l +:+ newline) +:+ rest) with (String c ((l +:+ newline) +:+ rest)).
  cbn [take_line]. destruct (Ascii.eqb c lf) eqn:Hc.
  - intros [= Hl]. by destruct l.
  - destruct (take_line (l +:+ newline)) as [x y]. intros [= -> ->]. by rewrite IH.
Qed.

Lemma lines_of_text fuel seq lines :
  Forall clean_line lines → (0 ≤ seq)%Z → (seq + Z.of_nat (length lines) < 2 ^ 64)%Z →
  String.length (lines_text lines) ≤ fuel →
  lines_of fuel seq (lines_text lines) =
    (numbered seq lines, String.length (lines_text lines), (seq + Z.of_nat (length lines))%Z).
Proof.
  intros Hc. revert fuel seq. induction Hc as [|l lines [[Htrim Htake] Hu] _ IH]; intros fuel seq H0 H64 Hfuel.
  { destruct fuel; simpl; by rewrite Z.add_0_r. }
  cbn [lines_text] in *. rewrite string_app_length in *.
  assert (1 ≤ String.length (l +:+ newline)) by (rewrite string_app_length; simpl; lia).
  destruct fuel as [|fuel]; [lia|]. cbn [lines_of]. rewrite (take_line_app _ _ Htake).
  destruct (l +:+ newline) as [|c line] eqn:Hline; [simpl in *; lia|]. rewrite Hu.
  simpl length in H64. unfold wrap_u64. rewrite Z.mod_small by lia.
  rewrite IH by lia. cbv zeta. rewrite numbered_cons. unfold trim_newline. rewrite Htrim.
  cbn [default from_option id]. f_equal. simpl length. lia.
Qed.

Lemma lines_text_app a b : lines_text (a ++ b) = lines_text a +:+ lines_text b.
Proof.
  induction a as [|l a IH]; [done|]. cbn [lines_text app]. by rewrite IH, string_app_assoc.
Qed.

(** The index of a file that was written from its first line on. *)
Lemma line_entries_lookup lines seq off k : k < length lines →
  (seq + Z.of_nat k, off + Z.of_nat (String.length (lines_text (take k lines))))%Z
    ∈ line_entries seq off lines.
Proof.
  revert seq off k. induction lines as [|l lines IH]; intros seq off k Hk; simpl in Hk; [lia|].
  destruct k as [|k]; cbn [take lines_text line_entries].
  - rewrite !Z.add_0_r. by left.
  - right. specialize (IH (seq + 1)%Z (off + Z.of_nat (String.length (l +:+ newline)))%Z k ltac:(lia)).
    rewrite (string_app_length (l +:+ newline)), Nat2Z.inj_succ, Nat2Z.inj_add.
    by replace (seq + Z.succ (Z.of_nat k))%Z with (seq + 1 + Z.of_nat k)%Z by lia; rewrite Z.add_assoc.
Qed.

Section Stream.
Context `{HEnv : Env} `{HSerde : Serde}.

Lemma run_read_available f pre lines seq s :
  faults s = [] → file_content f s = pre +:+ lines_text lines → Forall clean_line lines →
  (0 ≤ seq)%Z → (seq + Z.of_nat (length lines) < 2 ^ 64)%Z →
  run (read_available_lines (Some (mkReader f (String.length pre))) seq) s =
    ((numbered seq lines, Some (mkReader f (String.length (pre +:+ lines_text lines))),
      (seq + Z.of_nat (length lines))%Z), s).
Proof.
  intros Hf Hfile Hc H0 H64. unfold read_available_lines. rewrite run_atomic. unfold next_fault.
  rewrite Hf. cbn [rd_file rd_pos]. rewrite Hfile.
  replace (String.length (pre +:+ lines_text lines) - String.length pre)
    with (String.length (lines_text lines)) by (rewrite string_app_length; lia).
  rewrite substring_drop. by rewrite lines_of_text, string_app_length.
Qed.

Lemma run_read_end f text seq s :
  faults s = [] → file_content f s = text → (0 ≤ seq < 2 ^ 64)%Z →
  run (read_available_lines (Some (mkReader f (String.length text))) seq) s =
    (([], Some (mkReader f (String.length text)), seq), s).
Proof.
  intros Hf Hfile Hq. pose proof (run_read_available f text [] seq s Hf) as H.
  simpl lines_text in H. rewrite string_app_nil_r, Z.add_0_r in H. by apply H; simpl; try lia.
Qed.

Lemma run_try_subscribe i s :
  ∃ rx, run (try_subscribe i) s = (rx, s) ∧ (∀ r, rx = Some r → log_watchers s !! i = Some r).
Proof.
  unfold try_subscribe. rewrite run_bind, run_atomic. cbn [fst snd]. case_bool_decide.
  - unfold subscribe. rewrite run_atomic. by exists (log_watchers s !! i).
  - by exists None.
Qed.

(** Nothing is sent while nothing happens to the build. *)
Lemma run_follow_idle fuel i text seq rx s row :
  faults s = [] → file_content i s = text → (0 ≤ seq < 2 ^ 64)%Z →
  t_build_logs (pool s) !! i = Some row → bl_finished row = false →
  (∀ r, rx = Some r → log_watchers s !! i = Some r) →
  run (follow_loop fuel i (Some (mkReader i (String.length text))) seq rx) s = ([], s).
Proof.
  intros Hf Hfile Hq Hrow Hfin. revert rx. induction fuel as [|fuel IH]; intros rx Hrx; [done|].
  cbn [follow_loop]. rewrite run_bind, run_ret. cbn [fst snd].
  rewrite run_bind, run_read_end by done. cbn [fst snd].
  rewrite run_bind, run_read by done. unfold get_build_log_row. cbn [fst snd].
  rewrite Hrow, Hfin. destruct rx as [r|].
  - rewrite run_bind. unfold changed. rewrite run_atomic. cbn [fst snd].
    rewrite bool_decide_eq_true_2 by auto. by rewrite run_bind, IH.
  - rewrite run_bind. destruct (run_try_subscribe i s) as (rx & -> & Hrx').
    cbn [fst snd]. by rewrite run_bind, IH.
Qed.

(** What a stream starts from: a build with a log row and the file of its
    lines. *)
Record has_log (s : AppState) (i : Z) (row : BuildLogRow) (lines : list string) : Prop := mkHasLog {
  hl_no_faults : faults s = [];
  hl_build : is_Some (t_builds (pool s) !! i);
  hl_row : t_build_logs (pool s) !! i = Some row;
  hl_path : bl_log_path row = log_path_of i;
  hl_file : log_files s !! i = Some (lines_text lines);
  hl_clean : Forall clean_line lines;
  hl_count : (Z.of_nat (length lines) < 2 ^ 63)%Z
}.

Lemma log_path_of_inj i j : log_path_of i = log_path_of j → i = j.
Proof.
  unfold log_path_of. rewrite !string_app_assoc. intros H%string_app_inj_suffix.
  injection H as H. change (pretty i = pretty j) in H. by apply (inj (pretty (A:=Z))) in H.
Qed.

Lemma build_at_path i s : is_Some (log_files s !! i) → build_at (log_path_of i) s = Some i.
Proof.
  intros [text Hi]. unfold build_at. destruct (find_first _ _) as [j|] eqn:E.
  - apply find_first_Some in E as [_ Hj%bool_decide_eq_true]. by rewrite (log_path_of_inj _ _ Hj).
  - assert (i ∈ (map_to_list (log_files s)).*1) as Hin.
    { apply list_elem_of_fmap. exists (i, text). split; [done|]. by apply elem_of_map_to_list. }
    apply (find_first_None _ _ _ E) in Hin. by rewrite bool_decide_eq_true_2 in Hin.
Qed.

(** The stream once the file is open at the position of a line. *)
Lemma run_follow_open fuel i row pre lines start rx s :
  faults s = [] → file_content i s = pre +:+ lines_text lines → Forall clean_line lines →
  (0 ≤ start)%Z → (start + Z.of_nat (length lines) < 2 ^ 64)%Z →
  t_build_logs (pool s) !! i = Some row → bl_finished row = false →
  (∀ r, rx = Some r → log_watchers s !! i = Some r) →
  run (follow_loop (S fuel) i (Some (mkReader i (String.length pre))) start rx) s = (numbered start lines, s).
Proof.
  intros Hf Hfile Hc H0 H64 Hrow Hfin Hrx. cbn [follow_loop]. rewrite run_bind, run_ret. cbn [fst snd].
  rewrite run_bind, (run_read_available i pre lines) by done. cbn [fst snd].
  rewrite run_bind, run_read by done. unfold get_build_log_row. cbn [fst snd]. rewrite Hrow, Hfin.
  assert (∀ rx', (∀ r, rx' = Some r → log_watchers s !! i = Some r) →
    run (let* more := follow_loop fuel i (Some (mkReader i (String.length (pre +:+ lines_text lines))))
                        (start + Z.of_nat (length lines))%Z rx' in
         Ret (numbered start lines ++ more)) s = (numbered start lines, s)) as Hmore.
  { intros rx' Hrx'. rewrite run_bind, (run_follow_idle fuel i _ _ _ s row) by (done || lia).
    cbn [fst snd]. by rewrite run_ret, app_nil_r. }
  destruct rx as [r|].
  - rewrite run_bind. unfold changed. rewrite run_atomic. cbn [fst snd].
    rewrite bool_decide_eq_true_2 by auto. by apply Hmore.
  - rewrite run_bind. destruct (run_try_subscribe i s) as (rx & -> & Hrx').
    cbn [fst snd]. by apply Hmore.
Qed.

Definition start_seq (last_event_id : option Z) : Z :=
  match last_event_id with Some id => id + 1 | None => 0 end.

Lemma run_found_text {A} missing (st : stmt (option A)) a s :
  reads st → faults s = [] → (st (clock s) (pool s)).1 = Ok (Some a) →
  run (found_text missing st) s = (Ok a, s).
Proof. intros Hr Hf Ha. unfold found_text. by rewrite run_or_fail, run_read, Ha. Qed.

(** The opening of a stream, up to the position in the file. *)
Lemma run_sse_follow fuel i row lines last s pos :
  has_log s i row lines → (∀ id, last = Some id → (0 ≤ id < 2 ^ 63)%Z) →
  pos = match (if (0 <? start_seq last)%Z then get_seq_offset i (start_seq last) s else None) with
        | Some off => Z.to_nat off | None => 0 end →
  run (sse_follow fuel i last) s =
    run (if bl_finished row then
           let* (events, _, _) := read_available_lines (Some (mkReader i pos)) (start_seq last) in
           Ret (Ok (events ++ [EventDone]))
         else
           let* events := follow_loop fuel i (Some (mkReader i pos)) (start_seq last) (log_watchers s !! i) in
           Ret (Ok events)) s.
Proof.
  intros [Hf [b Hb] Hrow Hpath Hfile _ _] Hlast ->. unfold sse_follow.
  rewrite run_or_fail, (run_found_text _ _ (row_to_record (pool s) b)) by (done || by unfold get_build; rewrite Hb).
  cbn [fst snd]. rewrite run_or_fail, (run_found_text _ _ row) by (done || by unfold get_build_log_row; rewrite Hrow). cbn [fst snd].
  rewrite run_or_fail, run_io by done. cbn [fst snd].
  rewrite Hpath, build_at_path by (rewrite Hfile; eauto).
  assert (match last with Some id => wrap_u64 (id + 1) | None => 0%Z end = start_seq last) as ->.
  { destruct last as [id|]; [|done]. specialize (Hlast id eq_refl). unfold wrap_u64.
    by rewrite Z.mod_small by lia. }
  rewrite run_bind. set (off := if (0 <? start_seq last)%Z then get_seq_offset i (start_seq last) s else None).
  assert (∀ m : async (option Z), m = (if (0 <? start_seq last)%Z
    then atomic (λ s, (get_seq_offset i (start_seq last) s, s)) else Ret None) → run m s = (off, s)) as Hoff.
  { intros m ->. unfold off. destruct (0 <? start_seq last)%Z; [by rewrite run_atomic|done]. }
  rewrite (Hoff _ eq_refl). cbn [fst snd]. rewrite run_bind. unfold subscribe. rewrite run_atomic. cbn [fst snd].
  rewrite run_bind. destruct off as [o|]; [|done].
  rewrite run_bind, run_io by done. done.
Qed.

(** A stream of a running build from its start, and one of a finished build. *)
Lemma follow_open fuel i row lines s :
  has_log s i row lines → bl_finished row = false →
  run (sse_follow (S fuel) i None) s = (Ok (numbered 0 lines), s).
Proof.
  intros Hlog Hfin. pose proof Hlog as [Hf _ Hrow _ Hfile Hc Hn].
  assert (file_content i s = lines_text lines) as Htext by (unfold file_content; by rewrite Hfile).
  rewrite (run_sse_follow _ _ _ _ _ _ 0 Hlog) by done. rewrite Hfin, run_bind.
  change (start_seq None) with 0%Z. by rewrite (run_follow_open fuel i row "" lines) by (done || lia).
Qed.

Lemma follow_finished fuel i row lines s :
  has_log s i row lines → bl_finished row = true →
  run (sse_follow fuel i None) s = (Ok (numbered 0 lines ++ [EventDone]), s).
Proof.
  intros Hlog Hfin. pose proof Hlog as [Hf _ Hrow _ Hfile Hc Hn].
  assert (file_content i s = lines_text lines) as Htext by (unfold file_content; by rewrite Hfile).
  rewrite (run_sse_follow _ _ _ _ _ _ 0 Hlog) by done. rewrite Hfin, run_bind.
  change (start_seq None) with 0%Z. by rewrite (run_read_available i "" lines) by (done || lia).
Qed.

Lemma start_after k : start_seq (Some (Z.of_nat k)) = Z.of_nat (S k).
Proof. unfold start_seq. lia. Qed.

(** A stream of a running build that is resumed: at a line that the index has, and
    at a number that it does not have. *)
Lemma follow_resumed fuel i row lines k s :
  has_log s i row lines → bl_finished row = false → seq_indices s !! i = Some (line_entries 0 0 lines) →
  S k < length lines →
  run (sse_follow (S fuel) i (Some (Z.of_nat k))) s = (Ok (numbered (Z.of_nat (S k)) (drop (S k) lines)), s).
Proof.
  intros Hlog Hfin Hidx Hk. pose proof Hlog as [Hf _ Hrow _ Hfile Hc Hn].
  assert (file_content i s = lines_text lines) as Htext by (unfold file_content; by rewrite Hfile).
  assert (get_seq_offset i (Z.of_nat (S k)) s =
    Some (Z.of_nat (String.length (lines_text (take (S k) lines))))) as Hget.
  { apply (get_seq_offset_exact _ _ _ Hidx (line_entries_sorted _ _ _)).
    exact (line_entries_lookup lines 0 0 (S k) Hk). }
  rewrite (run_sse_follow _ _ _ _ _ _ (String.length (lines_text (take (S k) lines))) Hlog).
  2: { intros id [= <-]. lia. }
  2: { rewrite start_after, Hget. change (0 <? Z.of_nat (S k))%Z with true. cbv iota. by rewrite Nat2Z.id. }
  rewrite Hfin, start_after, run_bind.
  rewrite (run_follow_open fuel i row _ (drop (S k) lines)); [done|done| | |lia| |done..].
  - by rewrite <- lines_text_app, take_drop.
  - by apply Forall_drop.
  - rewrite length_drop. lia.
Qed.

Lemma follow_replayed fuel i row lines k s :
  has_log s i row lines → bl_finished row = false → seq_indices s !! i = Some (line_entries 0 0 lines) →
  length lines ≤ S k → (Z.of_nat k < 2 ^ 62)%Z →
  run (sse_follow (S fuel) i (Some (Z.of_nat k))) s = (Ok (numbered (Z.of_nat (S k)) lines), s).
Proof.
  intros Hlog Hfin Hidx Hk Hmax. pose proof Hlog as [Hf _ Hrow _ Hfile Hc Hn].
  assert (file_content i s = lines_text lines) as Htext by (unfold file_content; by rewrite Hfile).
  assert (get_seq_offset i (Z.of_nat (S k)) s = None) as Hget.
  { destruct (get_seq_offset _ _ _) as [off|] eqn:E; [|done].
    apply (get_seq_offset_exact _ _ _ Hidx (line_entries_sorted _ _ _)), line_entries_seqs in E. lia. }
  rewrite (run_sse_follow _ _ _ _ _ _ 0 Hlog).
  2: { intros id [= <-]. lia. }
  2: { rewrite start_after, Hget. by destruct (0 <? _)%Z. }
  rewrite Hfin, start_after, run_bind. by rewrite (run_follow_open fuel i row "" lines) by (done || lia).
Qed.

(** C16: The event stream of a log. While the build runs and its index is in
    memory, a client that starts sees every line under its number, and a client
    that comes back with the number of a line that is not the last one receives
    exactly the lines after it. A client that comes back with the number of the
    last line (or a later one) has nothing left to receive, but is sent the whole
    log again, under numbers that go on from its own. So is a client that comes
    back once the build has finished and its index is gone, with the end of the
    log after it; a client that starts then receives every line under its number
    and the end. *)
Theorem follow_delivers_log (s : AppState) (fuel : nat) (i : Z) (row : BuildLogRow) (lines : list string)
    (Hlog : has_log s i row lines) :
  (bl_finished row = false → seq_indices s !! i = Some (line_entries 0 0 lines) →
   run (sse_follow (S fuel) i None) s = (Ok (numbered 0 lines), s) ∧
   (∀ k, S k < length lines →
     run (sse_follow (S fuel) i (Some (Z.of_nat k))) s =
       (Ok (numbered (Z.of_nat (S k)) (drop (S k) lines)), s)) ∧
   (∀ k, length lines ≤ S k → (Z.of_nat k < 2 ^ 62)%Z →
     run (sse_follow (S fuel) i (Some (Z.of_nat k))) s = (Ok (numbered (Z.of_nat (S k)) lines), s))) ∧
  (bl_finished row = true → seq_indices s !! i = None →
   run (sse_follow fuel i None) s = (Ok (numbered 0 lines ++ [EventDone]), s) ∧
   ∀ k, (Z.of_nat k < 2 ^ 62)%Z →
     run (sse_follow fuel i (Some (Z.of_nat k))) s =
       (Ok (numbered (Z.of_nat (S k)) lines ++ [EventDone]), s)).
Proof.
  pose proof Hlog as [Hf _ Hrow _ Hfile Hc Hn].
  assert (file_content i s = lines_text lines) as Htext by (unfold file_content; by rewrite Hfile).
  split; intros Hfin Hidx; split_and?.
  - by apply (follow_open _ _ row).
  - intros k Hk. by apply (follow_resumed _ _ row).
  - intros k Hk Hmax. by apply (follow_replayed _ _ row).
  - by apply (follow_finished _ _ row).
  - intros k Hk. rewrite (run_sse_follow _ _ _ _ _ _ 0 Hlog).
    2: { intros id [= <-]. lia. }
    2: { rewrite start_after. unfold get_seq_offset. rewrite Hidx. by destruct (0 <? _)%Z. }
    rewrite Hfin, start_after, run_bind. by rewrite (run_read_available i "" lines) by (done || lia).
Qed.

End Stream.

(** ** The collector *)

Section Collector.
Context `{HEnv : Env}.

(** The rows of the collected builds, with their paths. *)
Definition at_paths (ids : list Z) : list (Z * string) := (λ i, (i, log_path_of i)) <$> ids.

Lemma build_at_delete i s :
  match build_at (log_path_of i) s with
  | Some f => upd_log_files (delete f (log_files s)) s
  | None => s
  end = upd_log_files (delete i (log_files s)) s.
Proof.
  destruct (log_files s !! i) as [text|] eqn:Hi.
  - rewrite build_at_path by (rewrite Hi; eauto). done.
  - destruct (build_at (log_path_of i) s) as [f|] eqn:Hf.
    + apply find_first_Some in Hf as [_ <-%bool_decide_eq_true%log_path_of_inj]. done.
    + rewrite delete_id by done. by destruct s.
Qed.

(** What a pass over the rows leaves alone, whatever fails. *)
Definition spared (ids : list Z) (s s' : AppState) : Prop :=
  (∀ i, i ∉ ids → log_files s' !! i = log_files s !! i ∧
                  t_build_logs (pool s') !! i = t_build_logs (pool s) !! i) ∧
  t_builds (pool s') = t_builds (pool s).

#[export] Instance spared_trans ids : Transitive (spared ids).
Proof.
  intros s1 s2 s3 [H1 B1] [H2 B2]. split; [|congruence]. intros i Hi.
  destruct (H1 i Hi), (H2 i Hi). split; congruence.
Qed.

#[export] Instance spared_refl ids : Reflexive (spared ids).
Proof. by split. Qed.

Lemma remove_log_file_spares i ids s : i ∈ ids → spared ids s (run (remove_log_file (log_path_of i)) s).2.
Proof.
  intros Hi. unfold remove_log_file, io. rewrite run_atomic. unfold next_fault.
  destruct (faults s) as [|[] fs]; [|by split|]; cbv beta iota zeta; rewrite build_at_delete; (split; [|done]);
    intros j Hj; simpl; (split; [|done]); (rewrite lookup_delete_ne; [done|set_solver]).
Qed.

Lemma delete_build_log_spares i ids s : i ∈ ids → spared ids s (run (query (delete_build_log i)) s).2.
Proof.
  intros Hi. rewrite run_query. unfold exec_stmt, next_fault, delete_build_log.
  destruct (faults s) as [|[] fs]; [|by split|]; (split; [|done]);
    intros j Hj; simpl; (split; [done|]); (rewrite lookup_delete_ne; [done|set_solver]).
Qed.

Lemma gc_rows_spares ids all s c : ids ⊆ all → spared all s (run (gc_rows (at_paths ids) c) s).2.
Proof.
  revert s c. induction ids as [|i ids IH]; intros s c Hsub; [done|].
  unfold at_paths. cbn [fmap list_fmap gc_rows]. rewrite run_bind.
  pose proof (remove_log_file_spares i all s ltac:(set_solver)) as H1.
  destruct (run (remove_log_file (log_path_of i)) s) as [[] s1]; cbn [fst snd] in *;
    [|by etrans; [|apply IH; set_solver]].
  rewrite run_bind. pose proof (delete_build_log_spares i all s1 ltac:(set_solver)) as H2.
  destruct (run (query (delete_build_log i)) s1) as [[] s2]; cbn [fst snd] in *;
    (etrans; [exact H1|]; etrans; [exact H2|]; apply IH; set_solver).
Qed.

(** Without failures everything listed goes. *)
Lemma gc_rows_removes ids s c : faults s = [] →
  let r := run (gc_rows (at_paths ids) c) s in
  r.1 = c + length ids ∧
  ∀ i, i ∈ ids → log_files r.2 !! i = None ∧ t_build_logs (pool r.2) !! i = None.
Proof.
  revert s c. induction ids as [|i ids IH]; intros s c Hf; cbv zeta.
  { simpl. split; [lia|]. set_solver. }
  unfold at_paths. cbn [fmap list_fmap gc_rows]. rewrite run_bind. unfold remove_log_file.
  rewrite run_io by done. rewrite build_at_delete. cbn [fst snd].
  rewrite run_bind, run_query, exec_stmt_no_fault by done. cbn [fst snd delete_build_log].
  set (s2 := upd_pool _ _). destruct (IH s2 (S c) Hf) as [Hr Hin]. fold (at_paths ids).
  pose proof (gc_rows_spares ids ids s2 (S c) ltac:(done)) as [Hout _].
  rewrite Hr. split; [simpl; lia|]. intros j Hj. destruct (decide (j ∈ ids)) as [|Hn]; [by apply Hin|].
  destruct (Hout j Hn) as [-> ->]. apply elem_of_cons in Hj as [->|]; [|done]. simpl.
  by rewrite !lookup_delete_eq.
Qed.

(** The builds whose log is to be collected. *)
Definition expired_ids (cutoff : Z) (d : Db) : list Z :=
  (filter (λ r : Z * BuildLogRow, expired cutoff d r.1 = true) (map_to_list (t_build_logs d))).*1.

Lemma elem_of_expired_ids cutoff d i :
  i ∈ expired_ids cutoff d ↔ is_Some (t_build_logs d !! i) ∧ expired cutoff d i = true.
Proof.
  unfold expired_ids. rewrite list_elem_of_fmap. split.
  - intros ([j r] & -> & [He Hin%elem_of_map_to_list]%list_elem_of_filter). simpl in *. eauto.
  - intros [[r Hr] He]. exists (i, r). split; [done|]. apply list_elem_of_filter.
    split; [done|]. by apply elem_of_map_to_list.
Qed.

Lemma expired_logs_paths cutoff t d :
  (∀ i r, t_build_logs d !! i = Some r → bl_log_path r = log_path_of i) →
  (expired_logs cutoff t d).1 = Ok (at_paths (expired_ids cutoff d)).
Proof.
  intros Hp. unfold expired_logs, at_paths, expired_ids. cbn [fst]. f_equal.
  rewrite <- list_fmap_compose. apply list_fmap_ext. intros k [i r] Hk.
  apply list_elem_of_lookup_2, list_elem_of_filter in Hk as [_ Hk%elem_of_map_to_list].
  simpl. by rewrite (Hp _ _ Hk).
Qed.

Lemma exec_expired_logs cutoff s :
  (∀ i r, t_build_logs (pool s) !! i = Some r → bl_log_path r = log_path_of i) →
  let r := exec_stmt (expired_logs cutoff) s in
  (r.1 = Err DbFault ∨ r.1 = Ok (at_paths (expired_ids cutoff (pool s)))) ∧
  pool r.2 = pool s ∧ log_files r.2 = log_files s.
Proof.
  intros Hp. unfold exec_stmt, next_fault.
  destruct (faults s) as [|[] fs]; cbv beta iota zeta; [|by split; [left|]|].
  - pose proof (expired_logs_paths cutoff (clock s) (pool s) Hp) as H. unfold expired_logs in *.
    cbn [fst snd] in *. split; [by right|done].
  - pose proof (expired_logs_paths cutoff (clock s) (pool s) Hp) as H. unfold expired_logs in *.
    cbn [fst snd] in *. split; [by right|done].
Qed.

(** C34: The collector removes exactly the expired logs, provided that each row has the
    path the server gives it. Without failures a cycle removes the file and the row
    of every build that is terminal and finished before the cutoff, and counts them;
    whatever fails, every other build keeps both. A build that is not terminal is
    among those, and so is a build without a finishing time: one that was revoked
    before it was dispatched keeps its log for good. *)
Theorem gc_removes_exactly_expired (s : AppState) (retention_days : Z)
    (Hpaths : ∀ i r, t_build_logs (pool s) !! i = Some r → bl_log_path r = log_path_of i) :
  let cutoff := (clock s - retention_days * 86400)%Z in
  let r := run (run_gc_cycle retention_days) s in
  (faults s = [] →
   r.1 = Ok (length (expired_ids cutoff (pool s))) ∧
   ∀ i, is_Some (t_build_logs (pool s) !! i) → expired cutoff (pool s) i = true →
     log_files r.2 !! i = None ∧ t_build_logs (pool r.2) !! i = None) ∧
  (∀ i, expired cutoff (pool s) i = false →
     log_files r.2 !! i = log_files s !! i ∧ t_build_logs (pool r.2) !! i = t_build_logs (pool s) !! i) ∧
  (∀ i b, t_builds (pool s) !! i = Some b → (is_terminal (br_state b) = false ∨ br_finished_at b = None) →
     expired cutoff (pool s) i = false).
Proof.
  intros cutoff r. unfold r, run_gc_cycle. clear r.
  rewrite run_bind, run_now. cbn [fst snd].
  replace (clock s - retention_days * 24 * 60 * 60)%Z with cutoff by (unfold cutoff; lia).
  rewrite run_or_fail, run_query. split; [|split].
  - intros Hf. rewrite exec_stmt_no_fault by done. rewrite expired_logs_paths by done. cbn [fst snd].
    change (expired_logs cutoff (clock s) (pool s)).2 with (pool s). rewrite upd_pool_id, run_bind.
    destruct (gc_rows_removes (expired_ids cutoff (pool s)) s 0 Hf) as [Hr Hin].
    rewrite Hr, run_ret. split; [done|]. intros i Hrow He. by apply Hin, elem_of_expired_ids.
  - intros i He. assert (i ∉ expired_ids cutoff (pool s)) as Hni
      by (intros [_ He']%elem_of_expired_ids; congruence).
    destruct (exec_expired_logs cutoff s Hpaths) as (Hr & Hp & Hl).
    destruct (exec_stmt (expired_logs cutoff) s) as [rows s1]. cbn [fst snd] in *. rewrite <- Hl, <- Hp in *.
    destruct Hr as [->| ->]; cbn [fst snd]; [done|]. rewrite run_bind, run_ret. cbn [fst snd].
    destruct (gc_rows_spares (expired_ids cutoff (pool s1)) (expired_ids cutoff (pool s1)) s1 0 ltac:(done))
      as [Hs _]. by destruct (Hs i Hni).
  - intros i b Hb Hor. unfold expired. rewrite Hb. destruct Hor as [->| ->]; [done|]. by rewrite andb_false_r.
Qed.
End Collector.
