(* ===== verification/Periodic.v ===== *)
(** * What the scheduler guarantees

    The triggers refine the lifecycle like a submission, fire only for an owner
    who may still submit, and keep the retry bookkeeping within its bounds. *)

From stdpp Require Import prelude gmap strings list relations sorting pretty.
From S2P Require Import Prelude Async Tokens Proto Queue Db App Auth DbRoles DbChannels.
From S2P Require Import Channels Components Logs Dispatch Handler Lifecycle Coherence.
From S2P Require Import Refinement Routes Submission TagFormat Recovery Exclusive Scheduler.

(** ** The periodic statements and the builds *)

Lemma set_task_builds id f d :
  t_builds (set_task id f d).2 = t_builds d ∧ db_ids (set_task id f d).2 = db_ids d.
Proof. unfold set_task. by case_match. Qed.

Lemma set_task_ok id f d :
  db_wf d → db_wf (set_task id f d).2 ∧ ∀ i, row_exists d i → row_exists (set_task id f d).2 i.
Proof. intros [H1 H2 H3]. unfold set_task. by case_match. Qed.

Lemma trigger_success_keeps id b : keeps_builds (update_trigger_success id b).
Proof. intros t d. apply set_task_builds. Qed.
Lemma retry_keeps id n r e : keeps_builds (update_retry id n r e).
Proof. intros t d. apply set_task_builds. Qed.
Lemma disable_keeps id e : keeps_builds (disable_with_error id e).
Proof. intros t d. apply set_task_builds. Qed.
#[export] Hint Resolve trigger_success_keeps retry_keeps disable_keeps : eff.

Lemma trigger_success_ok id b : db_ok (update_trigger_success id b).
Proof. intros t d. apply set_task_ok. Qed.
Lemma retry_ok id n r e : db_ok (update_retry id n r e).
Proof. intros t d. apply set_task_ok. Qed.
Lemma disable_ok id e : db_ok (disable_with_error id e).
Proof. intros t d. apply set_task_ok. Qed.
#[export] Hint Resolve trigger_success_ok retry_ok disable_ok : excl.

Section Periodic.
Context `{HEnv : Env} `{HHash : HashIter} `{HSerde : Serde} `{HChrono : Chrono}
  (components : list ComponentInfo).

(** ** Refinement and exclusivity *)

Lemma eff_check_owner task : eff (check_owner task) id id.
Proof.
  unfold check_owner. apply eff_bind_id; [by apply eff_query_keeps|]. intros [[]|]; [|apply eff_ret..].
  apply eff_bind_id; [by apply eff_query_keeps|]. intros [[]|]; [|apply eff_ret..].
  apply eff_bind_id; [by apply eff_query_keeps|]. intros []; [case_match|]; apply eff_ret.
Qed.

Lemma refines_trigger P task : refines P (trigger_periodic_build components task).
Proof.
  unfold trigger_periodic_build. apply refines_seq; [apply refines_eff_id, eff_check_owner|].
  intros []; [|auto with eff]. apply refines_seq; [apply refines_eff_id; auto with eff|intros now0].
  case_match; [|auto with eff]. apply refines_seq; [apply refines_eff_id, eff_resolve|].
  intros [[]|]; [|auto with eff]. apply refines_seq; [apply refines_insert|]. intros [[]|]; auto with eff.
Qed.

Lemma eff_record_outcome task r : eff (record_outcome task r) id id.
Proof.
  unfold record_outcome. destruct r as [|[]]; [auto with eff..| |auto with eff].
  case_match; [auto with eff|]. apply eff_bind_id; auto with eff.
Qed.

Lemma refines_scheduler_pass P t fired : refines P (scheduler_pass components t fired).
Proof.
  unfold scheduler_pass. apply refines_seq; [by apply refines_eff_id, eff_query_keeps|].
  intros [tasks|]; [|auto with eff].
  destruct (compute_schedule t tasks) as [|[]]; [apply refines_eff_id, eff_notified|].
  destruct fired; [|apply refines_eff_id, eff_notified]. unfold fire_task.
  apply refines_seq; [by apply refines_eff_id, eff_query_keeps|].
  intros [[task|]|]; [|auto with eff..]. case_match; [|auto with eff].
  apply refines_seq; [apply refines_trigger|]. intros r. apply refines_eff_id, eff_record_outcome.
Qed.

Lemma balanced_scheduler_pass t fired : balanced excl (scheduler_pass components t fired).
Proof.
  pose proof balanced_now. pose proof balanced_notified. pose proof balanced_insert. pose proof balanced_resolve.
  unfold scheduler_pass, fire_task, trigger_periodic_build, check_owner, record_outcome. bal.
Qed.

(** ** Who can trigger a build *)

(** The owner holds the capability, as [load_authed_user] would compute it. *)
Definition owner_holds (d : Db) (u : UserRecord) (cap : string) : Prop :=
  if ur_is_robot u then (cap ∉ ROBOT_FORBIDDEN_CAPS) ∧ role_holds d (ur_email u) cap
  else role_holds d (ur_email u) "*" ∨ role_holds d (ur_email u) cap.

Lemma caps_satisfy_spec caps :
  caps_satisfy_trigger_requirements caps = true →
  ∀ cap, cap ∈ TRIGGER_REQUIRED_CAPS → "*" ∈ caps ∨ cap ∈ caps.
Proof.
  unfold caps_satisfy_trigger_requirements. destruct (existsb _ caps) eqn:E.
  - apply existsb_spec in E as (c & Hc & ->%bool_decide_eq_true_1). auto.
  - rewrite forallb_spec. intros Hall cap Hcap. right. specialize (Hall cap Hcap).
    cbv beta in Hall. apply existsb_spec in Hall as (c & Hc & ->%bool_decide_eq_true_1). done.
Qed.

Lemma check_owner_ok task s u :
  faults s = [] → (run (check_owner task) s).1 = Ok u →
  user_record (pt_created_by task) (pool s) = Some u ∧ ur_active u = true ∧
  (∀ cap, cap ∈ TRIGGER_REQUIRED_CAPS → owner_holds (pool s) u cap).
Proof.
  intros Hf. unfold check_owner. rewrite run_bind, run_read by done. simpl.
  destruct (user_record (pt_created_by task) (pool s)) as [u0|] eqn:Eu; [|done].
  destruct (ur_active u0) eqn:Ea; [|done]. rewrite run_bind, run_read by done. simpl. rewrite Eu.
  rewrite run_bind, run_read by done. simpl.
  destruct (caps_satisfy_trigger_requirements _) eqn:Ec; [|done]. intros [= <-].
  split_and!; [done..|]. intros cap Hcap. pose proof (caps_satisfy_spec _ Ec cap Hcap) as Hin.
  unfold owner_holds.
  assert (∀ c, c ∈ merge_sort string_le (remove_dups (roles_of (ur_email u0) (pool s) ≫=
              λ r, caps_of r (pool s))) ↔ role_holds (pool s) (ur_email u0) c) as Hc.
  { intros c. destruct (effective_caps_spec (ur_email u0) 0 (pool s) c) as (l & [= <-] & Hl). done. }
  destruct (ur_is_robot u0).
  - rewrite !list_elem_of_filter, !Hc in Hin. destruct Hin as [[Hn _]|?]; [|done].
    exfalso. apply Hn. by left.
  - by rewrite !Hc in Hin.
Qed.

Lemma prepare_descriptor_ok task u t d :
  prepare_descriptor components task u t = Ok d →
  ∃ d0, descriptor_of_json (pt_descriptor task) = Some d0 ∧
    validate_descriptor d0 components = Ok () ∧
    d = set_tag (interpolate_tag (pt_tag_format task) (sign_off_record u d0) t) (sign_off_record u d0) ∧
    validate_oci_tag (di_tag (bd_dst_image d)) = Ok ().
Proof.
  unfold prepare_descriptor. destruct (descriptor_of_json _) as [d0|]; [|done].
  destruct (validate_descriptor d0 components) as [[]|] eqn:Ev; [|done].
  destruct (validate_oci_tag _) as [[]|] eqn:Et; [|done]. intros [= <-]. exists d0. split_and!; [done..|exact Et].
Qed.

(** A periodic build is submitted only when the owner of the task exists, is
    active and still holds the capabilities to create periodic tasks and builds,
    the stored descriptor parses and lists known components, the interpolated
    tag is a valid OCI tag, and the channel resolves for the owner; the build is
    then inserted under the task's id, signed off by the owner. *)
Theorem trigger_checks_owner (task : PeriodicTaskRow) (s : AppState) (build_id : Z)
    (Hs : Coh s) (Hwf : channels_wf (pool s))
    (Hok : (run (trigger_periodic_build components task) s).1 = Ok build_id) :
  ∃ u d0 d rc d',
    user_record (pt_created_by task) (pool s) = Some u ∧ ur_active u = true ∧
    (∀ cap, cap ∈ TRIGGER_REQUIRED_CAPS → owner_holds (pool s) u cap) ∧
    descriptor_of_json (pt_descriptor task) = Some d0 ∧
    validate_descriptor d0 components = Ok () ∧
    bd_signed_off_by d = mkSignedOffBy (ur_name u) (ur_email u) ∧
    validate_oci_tag (di_tag (bd_dst_image d')) = Ok () ∧
    resolution_ok s d u rc d' ∧
    build_id = t_next_build_id (pool s) ∧
    inserted s d' (ur_email u) (parse_priority (pt_priority task)) (Some (pt_id task))
      (Some (rc_channel_id rc)) (Some (rc_channel_type_id rc))
      (run (trigger_periodic_build components task) s).2.
Proof.
  pose proof Hs as [Hc Hf]. unfold trigger_periodic_build in *. rewrite run_bind in *.
  assert ((run (check_owner task) s).2 = s) as Hst.
  { unfold check_owner. rewrite run_bind, run_read by done. simpl. repeat case_match; try done.
    rewrite run_bind, run_read by done. simpl. case_match; [|done].
    rewrite run_bind, run_read by done. simpl. by case_match. }
  rewrite Hst in *. destruct (run (check_owner task) s).1 as [u|e] eqn:Eo; [|done].
  destruct (check_owner_ok task s u Hf Eo) as (Hu & Ha & Hcaps).
  rewrite run_bind in *. unfold now in *. rewrite run_atomic in *. cbn [fst snd] in *.
  destruct (prepare_descriptor components task u (civil (clock s))) as [d|e] eqn:Ep; [|done].
  apply prepare_descriptor_ok in Ep as (d0 & Hd0 & Hv & Hd & Hoci).
  rewrite run_bind in *.
  assert ((run (resolve_and_rewrite d u) s).2 = s) as Hrs by by apply resolve_and_rewrite_state.
  rewrite Hrs in *. destruct (run (resolve_and_rewrite d u) s).1 as [[rc d']|e] eqn:Er; [|done].
  pose proof (resolve_and_rewrite_ok s Hf Hwf d u rc d' Er) as Hres.
  rewrite run_bind in *.
  destruct (build_references_exist (ur_email u) (Some (pt_id task)) (Some (rc_channel_id rc))
              (Some (rc_channel_type_id rc)) (pool s)) eqn:Href.
  2: { destruct (insert_build_internal_err s d' (ur_email u) (parse_priority (pt_priority task))
                   (Some (pt_id task)) _ _ Hf Href) as (e & He). rewrite He in Hok. done. }
  destruct (insert_build_internal_ok s d' (ur_email u) (parse_priority (pt_priority task))
              (Some (pt_id task)) _ _ Hs Href) as (s' & Hi & Hins).
  rewrite Hi in *. cbn [fst snd] in *. rewrite run_ret in *. cbn [fst snd] in *.
  injection Hok as <-. exists u, d0, d, rc, d'. split_and!; try done; [by rewrite Hd|].
  destruct Hres as (? & ? & ? & _ & _ & _ & _ & _ & _ & _ & _ & _ & _ & _ & _ & _ & -> & _). done.
Qed.

(** ** Retry bookkeeping *)

(** Tasks are stored under their ids, with fewer failures than the maximum. *)
Definition tasks_wf (d : Db) : Prop :=
  ∀ id t, t_periodic_tasks d !! id = Some t → pt_id t = id ∧ (0 ≤ pt_retry_count t < MAX_RETRY_COUNT)%Z.

Lemma set_task_wf id f d :
  tasks_wf d →
  (∀ t, (0 ≤ pt_retry_count t < MAX_RETRY_COUNT)%Z →
        pt_id (f t) = pt_id t ∧ (0 ≤ pt_retry_count (f t) < MAX_RETRY_COUNT)%Z) →
  tasks_wf (set_task id f d).2.
Proof.
  intros Hd Hf. unfold set_task. destruct (t_periodic_tasks d !! id) as [t|] eqn:E; [|done].
  intros id' t'. simpl. rewrite lookup_insert. case_decide; [|apply Hd]. intros [= <-]. subst.
  destruct (Hd _ _ E) as [Hid Hr]. destruct (Hf t Hr) as [-> ?]. done.
Qed.

(** Every statement on the table keeps it so. *)
Lemma periodic_statements_wf d now id :
  tasks_wf d →
  (∀ c tf de p su o, tasks_wf (insert_task id c tf de p su o now d).2) ∧
  tasks_wf (delete_task id now d).2 ∧
  (∀ e c, tasks_wf (set_enabled id e c now d).2) ∧
  (∀ b, tasks_wf (update_trigger_success id b now d).2) ∧
  (∀ b, tasks_wf (record_manual_trigger id b now d).2) ∧
  (∀ n r e, (0 ≤ n < MAX_RETRY_COUNT)%Z → tasks_wf (update_retry id n r e now d).2) ∧
  tasks_wf (enable_task id now d).2 ∧ tasks_wf (disable_task id now d).2 ∧
  (∀ e, tasks_wf (disable_with_error id e now d).2).
Proof.
  intros Hd. assert (∀ f, (∀ t, (0 ≤ pt_retry_count t < MAX_RETRY_COUNT)%Z →
      pt_id (f t) = pt_id t ∧ (0 ≤ pt_retry_count (f t) < MAX_RETRY_COUNT)%Z) →
    tasks_wf (set_task id f d).2) as Hs by (intros; by apply set_task_wf).
  assert (∀ f, (let '(u, d') := set_task id f d in (@Ok bool SqlError u, d')).2 = (set_task id f d).2) as Hl
    by (intros f; by destruct (set_task id f d)).
  unfold set_enabled, enable_task, disable_task. split_and!; intros; rewrite ?Hl; try (apply Hs; intros t0 Ht0).
  - unfold insert_task. destruct (_ || _); [done|]. intros i t. simpl. rewrite lookup_insert.
    case_decide; [|apply Hd]. intros [= <-]. simpl. split; [done|]. unfold MAX_RETRY_COUNT. lia.
  - unfold delete_task. case_match; [|done]. intros i t'. simpl. rewrite lookup_delete.
    case_decide; [done|]. apply Hd.
  - destruct c; split; try done; simpl; unfold MAX_RETRY_COUNT in *; lia.
  - split; [done|]. simpl. unfold MAX_RETRY_COUNT in *. lia.
  - done.
  - done.
  - split; [done|]. simpl. unfold MAX_RETRY_COUNT in *. lia.
  - done.
  - done.
Qed.

Lemma backoff_bounds n : (30 ≤ backoff_secs n ≤ 600)%Z.
Proof.
  unfold backoff_secs. split; [|lia]. apply Z.min_glb; [lia|].
  apply Z.div_le_lower_bound; [lia|]. rewrite Z.mul_comm. apply Z.mul_le_mono_nonneg_l; [lia|].
  apply Z.pow_le_mono_l. lia.
Qed.

(** After a transient failure the task is retried after a delay of 30 to 600
    seconds with one more failure counted, as long as that count stays below
    the maximum; the tenth failure in a row disables the task, with the error
    kept for diagnosis. *)
Theorem transient_failure_bookkeeping (task : PeriodicTaskRow) (msg : string) (s : AppState)
    (Hf : faults s = [])
    (Hrow : t_periodic_tasks (pool s) !! pt_id task = Some task)
    (Hc : (0 ≤ pt_retry_count task < MAX_RETRY_COUNT)%Z) :
  ∃ row, t_periodic_tasks (pool (run (record_outcome task (Err (Transient msg))) s).2) !! pt_id task
           = Some row ∧
    ((pt_retry_count task + 1 < MAX_RETRY_COUNT)%Z →
       pt_enabled row = pt_enabled task ∧ pt_retry_count row = (pt_retry_count task + 1)%Z ∧
       pt_last_error row = Some msg ∧
       ∃ delay, pt_retry_at row = Some (clock s + delay)%Z ∧ (30 ≤ delay ≤ 600)%Z) ∧
    ((pt_retry_count task + 1)%Z = MAX_RETRY_COUNT →
       pt_enabled row = false ∧ pt_retry_at row = None ∧
       pt_last_error row = Some ("max retries (10) exceeded: " +:+ msg)).
Proof.
  unfold record_outcome. destruct (Z.leb_spec MAX_RETRY_COUNT (pt_retry_count task + 1)).
  - rewrite run_bind, run_query, exec_stmt_no_fault by done. rewrite run_ret. simpl.
    unfold set_task. rewrite Hrow. simpl. rewrite lookup_insert_eq. eexists. split; [done|].
    split; [lia|]. done.
  - rewrite run_bind. unfold now. rewrite run_atomic. cbn [fst snd].
    rewrite run_bind, run_query, exec_stmt_no_fault by done. rewrite run_ret. simpl.
    unfold set_task. rewrite Hrow. simpl. rewrite lookup_insert_eq. eexists. split; [done|].
    split; [|lia]. intros _. simpl. split_and!; try done.
    eexists. split; [done|]. apply backoff_bounds.
Qed.

(** ** The choice of the next task *)

#[local] Instance string_le_trans : Transitive string_le.
Proof.
  intros a b c Hab Hbc. unfold string_le in *. apply Is_true_eq_true.
  apply (transitivity (R := String.le) (y := b)); unfold String.le; by apply Is_true_eq_left.
Qed.

#[local] Instance fire_le_trans : Transitive fire_le.
Proof.
  intros x y z [Hxy|[Hxy Sxy]] [Hyz|[Hyz Syz]]; [left; lia..|].
  right. split; [lia|by etrans].
Qed.

#[local] Instance fire_le_total : Total fire_le.
Proof.
  intros x y. destruct (Z.lt_trichotomy x.1 y.1) as [Hlt|[Heq|Hlt]]; [left; by left| |right; by left].
  destruct (String.leb_total x.2 y.2); [left|right]; right; done.
Qed.

(** The scheduler fires the earliest task: the head of the schedule is an
    enabled task's next fire time, nothing in the schedule comes before it (ties
    go to the smaller id), and a task whose retry time has come is due now. *)
Theorem schedule_head_earliest (t : Z) (tasks : list PeriodicTaskRow) time id rest
    (Hh : compute_schedule t tasks = (time, id) :: rest) :
  (∃ task, task ∈ tasks ∧ pt_id task = id ∧ next_fire t task = Some time) ∧
  (∀ task time', task ∈ tasks → next_fire t task = Some time' →
     fire_le (time, id) (time', pt_id task)) ∧
  (∀ task r retry_time, pt_retry_at task = Some r → timestamp_opt r = Some retry_time →
     (retry_time ≤ t)%Z → next_fire t task = Some t).
Proof.
  assert (∀ x, x ∈ compute_schedule t tasks ↔
            ∃ task, task ∈ tasks ∧ (λ time, (time, pt_id task)) <$> next_fire t task = Some x) as Hin.
  { intros x. unfold compute_schedule. by rewrite elem_of_merge_sort, list_elem_of_omap. }
  assert (StronglySorted fire_le ((time, id) :: rest)) as Hs.
  { rewrite <- Hh. apply StronglySorted_merge_sort; apply _. }
  split_and!.
  - destruct (proj1 (Hin (time, id))) as (task & Ht & Hf); [rewrite Hh; by left|].
    apply fmap_Some in Hf as (time0 & Hn & [= -> ->]). eauto.
  - intros task time' Ht Hn. assert ((time', pt_id task) ∈ compute_schedule t tasks) as Hx.
    { apply Hin. exists task. by rewrite Hn. }
    rewrite Hh in Hx. apply elem_of_cons in Hx as [[= -> ->]|Hx].
    + right. split; [done|]. unfold string_le. simpl. by destruct (String.leb_total id id).
    + apply StronglySorted_cons in Hs as [Hall _]. rewrite Forall_forall in Hall. by apply Hall.
  - intros task r retry_time Hr Hrt Hle. unfold next_fire. rewrite Hr. simpl. rewrite Hrt. f_equal.
    by destruct (Z.ltb_spec t retry_time); [lia|].
Qed.

(** A task that relies on its owner's default channel is retried, not disabled,
    after that channel was deleted. The resolution error of the missing default
    matches none of the patterns for permanent failures, so the trigger reports a
    transient one. *)
Theorem deleted_default_is_retried (task : PeriodicTaskRow) (s : AppState) u d id c
    (Hf : faults s = []) (Howner : run (check_owner task) s = (Ok u, s))
    (Hd : prepare_descriptor components task u (civil (clock s)) = Ok d)
    (Hnone : bd_channel d = None) (Hdef : ur_default_channel_id u = Some id)
    (Hc : t_channels (pool s) !! id = Some c) (Hdel : ch_deleted_at c ≠ None) :
  run (trigger_periodic_build components task) s =
    (Err (Transient "default channel no longer exists — contact your administrator"), s).
Proof.
  unfold trigger_periodic_build. rewrite run_bind, Howner. cbn [fst snd].
  rewrite run_bind. unfold now. rewrite run_atomic. cbn [fst snd]. rewrite Hd, run_bind.
  unfold resolve_and_rewrite. rewrite run_bind. unfold resolve_channel. rewrite Hnone, Hdef.
  rewrite run_lookup_or by done. unfold get_channel_by_id. cbn [fst snd]. rewrite Hc. simpl.
  unfold channel_active. by rewrite bool_decide_eq_false_2.
Qed.

End Periodic.
