(* ===== verification/System.v ===== *)
(** * The whole server

    Everything that can happen to the server, as tasks over the shared state:
    worker connections, timers, user requests, the sweep and the scheduler. One
    at a time and without failures they refine the lifecycle; in any
    interleaving, with any failures and with tasks dropped at any point, they
    keep every build in at most one place; and after a crash at any moment,
    recovery brings the queue and the database back into agreement. *)

From stdpp Require Import prelude gmap strings list relations.
From S2P Require Import TokenCache.
From S2P Require Import Prelude Async Tokens Proto Queue Db App Auth DbRoles DbChannels.
From S2P Require Import Channels Components Logs Dispatch Handler Lifecycle Coherence.
From S2P Require Import Refinement Routes Submission TagFormat Recovery Exclusive Scheduler.
From S2P Require Import Periodic.

(** What starts a task. *)
Inductive Job :=
| JobConnection (connection_id : ConnectionId) (row : WorkerRow) (elapsed_after : nat)
                (frames : list Incoming)
| JobTask (t : Task)
| JobSubmit (user : AuthUser) (body : SubmitBuildBody)
| JobRevoke (user : AuthUser) (build_id : Z)
| JobSweep (fuel : nat)
| JobScheduler (now_chrono : Z) (fired : bool).

Section System.
Context `{HEnv : Env} `{HHash : HashIter} `{HSerde : Serde} `{HChrono : Chrono}
  (components : list ComponentInfo).

(** The body of a spawned task, once its sleep is over. *)
Definition run_task (t : Task) : async unit :=
  match t with
  | TaskTryDispatch => do* try_dispatch in Ret ()
  | TaskAckTimer build_id token => ack_timer_fired build_id token
  | TaskGraceMonitor connection_id => grace_period_expired connection_id
  | TaskRevokeTimeout build_id => handle_revoke_timeout build_id
  end.

Definition serve (j : Job) : async unit :=
  match j with
  | JobConnection cid row n frames => handle_connection cid row n frames
  | JobTask t => run_task t
  | JobSubmit user body => do* submit_build components user body in Ret ()
  | JobRevoke user build_id => do* revoke_build user build_id in Ret ()
  | JobSweep fuel => sweep_tick fuel
  | JobScheduler t fired => scheduler_pass components t fired
  end.

Lemma refines_serve P j : refines P (serve j).
Proof.
  destruct j as [cid row n frames|t|u b|u i|n|t f]; simpl.
  - apply refines_handle_connection.
  - destruct t; simpl.
    + apply refines_try_dispatch_unit.
    + apply refines_ack_timer.
    + apply refines_grace_expired.
    + apply refines_revoke_timeout.
  - apply refines_seq; [apply refines_submit|auto with eff].
  - apply refines_seq; [apply refines_revoke|auto with eff].
  - apply refines_sweep_tick.
  - apply refines_scheduler_pass.
Qed.

Lemma balanced_serve j : balanced excl (serve j).
Proof.
  pose proof balanced_try_dispatch. destruct j as [cid row n frames|t|u b|u i|n|t f]; simpl.
  - apply balanced_handle_connection.
  - destruct t; simpl; [bal|apply balanced_ack_timer|apply balanced_grace_expired|
                        apply balanced_revoke_timeout].
  - apply balanced_bind; [apply balanced_submit|bal].
  - apply balanced_bind; [apply balanced_revoke|bal].
  - apply balanced_sweep.
  - apply balanced_scheduler_pass.
Qed.

(** ** One task at a time *)

(** Jobs one after the other, each at its own time. *)
Fixpoint serve_all (jobs : list (Z * Job)) (s : AppState) : AppState :=
  match jobs with
  | [] => s
  | (t, j) :: jobs => serve_all jobs (run (serve j) (upd_clock t s)).2
  end.

Lemma serve_all_refines jobs s :
  Coh s → Coh (serve_all jobs s) ∧ lc_steps (states s) (states (serve_all jobs s)).
Proof.
  revert s. induction jobs as [|[t j] jobs IH]; intros s Hs; simpl; [split; [done|apply rtc_refl]|].
  destruct (refines_serve (λ _, True) j (upd_clock t s) Hs Logic.I) as [H1 H2].
  destruct (IH _ H1) as [H3 H4]. split; [done|]. etrans; [exact H2|exact H4].
Qed.

(** C1: the server refines the lifecycle. From any state in which the queue agrees
    with the database, any sequence of worker connections with any messages,
    timers, submissions, revocations, sweeps and scheduler passes, handled one
    after the other without database failures, keeps the agreement, and the
    states of the builds change only along lifecycle transitions. *)
Theorem server_refines_lifecycle (jobs : list (Z * Job)) (s : AppState) (Hs : Coh s) :
  Coh (serve_all jobs s) ∧ lc_steps (states s) (states (serve_all jobs s)).
Proof. by apply serve_all_refines. Qed.

(** ** Any interleaving *)

Inductive sys_step : AppState * list (async unit) → AppState * list (async unit) → Prop :=
| sys_run c c' : pool_step c c' → sys_step c c'
| sys_start s ts j : sys_step (s, ts) (s, ts ++ [serve j])
| sys_fire s ts l1 t l2 : spawned s = l1 ++ t :: l2 →
    sys_step (s, ts) (upd_spawned (l1 ++ l2) s, ts ++ [run_task t])
| sys_abort s ts1 m ts2 : sys_step (s, ts1 ++ m :: ts2) (s, ts1 ++ ts2)
| sys_time s ts t : sys_step (s, ts) (upd_clock t s, ts)
| sys_faults s ts f : sys_step (s, ts) (upd_faults f s, ts).

Lemma sys_step_ok c c' : sys_step c c' → pool_ok excl c → pool_ok excl c'.
Proof.
  intros [c0 c0' Hstep|s ts j|s ts l1 t l2 _|s ts1 m ts2|s ts t|s ts f] Hc.
  - by eapply pool_ok_step.
  - apply pool_ok_spawn; [apply balanced_serve|done].
  - apply pool_ok_spawn; [apply (balanced_serve (JobTask t))|].
    by apply (pool_ok_env excl s (upd_spawned (l1 ++ l2) s) ts).
  - by apply (pool_ok_abort excl s ts1 m ts2 excl_mono).
  - by apply (pool_ok_env excl s (upd_clock t s) ts).
  - by apply (pool_ok_env excl s (upd_faults f s) ts).
Qed.

Lemma sys_steps_ok c c' : rtc sys_step c c' → pool_ok excl c → pool_ok excl c'.
Proof. induction 1; eauto using sys_step_ok. Qed.

Lemma coh_excl s : db_wf (pool s) → Coh s → excl ∅ s.
Proof.
  intros Hd [Hc Hf]. split; [done|]. pose proof Hc as [H1 H2 H3 H4 H5 H6 H7]. split; try done.
  - intros id. apply (coh_pending_not_active Hc).
  - intros id. unfold row_exists. rewrite <- (fmap_is_Some br_state), <- lookup_fmap.
    intros [Hid | [Hid | Hid]]; [|apply H4 in Hid as (st & Hst & _); by eexists|set_solver].
    apply H3 in Hid. by eexists.
Qed.

Lemma reachable_excl s s' ts :
  excl ∅ s → rtc sys_step (s, []) (s', ts) → excl ∅ s'.
Proof.
  intros Hs Hr. assert (pool_ok excl (s, [])) as Hp.
  { exists []. split_and!; [constructor|done|done]. }
  destruct (sys_steps_ok _ _ Hr Hp) as (Ts & _ & _ & Hi). eapply excl_mono; [|exact Hi]. set_solver.
Qed.

(** The places a build can be in: the lanes of the queue and the active map. *)
Definition in_one_place (q : BuildQueue) : Prop :=
  NoDup (pending_ids q) ∧
  (∀ id, id ∈ pending_ids q → q_active q !! id = None) ∧
  (∀ id ab, q_active q !! id = Some ab → ab_build_id ab = id).

(** C2: no build is ever in two places. In every interleaving of any tasks, with
    database and I/O failures at any point and tasks dropped half-way, a build is
    pending at most once and never pending and active at the same time, so it is
    not dispatched again while a worker has it; entries of the active map stay
    under their own id, and the lanes hold the priorities they are for. *)
Theorem queue_exclusive_always (s s' : AppState) ts
    (Hd : db_wf (pool s)) (Hs : Coh s) (Hr : rtc sys_step (s, []) (s', ts)) :
  in_one_place (queue s') ∧ lanes_wf (queue s').
Proof.
  destruct (reachable_excl s s' ts (coh_excl s Hd Hs) Hr) as [_ [H1 H2 H3 H4 _ _]]. done.
Qed.

(** A new server process on the tables that a crash left behind. *)
Definition restart (s : AppState) (t : Z) : AppState :=
  mkApp (pool s) queue_new ∅ ∅ ∅ ∅ (log_files s)
    (token_cache_new (lru_capacity (by_sha256 (token_cache s)))) false ∅ 0 [] t [].

Lemma restart_recovers (s s' : AppState) ts t
    (Hd : db_wf (pool s)) (Hs : Coh s) (Hr : rtc sys_step (s, []) (s', ts)) :
  ∃ s'', run run_startup_recovery (restart s' t) = (Ok (), s'') ∧ Coh s'' ∧
    q_active (queue s'') = ∅ ∧
    (∀ i st, states s'' !! i = Some st → st = Queued ∨ terminal st).
Proof.
  destruct (reachable_excl s s' ts (coh_excl s Hd Hs) Hr) as [Hd' _].
  destruct (recovery_run (restart s' t) eq_refl Hd') as
    (s'' & rows & Hrun & Hi & Hf & _ & Hq & Hb & Hrows & Hnd & _ & _).
  exists s''. split; [done|]. split.
  { split; [|done]. exact (recovery_coh (restart s' t) s'' rows eq_refl Hd' Hi Hq Hb Hrows Hnd). }
  split.
  - by rewrite Hq, active_foldl_enqueue.
  - intros i st. unfold states. rewrite lookup_fmap, Hb. intros (r & Hr' & ->)%fmap_Some.
    apply fmap_Some in Hr' as (r0 & _ & ->). pose proof (recovered_not_in_flight t r0) as Hn.
    unfold terminal, in_flight in *. simpl in *.
    destruct (br_state (recovered t r0)); naive_solver.
Qed.

(** C3: a crash at any moment is recoverable. Whatever point an interleaving of
    tasks has reached, even in the middle of a handler and after failed
    statements, recovery on the tables as they are succeeds and restores the
    agreement of the queue with the database, with no build left in flight. *)
Theorem crash_recovery (s s' : AppState) ts t
    (Hd : db_wf (pool s)) (Hs : Coh s) (Hr : rtc sys_step (s, []) (s', ts)) :
  ∃ s'', run run_startup_recovery (restart s' t) = (Ok (), s'') ∧ Coh s'' ∧
    q_active (queue s'') = ∅ ∧
    (∀ i st, states s'' !! i = Some st → st = Queued ∨ terminal st).
Proof. by eapply restart_recovers. Qed.

End System.
