(* ===== verification/DispatchSpec.v ===== *)
(** * What the dispatch engine guarantees

    The choice of the build and of the worker, the authority of the assigned
    worker over a build, the acknowledgement timer, rollback, and the end of the
    sweep. *)

From stdpp Require Import prelude gmap strings list relations pretty.
From S2P Require Import Prelude Async Proto Queue Db App Logs Dispatch Handler Lifecycle.
From S2P Require Import Coherence Refinement.

Section DispatchSpec.
Context `{HEnv : Env} `{HHash : HashIter} `{HSerde : Serde}.

(** A worker that can take a build of the architecture: connected, of that
    architecture and without an active build. *)
Definition can_take (a : Arch) (cid : ConnectionId) (q : BuildQueue) : Prop :=
  ∃ ws, q_workers q !! cid = Some ws ∧ is_dispatch_eligible ws = true ∧ worker_arch ws = Some a ∧
        ∀ i ab, q_active q !! i = Some ab → ab_connection_id ab ≠ cid.

Lemma find_worker_same q q' a :
  q_active q' = q_active q → q_workers q' = q_workers q → find_worker a q' = find_worker a q.
Proof. intros Ha Hw. unfold find_worker, connection_free. by rewrite Ha, Hw. Qed.

(** C25: the decision of a dispatch. The only build considered is the head of the
    queue. It goes to a worker that is connected, of the build's architecture and
    idle; the row becomes [dispatched] with that worker's id and a trace id, the
    build leaves the queue and becomes active on that connection, awaiting
    receipt. When nothing is pending, or no worker can take the head, nothing
    changes: no build is taken out of its lane. *)
Theorem dispatch_decision (s : AppState) (Hf : faults s = []) (Hl : lanes_wf (queue s)) :
  match dispatch_under_lock s with
  | (Ok info, s') => ∃ b rest cid ws ab,
      pending (queue s) = b :: rest ∧ pending (queue s') = rest ∧
      q_workers (queue s) !! cid = Some ws ∧ can_take (bt_arch (bd_build (qb_descriptor b))) cid (queue s) ∧
      q_active (queue s') = <[build_id_0 (qb_build_id b) := ab]> (q_active (queue s)) ∧
      ab_connection_id ab = cid ∧ ab_receipt ab = AwaitingReceipt ∧
      dp_build_id info = qb_build_id b ∧ dp_connection_id info = cid ∧
      dp_descriptor info = qb_descriptor b ∧
      t_builds (pool s') = alter (λ r, update_row r Dispatched (registered_worker_id ws)
          (Some (ab_trace_id ab)) (br_error r) (br_started_at r) (br_finished_at r) (br_build_report r))
        (build_id_0 (qb_build_id b)) (t_builds (pool s))
  | (Err e, s') => e = NothingToDispatch ∧ pool s' = pool s ∧
      (∀ p, lane p (queue s') = lane p (queue s)) ∧ q_active (queue s') = q_active (queue s) ∧
      (∀ b rest, pending (queue s) = b :: rest →
         ∀ cid, ¬ can_take (bt_arch (bd_build (qb_descriptor b))) cid (queue s))
  end.
Proof.
  destruct (dispatch_under_lock_cases s Hf) as
    [Hp|b q' Hn Hw|b q' cid w info ab s' Hn Hw Hid Hcid Hd _ Hab Hac Hrec _ Hrow _ Hq _ _ _ _].
  - split_and!; try done. intros b rest Hb. by rewrite Hp in Hb.
  - pose proof (next_pending_Some _ _ _ Hn) as (Hp & Ha & Hwk). split_and!; try done.
    + intros p. by apply enqueue_front_pending.
    + simpl. unfold enqueue_front. by rewrite (proj1 (lane_set_rest _ _ _)).
    + intros b' rest Hb cid (ws & Hws & He & Harch & Hfree). rewrite Hp in Hb. simplify_eq.
      rewrite <- Hwk in Hws. destruct (find_worker_None _ _ _ _ Hw Hws He Harch) as (i & ab & Hi & Hc).
      rewrite Ha in Hi. by eapply Hfree.
  - pose proof (next_pending_Some _ _ _ Hn) as (Hp & Ha & Hwk).
    destruct (find_worker_Some _ _ _ _ Hw) as (ws & Hws & He & Harch & Hreg & Hfree).
    rewrite Hwk in Hws. setoid_rewrite Ha in Hfree.
    exists b, (pending q'), cid, ws, ab. split_and!; try done.
    + by rewrite Hq.
    + by exists ws.
    + rewrite Hq. simpl. by rewrite Ha, Hab.
    + by rewrite Hrow, Hreg.
Qed.

(** ** Authority over a build *)

(** What a lifecycle message of another connection leaves as it was. *)
Definition untouched (s s' : AppState) : Prop :=
  pool s' = pool s ∧ queue s' = queue s ∧ cancelled s' = cancelled s ∧ spawned s' = spawned s ∧
  log_files s' = log_files s ∧ log_watchers s' = log_watchers s ∧ seq_indices s' = seq_indices s.

Lemma untouched_send_text cid m s : untouched s (run (send_text_to_connection cid m) s).2.
Proof.
  unfold send_text_to_connection. rewrite run_atomic. simpl. destruct (worker_senders s !! cid); [|done].
  unfold chan_send. by repeat case_match.
Qed.

Lemma untouched_trans s s' s'' : untouched s s' → untouched s' s'' → untouched s s''.
Proof. unfold untouched. intuition congruence. Qed.

Lemma run_unauthorized cid b a k s :
  active_build_for_connection (build_id_0 b) cid (queue s) = None →
  untouched s (run (authorized cid b a k) s).2.
Proof.
  intros Hn. unfold authorized, authorize_lifecycle_message.
  rewrite run_bind, run_bind, run_atomic. unfold claim_assignment. rewrite Hn. cbn [fst snd].
  rewrite run_bind. unfold send_unauthorized_action.
  set (s1 := (run (send_text_to_connection cid _) s).2).
  assert (untouched s s1) as H1 by apply untouched_send_text.
  rewrite run_bind. destruct a; cbn [fst snd]; try exact H1;
    (eapply untouched_trans; [exact H1|]; apply untouched_send_text).
Qed.

(** The build a message is about, for the messages of a build's lifecycle. *)
Definition lifecycle_message (msg : WorkerMessage) : option BuildId :=
  match msg with
  | BuildAccepted b | BuildRejected b _ | BuildStarted b | BuildOutput b _ _ | BuildFinished b _ _ _ => Some b
  | _ => None
  end.

(** C26: only the connection a build is assigned to can act on it. A lifecycle
    message (accepted, rejected, started, output, finished) about a build that is
    not active on the sending connection changes neither the database, the
    queue, the timers, the logs nor the watchers, whatever failures occur; it
    only causes replies to the sender. *)
Theorem unassigned_message_ignored (s : AppState) cid name w msg b
    (Hm : lifecycle_message msg = Some b)
    (Hn : active_build_for_connection (build_id_0 b) cid (queue s) = None) :
  untouched s (run (handle_worker_message cid name w msg) s).2.
Proof. destruct msg; simplify_eq/=; by apply run_unauthorized. Qed.

(** The first message of the assigned worker: the receipt is recorded and the
    acknowledgement timer is cancelled. *)
Lemma claim_owned cid i s ab :
  active_build_for_connection i cid (queue s) = Some ab →
  let s' := (claim_assignment cid i s).2 in
  ab_ack_cancel ab ∈ cancelled s' ∧
  q_active (queue s') = <[i := mark_received ab]> (q_active (queue s)) ∧ pool s' = pool s.
Proof. intros Ha. unfold claim_assignment. rewrite Ha. simpl. split_and!; [set_solver|done..]. Qed.

(** Once the assigned worker has sent any lifecycle message, the
    acknowledgement timer of that dispatch no longer does anything: even if it
    was spawned before and fires later, the state is left exactly as it is. *)
Theorem received_build_not_requeued (s s' : AppState) cid b ab
    (Ha : active_build_for_connection (build_id_0 b) cid (queue s) = Some ab)
    (Hc : cancelled (claim_assignment cid (build_id_0 b) s).2 ⊆ cancelled s') :
  (claim_assignment cid (build_id_0 b) s).1 = true ∧
  run (ack_timer_fired (build_id_0 b) (ab_ack_cancel ab)) s' = ((), s').
Proof.
  destruct (claim_owned _ _ _ _ Ha) as (Hin & _ & _). split.
  - unfold claim_assignment. by rewrite Ha.
  - unfold ack_timer_fired. rewrite run_bind, run_atomic. cbn [fst snd].
    rewrite bool_decide_eq_true_2 by by apply Hc. done.
Qed.

(** ** Rollback *)

(** The effect of a rollback on an active build. *)
Lemma rollback_effect (s : AppState) i ab (Hf : faults s = [])
    (Ha : q_active (queue s) !! i = Some ab) :
  let s' := (run (rollback_active_to_queued i) s).2 in
  (run (rollback_active_to_queued i) s).1 = true ∧
  t_builds (pool s') = alter (λ r, update_row r Queued None None None None None None) i (t_builds (pool s)) ∧
  q_active (queue s') = delete i (q_active (queue s)) ∧
  (∃ b, qb_build_id b = mkBuildId i ∧ qb_priority b = ab_priority ab ∧ qb_descriptor b = ab_descriptor ab ∧
        lane (ab_priority ab) (queue s') = b :: lane (ab_priority ab) (queue s) ∧
        ∀ p, p ≠ ab_priority ab → lane p (queue s') = lane p (queue s)) ∧
  ab_ack_cancel ab ∈ cancelled s' ∧ log_watchers s' !! i = None ∧
  q_workers (queue s') = q_workers (queue s).
Proof.
  simpl. unfold rollback_active_to_queued. rewrite run_bind, run_with_queue. unfold take_active. cbn [fst snd].
  rewrite Ha. rewrite run_bind. unfold cancel. rewrite run_atomic. cbn [fst snd].
  rewrite run_bind, run_query, exec_stmt_no_fault by done. cbn [fst snd].
  rewrite run_bind. unfold now. rewrite run_atomic. cbn [fst snd].
  rewrite run_bind. unfold modify_queue. rewrite run_with_queue. cbn [fst snd].
  rewrite run_bind. unfold remove_watcher. rewrite run_atomic. cbn [fst snd]. rewrite run_ret.
  split_and!; [done|apply update_build_alter| | |simpl; set_solver|simpl; apply lookup_delete_eq|].
  - simpl. unfold enqueue_front. by rewrite (proj1 (lane_set_rest _ _ _)).
  - eexists (mkQueued (mkBuildId i) (ab_priority ab) (ab_descriptor ab) "" _).
    split_and!; [done..| |].
    + simpl. unfold enqueue_front. simpl. rewrite lane_lane_set_eq. by destruct (ab_priority ab).
    + intros p Hp. simpl. unfold enqueue_front. simpl. rewrite lane_lane_set_ne by done. by destruct p.
  - simpl. unfold enqueue_front. by rewrite (proj2 (lane_set_rest _ _ _)).
Qed.

(** A rollback puts an active build back at the front of its lane with a
    clean row: the state is queued again, and worker, trace, error, times and
    report of the failed attempt are cleared; the entry is gone, its
    acknowledgement timer is cancelled and its log watcher is dropped. *)
Theorem rollback_resets (s : AppState) i ab (Hf : faults s = [])
    (Ha : q_active (queue s) !! i = Some ab) :
  let s' := (run (rollback_active_to_queued i) s).2 in
  (run (rollback_active_to_queued i) s).1 = true ∧
  t_builds (pool s') = alter (λ r, update_row r Queued None None None None None None) i (t_builds (pool s)) ∧
  q_active (queue s') = delete i (q_active (queue s)) ∧
  (∃ b, qb_build_id b = mkBuildId i ∧ qb_priority b = ab_priority ab ∧ qb_descriptor b = ab_descriptor ab ∧
        lane (ab_priority ab) (queue s') = b :: lane (ab_priority ab) (queue s) ∧
        ∀ p, p ≠ ab_priority ab → lane p (queue s') = lane p (queue s)) ∧
  ab_ack_cancel ab ∈ cancelled s' ∧ log_watchers s' !! i = None.
Proof. destruct (rollback_effect s i ab Hf Ha) as (? & ? & ? & ? & ? & ? & ?). done. Qed.

(** ** The sweep ends *)

Lemma exec_stmt_queue {A} (st : stmt A) s : queue (exec_stmt st s).2 = queue s.
Proof.
  unfold exec_stmt, next_fault. destruct (faults s) as [|[] fs]; simpl; [|done|]; by destruct (st _ _).
Qed.

Lemma dispatch_ok_pending s info :
  (dispatch_under_lock s).1 = Ok info →
  length (pending (queue s)) = S (length (pending (queue (dispatch_under_lock s).2))).
Proof.
  unfold dispatch_under_lock. destruct (next_pending (queue s)) as [[b|] q'] eqn:Hn; [|done].
  apply next_pending_Some in Hn as (Hp & _ & _).
  destruct (find_worker _ q') as [[cid w]|]; [|done]. simpl.
  pose proof (exec_stmt_queue (set_build_dispatched (build_id_0 (qb_build_id b)) (uuid_v4 (next_handle s)) w)
    (upd_next_handle (S (next_handle s)) (upd_queue q' s))) as Hq.
  destruct (exec_stmt _ _) as [[|] s2]; [|done]. intros _. simpl in *. rewrite Hp, Hq. done.
Qed.

Lemma pack_for_queue d s : queue (run (pack_for d) s).2 = queue s.
Proof.
  unfold pack_for. destruct (bc_name <$> bd_components d); [done|]. unfold pack_components, io.
  rewrite run_atomic. unfold next_fault. by destruct (faults s) as [|[] fs].
Qed.

Lemma spawn_ack_timer_queue i s : queue (run (spawn_ack_timer i) s).2 = queue s.
Proof.
  unfold spawn_ack_timer, read_queue. rewrite run_bind, run_with_queue. cbn [fst snd].
  by destruct (ab_ack_cancel <$> _).
Qed.

Lemma try_dispatch_ok_pending s :
  (run try_dispatch s).1 = Ok () →
  length (pending (queue s)) = S (length (pending (queue (run try_dispatch s).2))).
Proof.
  unfold try_dispatch. rewrite run_bind, run_atomic.
  destruct (dispatch_under_lock s).1 as [info|e] eqn:E; [|done]. rewrite (dispatch_ok_pending s info E).
  set (s1 := (dispatch_under_lock s).2). rewrite run_bind. pose proof (pack_for_queue (dp_descriptor info) s1) as Hq.
  destruct (run (pack_for (dp_descriptor info)) s1).1 as [[bytes h]|e] eqn:Ep; [|by rewrite run_bind].
  set (s2 := (run (pack_for (dp_descriptor info)) s1).2) in *.
  rewrite run_bind. unfold send_and_recover. rewrite run_bind, run_atomic.
  match goal with |- context [send_frames ?c ?fs s2] =>
    destruct (frame_send_frames c fs s2) as (_ & Hq2 & _); set (r := send_frames c fs s2) in * end.
  destruct r.1 as [|e]; [|by rewrite run_bind]. rewrite run_ret. cbn [fst snd].
  rewrite run_bind, run_ret. cbn [fst snd]. by rewrite spawn_ack_timer_queue, Hq2, Hq.
Qed.

(** C37: the sweep terminates. Every successful attempt takes a build out of the
    queue, so after one attempt more than there are pending builds the loop has
    ended by itself, whatever fails on the way: more fuel changes nothing. *)
Theorem sweep_terminates (s : AppState) (n : nat) (Hn : length (pending (queue s)) < n) :
  run (sweep_loop n) s = run (sweep_loop (S (length (pending (queue s))))) s.
Proof.
  revert s Hn. induction n as [|n IH]; intros s Hn; [lia|]. simpl. rewrite !run_bind.
  destruct (run try_dispatch s).1 as [[]|e] eqn:E; [|done].
  apply try_dispatch_ok_pending in E. rewrite IH by lia. by rewrite E.
Qed.

(** ** A failed statement during dispatch *)

Lemma dispatch_db_failure s b q' cid w fs :
  next_pending (queue s) = (Some b, q') →
  find_worker (bt_arch (bd_build (qb_descriptor b))) q' = Some (cid, w) →
  faults s = true :: fs →
  (dispatch_under_lock s).1 = Err (Database DbFault) ∧
  queue (dispatch_under_lock s).2 = q' ∧ pool (dispatch_under_lock s).2 = pool s.
Proof.
  intros Hn Hw Hf. unfold dispatch_under_lock. rewrite Hn, Hw. simpl.
  unfold exec_stmt, next_fault. simpl. by rewrite Hf.
Qed.

(** What happens when the statement of a dispatch fails. The build that was
    popped is not put back: it is neither pending nor active any more, while its
    row stays [queued], so nothing dispatches it before the next restart. *)
Theorem dispatch_db_failure_loses_build (s : AppState) b rest cid fs
    (Hc : coh (states s) (ids s) (queue s)) (Hb : pending (queue s) = b :: rest)
    (Hw : can_take (bt_arch (bd_build (qb_descriptor b))) cid (queue s))
    (Hf : faults s = true :: fs) :
  let s' := (run try_dispatch s).2 in
  (run try_dispatch s).1 = Err (Database DbFault) ∧
  states s' !! build_id_0 (qb_build_id b) = Some Queued ∧
  (build_id_0 (qb_build_id b) ∉ pending_ids (queue s')) ∧
  q_active (queue s') !! build_id_0 (qb_build_id b) = None.
Proof.
  destruct (next_pending (queue s)) as [[b'|] q'] eqn:Hn.
  2: { apply next_pending_None in Hn as [Hp _]. by rewrite Hp in Hb. }
  pose proof (next_pending_Some _ _ _ Hn) as (Hp & Ha & Hwk). rewrite Hp in Hb. simplify_eq.
  destruct (find_worker (bt_arch (bd_build (qb_descriptor b))) q') as [[cid' w]|] eqn:Hfw.
  2: { exfalso. destruct Hw as (ws & Hws & He & Harch & Hfree). rewrite <- Hwk in Hws.
       destruct (find_worker_None _ _ _ _ Hfw Hws He Harch) as (i & ab & Hi & Hcid).
       rewrite Ha in Hi. by eapply Hfree. }
  destruct (dispatch_db_failure s b q' cid' w fs Hn Hfw Hf) as (H1 & H2 & H3).
  unfold try_dispatch. rewrite run_bind, run_atomic, H1. rewrite run_ret. cbn [fst snd].
  assert (pending_ids (queue s) = build_id_0 (qb_build_id b) :: pending_ids q') as Hids.
  { unfold pending_ids. by rewrite Hp. }
  pose proof (coh_nodup _ _ _ Hc) as Hnd. rewrite Hids in Hnd. apply NoDup_cons in Hnd as [Hni _].
  assert (build_id_0 (qb_build_id b) ∈ pending_ids (queue s)) as Hin by (rewrite Hids; by left).
  split_and!; [done| |by rewrite H2|rewrite H2, Ha; by apply (coh_pending_not_active Hc)].
  unfold states. rewrite H3. by apply (coh_pending _ _ _ Hc).
Qed.

(** C40: an acknowledgement timeout undoes a revocation. A build that a user has
    revoked while it was dispatched, but whose worker has not answered, is
    [revoking]; when the acknowledgement timer fires it goes back to [queued]. *)
Theorem ack_timeout_undoes_revocation (s : AppState) i ab (Hs : Coh s)
    (Ha : q_active (queue s) !! i = Some ab) (Hr : states s !! i = Some Revoking)
    (Ht : ab_ack_cancel ab ∉ cancelled s) :
  let s' := (run (ack_timer_fired i (ab_ack_cancel ab)) s).2 in
  states s' !! i = Some Queued ∧ i ∈ pending_ids (queue s').
Proof.
  unfold ack_timer_fired. rewrite run_bind, run_atomic. cbn [fst snd].
  rewrite bool_decide_eq_false_2 by done. rewrite run_bind, run_ret. cbn [fst snd].
  destruct (refines_rollback (λ _, True) i s Hs Logic.I) as [[Hc' _] _].
  destruct (rollback_effect s i ab (proj2 Hs) Ha) as (_ & Hb & _).
  set (s' := (run (rollback_active_to_queued i) s).2) in *.
  assert (states s' !! i = Some Queued) as Hq; [|split; [done|by apply (coh_pending _ _ _ Hc')]].
  unfold states in *. rewrite Hb. rewrite lookup_fmap, lookup_alter_eq.
  rewrite lookup_fmap in Hr. by destruct (t_builds (pool s) !! i).
Qed.

(** ** The end of a build *)

Lemma run_authorized_owned cid b a k s ab :
  active_build_for_connection (build_id_0 b) cid (queue s) = Some ab →
  run (authorized cid b a k) s = run k (claim_assignment cid (build_id_0 b) s).2.
Proof.
  intros Ha. unfold authorized, authorize_lifecycle_message. rewrite run_bind, run_bind, run_atomic.
  unfold claim_assignment. rewrite Ha. done.
Qed.

Lemma claim_coh cid i s : Coh s → Coh (claim_assignment cid i s).2 ∧
  states (claim_assignment cid i s).2 = states s.
Proof.
  intros Hs. destruct (refines_claim (λ _, True) cid i s Hs Logic.I) as [Hc _].
  rewrite run_atomic in Hc. split; [done|]. unfold claim_assignment. by case_match.
Qed.

(** The report of the assigned worker that a build has finished takes effect:
    the build ends in the reported state, stays there through the dispatch
    attempt that follows, and is neither active nor pending any more. *)
Theorem finished_message_finishes (s : AppState) cid name w b status err report ab
    (Hs : Coh s) (Ha : active_build_for_connection (build_id_0 b) cid (queue s) = Some ab) :
  let s' := (run (handle_worker_message cid name w (BuildFinished b status err report)) s).2 in
  Coh s' ∧ states s' !! build_id_0 b = Some (finished_state status) ∧
  q_active (queue s') !! build_id_0 b = None ∧ build_id_0 b ∉ pending_ids (queue s').
Proof.
  assert (Coh (run (handle_worker_message cid name w (BuildFinished b status err report)) s).2) as Hc'.
  { by apply (refines_worker_message (λ _, True) cid name w (BuildFinished b status err report) s Hs). }
  simpl in *. split; [done|].
  assert (states (run (handle_worker_message cid name w (BuildFinished b status err report)) s).2
            !! build_id_0 b = Some (finished_state status)) as Hst.
  { simpl. rewrite (run_authorized_owned _ _ _ _ _ _ Ha).
    set (s1 := (claim_assignment cid (build_id_0 b) s).2).
    destruct (claim_coh cid (build_id_0 b) s Hs) as [Hs1 Hst1]. fold s1 in Hs1, Hst1.
    assert (is_active (build_id_0 b) s1) as Hact.
    { apply claim_active. unfold claim_assignment. by rewrite Ha. }
    cbv zeta. generalize (if bool_decide (status = FinSuccess) then report else None). intros rep.
    rewrite run_bind.
    assert (∀ s2, Coh s2 → states s2 !! build_id_0 b = Some (finished_state status) →
      states (run (do* query (update_last_seen w) in Ret ()) s2).2 !! build_id_0 b
        = Some (finished_state status)) as Hlast.
    { intros s2 Hs2 Hq. assert (eff (do* query (update_last_seen w) in Ret ()) id id) as He by auto with eff.
      destruct (He s2 (proj2 Hs2)) as (-> & _). done. }
    assert (Coh (run (handle_build_finished cid (build_id_0 b) (finished_state status) err rep) s1).2) as Hs2.
    { apply (refines_build_finished cid (build_id_0 b) (finished_state status) err rep); auto with cbs. }
    apply Hlast; [done|]. clear Hlast Hs2. unfold handle_build_finished. rewrite <- bind_assoc, run_bind.
    destruct (eff_set_finished (build_id_0 b) (finished_state status) err rep s1 (proj2 Hs1)) as (E1 & E2 & E3 & E4).
    destruct (coh_active_state (proj1 Hs1) _ Hact) as (st0 & Hst0 & Hf0).
    match type of E1 with states ?x = _ => set (s2 := x) in * end.
    assert (Coh s2) as Hs2.
    { unfold Coh. rewrite E1, E2, E3, (alter_state _ _ _ _ Hst0). split; [|done].
      apply (coh_finish (proj1 Hs1)); auto with cbs. }
    assert (states s2 !! build_id_0 b = Some (finished_state status)) as Hq2.
    { by rewrite E1, lookup_alter_eq, Hst0. }
    match goal with |- states (run ?m s2).2 !! _ = _ =>
      assert (refines (λ _, True) m) as Hm; [|destruct (Hm s2 Hs2 Logic.I) as [_ Hl]] end.
    { apply refines_seq; [apply refines_eff_id, eff_finish_build_log|intros _].
      apply refines_seq; [apply refines_eff_id; auto with eff|intros _]. apply refines_try_dispatch_unit. }
    eapply lc_steps_terminal; [exact Hl|done|auto with cbs]. }
  destruct Hc' as [Hc' _]. split_and!; [exact Hst| |].
  - apply eq_None_not_Some. intros Hact. destruct (coh_active_state Hc' _ Hact) as (st & H1 & H2).
    simpl in Hst. rewrite Hst in H1. simplify_eq. by eapply terminal_not_in_flight; auto with cbs.
  - rewrite (coh_pending _ _ _ Hc'). simpl in Hst. rewrite Hst. intros [= Hq]. by destruct status.
Qed.

End DispatchSpec.
