(* ===== verification/Startup.v ===== *)
(** * Start-up and shutdown (db/seed.rs, main.rs)

    The seed of an empty database in one transaction, the start of the server on
    the tables and files it finds, and what follows a signal:
    a restart leaves the builds to the next process, a drain revokes them. Then what
    both establish. *)

From Stdlib Require Import Strings.Byte.
From stdpp Require Import prelude gmap strings list relations.
From S2P Require Import Prelude Async Proto ServerConfig Queue Db TokenCache App Logs.
From S2P Require Import Dispatch DbRoles DbCredentials DbUsers Auth Login Handler Lifecycle Coherence.
From S2P Require Import Refinement DispatchSpec TokenSpec AdminSpec.
From S2P Require Import Components AuthRoutes Recovery Scheduler System.
From S2P Require FileSystem.

(** ** db/seed.rs *)

Inductive SeedError := SeedDb (e : SqlError) | SeedHash (e : string).

Record PreparedWorker := mkPreparedWorker {
  pw_name : string;
  pw_arch : string;
  pw_worker_uuid : string;
  pw_key_prefix : string;
  pw_key_hash : string
}.

(** The statements of one transaction in sequence. *)
Definition and_then (r : result Db SqlError) (f : Db → result Db SqlError) : result Db SqlError :=
  match r with Ok d => f d | Err e => Err e end.

Definition of_stmt (r : result unit SqlError * Db) : result Db SqlError :=
  match r with (Ok _, d) => Ok d | (Err e, _) => Err e end.

Definition create_builtin_role (name description : string) (caps : list string) (now : Z) (d : Db)
    : result Db SqlError :=
  and_then (of_stmt (create_role name description true now d)) (insert_all (insert_role_cap name) caps).

Definition set_role_scopes_in_tx (role_name : string) (scopes : list ScopeEntry) (d : Db)
    : result Db SqlError :=
  insert_all (insert_role_scope role_name) scopes d.

Definition BUILDER_CAPS : list string :=
  ["builds:create"; "builds:revoke:own"; "builds:list:own"; "builds:list:any";
   "apikeys:create:own"; "workers:view"; "channels:view"].

Definition seed_roles (now : Z) (d : Db) : result Db SqlError :=
  and_then (create_builtin_role "admin" "Full administrative access" ["*"] now d) (λ d,
  and_then (create_builtin_role "builder" "Create and manage own builds" BUILDER_CAPS now d) (λ d,
  and_then (set_role_scopes_in_tx "builder"
              [mkScopeEntry "channel" "*"; mkScopeEntry "repository" "*"] d) (λ d,
  create_builtin_role "viewer" "Read-only access to builds and workers"
    ["builds:list:any"; "workers:view"] now d))).

Definition seed_admin_user (email : string) (now : Z) (d : Db) : result Db SqlError :=
  and_then (insert_user_row email
              (mkUserRow (mkUserRecord email "Admin" true None false) None now now None) d)
    (insert_user_role email "admin").

Definition seed_worker (admin_email : string) (now : Z) (pw : PreparedWorker) (d : Db)
    : result Db SqlError :=
  match insert_api_key_in_tx ("worker:" +:+ pw_name pw) admin_email (pw_key_hash pw)
          (pw_key_prefix pw) now d with
  | Err e => Err e
  | Ok (api_key_id, d) =>
      insert_worker (pw_worker_uuid pw) (pw_name pw) (pw_arch pw) api_key_id admin_email now d
  end.

Definition seed_tx (admin : option string) (prepared_workers : list PreparedWorker) (now : Z) (d : Db)
    : result (unit * Db) SeedError :=
  match and_then (seed_roles now d) (λ d,
          match admin with
          | Some admin_email =>
              and_then (seed_admin_user admin_email now d)
                (insert_all (seed_worker admin_email now) prepared_workers)
          | None => Ok d
          end) with
  | Ok d => Ok ((), d)
  | Err e => Err (SeedDb e)
  end.

Definition count_roles : stmt Z := λ _ d, (Ok (Z.of_nat (size (t_roles d))), d).

Section Seed.
Context `{Env} `{TokenCrates}.

(** The hashes of the pre-configured keys, before the transaction. *)
Fixpoint prepare_workers (workers : list DevSeedWorker)
    : async (result (list PreparedWorker) SeedError) :=
  match workers with
  | [] => Ret (Ok [])
  | w :: workers =>
      let? hashed := io (λ s, let '(salt, s) := alloc s in
                              (argon2_hash_password (dsw_api_key w) salt, s))
        map_err (λ _, SeedHash join_error_text) in
      match hashed with
      | Err e => Ret (Err (SeedHash e))
      | Ok hash =>
          let* n := atomic alloc in
          let? rest := prepare_workers workers map_err id in
          Ret (Ok (mkPreparedWorker (dsw_name w) (arch_to_string (dsw_arch w)) (uuid_v4 n)
                     (String.substring 5 12 (dsw_api_key w)) hash :: rest))
      end
  end.

Definition run_first_startup_seed (config : ServerConfig) : async (result unit SeedError) :=
  let? count := query count_roles map_err SeedDb in
  if (0 <? count)%Z then Ret (Ok ())
  else
    let? prepared_workers := prepare_workers
      (if dev_enabled (dev config) then seed_workers (dev config) else []) map_err id in
    query_tx SeedDb (seed_tx (seed_admin (seed config)) prepared_workers).

End Seed.

(** ** main.rs: start-up *)

Section Start.
Context `{HEnv : Env} `{HTok : TokenCrates} `{HHash : HashIter} `{HSerde : Serde} `{HWeb : WebCrates}
  `{HComp : ComponentCrates}.

(** From the migrated database to the state that requests are served from, on
    the file system [f]: [None] is a panic. The in-memory state is new. *)
Definition start_up (config : ServerConfig) (f : FileSystem.Fs) : async (option (OAuthState * list ComponentInfo)) :=
  let* seeded := run_first_startup_seed config in
  match seeded with
  | Err _ => Ret None
  | Ok _ =>
      match (if dev_enabled (dev config) then Ok oauth_dummy
             else load_oauth_config (secrets_file (oauth config))) with
      | Err _ => Ret None
      | Ok oauth =>
          let loaded := loaded_components (FileSystem.components (components_dir config)) f in
          let* recovered := run_startup_recovery in
          match recovered with
          | Err _ => Ret None
          | Ok _ => Ret (Some (oauth, loaded))
          end
      end
  end.
End Start.

(** ** main.rs: shutdown *)

Inductive Signal := CtrlC | SigTerm | SigQuit.
Inductive ShutdownMode := Restart | Drain.

(** [drain] is the command-line flag. *)
Definition shutdown_signal (drain : bool) (signal : Signal) : ShutdownMode :=
  match signal with
  | CtrlC => Restart
  | SigTerm => Restart
  | SigQuit => if drain then Drain else Drain
  end.

Section Shutdown.
Context `{Env} `{HashIter}.

Definition drain_revoke (b : Z * ConnectionId) : async unit :=
  do* query (set_build_revoking b.1) in
  send_text_to_connection b.2 (BuildRevoke (mkBuildId b.1) (Some Admin)).

Definition drain_fail (build_id : Z) : async unit :=
  do* query (set_build_finished build_id Failure (Some "server decommissioned") None) in
  do* query (set_build_log_finished build_id) in
  Ret ().

(** The sleep of the drain timeout separates the two loops; other tasks run in
    it. *)
Definition run_drain_shutdown : async unit :=
  let* active_builds := read_queue (λ q,
    List.map (λ e : Z * ActiveBuild, (e.1, ab_connection_id e.2)) (hash_iter (q_active q))) in
  match active_builds with
  | [] => Ret ()
  | _ =>
      do* for_each active_builds drain_revoke in
      let* remaining := read_queue (λ q, List.map (λ e : Z * ActiveBuild, e.1) (hash_iter (q_active q))) in
      for_each remaining drain_fail
  end.

Definition after_shutdown (mode : ShutdownMode) : async unit :=
  match mode with Restart => Ret () | Drain => run_drain_shutdown end.

End Shutdown.

(** ** The first start-up and the drain

    The seed gives an empty database its roles and its administrator, all or
    nothing. The drain marks builds as revoking without asking in which state
    they are. *)

(** ** The seed *)

Lemma insert_caps_ok name caps d :
  NoDup caps → (∀ c, c ∈ caps → (name, c) ∉ t_role_caps d) → t_roles d !! name ≠ None →
  insert_all (insert_role_cap name) caps d =
  Ok (set_role_cap_rows (list_to_set ((λ c, (name, c)) <$> caps) ∪ t_role_caps d) d).
Proof.
  revert d. induction caps as [|c caps IH]; intros d Hnd Hfresh Hrole; simpl.
  - f_equal. destruct d; unfold set_role_cap_rows; simpl. f_equal. by rewrite (left_id_L ∅ (∪)).
  - apply NoDup_cons in Hnd as [Hc Hnd]. unfold insert_role_cap at 1.
    rewrite bool_decide_eq_false_2 by (apply Hfresh; by left). rewrite bool_decide_eq_false_2 by done.
    cbn [orb]. set (d1 := set_role_cap_rows _ d).
    assert (∀ c', c' ∈ caps → (name, c') ∉ t_role_caps d1) as Hd1.
    { intros c' Hc' [Heq%elem_of_singleton|Hin]%elem_of_union; [by simplify_eq|].
      eapply Hfresh, Hin. by right. }
    rewrite (IH d1 Hnd Hd1 Hrole). f_equal. subst d1. destruct d; unfold set_role_cap_rows; simpl. f_equal.
    apply set_eq. set_solver.
Qed.

Section SeedSpec.
Context `{HEnv : Env} `{HTok : TokenCrates}.

Definition builtin_role (name description : string) (now : Z) : RoleRecord :=
  mkRoleRecord name description true now.

Lemma create_builtin_ok name descr caps t d :
  NoDup caps → (∀ c, c ∈ caps → (name, c) ∉ t_role_caps d) → t_roles d !! name = None →
  create_builtin_role name descr caps t d =
  Ok (set_role_cap_rows (list_to_set ((λ c, (name, c)) <$> caps) ∪ t_role_caps d)
        (set_roles (<[name := builtin_role name descr t]> (t_roles d)) d)).
Proof.
  intros Hnd Hfresh Hn. unfold create_builtin_role, create_role. rewrite Hn. cbn [of_stmt and_then].
  rewrite insert_caps_ok; [done|done|done|]. simpl. by rewrite lookup_insert_eq.
Qed.

(** The tables that the seed fills are empty. *)
Record unseeded (d : Db) : Prop := mkUnseeded {
  us_roles : t_roles d = ∅;
  us_user_roles : t_user_roles d = ∅;
  us_caps : t_role_caps d = ∅;
  us_scopes : t_role_scopes d = ∅
}.

Lemma insert_scope_ok name sc d :
  (name, scope_type sc, pattern sc) ∉ t_role_scopes d → t_roles d !! name ≠ None →
  known_scope_type (scope_type sc) = true →
  insert_role_scope name sc d =
  Ok (set_role_scope_rows ({[(name, scope_type sc, pattern sc)]} ∪ t_role_scopes d) d).
Proof.
  intros H1 H2 H3. unfold insert_role_scope. by rewrite !bool_decide_eq_false_2, H3 by done.
Qed.

(** What the seed needs of its roles: all built in, and only [admin] with [*]. *)
Record seeded_roles (d d' : Db) : Prop := mkSeededRoles {
  sr_roles : dom (t_roles d') = {["admin"; "builder"; "viewer"]};
  sr_builtin : ∀ n r, t_roles d' !! n = Some r → rr_builtin r = true;
  sr_users : t_users d' = t_users d ∧ t_user_roles d' = t_user_roles d;
  sr_admin : ∀ n, (n, "*") ∈ t_role_caps d' ↔ n = "admin"
}.

Lemma seed_roles_ok t d : unseeded d → ∃ d', seed_roles t d = Ok d' ∧ seeded_roles d d'.
Proof.
  intros [H1 H2 H3 H4]. unfold seed_roles.
  rewrite create_builtin_ok; [|by apply NoDup_singleton|rewrite H3; set_solver|by rewrite H1].
  rewrite H1, H3. cbn [and_then]. set (d1 := set_role_cap_rows _ _).
  rewrite create_builtin_ok; [|by apply (bool_decide_unpack _); vm_compute| |by simpl; rewrite lookup_insert_ne].
  2: { simpl. set_solver. }
  cbn [and_then]. set (d2 := set_role_cap_rows _ _). unfold set_role_scopes_in_tx. cbn [insert_all].
  rewrite insert_scope_ok; [|simpl; rewrite H4; set_solver|by simpl; rewrite lookup_insert_eq|done].
  set (d3 := set_role_scope_rows _ _).
  rewrite insert_scope_ok; [|simpl; rewrite H4; set_solver|by simpl; rewrite lookup_insert_eq|done].
  set (d4 := set_role_scope_rows _ _). cbn [and_then].
  rewrite create_builtin_ok; [|by apply (bool_decide_unpack _); vm_compute| |].
  3: { simpl. by rewrite !lookup_insert_ne. }
  2: { simpl. set_solver. }
  eexists. split; [done|]. split; [| |done|].
  - simpl. set_solver.
  - simpl. intros n r. rewrite !lookup_insert_Some, lookup_empty. naive_solver.
  - intros n. simpl. set_solver.
Qed.

Definition seeded_admin (email : string) (t : Z) (d : Db) : Db :=
  set_user_role_rows ({[(email, "admin")]} ∪ t_user_roles d)
    (set_users (<[email := mkUserRow (mkUserRecord email "Admin" true None false) None t t None]> (t_users d)) d).

Lemma seed_admin_user_ok email t d :
  user_row email d = None → "admin" ∈ dom (t_roles d) → (email, "admin") ∉ t_user_roles d →
  seed_admin_user email t d = Ok (seeded_admin email t d).
Proof.
  intros Hu [r Hr]%elem_of_dom Hn. unfold seed_admin_user, insert_user_row. rewrite Hu. cbn [and_then].
  unfold insert_user_role. rewrite !bool_decide_eq_false_2; [done|..].
  - simpl. by rewrite lookup_insert_eq.
  - simpl. by rewrite Hr.
  - done.
Qed.

(** The database after the seed: the built-in roles, and the administrator if one
    is configured. *)
Definition seeded (admin : option string) (d : Db) : Prop :=
  dom (t_roles d) = {["admin"; "builder"; "viewer"]} ∧
  (∀ n r, t_roles d !! n = Some r → rr_builtin r = true) ∧
  wildcard_holders d = match admin with Some email => {[email]} | None => ∅ end.

(** The tables that decide about roles, which the pre-configured workers leave. *)
Lemma seed_workers_frame email t pws : ∀ d d',
  insert_all (seed_worker email t) pws d = Ok d' →
  t_roles d' = t_roles d ∧ t_users d' = t_users d ∧ t_user_roles d' = t_user_roles d ∧
  t_role_caps d' = t_role_caps d.
Proof.
  induction pws as [|pw pws IH]; intros d d'; cbn [insert_all]; [by intros [= <-]|].
  unfold seed_worker at 1, insert_api_key_in_tx, insert_api_key_row, insert_worker.
  repeat case_match; simplify_eq/=; try done. intros H%IH. exact H.
Qed.

Lemma seeded_of_tables admin d d1 d' :
  unseeded d → seeded_roles d d1 → (∀ e, admin = Some e → t_users d !! e = None) →
  t_roles d' = t_roles d1 → t_role_caps d' = t_role_caps d1 →
  match admin with
  | Some e => ∃ t, t_users d' = t_users (seeded_admin e t d1) ∧ t_user_roles d' = t_user_roles (seeded_admin e t d1)
  | None => t_user_roles d' = t_user_roles d1
  end → seeded admin d'.
Proof.
  intros Hd [R1 R2 [R3 R4] R5] Hnew Hr Hc Ha. split_and!; [by rewrite Hr|by rewrite Hr|].
  apply set_eq. intros e. rewrite elem_of_wildcard_holders, Hc. destruct admin as [email|].
  - destruct Ha as (t & Hus & Hur). rewrite Hus, Hur. simpl. rewrite elem_of_singleton, R4, (us_user_roles _ Hd). split.
    + intros (u' & _ & _ & _ & r & Hin & _). set_solver.
    + intros ->. eexists. rewrite lookup_insert_eq. split_and!; [done..|]. exists "admin".
      split; [set_solver|by apply R5].
  - rewrite Ha, R4, (us_user_roles _ Hd). split; [|set_solver]. intros (u' & _ & _ & _ & r & Hin & _). set_solver.
Qed.

Lemma seed_tx_ok admin pws t d d' :
  unseeded d → (∀ e, admin = Some e → t_users d !! e = None) →
  seed_tx admin pws t d = Ok ((), d') → seeded admin d'.
Proof.
  intros Hd Hnew. destruct (seed_roles_ok t d Hd) as (d1 & Hroles & Hs). pose proof Hs as [R1 R2 [R3 R4] R5].
  unfold seed_tx. rewrite Hroles. cbn [and_then]. destruct admin as [email|].
  - rewrite seed_admin_user_ok; [|unfold user_row; rewrite R3; by apply Hnew|rewrite R1; set_solver
      |rewrite R4, (us_user_roles _ Hd); set_solver].
    cbn [and_then]. destruct (insert_all _ _ _) as [d2|] eqn:E; [|done]. intros [= <-].
    apply seed_workers_frame in E as (E1 & E2 & E3 & E4).
    apply (seeded_of_tables _ d d1); [done|done|done|by rewrite E1|by rewrite E4|]. exists t. by rewrite E2, E3.
  - intros [= <-]. by apply (seeded_of_tables _ d d1).
Qed.

(** Without pre-configured workers the transaction goes through. *)
Lemma seed_tx_total admin t d :
  unseeded d → (∀ e, admin = Some e → t_users d !! e = None) → ∃ d', seed_tx admin [] t d = Ok ((), d').
Proof.
  intros Hd Hnew. destruct (seed_roles_ok t d Hd) as (d1 & Hroles & [R1 R2 [R3 R4] R5]).
  unfold seed_tx. rewrite Hroles. cbn [and_then]. destruct admin as [email|]; [|by eexists].
  rewrite seed_admin_user_ok; [by eexists|unfold user_row; rewrite R3; by apply Hnew|rewrite R1; set_solver
    |rewrite R4, (us_user_roles _ Hd); set_solver].
Qed.

Lemma prepare_workers_pool d ws : keeps (λ s, pool s = d) (prepare_workers ws).
Proof.
  induction ws as [|w ws IH]; cbn [prepare_workers]; [apply keeps_ret|].
  apply keeps_or_fail.
  { apply keeps_atomic. intros s <-. unfold next_fault. by destruct (faults s) as [|[] fs]. }
  intros [hash|e]; [|apply keeps_ret]. apply keeps_bind; [by apply keeps_atomic|intros n].
  apply keeps_or_fail; [done|intros rest; apply keeps_ret].
Qed.

(** The seed of an empty database: it fails and leaves the database alone, or it
    commits its transaction. *)
Lemma seed_cases (s : AppState) (config : ServerConfig) :
  unseeded (pool s) →
  match run (run_first_startup_seed config) s with
  | (Ok (), s') => ∃ pws t, seed_tx (seed_admin (seed config)) pws t (pool s) = Ok ((), pool s')
  | (Err _, s') => pool s' = pool s
  end.
Proof.
  intros Hd. assert (size (t_roles (pool s)) = 0) as Hsize by by rewrite (us_roles _ Hd), map_size_empty.
  assert (∀ ws s0, pool s0 = pool s → match run (or_fail (prepare_workers ws) id (λ pw,
    query_tx SeedDb (seed_tx (seed_admin (seed config)) pw))) s0 with
    | (Ok (), s') => ∃ pws t, seed_tx (seed_admin (seed config)) pws t (pool s) = Ok ((), pool s')
    | (Err _, s') => pool s' = pool s end) as Hrest.
  { intros ws s0 Hs0. rewrite run_or_fail. pose proof (prepare_workers_pool (pool s) ws s0 Hs0) as Hp.
    destruct (run (prepare_workers ws) s0) as [[pws|e] s1]; cbn [fst snd] in *; [|done].
    unfold query_tx. rewrite run_atomic. unfold next_fault.
    destruct (faults s1) as [|[] fs]; [| |simpl]; try done.
    all: rewrite Hp; destruct (seed_tx _ _ _ _) as [[[] d]|] eqn:E; simpl; [by eexists _, _|done]. }
  unfold run_first_startup_seed. rewrite run_or_fail, run_query. unfold exec_stmt, next_fault.
  destruct (faults s) as [|[] fs]; cbn [fst snd count_roles]; [|done|simpl pool]; rewrite Hsize;
    change (0 <? Z.of_nat 0)%Z with false; cbv beta iota; by apply Hrest.
Qed.

(** C30: The first start-up of a database whose tables of roles are empty. When it
    succeeds, it has created the built-in roles, all marked as such, and the users
    with every permission are exactly the administrator that the configuration
    names, if it names one, and nobody otherwise; a second start-up with the same
    configuration changes nothing. When it fails, for whatever reason, the
    database is as it was. Outside of development mode (which also registers the
    configured workers) it succeeds if nothing fails. The named administrator must
    not be in the table of users yet. *)
Theorem seed_establishes_admin (s : AppState) (config : ServerConfig)
    (Hd : unseeded (pool s))
    (Hnew : ∀ email, seed_admin (seed config) = Some email → t_users (pool s) !! email = None) :
  (∀ s', run (run_first_startup_seed config) s = (Ok (), s') →
     seeded (seed_admin (seed config)) (pool s') ∧
     (faults s' = [] → run (run_first_startup_seed config) s' = (Ok (), s'))) ∧
  (∀ e s', run (run_first_startup_seed config) s = (Err e, s') → pool s' = pool s) ∧
  (faults s = [] → dev_enabled (dev config) = false →
     ∃ s', run (run_first_startup_seed config) s = (Ok (), s')).
Proof.
  pose proof (seed_cases s config Hd) as Hc. split_and!.
  - intros s' Hrun. rewrite Hrun in Hc. destruct Hc as (pws & t & Htx). apply seed_tx_ok in Htx; [|done..].
    split; [done|]. intros Hf. destruct Htx as (R1 & _).
    unfold run_first_startup_seed. rewrite run_or_fail, run_read by done. unfold count_roles. cbn [fst snd].
    by rewrite <- size_dom, R1.
  - intros e s' Hrun. by rewrite Hrun in Hc.
  - intros Hf Hdev. unfold run_first_startup_seed. rewrite run_or_fail, run_read by done. unfold count_roles.
    cbn [fst snd]. rewrite (us_roles _ Hd), map_size_empty. change (0 <? Z.of_nat 0)%Z with false. cbv beta iota.
    rewrite Hdev, run_or_fail. cbn [prepare_workers]. rewrite run_ret. cbn [fst snd].
    pose proof (query_tx_cases SeedDb (seed_tx (seed_admin (seed config)) []) s Hf) as Hq.
    destruct (seed_tx_total (seed_admin (seed config)) (clock s) (pool s) Hd Hnew) as [d' Htx].
    rewrite Htx in Hq. eexists. exact Hq.
Qed.
End SeedSpec.

(** ** The drain *)

Section DrainSpec.
Context `{HEnv : Env} `{HHash : HashIter} `{HSerde : Serde}.

Lemma eff_drain_fail j : eff (drain_fail j) (alter (λ _, Failure) j) id.
Proof.
  change (eff (drain_fail j) (id ∘ alter (λ _, Failure) j) (id ∘ id)). unfold drain_fail. apply eff_bind.
  - apply eff_query_sets, sets_finished.
  - intros _. apply eff_bind_id; [apply eff_query_keeps, keeps_log_finished|intros _; apply eff_ret].
Qed.

(** The second loop leaves a build alone that it does not name. *)
Lemma drain_fail_spares (l : list Z) i s :
  i ∉ l → faults s = [] →
  states (run (for_each l drain_fail) s).2 !! i = states s !! i ∧
  queue (run (for_each l drain_fail) s).2 = queue s.
Proof.
  revert s. induction l as [|j l IH]; intros s Hi Hf; [done|]. cbn [for_each]. rewrite run_bind.
  destruct (eff_drain_fail j s Hf) as (E & _ & Eq & Hf').
  destruct (IH (run (drain_fail j) s).2 ltac:(set_solver) Hf') as [-> ->].
  rewrite E, lookup_alter_ne; [done|set_solver].
Qed.

Lemma eff_drain_revoke i cid : eff (drain_revoke (i, cid)) (alter (λ _, Revoking) i) id.
Proof.
  change (eff (drain_revoke (i, cid)) (id ∘ alter (λ _, Revoking) i) (id ∘ id)). unfold drain_revoke.
  apply eff_bind; [apply eff_query_sets, sets_revoking|]. intros _. apply eff_frame. intros s. cbn [snd].
  destruct (worker_senders s !! cid) as [tx|]; [|done]. unfold chan_send. by repeat case_match.
Qed.

(** The drain after its first look at the queue, for one running build. *)
Definition drain_rest (i : Z) (cid : ConnectionId) : async unit :=
  do* for_each [(i, cid)] drain_revoke in
  let* remaining := read_queue (λ q, List.map (λ e : Z * ActiveBuild, e.1) (hash_iter (q_active q))) in
  for_each remaining drain_fail.

Lemma drain_rest_revokes i cid s :
  faults s = [] → is_Some (states s !! i) → q_active (queue s) !! i = None →
  states (run (drain_rest i cid) s).2 !! i = Some Revoking ∧
  queue (run (drain_rest i cid) s).2 = queue s.
Proof.
  intros Hf [st Hst] Hq. unfold drain_rest. rewrite run_bind. cbn [for_each]. rewrite run_bind.
  cbn [fst snd]. destruct (eff_drain_revoke i cid s Hf) as (E1 & _ & E2 & E3).
  set (s2 := (run (drain_revoke (i, cid)) s).2) in *.
  rewrite (run_bind (drain_revoke (i, cid))), run_ret. cbn [fst snd]. fold s2.
  unfold read_queue. rewrite run_with_queue. cbn [fst snd].
  assert (upd_queue (queue s2) s2 = s2) as -> by by destruct s2.
  edestruct (drain_fail_spares (List.map (λ e : Z * ActiveBuild, e.1) (hash_iter (q_active (queue s2)))) i s2)
    as [-> ->]; [|done|by rewrite E1, E2, lookup_alter_eq, Hst].
  intros ([j ab] & Hj & He)%list_elem_of_In%in_map_iff. rewrite E2 in He. simpl in *.
  apply list_elem_of_In in He. rewrite hash_iter_perm in He. apply elem_of_map_to_list in He. congruence.
Qed.

(** C23: A drain can overwrite the result of a build. If the last running build
    reports its result after the drain has looked at the queue and before it marks
    the builds, the mark replaces the result: the build ends up revoking and is in
    no map, so nothing will ever finish it while the server runs. *)
Theorem drain_overwrites_result (s : AppState) cid name w b status err report ab
    (Hs : Coh s) (Ha : active_build_for_connection (build_id_0 b) cid (queue s) = Some ab)
    (Hq : q_active (queue s) = {[build_id_0 b := ab]}) :
  let finished := run (handle_worker_message cid name w (BuildFinished b status err report)) s in
  states finished.2 !! build_id_0 b = Some (finished_state status) ∧
  ∃ s', rtc pool_step
      (s, [run_drain_shutdown; ignore (handle_worker_message cid name w (BuildFinished b status err report))])
      (s', [Ret (); Ret ()]) ∧
    states s' !! build_id_0 b = Some Revoking ∧ q_active (queue s') !! build_id_0 b = None.
Proof.
  intros finished. destruct (finished_message_finishes s cid name w b status err report ab Hs Ha)
    as ([_ Hf] & Hst & Hact & _). fold finished in Hf, Hst, Hact. split; [done|].
  set (i := build_id_0 b) in *.
  assert (ab_connection_id ab = cid) as Hcid.
  { unfold active_build_for_connection in Ha. rewrite Hq, lookup_singleton_eq in Ha. simpl in Ha. by case_decide. }
  assert (hash_iter (q_active (queue s)) = [(i, ab)]) as Hiter.
  { apply Permutation_singleton_r. rewrite hash_iter_perm, Hq. by rewrite map_to_list_singleton. }
  set (s' := (run (drain_rest i cid) finished.2).2). exists s'. split; [|split].
  - etrans.
    { apply (task_steps_pool run_drain_shutdown (drain_rest i cid) s s []). unfold run_drain_shutdown.
      etrans; [apply task_steps_first; unfold read_queue; by rewrite run_with_queue|].
      rewrite Hiter. simpl. rewrite Hcid. assert (upd_queue (queue s) s = s) as -> by by destruct s. done. }
    etrans; [by apply (run_is_schedule _ _ [_] [])|]. unfold ignore. rewrite run_bind. fold finished.
    rewrite run_ret. cbn [fst snd].
    pose proof (run_is_schedule (drain_rest i cid) finished.2 [] [Ret ()]) as Hsched.
    by destruct (run (drain_rest i cid) finished.2).1.
  - by apply drain_rest_revokes.
  - unfold s'. by destruct (drain_rest_revokes i cid finished.2) as [_ ->].
Qed.
End DrainSpec.

(** ** The next start *)

Section NextStart.
Context `{HEnv : Env} `{HTok : TokenCrates} `{HHash : HashIter} `{HSerde : Serde} `{HChrono : Chrono}
  `{HWeb : WebCrates} `{HComp : ComponentCrates} (known : list ComponentInfo).

Lemma seeded_already config s :
  faults s = [] → t_roles (pool s) ≠ ∅ → run (run_first_startup_seed config) s = (Ok (), s).
Proof.
  intros Hf Hr. unfold run_first_startup_seed. rewrite run_or_fail, run_read by done. unfold count_roles. simpl.
  destruct (Z.ltb_spec 0 (Z.of_nat (size (t_roles (pool s))))) as [|Hz]; [done|].
  destruct Hr. apply map_size_empty_iff. lia.
Qed.

(** After a crash at any moment, whatever was under way, the next start of a
    server that was seeded before comes up if its OAuth secrets can be read: with
    the components of its directory, with the queue agreeing with the database,
    and with every build queued or ended. *)
Theorem next_start_comes_up (s s' : AppState) ts t (config : ServerConfig) (f : FileSystem.Fs) (secrets : OAuthState)
    (Hd : db_wf (pool s)) (Hs : Coh s) (Hr : rtc (sys_step known) (s, []) (s', ts))
    (Hroles : t_roles (pool s') ≠ ∅) (Hdev : dev_enabled (dev config) = false)
    (Hsecrets : load_oauth_config (secrets_file (oauth config)) = Ok secrets) :
  ∃ s'', run (start_up config f) (restart s' t) =
      (Some (secrets, loaded_components (FileSystem.components (components_dir config)) f), s'') ∧
    Coh s'' ∧ q_active (queue s'') = ∅ ∧
    (∀ i st, states s'' !! i = Some st → st = Queued ∨ terminal st).
Proof.
  destruct (restart_recovers known s s' ts t Hd Hs Hr) as (s'' & Hrun & Hc & Ha & Hst).
  exists s''. split; [|done]. unfold start_up. rewrite run_bind, seeded_already by done. cbn [fst snd].
  rewrite Hdev, Hsecrets. rewrite run_bind, Hrun. done.
Qed.
End NextStart.
