(* ===== verification/HandlerSpec.v ===== *)
(** * What the connection handler guarantees

    The resolution of a dead worker's builds, the handshake, the migration of
    assignments to a new connection and what the reconnection tables can see. *)

From stdpp Require Import prelude gmap strings list relations pretty.
From S2P Require Import Prelude Async Proto Queue Db App Logs Dispatch Handler Lifecycle.
From S2P Require Import Coherence Refinement DispatchSpec.

Section HandlerSpec.
Context `{HEnv : Env} `{HHash : HashIter} `{HSerde : Serde}.

(** ** Dead workers *)

(** What the death of its worker means for a build: an assignment the worker
    never acknowledged is repeated, one it had taken has failed, and a revocation
    under way is complete. *)
Definition dead_outcome (st : BuildState) (r : ActiveAssignmentReceipt) : BuildState :=
  match st, r with
  | Dispatched, AwaitingReceipt => Queued
  | Dispatched, ReceivedByWorker | Started, _ => Failure
  | Revoking, _ => Revoked
  | _, _ => st
  end.

(** What a resolution does to the queue: the entry goes, the workers stay. *)
Definition released (l : list Z) (s s' : AppState) : Prop :=
  q_workers (queue s') = q_workers (queue s) ∧
  ∀ i, q_active (queue s') !! i = if bool_decide (i ∈ l) then None else q_active (queue s) !! i.

Lemma released_one i s s' :
  q_workers (queue s') = q_workers (queue s) → q_active (queue s') = delete i (q_active (queue s)) →
  released [i] s s'.
Proof.
  intros Hw Ha. split; [done|]. intros j. rewrite Ha, lookup_delete.
  case_decide; case_bool_decide; set_solver.
Qed.

Lemma cleanup_effect i t reason s :
  faults s = [] →
  released [i] s (run (cleanup_terminal_state i t reason) s).2 ∧
  states (run (cleanup_terminal_state i t reason) s).2 = alter (λ _, terminal_state t) i (states s).
Proof.
  intros Hf. destruct (eff_cleanup i t reason s Hf) as (H1 & _ & H3 & _).
  split; [|done]. apply released_one; by rewrite H3.
Qed.

Lemma resolve_dead_effect i r st s :
  Coh s → states s !! i = Some st → in_flight st →
  released [i] s (run (resolve_dead_build i r) s).2 ∧
  states (run (resolve_dead_build i r) s).2 = <[i := dead_outcome st r]> (states s).
Proof.
  intros [Hc Hf] Hst Hfl. unfold resolve_dead_build. rewrite run_bind, run_read by done. cbn [fst snd].
  unfold states in Hst. rewrite lookup_fmap in Hst. apply fmap_Some in Hst as (row & Hrow & ->).
  simpl. rewrite Hrow. simpl.
  assert (states s !! i = Some (br_state row)) as Hst by (unfold states; by rewrite lookup_fmap, Hrow).
  assert (∃ ab, q_active (queue s) !! i = Some ab) as [ab Hab].
  { apply (coh_active _ _ _ Hc). eauto. }
  assert (∀ t reason,
    released [i] s (run (cleanup_terminal_state i t reason) s).2 ∧
    states (run (cleanup_terminal_state i t reason) s).2 = <[i := terminal_state t]> (states s)) as Hcl.
  { intros t reason. destruct (cleanup_effect i t reason s Hf) as [H1 H2].
    by rewrite H2, (alter_state _ _ _ _ Hst). }
  assert (released [i] s (run (do* rollback_active_to_queued i in Ret ()) s).2 ∧
    states (run (do* rollback_active_to_queued i in Ret ()) s).2 = <[i := Queued]> (states s)) as Hrb.
  { rewrite run_bind, run_ret. cbn [fst snd].
    destruct (rollback_effect s i ab Hf Hab) as (_ & Hb & Ha & _ & _ & _ & Hw).
    split; [by apply released_one|]. unfold states. rewrite Hb.
    apply map_eq. intros j. rewrite lookup_fmap, lookup_alter, lookup_insert, lookup_fmap.
    case_decide; [subst; by rewrite Hrow|done]. }
  destruct Hfl as [Hs | [Hs | Hs]]; rewrite Hs; destruct r; first [apply Hcl|exact Hrb].
Qed.

(** The loop over the builds of a connection, each active and listed once. *)
Lemma resolve_loop (l : list (Z * ActiveAssignmentReceipt)) s :
  Coh s → NoDup l.*1 → (∀ i r, (i, r) ∈ l → is_active i s) →
  let s' := (run (for_each l (λ '(build_id, receipt), resolve_dead_build build_id receipt)) s).2 in
  Coh s' ∧ released l.*1 s s' ∧
  (∀ i r, (i, r) ∈ l → states s' !! i = (λ st, dead_outcome st r) <$> states s !! i) ∧
  (∀ i, (i ∉ l.*1) → states s' !! i = states s !! i).
Proof.
  revert s. induction l as [|[i r] l IH]; intros s Hs Hnd Ha; cbv zeta.
  { rewrite run_for_each_nil. split_and!; [done|by split|set_solver|done]. }
  rewrite run_for_each_cons. apply NoDup_cons in Hnd as [Hni Hnd].
  destruct (coh_active_state (proj1 Hs) i (Ha i r ltac:(left))) as (st & Hst & Hfl).
  destruct (resolve_dead_effect i r st s Hs Hst Hfl) as [[Hw1 Ha1] Hs1].
  destruct (refines_resolve_dead (λ _, True) i r s Hs Logic.I) as [Hc1 _].
  set (s1 := (run (resolve_dead_build i r) s).2) in *.
  destruct (IH s1 Hc1 Hnd) as (Hc & [Hw2 Ha2] & Hin & Hout).
  { intros j rj Hj. unfold is_active. rewrite Ha1, bool_decide_eq_false_2; [by eapply Ha; right|].
    intros Hji%list_elem_of_singleton. subst. by apply Hni, (list_elem_of_fmap_2 fst _ (i, rj)). }
  split_and!; [done| | |].
  - split; [congruence|]. intros j. rewrite Ha2, Ha1. repeat case_bool_decide; set_solver.
  - intros j rj [[= -> ->]|Hj]%elem_of_cons.
    + rewrite Hout by done. by rewrite Hs1, lookup_insert_eq, Hst.
    + rewrite (Hin _ _ Hj), Hs1, lookup_insert_ne; [done|]. intros ->.
      by apply Hni, (list_elem_of_fmap_2 fst _ (j, rj)).
  - intros j Hj. rewrite fmap_cons, not_elem_of_cons in Hj. simpl in Hj. destruct Hj as [Hji Hj].
    rewrite Hout by done. by rewrite Hs1, lookup_insert_ne.
Qed.

(** The builds of a connection, as the critical section of [handle_worker_dead]
    lists them. *)
Lemma owned_spec s cid : Coh s →
  let l := active_builds_with_receipt_for_connection cid (queue s) in
  NoDup l.*1 ∧
  ∀ i r, (i, r) ∈ l ↔ ∃ ab, q_active (queue s) !! i = Some ab ∧ ab_connection_id ab = cid ∧ ab_receipt ab = r.
Proof.
  intros [Hc _]. cbv zeta. unfold active_builds_with_receipt_for_connection. split.
  - rewrite <- list_fmap_compose. change (fst ∘ _) with ab_build_id.
    apply (sublist_NoDup _ (ab_build_id <$> hash_values (q_active (queue s)))).
    + assert (ab_build_id <$> hash_values (q_active (queue s)) = (hash_iter (q_active (queue s))).*1) as ->.
      { unfold hash_values. rewrite <- list_fmap_compose. apply list_fmap_ext.
        intros k [i ab] Hk. apply list_elem_of_lookup_2, elem_of_hash_iter in Hk.
        by apply (coh_keys _ _ _ Hc). }
      rewrite hash_iter_perm. apply NoDup_fst_map_to_list.
    + apply fmap_sublist, sublist_filter.
  - intros i r. rewrite list_elem_of_fmap. split.
    + intros (ab & [= -> ->] & Hab). apply list_elem_of_filter in Hab as [Hcid Hab].
      apply elem_of_hash_values in Hab as [k Hk]. rewrite (coh_keys _ _ _ Hc _ _ Hk). eauto.
    + intros (ab & Hi & Hcid & <-). exists ab. rewrite (coh_keys _ _ _ Hc _ _ Hi). split; [done|].
      apply list_elem_of_filter. split; [done|]. apply elem_of_hash_values. eauto.
Qed.

(** ** What follows a dispatch only takes entries away *)

Definition shrinks {A} (m : async A) : Prop :=
  ∀ s, faults s = [] →
    faults (run m s).2 = [] ∧ q_active (queue (run m s).2) ⊆ q_active (queue s).

Lemma shrinks_bind {A B} (m : async A) (k : A → async B) :
  shrinks m → (∀ a, shrinks (k a)) → shrinks (bind m k).
Proof.
  intros Hm Hk s Hf. rewrite run_bind. destruct (Hm s Hf) as [H1 H2].
  destruct (Hk (run m s).1 _ H1) as [H3 H4]. split; [done|]. by etrans.
Qed.

Lemma shrinks_eff {A} (m : async A) fB fq :
  eff m fB fq → (∀ q, q_active (fq q) ⊆ q_active q) → shrinks m.
Proof. intros Hm Hq s Hf. destruct (Hm s Hf) as (_ & _ & -> & ->). split; [done|apply Hq]. Qed.

Lemma shrinks_id {A} (m : async A) : eff m id id → shrinks m.
Proof. intros Hm. by eapply shrinks_eff. Qed.

Lemma shrinks_rollback i : shrinks (rollback_active_to_queued i).
Proof.
  intros s Hf. unfold rollback_active_to_queued. rewrite run_bind, run_with_queue.
  unfold take_active. cbn [fst snd].
  destruct (q_active (queue s) !! i) as [ab|].
  - destruct (rollback_tail ab i (upd_queue (remove_active i (queue s)) s) Hf) as (t & _ & _ & -> & ->).
    split; [done|]. unfold enqueue_front. rewrite (proj1 (lane_set_rest _ _ _)). apply delete_subseteq.
  - split; [done|]. apply delete_subseteq.
Qed.

Lemma shrinks_cleanup i t reason : shrinks (cleanup_terminal_state i t reason).
Proof. eapply shrinks_eff; [apply eff_cleanup|]. intros q. apply delete_subseteq. Qed.

Lemma shrinks_send_and_recover info m b : shrinks (send_and_recover info m b).
Proof.
  unfold send_and_recover. apply shrinks_bind.
  - apply shrinks_id, eff_frame. intros s. apply frame_send_frames.
  - intros []; [apply shrinks_id; auto with eff|]. unfold handle_dispatch_send_failure.
    apply shrinks_bind; [apply shrinks_bind; [apply shrinks_rollback|]|]; intros;
      apply shrinks_id; auto with eff.
Qed.

(** A connection that cannot be dispatched to, and has no build, gets none. *)
Definition conn_idle (cid : ConnectionId) (q : BuildQueue) : Prop :=
  ∀ i ab, q_active q !! i = Some ab → ab_connection_id ab ≠ cid.

Definition ineligible (cid : ConnectionId) (q : BuildQueue) : Prop :=
  ∀ ws, q_workers q !! cid = Some ws → is_dispatch_eligible ws = false.

Lemma conn_idle_shrinks {A} cid (m : async A) s :
  shrinks m → faults s = [] → conn_idle cid (queue s) →
  faults (run m s).2 = [] ∧ conn_idle cid (queue (run m s).2).
Proof.
  intros Hm Hf Hi. destruct (Hm s Hf) as [H1 H2]. split; [done|].
  intros i ab Hab. eapply Hi. by eapply lookup_weaken.
Qed.

Lemma conn_idle_dispatch_under_lock cid s :
  faults s = [] → ineligible cid (queue s) → conn_idle cid (queue s) →
  faults (dispatch_under_lock s).2 = [] ∧ conn_idle cid (queue (dispatch_under_lock s).2).
Proof.
  intros Hf He Hi. destruct (dispatch_under_lock_cases s Hf) as
    [Hp|b q' Hn Hw|b q' cid' w info ab s' Hn Hw _ _ _ _ _ Hac _ _ _ _ Hq _ _ _ Hf']; [done| |].
  - split; [done|]. pose proof (next_pending_Some _ _ _ Hn) as (_ & Ha & _).
    intros i ab. simpl. unfold enqueue_front. rewrite (proj1 (lane_set_rest _ _ _)), Ha. apply Hi.
  - split; [done|]. pose proof (next_pending_Some _ _ _ Hn) as (_ & Ha & Hwk).
    destruct (find_worker_Some _ _ _ _ Hw) as (ws & Hws & Helig & _). rewrite Hwk in Hws.
    intros i ab'. simpl. rewrite Hq. simpl. rewrite Ha, lookup_insert. case_decide; [|apply Hi].
    intros [= <-] Hx. rewrite (He ws) in Helig; [done|]. by rewrite <- Hx, Hac.
Qed.

Lemma conn_idle_try_dispatch cid s :
  faults s = [] → ineligible cid (queue s) → conn_idle cid (queue s) →
  conn_idle cid (queue (run try_dispatch s).2).
Proof.
  intros Hf He Hi. unfold try_dispatch. rewrite run_bind, run_atomic.
  destruct (conn_idle_dispatch_under_lock cid s Hf He Hi) as [Hf1 Hi1].
  destruct (dispatch_under_lock s).1 as [info|e]; [|done]. apply conn_idle_shrinks; [|done..].
  apply shrinks_bind; [apply shrinks_id, eff_pack_for|]. intros [[bytes h]|e].
  - apply shrinks_bind; [apply shrinks_send_and_recover|]. intros []; [|apply shrinks_id; auto with eff].
    apply shrinks_bind; [apply shrinks_id, eff_spawn_ack_timer|]. intros. apply shrinks_id; auto with eff.
  - apply shrinks_bind; [apply shrinks_cleanup|]. intros. apply shrinks_id; auto with eff.
Qed.

(** C27: the death of a worker releases its builds. Every build of the connection
    leaves the active map, with the outcome its state and receipt call for:
    repeated when it was never acknowledged, failed when the worker had it,
    revoked when a revocation was under way. The builds of other connections are
    as they were, and the dispatch that follows gives nothing to the dead
    connection. *)
Theorem dead_worker_releases_builds (s : AppState) cid (Hs : Coh s) (He : ineligible cid (queue s)) :
  ∃ s1,
    (run (handle_worker_dead cid) s).2 = (run try_dispatch s1).2 ∧
    (∀ i ab, q_active (queue s) !! i = Some ab → ab_connection_id ab = cid →
       q_active (queue s1) !! i = None ∧
       states s1 !! i = (λ st, dead_outcome st (ab_receipt ab)) <$> states s !! i) ∧
    (∀ i ab, q_active (queue s) !! i = Some ab → ab_connection_id ab ≠ cid →
       q_active (queue s1) !! i = Some ab ∧ states s1 !! i = states s !! i) ∧
    conn_idle cid (queue (run (handle_worker_dead cid) s).2).
Proof.
  unfold handle_worker_dead, read_queue. rewrite run_bind, run_with_queue. cbn [fst snd].
  replace (upd_queue (queue s) s) with s by by destruct s.
  destruct (owned_spec s cid Hs) as [Hnd Hin]. set (l := active_builds_with_receipt_for_connection _ _) in *.
  destruct (resolve_loop l s Hs Hnd) as ([Hc Hf] & [Hw Ha] & Hst & Hout).
  { intros i r (ab & Hi & _)%Hin. by exists ab. }
  rewrite run_bind. set (s1 := (run (for_each l _) s).2) in *. rewrite run_bind, run_ret. cbn [snd].
  assert (∀ i ab, q_active (queue s) !! i = Some ab → i ∈ l.*1 ↔ ab_connection_id ab = cid) as Hmem.
  { intros i ab Hi. rewrite list_elem_of_fmap. split.
    - intros ([j r] & -> & (ab' & Hj & Hcid & _)%Hin). by simplify_eq/=.
    - intros Hcid. exists (i, ab_receipt ab). split; [done|]. apply Hin. eauto. }
  exists s1. split; [done|]. split_and!.
  - intros i ab Hi Hcid. rewrite Ha, bool_decide_eq_true_2 by by eapply Hmem. split; [done|].
    apply Hst, Hin. eauto.
  - intros i ab Hi Hcid. assert (i ∉ l.*1) as Hni by (intros Hm; by apply Hcid, (Hmem i ab Hi)).
    rewrite Ha, bool_decide_eq_false_2 by done. by rewrite Hout.
  - apply conn_idle_try_dispatch; [done| |].
    + intros ws. rewrite Hw. apply He.
    + intros i ab. rewrite Ha. case_bool_decide as Hm; [done|]. intros Hi Hcid. by apply Hm, (Hmem i ab Hi).
Qed.

(** ** Programs that leave one build alone *)

Definition spares {A} (i : Z) (m : async A) : Prop :=
  ∀ s, faults s = [] →
    faults (run m s).2 = [] ∧ q_active (queue (run m s).2) !! i = q_active (queue s) !! i ∧
    states (run m s).2 !! i = states s !! i.

Lemma spares_bind {A B} i (m : async A) (k : A → async B) :
  spares i m → (∀ a, spares i (k a)) → spares i (bind m k).
Proof.
  intros Hm Hk s Hf. rewrite run_bind. destruct (Hm s Hf) as (H1 & H2 & H3).
  destruct (Hk (run m s).1 _ H1) as (H4 & H5 & H6). by rewrite H5, H6.
Qed.

Lemma spares_eff {A} i (m : async A) fB fq :
  eff m fB fq → (∀ B, fB B !! i = B !! i) → (∀ q, q_active (fq q) !! i = q_active q !! i) → spares i m.
Proof.
  intros Hm HB Hq s Hf. destruct (Hm s Hf) as (H1 & _ & H2 & H3). by rewrite H1, H2, H3, HB, Hq.
Qed.

Lemma spares_id {A} i (m : async A) : eff m id id → spares i m.
Proof. intros Hm. by eapply spares_eff. Qed.

Lemma spares_cleanup i j t reason : j ≠ i → spares i (cleanup_terminal_state j t reason).
Proof.
  intros Hj. eapply spares_eff; [apply eff_cleanup| |]; intros x; simpl;
    [by apply lookup_alter_ne|by apply lookup_delete_ne].
Qed.

Lemma spares_rollback i j : j ≠ i → spares i (rollback_active_to_queued j).
Proof.
  intros Hj s Hf. unfold rollback_active_to_queued. rewrite run_bind, run_with_queue.
  unfold take_active. cbn [fst snd].
  destruct (q_active (queue s) !! j) as [ab|].
  - destruct (rollback_tail ab j (upd_queue (remove_active j (queue s)) s) Hf) as (t & -> & _ & -> & ->).
    split_and!; [done| |by rewrite lookup_alter_ne]. unfold enqueue_front.
    rewrite (proj1 (lane_set_rest _ _ _)). by apply lookup_delete_ne.
  - split_and!; [done| |done]. by apply lookup_delete_ne.
Qed.

Lemma spares_send_and_recover i info m b :
  build_id_0 (dp_build_id info) ≠ i → spares i (send_and_recover info m b).
Proof.
  intros Hj. unfold send_and_recover. apply spares_bind.
  - apply spares_id, eff_frame. intros s. apply frame_send_frames.
  - intros []; [apply spares_id; auto with eff|]. unfold handle_dispatch_send_failure.
    apply spares_bind; [apply spares_bind; [by apply spares_rollback|]|]; intros;
      apply spares_id; auto with eff.
Qed.

(** A dispatch has nothing to do with a build that is not pending. *)
Lemma try_dispatch_spares i s :
  faults s = [] → (i ∉ pending_ids (queue s)) →
  q_active (queue (run try_dispatch s).2) !! i = q_active (queue s) !! i ∧
  states (run try_dispatch s).2 !! i = states s !! i.
Proof.
  intros Hf Hi. unfold try_dispatch. rewrite run_bind, run_atomic.
  destruct (dispatch_under_lock_cases s Hf) as
    [Hp|b q' Hn Hw|b q' cid' w info ab s' Hn Hw Hid _ _ _ Hab _ _ Hst _ _ Hq _ _ _ Hf']; [done| |].
  { pose proof (next_pending_Some _ _ _ Hn) as (_ & Ha & _). split; [|done].
    simpl. unfold enqueue_front. by rewrite (proj1 (lane_set_rest _ _ _)), Ha. }
  pose proof (next_pending_Some _ _ _ Hn) as (Hp & Ha & _). cbn [fst snd].
  assert (build_id_0 (dp_build_id info) ≠ i) as Hne.
  { rewrite Hid. intros <-. apply Hi. unfold pending_ids. rewrite Hp. by left. }
  match goal with |- context [run ?k s'] => assert (spares i k) as Hk end.
  { apply spares_bind; [apply spares_id, eff_pack_for|]. intros [[bytes h]|e].
    - apply spares_bind; [by apply spares_send_and_recover|]. intros []; [|apply spares_id; auto with eff].
      apply spares_bind; [apply spares_id, eff_spawn_ack_timer|]. intros. apply spares_id; auto with eff.
    - apply spares_bind; [by apply spares_cleanup|]. intros. apply spares_id; auto with eff. }
  destruct (Hk s' Hf') as (_ & -> & ->). rewrite Hst, Hq. simpl. rewrite Hab, <- Hid, Ha.
  by rewrite lookup_insert_ne, lookup_alter_ne by done.
Qed.

Lemma spares_idle_one i c w : cand_build_id c ≠ i → spares i (idle_reconcile_one c w).
Proof.
  intros Hc. unfold idle_reconcile_one. apply spares_bind; [apply spares_id; auto with eff|].
  intros [[b|]|e]; [|apply spares_id; auto with eff..].
  case_match; [apply spares_id; auto with eff|].
  case_match; [apply spares_id; auto with eff| |by apply spares_cleanup..].
  apply spares_bind; [by apply spares_rollback|]. intros. apply spares_id; auto with eff.
Qed.

Lemma spares_for_each {A} i (l : list A) (f : A → async unit) :
  (∀ x, x ∈ l → spares i (f x)) → spares i (for_each l f).
Proof.
  intros Hf. induction l as [|x l IH]; simpl; [apply spares_id; auto with eff|].
  apply spares_bind; [apply Hf; by left|]. intros _. apply IH. intros y Hy. apply Hf. by right.
Qed.

(** ** Reconnection *)

(** A new connection of a worker takes over the assignments of the old one.
    With an older connection of the same registered worker, every build of it is
    active on the new connection with the rest of its entry unchanged, other
    assignments stay, the old connection is unknown and the new one registered
    in the given state; nothing is left on the old connection for the
    resolution of dead workers, and the entries taken over are not candidates of
    an idle report on the new connection. *)
Theorem migration_takes_over (q : BuildQueue) w old new ws was_connected
    (Ho : find_old_connection w new q = Some (old, was_connected)) :
  let q' := (migrate_connection w new ws q).2 in
  old ≠ new ∧
  (∀ i, q_active q' !! i = (λ ab, if bool_decide (ab_connection_id ab = old)
                                  then attach_connection new ab else ab) <$> q_active q !! i) ∧
  (∀ cid, get_worker cid q' =
     if bool_decide (cid = new) then Some ws else if bool_decide (cid = old) then None
     else get_worker cid q) ∧
  (∀ p, lane p q' = lane p q) ∧
  active_builds_with_receipt_for_connection old q' = [] ∧
  (∀ i ab c, q_active q !! i = Some ab → ab_connection_id ab = old ∨ ab_connection_id ab = new →
     (∀ j ab', q_active q !! j = Some ab' → ab_build_id ab' = j) →
     c ∈ idle_candidates new q' → cand_build_id c ≠ i).
Proof.
  assert (old ≠ new) as Hne.
  { unfold find_old_connection in Ho. apply find_map_Some in Ho as ([cid st] & _ & Hx).
    case_match eqn:E; [|done]. simplify_eq. apply andb_true_iff in E as [_ E].
    by apply negb_true_iff, bool_decide_eq_false_1 in E. }
  unfold migrate_connection. rewrite Ho. cbv zeta. cbn [snd].
  assert (∀ i ab', ((λ ab, if bool_decide (ab_connection_id ab = old) then attach_connection new ab
     else ab) <$> q_active q) !! i = Some ab' → ab_connection_id ab' ≠ old ∧
     ∃ ab, q_active q !! i = Some ab ∧ ab_build_id ab' = ab_build_id ab ∧
           (ab_connection_id ab = old ∨ ab_connection_id ab = new → ab_connection_id ab' = new)) as Hact.
  { intros i ab'. rewrite lookup_fmap. intros (ab & Hab & ->)%fmap_Some.
    case_bool_decide; simpl; (split; [congruence|]); exists ab; split_and!; try done. naive_solver. }
  split; [done|]. split_and!.
  - intros i. simpl. by rewrite lookup_fmap.
  - intros cid. unfold get_worker. simpl. rewrite lookup_insert, lookup_delete.
    repeat case_decide; repeat case_bool_decide; congruence.
  - by intros [].
  - unfold active_builds_with_receipt_for_connection.
    destruct (filter _ _) as [|ab l] eqn:E; [done|]. exfalso.
    assert (ab ∈ ab :: l) as Hin by left. rewrite <- E in Hin. apply list_elem_of_filter in Hin as [Hc Hin].
    apply elem_of_hash_values in Hin as [i Hi]. by apply (Hact i ab Hi).
  - intros i ab c Hi Hcid Hkeys Hc Heq. unfold idle_candidates in Hc.
    apply list_elem_of_fmap in Hc as (ab' & -> & Hab'). apply list_elem_of_filter in Hab' as [Hn Hab'].
    apply elem_of_hash_values in Hab' as [j Hj]. simpl in Heq. simpl in Hj.
    destruct (Hact j ab' Hj) as (_ & ab0 & H0 & Hid & Hnew).
    rewrite Hid, (Hkeys _ _ H0) in Heq. subst. simplify_eq. naive_solver.
Qed.

(** An idle report says nothing about the builds of the reporting connection
    itself. A build that is active on the connection is left in its state and on
    its worker by the whole handler, although the worker has just said that it is
    building nothing; by the migration this includes every build the worker had
    before it reconnected. *)
Theorem idle_report_keeps_own_builds (s : AppState) cid w reported i ab
    (Hs : Coh s) (Ha : q_active (queue s) !! i = Some ab) (Hc : ab_connection_id ab = cid) :
  let s' := (run (handle_worker_status cid w Idle reported) s).2 in
  q_active (queue s') !! i = Some ab ∧ states s' !! i = states s !! i.
Proof.
  cbv zeta. unfold handle_worker_status, read_queue. rewrite run_bind, run_with_queue. cbn [fst snd].
  replace (upd_queue (queue s) s) with s by by destruct s. rewrite run_bind.
  set (l := idle_candidates cid (queue s)). set (f := λ cand, idle_reconcile_one cand w).
  assert (∀ c, c ∈ l → cand_build_id c ≠ i) as Hl.
  { intros c (ab' & -> & Hab')%list_elem_of_fmap ?. apply list_elem_of_filter in Hab' as [Hn Hab'].
    apply elem_of_hash_values in Hab' as [j Hj]. simplify_eq/=.
    rewrite (coh_keys _ _ _ (proj1 Hs) _ _ Hj) in Ha. congruence. }
  destruct (spares_for_each i l f) with (s := s) as (Hf1 & Ha1 & Hs1);
    [intros c Hin; by apply spares_idle_one, Hl|apply Hs|].
  destruct (refines_for_each l f (λ c, refines_idle_one (λ _, True) c w) s Hs Logic.I) as [[Hc1 _] _].
  set (s1 := (run (for_each l f) s).2) in *. rewrite run_bind, run_ret. cbn [snd].
  destruct (try_dispatch_spares i s1 Hf1) as [-> ->].
  - intros Hp. apply (coh_pending_not_active Hc1) in Hp. by rewrite Ha1, Ha in Hp.
  - by rewrite Ha1, Hs1.
Qed.

(** A worker that reports to be building a build which is queued or already
    terminal is told nothing. The handler changes no state and puts no message on
    any channel: the revoke that it asks for needs an entry of the active map,
    which such a build does not have. *)
Theorem stale_report_not_answered (s : AppState) cid w i st
    (Hs : Coh s) (Hi : states s !! i = Some st) (Hst : st = Queued ∨ terminal st) :
  run (handle_worker_status cid w Building (Some (mkBuildId i))) s = ((), s).
Proof.
  unfold handle_worker_status, handle_status_building. rewrite run_bind, run_read by (done || apply Hs).
  unfold states in Hi. rewrite lookup_fmap in Hi. apply fmap_Some in Hi as (row & Hrow & ->).
  cbn [fst snd build_id_0]. simpl. rewrite Hrow. simpl.
  assert (q_active (queue s) !! i = None) as Ha.
  { apply eq_None_not_Some. intros Ha. apply (coh_active _ _ _ (proj1 Hs)) in Ha as (st & Hst' & Hf).
    unfold states in Hst'. rewrite lookup_fmap, Hrow in Hst'. simplify_eq/=.
    destruct Hst as [Hst|Hst]; [|by eapply terminal_not_in_flight].
    rewrite Hst in Hf. by apply queued_not_in_flight. }
  assert (run (do* send_build_revoke i in Ret ()) s = ((), s)) as Hrev.
  { unfold send_build_revoke, read_queue. rewrite !run_bind, run_with_queue. cbn [fst snd]. rewrite Ha.
    by destruct s. }
  unfold terminal in Hst. destruct (br_state row); simpl; first [exact Hrev | naive_solver].
Qed.

(** ** Handshake *)

(** The greeting of a worker that the server accepts. *)
Definition good_hello (row : WorkerRow) (m : WorkerMessage) : Prop :=
  match m with
  | Hello version arch _ _ _ => version = 2%Z ∧ arch_of_string (wr_arch row) = Some arch
  | _ => False
  end.

Lemma check_hello_ok row m r : check_hello row m = Ok r → good_hello row m.
Proof.
  destruct m as [v a c r0 ver| | | | | | | |]; try done. simpl.
  destruct (Z.eqb_spec v 2) as [->|]; [|done]. simpl.
  destruct (arch_of_string (wr_arch row)) as [a'|]; [|done].
  case_bool_decide; [|done]. simpl. by subst.
Qed.

Lemma run_send_json m (s : AppState) : ∃ f, (run (send_json m) s).2 = upd_faults f s.
Proof.
  unfold send_json. rewrite run_atomic. unfold next_fault.
  destruct (faults s) as [|b f] eqn:E; [exists []|by exists f]. destruct s. simpl in *. by subst.
Qed.

(** Nobody gets past the handshake without a proper greeting. Unless the
    first message is a hello with protocol version 2 and the architecture the
    worker was registered with, the connection leaves no trace in the server: no
    statement runs, no worker is registered or superseded, no task is spawned. *)
Theorem handshake_gate cid row n frames (s : AppState)
    (Hbad : ∀ m rest, wait_for_hello n frames = (Ok m, rest) → ¬ good_hello row m) :
  ∃ f, (run (handle_connection cid row n frames) s).2 = upd_faults f s.
Proof.
  unfold handle_connection. destruct (wait_for_hello n frames) as [[m|e] rest] eqn:E.
  - destruct (check_hello row m) as [r|e] eqn:Ec.
    + by apply check_hello_ok, (Hbad m rest) in Ec.
    + rewrite run_bind, run_ret. apply run_send_json.
  - rewrite run_bind, run_ret. apply run_send_json.
Qed.

End HandlerSpec.
