(* ===== verification/RoutesSpec.v ===== *)
(** * What the build endpoints guarantee

    What an accepted submission implies, that a rejected one changes nothing,
    who sees and revokes which builds, and what the revocation of a queued build
    does and leaves undone. *)

From stdpp Require Import prelude gmap strings list sorting relations pretty.
From S2P Require Import Prelude Async Proto Queue Db App Auth DbRoles DbChannels.
From S2P Require Import Channels Components Logs Dispatch Handler Lifecycle Coherence.
From S2P Require Import Refinement Routes Submission Recovery.

Section RoutesSpec.
Context `{HEnv : Env} `{HHash : HashIter} `{HSerde : Serde} (components : list ComponentInfo).

(** ** Submission *)

(** The repository checks: a single role grants them all, when there are any. *)
Definition repositories_granted (d : Db) (email : string) (descr : BuildDescriptor) : Prop :=
  repository_checks descr ≠ [] →
  ∃ role, (email, role) ∈ t_user_roles d ∧ Forall (role_grants d role) (repository_checks descr).

Lemma run_check_repository_scopes u descr s :
  faults s = [] →
  ∃ r, run (check_repository_scopes u descr) s = (r, s) ∧
    (r = Ok () → repositories_granted (pool s) (au_email u) descr).
Proof.
  intros Hf. unfold check_repository_scopes, repositories_granted.
  destruct (repository_checks descr) as [|c cs] eqn:E; [by exists (Ok ())|].
  unfold require_scopes_all. rewrite run_bind.
  destruct (assignments_spec (au_email u) s Hf) as (l & -> & Hsound & _). cbn [fst snd].
  destruct (existsb _ l) eqn:Ex; rewrite run_ret; eexists; (split; [done|]); [intros _ _|done].
  apply existsb_spec in Ex as (a & Ha & Hg). specialize (Hsound a Ha).
  exists (as_role_name a). split; [apply Hsound|]. rewrite forallb_spec in Hg.
  apply Forall_forall. intros x Hx. by eapply assignment_grants_spec, Hg.
Qed.

(** A robot may not submit to a channel whose images carry a user's name. *)
Definition robot_rule (row : UserRecord) (rc : ResolvedChannel) : Prop :=
  ur_is_robot row = true → prefix_template_contains_username (rc_prefix_template rc) = false.

(** The accepted submissions, and what they leave in the state. *)
Definition accepted (u : AuthUser) (body : SubmitBuildBody) (s s' : AppState)
    (resp : StatusCode * SubmitBuildResponse) : Prop :=
  ∃ row rc descr,
    has_cap u "builds:create" = true ∧
    validate_descriptor (sb_descriptor body) components = Ok () ∧
    repositories_granted (pool s) (au_email u) (sb_descriptor body) ∧
    user_record (au_email u) (pool s) = Some row ∧
    resolution_ok s (sign_off u (sb_descriptor body)) row rc descr ∧
    robot_rule row rc ∧
    bd_signed_off_by descr = mkSignedOffBy (au_name u) (au_email u) ∧
    resp.1 = ACCEPTED ∧ sr_id resp.2 = t_next_build_id (pool s) ∧
    inserted s descr (au_email u) (sb_priority body) None (Some (rc_channel_id rc))
      (Some (rc_channel_type_id rc)) s'.


(** C28: the two outcomes of a submission. An accepted one was allowed, and is
    recorded as what was allowed: the user holds the capability, the components
    exist, one role grants every repository of the descriptor, and one grants the
    channel and type; a robot does not get a name into an image. The new build is
    queued once, in the database and in its lane, under a fresh id, with the
    descriptor signed off by the authenticated user and not by whom the client
    named, and a dispatch is due. A rejected one leaves the state as it was. *)
Theorem submission_outcome (s : AppState) u body (Hs : Coh s) (Hwf : channels_wf (pool s)) :
  match run (submit_build components u body) s with
  | (Ok resp, s') => accepted u body s s' resp
  | (Err _, s') => s' = s
  end.
Proof.
  pose proof (proj2 Hs) as Hf. unfold submit_build.
  destruct (has_cap u "builds:create") eqn:Hcap; simpl; [|done].
  destruct (validate_descriptor (sb_descriptor body) components) as [[]|e] eqn:Hv; [|done].
  rewrite run_bind. destruct (run_check_repository_scopes u (sb_descriptor body) s Hf) as (r & -> & Hr).
  cbn [fst snd]. destruct r as [[]|e]; [|done]. specialize (Hr eq_refl).
  rewrite run_bind, run_read by done. cbn [fst snd]. unfold get_user. cbn [fst].
  destruct (user_record (au_email u) (pool s)) as [row|] eqn:Hrow; [|done].
  rewrite run_bind, resolve_and_rewrite_state by done.
  destruct (run (resolve_and_rewrite (sign_off u (sb_descriptor body)) row) s).1 as [[rc descr]|e] eqn:Hres;
    [|done]. apply resolve_and_rewrite_ok in Hres; [|done..].
  destruct (ur_is_robot row && prefix_template_contains_username (rc_prefix_template rc)) eqn:Hrob; [done|].
  rewrite run_bind.
  destruct (build_references_exist (au_email u) None (Some (rc_channel_id rc))
              (Some (rc_channel_type_id rc)) (pool s)) eqn:Href.
  2: { destruct (insert_build_internal_err s descr (au_email u) (sb_priority body) None _ _ Hf Href)
         as (e & ->). done. }
  destruct (insert_build_internal_ok s descr (au_email u) (sb_priority body) None _ _ Hs Href)
    as (s' & -> & Hi). cbn [fst snd]. rewrite run_ret.
  exists row, rc, descr. split_and!; try done.
  - intros Hrb. by rewrite Hrb in Hrob.
  - by destruct Hres as (? & ? & ? & _ & _ & _ & _ & _ & _ & _ & _ & _ & _ & _ & _ & _ & _ & _ & -> & _).
Qed.

(** ** Who sees and revokes which builds *)

Definition may_list (u : AuthUser) : Prop :=
  has_cap u "builds:list:any" = true ∨ has_cap u "builds:list:own" = true.

(** The rows that a listing shows. *)
Definition listed (u : AuthUser) (params : ListBuildsQuery) (r : BuildRow) : Prop :=
  (if has_cap u "builds:list:any" then ∀ v, lq_user params = Some v → br_user_email r = v
   else br_user_email r = au_email u) ∧
  (∀ v, lq_state params = Some v → build_state_to_string (br_state r) = v).

Lemma matches_filter_spec f c : matches_filter f c = true ↔ ∀ v, f = Some v → c = v.
Proof.
  destruct f as [v|]; simpl; [rewrite bool_decide_eq_true; naive_solver|]. by split.
Qed.

#[local] Instance id_desc_trans : Transitive id_desc.
Proof. unfold id_desc. intros ???. lia. Qed.
#[local] Instance id_desc_total : Total id_desc.
Proof. unfold id_desc. intros ??. lia. Qed.

Lemma elem_of_table_rows (key : BuildRow → BuildRow → Prop) `{∀ x y, Decision (key x y)} d r :
  r ∈ rows_by key d ↔ ∃ i, t_builds d !! i = Some r.
Proof. unfold rows_by. by rewrite elem_of_merge_sort, elem_of_table. Qed.

(** The listing is exact. A user with the capability for any build gets the
    builds that match the filters, a user with the one for its own builds gets
    its own, whatever user it asks for, newest first; without either the answer
    is 403. *)
Theorem listing_exact (s : AppState) u params (Hf : faults s = []) :
  match run (list_builds_route u params) s with
  | (Ok l, s') => s' = s ∧ may_list u ∧
      (∀ rec, rec ∈ l ↔ ∃ i row, t_builds (pool s) !! i = Some row ∧ listed u params row ∧
                                 rec = row_to_build_list_record (pool s) row) ∧
      StronglySorted (λ a b, lrec_id b ≤ lrec_id a)%Z l
  | (Err e, s') => s' = s ∧ ¬ may_list u ∧ e.1 = FORBIDDEN
  end.
Proof.
  unfold list_builds_route, may_list, listed.
  destruct (has_cap u "builds:list:any") eqn:Ha, (has_cap u "builds:list:own") eqn:Ho; cbn [negb andb];
    try (split_and!; [done|naive_solver|done]).
  all: rewrite run_bind, run_read by done; cbn [fst snd]; unfold list_builds; cbn [fst]; rewrite run_ret;
    (split_and!; [done|naive_solver| |]).
  1, 3, 5: intros rec; rewrite list_elem_of_fmap; setoid_rewrite list_elem_of_filter;
    setoid_rewrite elem_of_table_rows; setoid_rewrite matches_filter_spec; naive_solver.
  all: eapply StronglySorted_fmap with (R1 := id_desc); [done|];
    apply StronglySorted_filter, StronglySorted_merge_sort; apply _.
Qed.

(** The answer for a build that does not exist. *)
Definition no_such_build : AuthError := auth_error NOT_FOUND "build not found".

(** The answers to a user without the capability. *)
Definition list_forbidden : AuthError :=
  auth_error FORBIDDEN "missing required capability: builds:list:own or builds:list:any".
Definition revoke_forbidden : AuthError :=
  auth_error FORBIDDEN "missing required capability: builds:revoke:own or builds:revoke:any".

(** C36: How far the builds of other users are hidden. A user who may view its own
    builds only is told the same, that there is none, of a build of somebody else
    and of an id that does not exist. A user who may view none can tell them apart:
    the build is looked up before the capability, so a build that exists is
    answered with 403, and one that does not with 404. Revocation checks the
    capability first: a user who may revoke its own builds only, or none, gets the
    same answer for both, 404 or 403. None of this changes anything. *)
Theorem foreign_builds_hidden (s : AppState) u i j row (Hf : faults s = [])
    (Hrow : t_builds (pool s) !! i = Some row) (Howner : br_user_email row ≠ au_email u)
    (Hmissing : t_builds (pool s) !! j = None) :
  (has_cap u "builds:list:any" = false →
     run (get_build_route u j) s = (Err no_such_build, s) ∧
     run (get_build_route u i) s =
       (Err (if has_cap u "builds:list:own" then no_such_build else list_forbidden), s)) ∧
  (has_cap u "builds:revoke:any" = false →
     let answer := if has_cap u "builds:revoke:own" then no_such_build else revoke_forbidden in
     run (revoke_build u j) s = (Err answer, s) ∧ run (revoke_build u i) s = (Err answer, s)).
Proof.
  split; intros Hany.
  - unfold get_build_route. rewrite !run_bind, !run_read by done. cbn [fst snd]. unfold get_build. cbn [fst].
    rewrite Hrow, Hmissing, Hany. simpl. destruct (has_cap u "builds:list:own"); [|done].
    by rewrite bool_decide_eq_false_2.
  - unfold revoke_build. rewrite Hany. destruct (has_cap u "builds:revoke:own"); [|done].
    cbn [negb andb]. rewrite !run_bind, !run_read by done. cbn [fst snd]. unfold get_build. cbn [fst].
    rewrite Hrow, Hmissing. simpl. by rewrite bool_decide_eq_false_2.
Qed.

(** ** The revocation of a queued build *)

(** The user may revoke the build. *)
Definition may_revoke (u : AuthUser) (row : BuildRow) : Prop :=
  has_cap u "builds:revoke:any" = true ∨
  has_cap u "builds:revoke:own" = true ∧ br_user_email row = au_email u.

(** The run of a permitted revocation of a queued build. *)
Lemma run_revoke_queued u i row s :
  faults s = [] → t_builds (pool s) !! i = Some row → br_state row = Queued → may_revoke u row →
  ∃ m, run (revoke_build u i) s =
    (Ok m, upd_pool (set_builds (<[i := update_row row Revoked (br_worker_id row) (br_trace_id row)
        (br_error row) (br_started_at row) (br_finished_at row) (br_build_report row)]>
        (t_builds (pool s))) (pool s))
      (upd_queue (remove_by_id (mkBuildId i) (queue s)).2 s)).
Proof.
  intros Hf Hrow Hq Hmay. unfold revoke_build.
  assert (negb (has_cap u "builds:revoke:any") && negb (has_cap u "builds:revoke:own") = false) as ->
    by (destruct Hmay as [-> | [-> _]]; [done|apply andb_false_r]).
  rewrite run_bind, run_read by done. cbn [fst snd]. unfold get_build. cbn [fst].
  rewrite Hrow. cbn [fmap option_fmap option_map row_to_record rec_user_email rec_state].
  assert (negb (has_cap u "builds:revoke:any") && negb (bool_decide (br_user_email row = au_email u)) = false)
    as -> by (destruct Hmay as [-> | [_ ?]]; [done|]; by rewrite bool_decide_eq_true_2, andb_false_r).
  rewrite Hq, run_bind. unfold modify_queue. rewrite run_with_queue. cbn [fst snd].
  rewrite run_bind, run_query, exec_stmt_no_fault by done. cbn [fst snd].
  unfold update_build_state, update_build. simpl. rewrite Hrow. by eexists.
Qed.

(** Revoking a queued build takes it out of its lane and makes it [revoked]
    at once; it is not terminal in the other respects: the finish time stays
    unset and its log stays unfinished, which no later handler repairs. *)
Theorem queued_build_revoked (s : AppState) u i row (Hs : Coh s)
    (Hrow : t_builds (pool s) !! i = Some row) (Hq : br_state row = Queued)
    (Hmay : may_revoke u row) :
  let s' := (run (revoke_build u i) s).2 in
  is_ok (run (revoke_build u i) s).1 = true ∧ (i ∉ pending_ids (queue s')) ∧
  (∃ row', t_builds (pool s') !! i = Some row' ∧ br_state row' = Revoked ∧
           br_finished_at row' = br_finished_at row) ∧
  t_build_logs (pool s') = t_build_logs (pool s) ∧ seq_indices s' = seq_indices s.
Proof.
  cbv zeta.
  assert (Coh (run (revoke_build u i) s).2) as [Hc' _] by by apply (refines_revoke (λ _, True)).
  destruct (run_revoke_queued u i row s (proj2 Hs) Hrow Hq Hmay) as (m & Hr). rewrite Hr in *.
  simpl in *. split_and!; try done.
  - rewrite (coh_pending _ _ _ Hc'). unfold states. simpl. by rewrite fmap_insert, lookup_insert_eq.
  - eexists. rewrite lookup_insert_eq. split; [done|]. done.
Qed.

End RoutesSpec.
