(* ===== verification/PeriodicRoutesSpec.v ===== *)
(** * What the endpoints of the periodic tasks promise

    Every stored task passes the checks of its creation, whatever requests and
    scheduler passes run; a manual trigger submits exactly what the stored task and the requester
    allow, in the requester's name. *)

From stdpp Require Import prelude gmap strings list relations pretty.
From S2P Require Import Prelude Async Proto Common Queue Db App Auth DbRoles DbChannels.
From S2P Require Import Channels Components Logs Dispatch Handler Lifecycle Coherence.
From S2P Require Import Refinement Routes RoutesSpec Submission TagFormat Recovery Scheduler Periodic.
From S2P Require Import AuthRoutes Admin PeriodicRoutes.

(** ** The stored tasks *)

Section StoredTasks.
Context `{HEnv : Env} `{HHash : HashIter} `{HSerde : Serde} `{HChrono : Chrono} `{HJson : JsonValue}
  (components : list ComponentInfo).

(** The checks of the endpoint that creates tasks: the cron expression parses, the
    tag format names no unknown placeholder, and the descriptor is the text of a
    JSON value that is a valid descriptor. A pass of the scheduler checks more: that
    the stored text is read back as a descriptor, which is serde's part, and that
    the tag it makes is an OCI tag ([empty_braces_never_a_tag]). *)
Record task_valid (t : PeriodicTaskRow) : Prop := mkTaskValid {
  tv_cron : validate_cron (pt_cron_expr t) = Ok ();
  tv_tag : check_tag_format (pt_tag_format t) = Ok ();
  tv_descriptor : ∃ v, pt_descriptor t = value_to_string v ∧ validate_typed components v = Ok ()
}.

Definition tasks_valid (s : AppState) : Prop :=
  ∀ id t, t_periodic_tasks (pool s) !! id = Some t → task_valid t.

(** Statements that leave the tasks alone, or change rows to valid ones. *)
Definition keeps_valid {A} (st : stmt A) : Prop :=
  ∀ now d, (∀ id t, t_periodic_tasks d !! id = Some t → task_valid t) →
           ∀ id t, t_periodic_tasks (st now d).2 !! id = Some t → task_valid t.

Lemma preserves_query {A} (st : stmt A) : keeps_valid st → preserves tasks_valid (query st).
Proof.
  intros Hst. apply preserves_atomic. intros s Hs. unfold exec_stmt, next_fault.
  destruct (faults s) as [|[] fs]; [|done|].
  - pose proof (Hst (clock s) (pool s) Hs). by destruct (st (clock s) (pool s)).
  - pose proof (Hst (clock s) (pool s) Hs). simpl. by destruct (st (clock s) (pool s)).
Qed.

Lemma reads_keeps_valid {A} (st : stmt A) : reads st → keeps_valid st.
Proof. intros Hr now d Hd. by rewrite Hr. Qed.

Lemma preserves_read {A} (st : stmt A) : reads st → preserves tasks_valid (query st).
Proof. intros Hr. by apply preserves_query, reads_keeps_valid. Qed.

(** A step that does not touch the database. *)
Lemma preserves_frame {A} (act : AppState → A * AppState) :
  (∀ s, pool (act s).2 = pool s) → preserves tasks_valid (atomic act).
Proof. intros Ha. apply preserves_atomic. intros s Hs. unfold tasks_valid. by rewrite Ha. Qed.

Lemma safe_or_fail {A B E E'} (m : async (result A E)) (f : E → E') (k : A → async (result B E'))
    (Q : A → Prop) :
  safe tasks_valid m (λ r, ∀ a, r = Ok a → Q a) → (∀ a, Q a → preserves tasks_valid (k a)) →
  preserves tasks_valid (or_fail m f k).
Proof.
  intros Hm Hk. unfold or_fail. eapply safe_bind; [exact Hm|]. intros [a|e] Ha; [by apply Hk, Ha|].
  apply preserves_ret.
Qed.

Lemma preserves_or_fail {A B E E'} (m : async (result A E)) (f : E → E') (k : A → async (result B E')) :
  preserves tasks_valid m → (∀ a, preserves tasks_valid (k a)) → preserves tasks_valid (or_fail m f k).
Proof. intros Hm Hk. apply (safe_or_fail _ _ _ (λ _, True)); [|auto]. by eapply safe_mono. Qed.

Lemma set_task_valid id f d :
  (∀ t, t_periodic_tasks d !! id = Some t → task_valid t → task_valid (f t)) →
  (∀ i t, t_periodic_tasks d !! i = Some t → task_valid t) →
  ∀ i t, t_periodic_tasks (set_task id f d).2 !! i = Some t → task_valid t.
Proof.
  intros Hf Hd i t. unfold set_task. destruct (t_periodic_tasks d !! id) as [t0|] eqn:E; simpl; [|apply Hd].
  intros [[<- <-]|[_ Hi]]%lookup_insert_Some; [|by eapply Hd]. by eapply Hf, Hd.
Qed.

(** The bookkeeping of the scheduler keeps what validity is about. *)
Lemma task_row_valid t e u rc ra le tr b : task_valid t → task_valid (task_row t e u rc ra le tr b).
Proof. by intros []. Qed.

Ltac bookkeeping :=
  intros ? ? ? ? ?; unfold enable_task, disable_task, disable_with_error, update_trigger_success,
    update_retry, record_manual_trigger;
  match goal with |- context [set_task ?id ?f ?d] =>
    let H := fresh in
    pose proof (set_task_valid id f d) as H; destruct (set_task id f d); apply H; [|assumption] end;
  intros ? _; apply task_row_valid.

Lemma enable_task_valid id : keeps_valid (enable_task id).
Proof. bookkeeping. Qed.
Lemma disable_task_valid id : keeps_valid (disable_task id).
Proof. bookkeeping. Qed.
Lemma disable_with_error_valid id e : keeps_valid (disable_with_error id e).
Proof. bookkeeping. Qed.
Lemma update_trigger_success_valid id b : keeps_valid (update_trigger_success id b).
Proof. bookkeeping. Qed.
Lemma update_retry_valid id n t e : keeps_valid (update_retry id n t e).
Proof. bookkeeping. Qed.
Lemma record_manual_trigger_valid id b : keeps_valid (record_manual_trigger id b).
Proof. bookkeeping. Qed.

Lemma delete_task_valid id : keeps_valid (delete_task id).
Proof.
  intros now d Hd i t. unfold delete_task. destruct (t_periodic_tasks d !! id); [|apply Hd].
  simpl. intros [_ Hi]%lookup_delete_Some. by eapply Hd.
Qed.

Lemma insert_task_valid id cron tag v priority summary email :
  validate_cron cron = Ok () → check_tag_format tag = Ok () → validate_typed components v = Ok () →
  keeps_valid (insert_task id cron tag (value_to_string v) priority summary email).
Proof.
  intros Hc Ht Hv now d Hd i t. unfold insert_task. case_match; [apply Hd|]. simpl.
  intros [[<- <-]|[_ Hi]]%lookup_insert_Some; [|by eapply Hd]. split; simpl; eauto.
Qed.

(** What an update writes, from a row that was valid when it was read. *)
Lemma update_task_row_valid id cron tag descr priority summary :
  validate_cron cron = Ok () → check_tag_format tag = Ok () →
  (∃ v, descr = value_to_string v ∧ validate_typed components v = Ok ()) →
  keeps_valid (update_task_row id cron tag descr priority summary).
Proof.
  intros Hc Ht Hv now d Hd i t. unfold update_task_row. case_match; [apply Hd|]. simpl.
  match goal with |- context [set_task id ?f d] => apply (set_task_valid id f d) end; [|done].
  intros t0 _ _. by split.
Qed.

Lemma insert_build_valid a b c e f g : keeps_valid (insert_build a b c e f g).
Proof. intros now d Hd i t. unfold insert_build. case_match; apply Hd. Qed.
Lemma insert_build_log_row_valid a b : keeps_valid (insert_build_log_row a b).
Proof. intros now d Hd i t. unfold insert_build_log_row. by repeat case_match; apply Hd. Qed.

Lemma get_task_safe id :
  safe tasks_valid (query (get_task id)) (λ r, ∀ t, r = Ok (Some t) → task_valid t).
Proof.
  intros s Hs. unfold exec_stmt, next_fault, get_task.
  destruct (faults s) as [|[] fs]; simpl; (split; [done|]); intros t [= Ht]; by eapply Hs.
Qed.

Lemma found_task_safe id : safe tasks_valid (found task_not_found (get_task id)) (λ r, ∀ t, r = Ok t → task_valid t).
Proof.
  unfold found, or_fail. eapply safe_bind; [apply get_task_safe|].
  intros [[t|]|e] Ht; simpl; intros t' [=]; subst. by apply Ht.
Qed.

Lemma preserves_managed {A} user id (k : PeriodicTaskRow → async (result A AuthError)) :
  (∀ t, task_valid t → preserves tasks_valid (k t)) → preserves tasks_valid (managed_task user id k).
Proof.
  intros Hk. unfold managed_task. apply (safe_or_fail _ _ _ task_valid); [apply found_task_safe|].
  intros t Ht. case_match; [by apply Hk|apply preserves_ret].
Qed.

Create HintDb tasks.
#[local] Hint Resolve enable_task_valid disable_task_valid disable_with_error_valid update_trigger_success_valid
  update_retry_valid record_manual_trigger_valid delete_task_valid insert_build_valid
  insert_build_log_row_valid preserves_query : tasks.

Ltac tasks :=
  repeat (intros; first
    [ apply preserves_ret
    | solve [eauto 2 with tasks]
    | solve [apply preserves_read; intros ? ?; repeat case_match; reflexivity]
    | solve [apply preserves_frame; intros ?; repeat case_match; reflexivity]
    | apply preserves_bind
    | apply preserves_or_fail
    | case_match ]).

Lemma preserves_scopes user checks : preserves tasks_valid (require_scopes_all user checks).
Proof. unfold require_scopes_all, get_user_assignments_with_scopes. tasks. Qed.

Lemma preserves_resolve descr user : preserves tasks_valid (resolve_and_rewrite descr user).
Proof.
  unfold resolve_and_rewrite, resolve_channel, resolve_type_name, check_channel_scope, lookup_or. tasks.
Qed.

Lemma preserves_insert_build d email p task cid tid :
  preserves tasks_valid (insert_build_internal d email p task cid tid).
Proof. unfold insert_build_internal. tasks. Qed.

Lemma preserves_now : preserves tasks_valid now.
Proof. by apply (preserves_frame (λ s, (clock s, s))). Qed.

Lemma preserves_notify : preserves tasks_valid notify_scheduler.
Proof. unfold notify_scheduler. by apply preserves_frame. Qed.

Lemma preserves_respond row : preserves tasks_valid (respond row).
Proof. unfold respond. apply preserves_bind; [apply preserves_now|intros; apply preserves_ret]. Qed.

Lemma preserves_found {A} missing (st : stmt (option A)) :
  reads st → preserves tasks_valid (found missing st).
Proof. intros Hr. unfold found. apply preserves_or_fail; [by apply preserves_read|tasks]. Qed.

Lemma preserves_trigger task : preserves tasks_valid (trigger_periodic_build components task).
Proof.
  pose proof preserves_resolve. pose proof preserves_insert_build. pose proof preserves_now.
  unfold trigger_periodic_build, check_owner. tasks.
Qed.

Lemma preserves_scheduler_pass t fired : preserves tasks_valid (scheduler_pass components t fired).
Proof.
  pose proof preserves_trigger. pose proof preserves_now. unfold scheduler_pass, fire_task, record_outcome. tasks.
Qed.

(** ** The requests *)

Inductive TaskRequest :=
| CreateTask (body : CreateTaskBody)
| GetTask (id : string)
| UpdateTask (id : string) (body : UpdateTaskBody)
| DeleteTask (id : string)
| EnableTask (id : string)
| DisableTask (id : string)
| TriggerTask (id : string) (body : option (option string)).

(** The failure a request is answered with, if any. *)
Definition failure {A} (m : async (result A AuthError)) : async (option AuthError) :=
  let* r := m in Ret (match r with Ok _ => None | Err e => Some e end).

Definition handle_task_request (user : AuthUser) (r : TaskRequest) : async (option AuthError) :=
  match r with
  | CreateTask body => failure (create_task components user body)
  | GetTask id => failure (get_task_route user id)
  | UpdateTask id body => failure (update_task components user id body)
  | DeleteTask id => failure (delete_task_route user id)
  | EnableTask id => failure (enable_task_route user id)
  | DisableTask id => failure (disable_task_route user id)
  | TriggerTask id body => failure (trigger_task components user id body)
  end.

Lemma preserves_require_cap {A} user cap (k : async (result A AuthError)) :
  preserves tasks_valid k → preserves tasks_valid (require_cap user cap k).
Proof. intros Hk. unfold require_cap. by case_match. Qed.

Lemma preserves_scope_check user v : preserves tasks_valid (validate_descriptor_scopes user v).
Proof. unfold validate_descriptor_scopes. case_match; [apply preserves_ret|apply preserves_scopes]. Qed.

Lemma preserves_create user body : preserves tasks_valid (create_task components user body).
Proof.
  unfold create_task. do 2 apply preserves_require_cap.
  destruct (validate_cron (cb_cron_expr body)) as [[]|] eqn:Hc; [|apply preserves_ret].
  destruct (check_tag_format (cb_tag_format body)) as [[]|] eqn:Ht; [|apply preserves_ret].
  destruct (validate_typed components (cb_descriptor body)) as [[]|] eqn:Hv; [|apply preserves_ret].
  pose proof preserves_respond. pose proof preserves_scope_check.
  do 3 (apply preserves_or_fail; [apply preserves_ret|intros _]).
  apply preserves_or_fail; [done|intros _]. apply preserves_bind; [by apply preserves_frame|intros n].
  apply preserves_or_fail; [by apply preserves_query, insert_task_valid|intros _].
  apply preserves_bind; [apply preserves_notify|intros _].
  apply preserves_or_fail; [by apply preserves_found|]. tasks.
Qed.

Lemma if_given_default {A} (check : A → result unit AuthError) x y :
  if_given check x = Ok () → check y = Ok () → check (default y x) = Ok ().
Proof. by destruct x. Qed.

Lemma preserves_update user id body : preserves tasks_valid (update_task components user id body).
Proof.
  pose proof preserves_scope_check. pose proof preserves_respond.
  unfold update_task. apply preserves_managed. intros t [Vc Vt Vd].
  case_match; [apply preserves_ret|]. apply preserves_or_fail; [|intros _].
  { case_match; [by apply preserves_require_cap|apply preserves_ret]. }
  destruct (if_given validate_cron _) as [[]|] eqn:Hc; [|apply preserves_ret].
  destruct (if_given check_tag_format _) as [[]|] eqn:Ht; [|apply preserves_ret].
  destruct (if_given (validate_typed components) _) as [[]|] eqn:Hv; [|apply preserves_ret].
  do 3 (apply preserves_or_fail; [apply preserves_ret|intros _]).
  apply preserves_or_fail; [|intros _].
  - apply preserves_query, update_task_row_valid; [by apply if_given_default..|].
    destruct (up_descriptor body) as [v|]; [by exists v|done].
  - apply preserves_bind; [apply preserves_notify|intros _].
    apply preserves_or_fail; [by apply preserves_found|]. tasks.
Qed.

Lemma preserves_change user id st verb :
  (∀ i, keeps_valid (st i)) → preserves tasks_valid (change_task user id st verb).
Proof.
  intros Hst. unfold change_task. apply preserves_managed. intros t _.
  apply preserves_or_fail; [by apply preserves_query|intros b]. case_match; [apply preserves_ret|].
  apply preserves_bind; [apply preserves_notify|intros _; apply preserves_ret].
Qed.

Lemma preserves_trigger_task user id body : preserves tasks_valid (trigger_task components user id body).
Proof.
  pose proof preserves_now. pose proof preserves_scopes. pose proof preserves_resolve.
  pose proof preserves_insert_build.
  unfold trigger_task. apply preserves_managed. intros t _. apply preserves_require_cap.
  apply preserves_or_fail; [apply preserves_ret|intros prio]. case_match; [|apply preserves_ret].
  apply preserves_or_fail; [apply preserves_ret|intros _].
  apply preserves_or_fail; [unfold check_repository_scopes; by case_match; [apply preserves_ret|]|intros _].
  apply preserves_bind; [done|intros]. apply preserves_or_fail; [apply preserves_ret|intros _].
  apply preserves_or_fail; [by apply preserves_found|intros row].
  apply preserves_or_fail; [done|intros [rc d]]. case_match; [apply preserves_ret|].
  apply preserves_or_fail; [done|intros [i n]].
  apply preserves_bind; [apply preserves_query, record_manual_trigger_valid|intros; apply preserves_ret].
Qed.

Lemma preserves_task_request user r : preserves tasks_valid (handle_task_request user r).
Proof.
  destruct r; (apply preserves_bind; [|intros; apply preserves_ret]).
  - apply preserves_create.
  - unfold get_task_route. apply preserves_require_cap, preserves_or_fail; [by apply preserves_found|].
    pose proof preserves_respond. tasks.
  - apply preserves_update.
  - apply preserves_change, delete_task_valid.
  - apply preserves_change, enable_task_valid.
  - apply preserves_change, disable_task_valid.
  - apply preserves_trigger_task.
Qed.

(** The tasks of the pool: requests of users, and passes of the scheduler. *)
Inductive task_job : async unit → Prop :=
| job_request user r : task_job (do* handle_task_request user r in Ret ())
| job_pass t fired : task_job (scheduler_pass components t fired).

(** C17: Every stored task passes the checks of its creation. In every interleaving
    of requests that create, change, enable, disable, delete and trigger periodic
    tasks with passes of the scheduler, and whatever statements fail, each stored
    task has a cron expression that parses, a tag format without an unknown
    placeholder and the text of a value that was validated as a descriptor, even
    when the row an update read has been changed by another request before the
    update writes. *)
Theorem stored_tasks_stay_valid (s s' : AppState) (jobs jobs' : list (async unit))
    (Hs : tasks_valid s) (Hjobs : Forall task_job jobs) (Hsteps : rtc pool_step (s, jobs) (s', jobs')) :
  tasks_valid s'.
Proof.
  refine (proj1 (pool_steps_preserve tasks_valid _ _ Hsteps Hs _)). simpl.
  eapply Forall_impl; [exact Hjobs|]. intros m []; [|apply preserves_scheduler_pass].
  apply preserves_bind; [apply preserves_task_request|intros; apply preserves_ret].
Qed.

End StoredTasks.

(** ** The manual trigger *)

Section ManualTrigger.
Context `{HEnv : Env} `{HHash : HashIter} `{HSerde : Serde} `{HChrono : Chrono} `{HJson : JsonValue}
  (components : list ComponentInfo).

(** The accepted triggers, and what they leave in the state: a build in the name
    of the requester, and its mark on the task. *)
Definition triggered (user : AuthUser) (id : string) (override : option string) (s s' : AppState)
    (resp : StatusCode * TriggerTaskResponse) : Prop :=
  ∃ task d0 row rc descr priority s1,
    t_periodic_tasks (pool s) !! id = Some task ∧ can_manage_task user task = true ∧
    has_cap user "builds:create" = true ∧
    parse_override override = Ok priority ∧
    descriptor_of_json (pt_descriptor task) = Some d0 ∧
    validate_descriptor d0 components = Ok () ∧
    repositories_granted (pool s) (au_email user) d0 ∧
    validate_oci_tag (tt_tag resp.2) = Ok () ∧
    tt_tag resp.2 = interpolate_tag (pt_tag_format task) (sign_off user d0) (civil (clock s)) ∧
    user_record (au_email user) (pool s) = Some row ∧
    resolution_ok s (set_tag (tt_tag resp.2) (sign_off user d0)) row rc descr ∧
    robot_rule row rc ∧
    bd_signed_off_by descr = mkSignedOffBy (au_name user) (au_email user) ∧
    resp.1 = ACCEPTED ∧ tt_build_id resp.2 = t_next_build_id (pool s) ∧
    inserted s descr (au_email user) (default (parse_priority (pt_priority task)) priority) (Some (pt_id task))
      (Some (rc_channel_id rc)) (Some (rc_channel_type_id rc)) s1 ∧
    s' = upd_pool (record_manual_trigger (pt_id task) (tt_build_id resp.2) (clock s1) (pool s1)).2 s1.

Lemma run_found_ok {A} missing (st : stmt (option A)) s :
  reads st → faults s = [] →
  (∃ a, (st (clock s) (pool s)).1 = Ok (Some a) ∧ run (found missing st) s = (Ok a, s)) ∨
  (∃ e, run (found missing st) s = (Err e, s)).
Proof.
  intros Hr Hf. unfold found. rewrite run_or_fail, run_read by done. cbn [fst snd].
  destruct (st (clock s) (pool s)).1 as [[a|]|e]; eauto.
Qed.

(** The two outcomes of a manual trigger. An accepted one was allowed: the
    requester manages the task and may create builds, the stored descriptor is
    valid for the components, and one role of the requester, not of the owner,
    grants its repositories and its channel. The build is queued once, signed off
    by and attributed to the requester, with the interpolated tag and the stored
    or overridden priority, and the task only gets the mark of the trigger, also
    when it is disabled. A rejected one leaves the state as it was. *)
Theorem manual_trigger_outcome (s : AppState) (user : AuthUser) (id : string)
    (body : option (option string)) (Hs : Coh s) (Hwf : channels_wf (pool s)) :
  match run (trigger_task components user id body) s with
  | (Ok resp, s') => triggered user id (mjoin body) s s' resp
  | (Err _, s') => s' = s
  end.
Proof.
  pose proof (proj2 Hs) as Hf. unfold trigger_task, managed_task. rewrite run_or_fail.
  destruct (run_found_ok task_not_found (get_task id) s ltac:(done) Hf) as [(task & Ht & ->)|(e & ->)]; [|done].
  cbn [fst snd]. injection Ht as Ht. destruct (can_manage_task user task) eqn:Hmanage; [|done].
  unfold require_cap. destruct (has_cap user "builds:create") eqn:Hcap; [|done].
  rewrite run_or_fail, run_ret. cbn [fst snd].
  destruct (parse_override (mjoin body)) as [priority|e] eqn:Hprio; [|done].
  destruct (descriptor_of_json (pt_descriptor task)) as [d0|] eqn:Hd0; [|done].
  rewrite run_or_fail, run_ret. cbn [fst snd].
  destruct (validate_descriptor d0 components) as [[]|e] eqn:Hv; [|done].
  rewrite run_or_fail. destruct (run_check_repository_scopes user d0 s Hf) as (r & -> & Hr).
  cbn [fst snd]. destruct r as [[]|e]; [|done]. specialize (Hr eq_refl).
  rewrite run_bind, run_now. cbn [fst snd]. set (tag := interpolate_tag _ _ _).
  rewrite run_or_fail, run_ret. cbn [fst snd].
  destruct (validate_oci_tag tag) as [[]|e] eqn:Hoci; [|done].
  rewrite run_or_fail.
  destruct (run_found_ok (internal "user record not found" ()) (get_user (au_email user)) s ltac:(done) Hf)
    as [(row & Hrow & ->)|(e & ->)]; [|done]. cbn [fst snd]. injection Hrow as Hrow.
  rewrite run_or_fail, resolve_and_rewrite_state by done.
  set (d1 := set_tag tag (sign_off user d0)).
  destruct (run (resolve_and_rewrite d1 row) s).1 as [[rc descr]|e] eqn:Hres; [|done].
  apply resolve_and_rewrite_ok in Hres; [|done..].
  destruct (ur_is_robot row && prefix_template_contains_username (rc_prefix_template rc)) eqn:Hrob; [done|].
  rewrite run_or_fail. set (p := default _ priority).
  destruct (build_references_exist (au_email user) (Some (pt_id task)) (Some (rc_channel_id rc))
              (Some (rc_channel_type_id rc)) (pool s)) eqn:Href.
  2: { by destruct (insert_build_internal_err s descr (au_email user) p (Some (pt_id task)) _ _ Hf Href)
         as (e & ->). }
  destruct (insert_build_internal_ok s descr (au_email user) p (Some (pt_id task)) _ _ Hs Href)
    as (s1 & -> & Hi). cbn [fst snd].
  rewrite run_bind, run_query, exec_stmt_no_fault by apply (ins_faults _ _ _ _ _ _ _ _ Hi).
  cbn [fst snd]. rewrite run_ret.
  exists task, d0, row, rc, descr, priority, s1. split_and!; try done.
  - intros Hrb. by rewrite Hrb in Hrob.
  - by destruct Hres as (? & ? & ? & _ & _ & _ & _ & _ & _ & _ & _ & _ & _ & _ & _ & _ & _ & _ & -> & _).
Qed.

End ManualTrigger.
