(* ===== verification/Integrity.v ===== *)
(** * Integrity of the administrative tables

    Sequences of statements on channels and types, and the transactions that
    replace the permissions of a role and the roles of a user. *)

From stdpp Require Import prelude gmap strings list sorting.
From S2P Require Import Prelude Async Proto Db App DbRoles DbChannels Auth Channels.

(** ** Channels *)

(** The statements that change [channels] and [channel_types]. *)
Inductive ChannelStmt :=
| CreateChannel (name description : string)
| UpdateChannel (id : Z) (name description : string)
| SoftDeleteChannel (id : Z)
| CreateType (channel_id : Z) (type_name project prefix_template : string)
| UpdateType (id : Z) (project prefix_template : string)
| SoftDeleteType (id : Z)
| SetDefaultType (channel_id type_id : Z).

Definition exec_channel_stmt (c : ChannelStmt) (now : Z) (d : Db) : Db :=
  match c with
  | CreateChannel n x => (create_channel n x now d).2
  | UpdateChannel i n x => (update_channel i n x now d).2
  | SoftDeleteChannel i => (soft_delete_channel i now d).2
  | CreateType i t p x => (create_type i t p x now d).2
  | UpdateType i p x => (update_type i p x now d).2
  | SoftDeleteType i => (soft_delete_type i now d).2
  | SetDefaultType i t => (set_default_type i t now d).2
  end.

Definition exec_channel_stmts (l : list (Z * ChannelStmt)) (d : Db) : Db :=
  foldl (λ d c, exec_channel_stmt c.2 c.1 d) d l.

Lemma exec_channel_stmts_wf l d : channels_wf d → channels_wf (exec_channel_stmts l d).
Proof.
  revert d. induction l as [|[t c] l IH]; intros d Hd; [done|]. apply IH.
  destruct c; simpl; auto with cbs.
Qed.

(** C38: whatever sequence of creations, updates, soft deletions and defaults the
    administrators run, accepted or rejected: the names of the active channels
    stay unique, the types of a channel stay unique, and the default type of an
    active channel is always an active type of that very channel, so the lookup
    of a default type cannot fail. *)
Theorem channel_integrity (l : list (Z * ChannelStmt)) (d : Db) (t : Z) (Hd : channels_wf d) :
  let d' := exec_channel_stmts l d in
  (∀ i j c c', t_channels d' !! i = Some c → t_channels d' !! j = Some c' →
     channel_active c = true → channel_active c' = true → ch_name c = ch_name c' → i = j) ∧
  (∀ i j x x', t_channel_types d' !! i = Some x → t_channel_types d' !! j = Some x' →
     type_active x = true → type_active x' = true →
     ct_channel_id x = ct_channel_id x' → ct_type_name x = ct_type_name x' → i = j) ∧
  (∀ i c tid, t_channels d' !! i = Some c → channel_active c = true → ch_default_type_id c = Some tid →
     ∃ x, (get_type tid t d').1 = Ok (Some x) ∧ ctr_channel_id x = i).
Proof.
  cbv zeta. destruct (exec_channel_stmts_wf l d Hd) as [_ _ H3 H4 H5]. split_and!; [done|done|].
  intros i c tid Hc Ha Ht. destruct (H5 i c tid Hc Ha Ht) as (x & Hx & Hxa & Hxc).
  exists (type_record x). unfold get_type. simpl. by rewrite Hx; simpl; rewrite Hxa.
Qed.

(** ** Roles *)

Lemma insert_all_caps role caps d d' :
  insert_all (insert_role_cap role) caps d = Ok d' →
  d' = set_role_cap_rows ((list_to_set ((λ c, (role, c)) <$> caps)) ∪ t_role_caps d) d.
Proof.
  revert d. induction caps as [|c caps IH]; intros d Hd; simpl in *.
  - injection Hd as ->. rewrite (left_id_L ∅ (∪)). by destruct d'.
  - unfold insert_role_cap in Hd at 1. destruct (_ || _) eqn:E; [done|]. apply IH in Hd as ->. simpl.
    unfold set_role_cap_rows. simpl. f_equal. set_solver.
Qed.

Lemma insert_all_scopes role scopes d d' :
  insert_all (insert_role_scope role) scopes d = Ok d' →
  d' = set_role_scope_rows ((list_to_set ((λ s, (role, scope_type s, pattern s)) <$> scopes)) ∪
         t_role_scopes d) d ∧
  Forall (λ s, known_scope_type (scope_type s) = true) scopes.
Proof.
  revert d. induction scopes as [|s scopes IH]; intros d Hd; simpl in *.
  - injection Hd as ->. rewrite (left_id_L ∅ (∪)). by destruct d'.
  - unfold insert_role_scope in Hd at 1. case_bool_decide; [done|].
    destruct (_ || _) eqn:E; [done|]. apply IH in Hd as [-> Hall]. split.
    + unfold set_role_scope_rows. simpl. f_equal. set_solver.
    + constructor; [|done]. apply orb_false_iff in E as [_ E]. by apply negb_false_iff in E.
Qed.

Lemma insert_all_user_roles email roles d d' :
  insert_all (insert_user_role email) roles d = Ok d' →
  d' = set_user_role_rows (list_to_set ((λ r, (email, r)) <$> roles) ∪ t_user_roles d) d ∧
  Forall (λ r, is_Some (t_roles d !! r)) roles.
Proof.
  revert d. induction roles as [|r roles IH]; intros d Hd; simpl in *.
  - injection Hd as ->. rewrite (left_id_L ∅ (∪)). by destruct d'.
  - unfold insert_user_role in Hd at 1. destruct (_ || _) eqn:E; [done|]. apply IH in Hd as [-> Hall]. split.
    + unfold set_user_role_rows. simpl. f_equal. set_solver.
    + constructor; [|done]. apply orb_false_iff in E as [[_ E]%orb_false_iff _].
      apply bool_decide_eq_false_1 in E. by apply not_eq_None_Some.
Qed.

(** The replacement of a role's permissions is one transaction. When it
    succeeds the role holds exactly the given capabilities and scopes, all of a
    known type; every other role holds what it held, and nothing else changed.
    When any insert violates a constraint nothing has changed at all. *)
Theorem role_permissions_replaced role caps scopes now (d : Db) :
  match set_role_caps_and_scopes role caps scopes now d with
  | (Ok _, d') =>
      (∀ r c, (r, c) ∈ t_role_caps d' ↔ if bool_decide (r = role) then c ∈ caps else (r, c) ∈ t_role_caps d) ∧
      (∀ r t p, (r, t, p) ∈ t_role_scopes d' ↔
         if bool_decide (r = role) then mkScopeEntry t p ∈ scopes else (r, t, p) ∈ t_role_scopes d) ∧
      Forall (λ s, known_scope_type (scope_type s) = true) scopes ∧
      t_roles d' = t_roles d ∧ t_user_roles d' = t_user_roles d ∧ t_users d' = t_users d
  | (Err _, d') => d' = d
  end.
Proof.
  unfold set_role_caps_and_scopes, commit. cbv zeta.
  destruct (insert_all (insert_role_cap role) _ _) as [d2|e] eqn:E1; [|done].
  destruct (insert_all (insert_role_scope role) _ _) as [d3|e] eqn:E2; [|done].
  apply insert_all_caps in E1 as ->. apply insert_all_scopes in E2 as [-> Hall]. simpl.
  split_and!; try done.
  - intros r c. case_bool_decide; set_solver.
  - intros r t p. rewrite elem_of_union, elem_of_list_to_set, list_elem_of_fmap, elem_of_filter. simpl.
    case_bool_decide as Hr.
    + subst. split; [intros [(s & [= -> ->] & Hs)|[? _]]; [by destruct s|done]|].
      intros Hs. left. by exists (mkScopeEntry t p).
    + split; [intros [(s & [= -> _ _] & _)|[_ ?]]; done|]. by right.
Qed.

(** The replacement of a user's roles is one transaction: on success the user
    has exactly the given roles, all of which exist, and the other users theirs;
    on an error nothing has changed. *)
Theorem user_roles_replaced email roles now (d : Db) :
  match set_user_roles email roles now d with
  | (Ok _, d') =>
      (∀ e r, (e, r) ∈ t_user_roles d' ↔ if bool_decide (e = email) then r ∈ roles else (e, r) ∈ t_user_roles d) ∧
      Forall (λ r, is_Some (t_roles d' !! r)) roles ∧
      t_role_caps d' = t_role_caps d ∧ t_role_scopes d' = t_role_scopes d
  | (Err _, d') => d' = d
  end.
Proof.
  unfold set_user_roles, commit.
  destruct (insert_all (insert_user_role email) _ _) as [d2|e] eqn:E; [|done].
  apply insert_all_user_roles in E as [-> Hall]. simpl. split_and!; try done.
  intros e r. rewrite elem_of_union, elem_of_list_to_set, list_elem_of_fmap, elem_of_filter. simpl.
  case_bool_decide as He.
  - subst. split; [intros [(? & [= ->] & ?)|[? _]]; done|]. intros Hr. left. by exists r.
  - split; [intros [(? & [= -> _] & _)|[_ ?]]; done|]. by right.
Qed.

(** Only roles that are not built in can be deleted, and a deleted role grants
    nobody anything: it is gone with its capabilities, scopes and assignments,
    while every other role, and what it grants, is as it was. *)
Theorem role_deletion (s : AppState) role (Hf : faults s = []) :
  let s' := (run (delete_role role) s).2 in
  match t_roles (pool s) !! role with
  | Some r =>
      if rr_builtin r then run (delete_role role) s = (Ok false, s)
      else (run (delete_role role) s).1 = Ok true ∧ t_roles (pool s') !! role = None ∧
        (∀ e c, ¬ ((e, role) ∈ t_user_roles (pool s')) ∧ ¬ ((role, c) ∈ t_role_caps (pool s'))) ∧
        (∀ e r', r' ≠ role → ((e, r') ∈ t_user_roles (pool s') ↔ (e, r') ∈ t_user_roles (pool s))) ∧
        (∀ r' c, r' ≠ role → ((r', c) ∈ t_role_caps (pool s') ↔ (r', c) ∈ t_role_caps (pool s))) ∧
        (∀ r' t p, (r', t, p) ∈ t_role_scopes (pool s') ↔ r' ≠ role ∧ (r', t, p) ∈ t_role_scopes (pool s)) ∧
        (∀ r', r' ≠ role → t_roles (pool s') !! r' = t_roles (pool s) !! r')
  | None => run (delete_role role) s = (Ok false, s)
  end.
Proof.
  cbv zeta. unfold delete_role. rewrite run_bind, run_read by done. cbn [fst snd]. unfold is_role_builtin.
  cbn [fst]. destruct (t_roles (pool s) !! role) as [r|] eqn:E.
  - destruct (rr_builtin r) eqn:Hb; [done|]. rewrite run_query, exec_stmt_no_fault by done.
    unfold delete_role_row. simpl. rewrite E, Hb. simpl. split_and!; try done.
    + apply lookup_delete_eq.
    + intros e c. set_solver.
    + intros e r' Hr. set_solver.
    + intros r' c Hr. set_solver.
    + intros r' t p. set_solver.
    + intros r' Hr. by rewrite lookup_delete_ne.
  - rewrite run_query, exec_stmt_no_fault by done. unfold delete_role_row. rewrite E. simpl.
    by rewrite upd_pool_id.
Qed.
