(* ===== verification/Unpack.v ===== *)
(** * Unpacking of component archives (cbsd-worker, build/component.rs)

    The worker receives the components of a build as a compressed tar archive,
    checks its digest, and unpacks it below a directory of its own while
    checking that nothing escapes from it. The tar, flate2 and sha2 crates are
    parameters. *)

From Stdlib Require Import Strings.Byte.
From stdpp Require Import prelude gmap strings list pretty.
From S2P Require Import Prelude FileSystem.

Definition DEFAULT_MAX_UNCOMPRESSED_BYTES : Z := 256 * 1024 * 1024.

(** [std::io::Error] as the crates return it: its payload, if it is ours, or an
    error with a source. *)
Inductive IoError :=
| IoOs (e : Errno)
| IoOther
| IoCapExceeded (cap : Z)
| IoWrapped (source : IoError).

Inductive ComponentError :=
| IntegrityFailed (expected actual : string)
| TempDir (e : Errno)
| Unpack (e : IoError)
| Containment (msg : string)
| RejectedEntryType (msg : string)
| CapExceeded (cap : Z).

(** [tar::EntryType]. *)
Inductive EntryType :=
| ERegular | ELink | ESymlink | EChar | EBlock | EDirectory | EFifo | EContinuous
| EGNULongName | EGNULongLink | EGNUSparse | EXGlobalHeader | EXHeader
| ENonexhaustive (byte : Z).

#[global] Instance EntryType_eq_dec : EqDecision EntryType.
Proof. solve_decision. Defined.

(** [{:?}] of the entry types the unpacker does not name. *)
Definition entry_type_debug (t : EntryType) : string :=
  match t with
  | ERegular => "Regular" | ELink => "Link" | ESymlink => "Symlink" | EChar => "Char"
  | EBlock => "Block" | EDirectory => "Directory" | EFifo => "Fifo"
  | EContinuous => "Continuous" | EGNULongName => "GNULongName" | EGNULongLink => "GNULongLink"
  | EGNUSparse => "GNUSparse" | EXGlobalHeader => "XGlobalHeader" | EXHeader => "XHeader"
  | ENonexhaustive b => "__Nonexhaustive(" +:+ pretty b +:+ ")"
  end.

(** What the tar crate says of one entry. Its data end early when the
    underlying reader fails. *)
Record Entry := mkEntry {
  e_type : EntryType;
  e_path : result string IoError;
  e_size : Z;
  e_mode : result Z IoError;
  e_link_name : result (option string) IoError;
  e_data : list byte;
  e_data_error : option IoError
}.

(** The crates: the hexadecimal SHA-256 digest, the decompressed stream, and the
    entries of an archive read from a stream that either ends or, when the cap
    [Some cap] is hit, fails. Opening the archive can fail too. *)
Class TarCrates := {
  sha256_hex : list byte → string;
  gunzip : list byte → list byte;
  tar_entries : list byte → option Z → result (list (result Entry IoError)) IoError
}.

(** ** LimitedReader *)

Record LimitedReader := mkLimitedReader {
  lr_inner : list byte;
  lr_remaining : Z;
  lr_cap : Z
}.

Definition U64_MAX : Z := 2 ^ 64 - 1.

Definition limited_reader_new (inner : list byte) (cap : Z) : LimitedReader :=
  mkLimitedReader inner (Z.min (cap + 1) U64_MAX) cap.

(** [Read::read] with a buffer of [buf] bytes. The inner reader fills any part
    of the buffer it is given, [want] of it, and nothing at its end only. *)
Definition limited_read (buf want : Z) (r : LimitedReader)
    : result (list byte) IoError * LimitedReader :=
  if (lr_remaining r =? 0)%Z then (Err (IoCapExceeded (lr_cap r)), r)
  else
    let max := Z.min buf (lr_remaining r) in
    let n := Z.to_nat (Z.min want max) in
    let got := take n (lr_inner r) in
    (Ok got, mkLimitedReader (drop n (lr_inner r)) (lr_remaining r - Z.of_nat (length got)) (lr_cap r)).

(** What a consumer of the reader can see of [data]: at most [cap + 1] bytes,
    then a failure. *)
Definition visible (data : list byte) (cap : Z) : list byte * option Z :=
  let limit := Z.min (cap + 1) U64_MAX in
  if (Z.of_nat (length data) <? limit)%Z then (data, None)
  else (take (Z.to_nat limit) data, Some cap).

(** [extract_cap_exceeded]. *)
Fixpoint error_chain_cap (e : IoError) : option Z :=
  match e with
  | IoCapExceeded cap => Some cap
  | IoWrapped e => error_chain_cap e
  | IoOs _ | IoOther => None
  end.

Definition extract_cap_exceeded (e : IoError) : option Z :=
  match e with
  | IoOs _ | IoOther => None
  | IoCapExceeded cap => Some cap
  | IoWrapped e => error_chain_cap e
  end.

Definition unpack_error (e : IoError) : ComponentError :=
  match extract_cap_exceeded e with Some cap => CapExceeded cap | None => Unpack e end.

(** ** Containment *)

(** The stack of [lexical_clean], innermost first, and whether a root was
    seen. *)
Fixpoint clean_stack (p : Path) (stack : list string) (have_root : bool)
    : option (list string * bool) :=
  match p with
  | [] => Some (stack, have_root)
  | RootDir :: p => clean_stack p [] true
  | CurDir :: p => clean_stack p stack have_root
  | ParentDir :: p => match stack with [] => None | _ :: stack => clean_stack p stack have_root end
  | Normal s :: p => clean_stack p (s :: stack) have_root
  end.

Definition lexical_clean (p : Path) : option Path :=
  match clean_stack p [] false with
  | Some (stack, true) => Some (of_location (rev stack))
  | Some (stack, false) => Some (Normal <$> rev stack)
  | None => None
  end.

Definition logical_normalize_within (unpack_root rel : Path) : option Path :=
  if is_absolute rel then None
  else match lexical_clean (join unpack_root rel) with
       | Some cleaned =>
           if bool_decide (cleaned = unpack_root) || path_starts_with cleaned unpack_root
           then Some cleaned else None
       | None => None
       end.

(** [Display] of an error of the operating system. *)
Definition errno_text (e : Errno) : string :=
  match e with
  | ENOENT => "No such file or directory (os error 2)"
  | ENOTDIR => "Not a directory (os error 20)"
  | EEXIST => "File exists (os error 17)"
  | EISDIR => "Is a directory (os error 21)"
  | ELOOP => "Too many levels of symbolic links (os error 40)"
  | EPERM => "Operation not permitted (os error 1)"
  | Faulty => "Input/output error (os error 5)"
  end.

Inductive ParentCheck :=
| ParentOk
| ParentIo (e : Errno)
| ParentEscapes (msg : string).

Definition verify_parent_realpath_under (unpack_root_real entry_path_absolute : Path)
    (f : Fs) : ParentCheck * Fs :=
  let up := default unpack_root_real (parent entry_path_absolute) in
  match canonicalize up f with
  | (Err e, f) => (ParentIo e, f)
  | (Ok parent_real, f) =>
      if bool_decide (parent_real = unpack_root_real) || path_starts_with parent_real unpack_root_real
      then (ParentOk, f)
      else (ParentEscapes ("parent of '" +:+ display entry_path_absolute +:+ "' resolves to '"
              +:+ display parent_real +:+ "' which escapes unpack root '"
              +:+ display unpack_root_real +:+ "'"), f)
  end.

(** ** The monad of the unpacker: the file system and [?] *)

Definition unp (A : Type) : Type := Fs → result A ComponentError * Fs.

Definition uret {A} (a : A) : unp A := λ f, (Ok a, f).
Definition uerr {A} (e : ComponentError) : unp A := λ f, (Err e, f).
Definition ubind {A B} (m : unp A) (k : A → unp B) : unp B :=
  λ f, match m f with (Ok a, f) => k a f | (Err e, f) => (Err e, f) end.

(** [.map_err(ComponentError::Unpack)?] of a call and of a value. *)
Definition ucall {A} (m : io A) : unp A :=
  λ f, match m f with (Ok a, f) => (Ok a, f) | (Err e, f) => (Err (Unpack (IoOs e)), f) end.
Definition uvalue {A} (r : result A IoError) : unp A :=
  λ f, match r with Ok a => (Ok a, f) | Err e => (Err (Unpack e), f) end.

Declare Scope unpack_scope.
Delimit Scope unpack_scope with unpack.
Notation "'let?' x ':=' m 'in' k" := (ubind m (fun x => k))
  (at level 10, x pattern, m at level 100, k at level 200) : unpack_scope.
Notation "'do?' m 'in' k" := (ubind m (fun _ => k))
  (at level 10, m at level 100, k at level 200) : unpack_scope.
Open Scope unpack_scope.

(** The steps shared by the kinds of entries: create the parent directory, then
    check where it really is. *)
Definition prepare_parent (unpack_root_real dest : Path) : unp unit :=
  do? match parent dest with Some up => ucall (create_dir_all up) | None => uret () end in
  λ f, match verify_parent_realpath_under unpack_root_real dest f with
       | (ParentOk, f) => (Ok (), f)
       | (ParentIo e, f) => (Err (Containment (errno_text e)), f)
       | (ParentEscapes msg, f) => (Err (Containment msg), f)
       end.

(** [io::copy] of the data of an entry into the open file. *)
Definition copy_data (entry : Entry) (ino : nat) : unp unit :=
  do? ucall (file_write ino (e_data entry)) in
  match e_data_error entry with None => uret () | Some e => uerr (unpack_error e) end.

Definition link_target (entry : Entry) (kind : string) (path : string) : unp string :=
  let? name := uvalue (e_link_name entry) in
  match name with
  | None => uerr (Containment (kind +:+ " entry '" +:+ path +:+ "' has no link target"))
  | Some target => uret target
  end.

Definition unpack_file (entry : Entry) (unpack_root_real dest : Path) : unp unit :=
  do? prepare_parent unpack_root_real dest in
  let? out := ucall (file_create dest) in
  do? copy_data entry out in
  let? mode := uvalue (e_mode entry) in
  ucall (file_set_mode out (Z.land mode 511)).

Definition unpack_symlink (entry : Entry) (path : string) (unpack_root_real dest : Path) : unp unit :=
  let? target := link_target entry "symlink" path in
  if is_absolute (components target) then
    uerr (Containment ("symlink '" +:+ path +:+ "' has absolute target '" +:+ target +:+ "'"))
  else
    let link_dir := default unpack_root_real (parent dest) in
    match lexical_clean (join link_dir (components target)) with
    | None => uerr (Containment ("symlink '" +:+ path +:+ "' target '" +:+ target
                +:+ "' escapes unpack root (logical check)"))
    | Some cleaned_target =>
        if negb (bool_decide (cleaned_target = unpack_root_real))
           && negb (path_starts_with cleaned_target unpack_root_real) then
          uerr (Containment ("symlink '" +:+ path +:+ "' target '" +:+ target
            +:+ "' resolves to '" +:+ display cleaned_target +:+ "' which escapes unpack root"))
        else
          do? prepare_parent unpack_root_real dest in
          ucall (symlink (components target) dest)
    end.

Definition unpack_hardlink (entry : Entry) (path : string) (unpack_root_real dest : Path) : unp unit :=
  let? target := link_target entry "hardlink" path in
  match logical_normalize_within unpack_root_real (components target) with
  | None => uerr (Containment ("hardlink '" +:+ path +:+ "' target '" +:+ target
              +:+ "' escapes unpack root (logical check)"))
  | Some resolved_target =>
      do? prepare_parent unpack_root_real dest in
      ucall (hard_link resolved_target dest)
  end.

Definition unpack_one (entry : Entry) (unpack_root_real : Path) (max_uncompressed_bytes : Z)
    : unp unit :=
  let? path := uvalue (e_path entry) in
  match logical_normalize_within unpack_root_real (components path) with
  | None => uerr (Containment ("entry path '" +:+ path +:+ "' escapes unpack root (logical check)"))
  | Some dest =>
      if (max_uncompressed_bytes <? e_size entry)%Z then uerr (CapExceeded max_uncompressed_bytes)
      else
        match e_type entry with
        | EDirectory =>
            do? prepare_parent unpack_root_real dest in
            ucall (create_dir_all dest)
        | ERegular | EContinuous | EGNUSparse => unpack_file entry unpack_root_real dest
        | ESymlink => unpack_symlink entry path unpack_root_real dest
        | ELink => unpack_hardlink entry path unpack_root_real dest
        | EChar => uerr (RejectedEntryType ("character device '" +:+ path +:+ "'"))
        | EBlock => uerr (RejectedEntryType ("block device '" +:+ path +:+ "'"))
        | EFifo => uerr (RejectedEntryType ("fifo '" +:+ path +:+ "'"))
        | EGNULongName | EGNULongLink | EXGlobalHeader | EXHeader | ENonexhaustive _ =>
            uerr (RejectedEntryType ("unsupported tar entry type " +:+ entry_type_debug (e_type entry)
                    +:+ " at '" +:+ path +:+ "'"))
        end
  end.

Fixpoint unpack_entries (entries : list (result Entry IoError)) (unpack_root_real : Path)
    (max_uncompressed_bytes : Z) : unp unit :=
  match entries with
  | [] => uret ()
  | Err e :: _ => uerr (unpack_error e)
  | Ok entry :: entries =>
      do? unpack_one entry unpack_root_real max_uncompressed_bytes in
      unpack_entries entries unpack_root_real max_uncompressed_bytes
  end.

(** [.map_err(ComponentError::TempDir)?]. *)
Definition temp_dir_call {A} (m : io A) : unp A :=
  λ f, match m f with (Ok a, f) => (Ok a, f) | (Err e, f) => (Err (TempDir e), f) end.

Definition validate_and_unpack `{TarCrates} (tarball : list byte) (expected_sha256 : string)
    (temp_dir : Path) (max_uncompressed_bytes : Z) : unp Path :=
  let actual := sha256_hex tarball in
  if negb (bool_decide (actual = expected_sha256)) then uerr (IntegrityFailed expected_sha256 actual)
  else
    let unpack_dir := join temp_dir (components ("component-" +:+ String.substring 0 12 actual)) in
    do? temp_dir_call (create_dir_all unpack_dir) in
    let? unpack_root_real := temp_dir_call (canonicalize unpack_dir) in
    let '(stream, capped) := visible (gunzip tarball) max_uncompressed_bytes in
    match tar_entries stream capped with
    | Err e => uerr (unpack_error e)
    | Ok entries =>
        do? unpack_entries entries unpack_root_real max_uncompressed_bytes in
        uret unpack_dir
    end.

(** A failure is only logged. *)
Definition cleanup (path : Path) (f : Fs) : Fs := (remove_dir_all path f).2.
