(* ===== verification/UnpackSpec.v ===== *)
(** * Containment of the archive unpacker

    An archive without symbolic links never touches anything outside the
    directory it is unpacked in, whatever its paths, hard links and types are
    and wherever a call fails; with symbolic links it can ([symlinks_escape]). *)

From Stdlib Require Import Strings.Byte.
From stdpp Require Import prelude gmap strings list.
From S2P Require Import Prelude FileSystem Unpack.

(** ** Lexical cleaning *)

Lemma clean_stack_root p stack : ∀ st hr, clean_stack p stack true = Some (st, hr) → hr = true.
Proof.
  revert stack. induction p as [|[| | |s] p IH]; intros stack st hr H; simpl in H.
  - by simplify_eq.
  - by eapply IH.
  - by eapply IH.
  - destruct stack; [done|]. by eapply IH.
  - by eapply IH.
Qed.

Lemma lexical_clean_absolute p q :
  lexical_clean (RootDir :: p) = Some q → ∃ l, q = of_location l.
Proof.
  unfold lexical_clean. simpl. destruct (clean_stack p [] true) as [[st hr]|] eqn:E; [|done].
  apply clean_stack_root in E as ->. intros [= <-]. by eexists.
Qed.

Lemma join_of_location l p : is_absolute p = false →
  join (of_location l) p = of_location l ++ List.filter not_cur_dir p.
Proof. intros H. unfold join. by rewrite H. Qed.

(** What the logical check accepts is a location at or below the root. *)
Lemma logical_normalize_inside root rel dest :
  logical_normalize_within (of_location root) rel = Some dest →
  ∃ l, dest = of_location l ∧ root `prefix_of` l.
Proof.
  unfold logical_normalize_within. destruct (is_absolute rel) eqn:Ha; [done|].
  rewrite join_of_location by done.
  destruct (lexical_clean _) as [q|] eqn:E; [|done].
  pose proof (lexical_clean_absolute _ _ E) as [l ->].
  destruct (_ || _) eqn:Hin; [|done]. intros [= <-]. exists l. split; [done|].
  apply orb_true_iff in Hin as [Hin%bool_decide_eq_true_1|Hin].
  - apply of_location_prefix. by rewrite Hin.
  - by apply of_location_prefix, path_starts_with_spec.
Qed.

Lemma if_snd {A B} (b : bool) (x y : A) (f : B) : (if b then (x, f) else (y, f)).2 = f.
Proof. by destruct b. Qed.

(** ** The invariant *)

Section Containment.
Context (root : list string).

Definition inside (l : list string) : Prop := root `prefix_of` l.

(** On the way to the root, or below it. *)
Definition near (l : list string) : Prop := l `prefix_of` root ∨ inside l.

(** The directory exists, nothing below it is a symbolic link, no file is shared
    with the outside, and inode numbers are consistent. *)
Record confined (f : Fs) : Prop := {
  cf_root : ∀ l, l `prefix_of` root → node_at f l = Some Dir;
  cf_links : ∀ l t, inside l → node_at f l ≠ Some (Link t);
  cf_private : ∀ l l' ino, inside l → node_at f l = Some (File ino) →
                 node_at f l' = Some (File ino) → inside l';
  cf_inodes : ∀ l ino, node_at f l = Some (File ino) →
                (ino < fs_next_ino f)%nat ∧ is_Some (fs_inodes f !! ino)
}.

(** Names outside the root refer to the same things with the same contents. *)
Definition untouched (f f' : Fs) : Prop :=
  ∀ l, ¬ inside l → node_at f' l = node_at f l ∧
    ∀ ino, node_at f l = Some (File ino) → fs_inodes f' !! ino = fs_inodes f !! ino.

Definition keeps {A} (m : Fs → A * Fs) : Prop :=
  ∀ f, confined f → confined (m f).2 ∧ untouched f (m f).2.

Lemma untouched_refl f : untouched f f.
Proof. done. Qed.

Lemma fs_untouched_trans f1 f2 f3 : untouched f1 f2 → untouched f2 f3 → untouched f1 f3.
Proof.
  intros H1 H2 l Hl. destruct (H1 l Hl) as [E1 I1], (H2 l Hl) as [E2 I2].
  split; [congruence|]. intros ino Hi. rewrite I2 by congruence. by apply I1.
Qed.

Lemma near_prefix k l : k `prefix_of` l → near l → near k.
Proof.
  intros Hk [Hl|Hl]; [left; by transitivity l|].
  destruct (prefix_weak_total k root l Hk Hl); [by left|by right].
Qed.

Lemma near_no_link f l : confined f → near l → no_link_on f l.
Proof.
  intros Hf Hl k t Hk. destruct (near_prefix k l Hk Hl) as [Hk'|Hk'].
  - by rewrite (cf_root f Hf).
  - by apply cf_links.
Qed.

(** Resolving a near location gives that location or fails. *)
Lemma resolve_near f nofollow l : confined f → near l →
  match resolve f nofollow (of_location l) with
  | Found l' n => l' = l ∧ node_at f l = Some n
  | Missing l' => l' = l ∧ node_at f l = None
  | Failed _ => True
  end.
Proof. intros. by apply resolve_location, near_no_link. Qed.

Lemma missing_inside f l : confined f → near l → node_at f l = None → inside l.
Proof. intros Hf [Hl|Hl] Hn; [|done]. by rewrite (cf_root f Hf) in Hn. Qed.

(** ** Single changes *)

Lemma node_at_insert f l n l' : node_at f l = None →
  node_at (set_names (<[l := n]> (fs_names f)) f) l' = if decide (l = l') then Some n else node_at f l'.
Proof.
  intros Hl. destruct l as [|x l]; [done|]. unfold node_at, set_names. simpl.
  destruct l'; [by rewrite decide_False|]. apply lookup_insert.
Qed.

(** A file the outside has no name for. *)
Definition private_file (f : Fs) (n : Node) : Prop :=
  ∃ ino, n = File ino ∧ (∀ k, node_at f k = Some (File ino) → inside k) ∧
    (ino < fs_next_ino f)%nat ∧ is_Some (fs_inodes f !! ino).

Lemma private_file_at f l ino :
  confined f → inside l → node_at f l = Some (File ino) → private_file f (File ino).
Proof.
  intros Hf Hl Hn. exists ino. split; [done|]. split; [|by eapply cf_inodes].
  intros k. by eapply cf_private.
Qed.

(** A new name below the root, for a directory or for a private file. *)
Lemma insert_keeps f l n :
  confined f → inside l → node_at f l = None → n = Dir ∨ private_file f n →
  confined (set_names (<[l := n]> (fs_names f)) f) ∧
  untouched f (set_names (<[l := n]> (fs_names f)) f).
Proof.
  intros Hf Hl Hn Hnew. split; [split|].
  - intros k Hk. rewrite node_at_insert by done. case_decide; [subst|by apply cf_root].
    by rewrite (cf_root f Hf) in Hn.
  - intros k t Hk. rewrite node_at_insert by done. case_decide; [|by apply cf_links].
    destruct Hnew as [->|(? & -> & _)]; done.
  - intros k k' ino Hk. rewrite !node_at_insert by done.
    repeat case_decide; subst; try done.
    + intros [= ->]. destruct Hnew as [?|(i & [= <-] & Hi & _)]; [done|]. apply Hi.
    + by eapply cf_private.
  - intros k ino. rewrite node_at_insert by done. simpl. case_decide; [|by apply cf_inodes].
    destruct Hnew as [->|(i & -> & _ & Hi)]; [done|]. by intros [= <-].
  - intros k Hk. rewrite node_at_insert by done. rewrite decide_False; [done|by intros ->].
Qed.

(** A fresh inode that has no name yet. *)
Definition with_inode (i : Inode) (f : Fs) : Fs :=
  mkFs (fs_names f) (<[fs_next_ino f := i]> (fs_inodes f)) (S (fs_next_ino f)) (fs_faults f).

Lemma with_inode_keeps i f : confined f →
  confined (with_inode i f) ∧ untouched f (with_inode i f) ∧
  private_file (with_inode i f) (File (fs_next_ino f)).
Proof.
  intros Hf. split_and!; [split| |].
  - apply (cf_root f Hf).
  - apply (cf_links f Hf).
  - apply (cf_private f Hf).
  - intros l ino Hn. destruct (cf_inodes f Hf l ino Hn). simpl. split; [lia|].
    rewrite lookup_insert_ne by lia. done.
  - intros l Hl. split; [done|]. intros ino Hn. simpl. apply lookup_insert_ne.
    pose proof (cf_inodes f Hf l ino Hn). lia.
  - eexists. split; [done|]. simpl. rewrite lookup_insert_eq. split_and!; [|lia|done].
    intros k Hk. pose proof (cf_inodes f Hf k _ Hk). lia.
Qed.

Lemma alter_keeps f l ino g :
  confined f → inside l → node_at f l = Some (File ino) →
  confined (set_inodes (alter g ino (fs_inodes f)) f) ∧
  untouched f (set_inodes (alter g ino (fs_inodes f)) f).
Proof.
  intros Hf Hl Hn. split; [split|].
  - apply (cf_root f Hf).
  - apply (cf_links f Hf).
  - apply (cf_private f Hf).
  - intros k i Hk. destruct (cf_inodes f Hf k i Hk) as [? ?]. simpl. split; [done|].
    by apply lookup_alter_is_Some.
  - intros k Hk. split; [done|]. intros i Hi. simpl. apply lookup_alter_ne.
    intros ->. apply Hk. by eapply cf_private.
Qed.

(** ** Calls *)

Lemma syscall_keeps {A} (m : io A) : keeps m → keeps (syscall m).
Proof.
  intros Hm f Hf. unfold syscall. destruct (fs_faults f) as [|[] fl]; [by apply Hm| |].
  - split; [|done]. by destruct Hf; split.
  - apply (Hm (mkFs (fs_names f) (fs_inodes f) (fs_next_ino f) fl)). by destruct Hf; split.
Qed.

Lemma mkdir_keeps l : near l → keeps (mkdir (of_location l)).
Proof.
  intros Hl. apply syscall_keeps. intros f Hf. pose proof (resolve_near f true l Hf Hl) as Hr.
  destruct (resolve f true (of_location l)) as [l' n|l'|e]; simpl; [done| |done].
  destruct Hr as [-> Hn]. apply insert_keeps; [done| |done|by left]. by eapply missing_inside.
Qed.

Lemma keeps_then {A B} (m : Fs → A * Fs) (k : A → Fs → B * Fs) :
  keeps m → (∀ a, keeps (k a)) → keeps (λ f, let '(a, f) := m f in k a f).
Proof.
  intros Hm Hk f Hf. destruct (Hm f Hf) as [H1 H2]. destruct (m f) as [a f1]. simpl in *.
  destruct (Hk a f1 H1) as [H3 H4]. split; [done|]. by eapply fs_untouched_trans.
Qed.

Lemma keeps_pure {A} (g : Fs → A) : keeps (λ f, (g f, f)).
Proof. by intros f Hf. Qed.

Lemma take_of_location n l : take (S n) (of_location l) = of_location (take n l).
Proof. unfold of_location. simpl. by rewrite fmap_take. Qed.

Lemma mkdir_take_keeps n l : near l → keeps (mkdir (take (S n) (of_location l))).
Proof.
  intros Hl. rewrite take_of_location. apply mkdir_keeps. eapply near_prefix; [|done].
  apply prefix_take.
Qed.

Lemma create_dir_all_keeps l : near l → keeps (create_dir_all (of_location l)).
Proof.
  intros Hl. unfold create_dir_all. generalize (length (of_location l)) as n.
  induction n as [|n IH]; [apply keeps_pure|]. cbn [create_dir_all_upto].
  intros f Hf. pose proof (mkdir_take_keeps n l Hl) as Hmk. destruct (Hmk f Hf) as [H1 H2].
  destruct (mkdir (take (S n) (of_location l)) f) as [[[]|e] f1]; cbn [snd] in *; [done|].
  destruct e; rewrite ?if_snd; try done. destruct (parent _); [|done].
  destruct (IH f1 H1) as [H3 H4]. pose proof (fs_untouched_trans _ _ _ H2 H4) as H5.
  destruct (create_dir_all_upto n (of_location l) f1) as [[[]|e] f2]; cbn [snd] in *; [|done].
  destruct (Hmk f2 H3) as [H6 H7]. pose proof (fs_untouched_trans _ _ _ H5 H7) as H8.
  destruct (mkdir (take (S n) (of_location l)) f2) as [[[]|e] f3]; cbn [snd] in *; [done|].
  by rewrite if_snd.
Qed.

Lemma canonicalize_keeps p : keeps (canonicalize p).
Proof. apply syscall_keeps. intros f Hf. by destruct (resolve _ _ _). Qed.

(** The open file is private to the root. *)
Definition private_ino (f : Fs) (ino : nat) : Prop := ∃ l, inside l ∧ node_at f l = Some (File ino).

Lemma file_create_keeps l f : inside l → confined f →
  let '(r, f') := file_create (of_location l) f in
  confined f' ∧ untouched f f' ∧
  ∀ ino, r = Ok ino → node_at f' l = Some (File ino) ∧
    ∃ i, fs_inodes f' !! ino = Some i ∧ i_data i = [].
Proof.
  intros Hl. unfold file_create. set (m := λ f0 : Fs, _).
  assert (Hm : ∀ f, confined f → let '(r, f') := m f in
    confined f' ∧ untouched f f' ∧ ∀ ino, r = Ok ino → node_at f' l = Some (File ino) ∧
    ∃ i, fs_inodes f' !! ino = Some i ∧ i_data i = []).
  { clear f. intros f Hf. unfold m. pose proof (resolve_near f false l Hf (or_intror Hl)) as Hr.
    destruct (resolve f false (of_location l)) as [l' [|t|ino]|l'|e]; try done.
    - destruct Hr as [-> Hn]. destruct (alter_keeps f l ino (λ i, mkInode (i_mode i) []) Hf Hl Hn).
      split_and!; [done|done|]. intros i [= <-]. split; [done|].
      destruct (cf_inodes f Hf _ _ Hn) as [_ [i Hi]].
      exists (mkInode (i_mode i) []). split; [|done]. simpl. by rewrite lookup_alter_eq, Hi.
    - destruct Hr as [-> Hn].
      destruct (with_inode_keeps (mkInode 420 []) f Hf) as (H1 & H2 & H3).
      destruct (insert_keeps (with_inode (mkInode 420 []) f) l (File (fs_next_ino f)) H1 Hl Hn
                  (or_intror H3)) as [H4 H5].
      split_and!; [done|by eapply fs_untouched_trans|]. intros ino [= <-]. split.
      + change (node_at (set_names (<[l := File (fs_next_ino f)]> (fs_names f))
                  (with_inode (mkInode 420 []) f)) l = Some (File (fs_next_ino f))).
        rewrite (node_at_insert (with_inode (mkInode 420 []) f)) by done. by rewrite decide_True.
      + exists (mkInode 420 []). split; [apply lookup_insert_eq|done]. }
  intros Hf. unfold syscall. destruct (fs_faults f) as [|[] fl]; [by apply Hm| |].
  - split_and!; [by destruct Hf; split|done|done].
  - apply (Hm (mkFs (fs_names f) (fs_inodes f) (fs_next_ino f) fl)). by destruct Hf; split.
Qed.

(** ** The open file *)

(** A call that keeps the invariant, and a condition, where the condition holds. *)
Definition keeps_at {A} (P : Fs → Prop) (m : Fs → A * Fs) : Prop :=
  ∀ f, confined f → P f → confined (m f).2 ∧ untouched f (m f).2 ∧ P (m f).2.

Definition opened (l : list string) (ino : nat) (f : Fs) : Prop := node_at f l = Some (File ino).

Lemma keeps_at_ubind {A B} P (m : unp A) (k : A → unp B) :
  keeps_at P m → (∀ a, keeps_at P (k a)) → keeps_at P (ubind m k).
Proof.
  intros Hm Hk f Hf HP. unfold ubind. destruct (Hm f Hf HP) as (H1 & H2 & H3).
  destruct (m f) as [[a|e] f1]; cbn [snd] in *; [|done].
  destruct (Hk a f1 H1 H3) as (H4 & H5 & H6). split_and!; [done| |done]. by eapply fs_untouched_trans.
Qed.

Lemma keeps_at_ucall {A} P (m : io A) : keeps_at P m → keeps_at P (ucall m).
Proof.
  intros Hm f Hf HP. unfold ucall. specialize (Hm f Hf HP). by destruct (m f) as [[]].
Qed.

Lemma keeps_at_same {A} P (m : unp A) : (∀ f, (m f).2 = f) → keeps_at P m.
Proof. intros Hm f Hf HP. by rewrite Hm. Qed.

Lemma alter_keeps_at l ino g : inside l →
  keeps_at (opened l ino) (syscall (λ f, (Ok (), set_inodes (alter g ino (fs_inodes f)) f)) : io unit).
Proof.
  intros Hl f Hf HP. unfold syscall. destruct (fs_faults f) as [|[] fl].
  - destruct (alter_keeps f l ino g Hf Hl HP). done.
  - split_and!; [by destruct Hf; split|done|done].
  - set (f0 := mkFs _ _ _ fl). assert (Hf0 : confined f0) by (by destruct Hf; split).
    destruct (alter_keeps f0 l ino g Hf0 Hl HP). done.
Qed.

Lemma copy_data_keeps entry l ino : inside l → keeps_at (opened l ino) (copy_data entry ino).
Proof.
  intros Hl. apply keeps_at_ubind; [by apply keeps_at_ucall, alter_keeps_at|].
  intros _. apply keeps_at_same. intros f. by destruct (e_data_error entry).
Qed.

(** ** Entries *)

Lemma keeps_ubind {A B} (m : unp A) (k : A → unp B) :
  keeps m → (∀ a, keeps (k a)) → keeps (ubind m k).
Proof.
  intros Hm Hk f Hf. unfold ubind. destruct (Hm f Hf) as [H1 H2].
  destruct (m f) as [[a|e] f1]; cbn [snd] in *; [|done].
  destruct (Hk a f1 H1) as [H3 H4]. split; [done|]. by eapply fs_untouched_trans.
Qed.

Lemma keeps_ucall {A} (m : io A) : keeps m → keeps (ucall m).
Proof. intros Hm f Hf. unfold ucall. specialize (Hm f Hf). by destruct (m f) as [[]]. Qed.

Lemma keeps_same {A} (m : unp A) : (∀ f, (m f).2 = f) → keeps m.
Proof. intros Hm f Hf. by rewrite Hm. Qed.

Lemma near_removelast l : near l → near (removelast l).
Proof.
  apply near_prefix. destruct l as [|x l] using rev_ind; [done|]. rewrite removelast_last. by eexists.
Qed.

Lemma parent_of_location l up : parent (of_location l) = Some up → up = of_location (removelast l).
Proof.
  unfold parent, of_location. destruct l as [|x l _] using rev_ind; [done|].
  rewrite fmap_app. change (RootDir :: (Normal <$> l) ++ (Normal <$> [x])) with
    ((RootDir :: (Normal <$> l)) ++ [Normal x]).
  rewrite last_snoc, !removelast_last. by intros [= <-].
Qed.

Lemma prepare_parent_keeps l : inside l → keeps (prepare_parent (of_location root) (of_location l)).
Proof.
  intros Hl. apply keeps_ubind.
  - destruct (parent _) as [up|] eqn:E; [|by apply keeps_same].
    apply parent_of_location in E as ->. apply keeps_ucall, create_dir_all_keeps, near_removelast. by right.
  - intros _ f Hf. unfold verify_parent_realpath_under. set (up := default _ _).
    destruct (canonicalize_keeps up f Hf) as [H1 H2].
    destruct (canonicalize up f) as [[real|e] f1]; cbn [snd] in *; [|done].
    by destruct (_ || _).
Qed.

Lemma unpack_file_keeps entry l : inside l →
  keeps (unpack_file entry (of_location root) (of_location l)).
Proof.
  intros Hl. apply keeps_ubind; [by apply prepare_parent_keeps|]. intros _ f Hf.
  set (rest := λ out, do? copy_data entry out in
    let? mode := uvalue (e_mode entry) in ucall (file_set_mode out (Z.land mode 511))).
  change (confined (ubind (ucall (file_create (of_location l))) rest f).2 ∧
          untouched f (ubind (ucall (file_create (of_location l))) rest f).2).
  assert (Hk : ∀ ino, keeps_at (opened l ino) (rest ino)).
  { intros ino. apply keeps_at_ubind; [by apply copy_data_keeps|]. intros _.
    apply keeps_at_ubind; [|intros mode; by apply keeps_at_ucall, alter_keeps_at].
    apply keeps_at_same. intros f0. unfold uvalue. by destruct (e_mode entry). }
  pose proof (file_create_keeps l f Hl Hf) as Hc. unfold ubind, ucall.
  destruct (file_create _ f) as [[ino|e] f1]; destruct Hc as (H1 & H2 & H3); [|done].
  destruct (H3 ino eq_refl) as [Ho _]. destruct (Hk ino f1 H1 Ho) as (H4 & H5 & _).
  split; [done|]. by eapply fs_untouched_trans.
Qed.

Lemma hard_link_keeps src l : inside src → inside l →
  keeps (hard_link (of_location src) (of_location l)).
Proof.
  intros Hs Hl. apply syscall_keeps. intros f Hf.
  pose proof (resolve_near f true src Hf (or_intror Hs)) as Hrs.
  pose proof (resolve_near f true l Hf (or_intror Hl)) as Hrl.
  destruct (resolve f true (of_location src)) as [s [|t|ino]|s|e]; try done.
  { destruct Hrs as [-> Hn]. by destruct (cf_links f Hf _ t Hs). }
  destruct (resolve f true (of_location l)) as [d n|d|e]; try done.
  destruct Hrs as [-> Hs'], Hrl as [-> Hd]. apply insert_keeps; [done|done|done|].
  right. eapply private_file_at; [exact Hf|exact Hs|exact Hs'].
Qed.

Lemma link_target_same entry kind path f : (link_target entry kind path f).2 = f.
Proof. unfold link_target, ubind, uvalue. by destruct (e_link_name entry) as [[]|]. Qed.

Lemma unpack_hardlink_keeps entry path l : inside l →
  keeps (unpack_hardlink entry path (of_location root) (of_location l)).
Proof.
  intros Hl. apply keeps_ubind; [by apply keeps_same, link_target_same|]. intros target.
  destruct (logical_normalize_within _ _) as [q|] eqn:E; [|by apply keeps_same].
  apply logical_normalize_inside in E as (k & -> & Hk).
  apply keeps_ubind; [by apply prepare_parent_keeps|]. intros _. by apply keeps_ucall, hard_link_keeps.
Qed.

Lemma unpack_one_keeps entry cap : e_type entry ≠ ESymlink →
  keeps (unpack_one entry (of_location root) cap).
Proof.
  intros Ht. apply keeps_ubind.
  { apply keeps_same. intros f. unfold uvalue. by destruct (e_path entry). }
  intros path. destruct (logical_normalize_within _ _) as [q|] eqn:E; [|by apply keeps_same].
  apply logical_normalize_inside in E as (l & -> & Hl).
  destruct (cap <? e_size entry)%Z; [by apply keeps_same|].
  destruct (e_type entry); try done; try (by apply keeps_same);
    try (by apply unpack_file_keeps); [by apply unpack_hardlink_keeps|].
  apply keeps_ubind; [by apply prepare_parent_keeps|]. intros _.
  apply keeps_ucall, create_dir_all_keeps. by right.
Qed.

Definition not_symlink (r : result Entry IoError) : Prop :=
  match r with Ok entry => e_type entry ≠ ESymlink | Err _ => True end.

Lemma unpack_entries_keeps entries cap : Forall not_symlink entries →
  keeps (unpack_entries entries (of_location root) cap).
Proof.
  induction 1 as [|[entry|e] entries Ht _ IH]; simpl; [by apply keeps_same| |by apply keeps_same].
  apply keeps_ubind; [by apply unpack_one_keeps|]. by intros _.
Qed.

End Containment.

(** ** The directory the archive goes to *)

(** Only directories on the way to [l] are new. *)
Definition only_dirs (l : list string) (f f' : Fs) : Prop :=
  fs_inodes f' = fs_inodes f ∧ fs_next_ino f' = fs_next_ino f ∧
  ∀ k, node_at f' k = node_at f k ∨
       k `prefix_of` l ∧ node_at f k = None ∧ node_at f' k = Some Dir.

Lemma only_dirs_refl l f : only_dirs l f f.
Proof. split_and!; auto. Qed.

Lemma only_dirs_trans l f1 f2 f3 : only_dirs l f1 f2 → only_dirs l f2 f3 → only_dirs l f1 f3.
Proof.
  intros (I1 & N1 & H1) (I2 & N2 & H2). split_and!; [congruence|congruence|].
  intros k. destruct (H1 k) as [E1|(? & ? & ?)], (H2 k) as [E2|(? & ? & ?)];
    rewrite ?E2; auto; right; split_and!; congruence.
Qed.

Lemma only_dirs_no_link l f f' : only_dirs l f f' → no_link_on f l → no_link_on f' l.
Proof.
  intros (_ & _ & H) Hn k t Hk. destruct (H k) as [->|(_ & _ & ->)]; [|done]. by apply Hn.
Qed.

Lemma no_link_on_prefix f k l : k `prefix_of` l → no_link_on f l → no_link_on f k.
Proof. intros Hk Hl j t Hj. apply Hl. by transitivity k. Qed.

Lemma syscall_frame {A} l (m : io A) :
  (∀ f, no_link_on f l → only_dirs l f (m f).2) →
  ∀ f, no_link_on f l → only_dirs l f (syscall m f).2.
Proof.
  intros Hm f Hl. unfold syscall. destruct (fs_faults f) as [|[] fl]; [by apply Hm|by split_and!; auto|].
  destruct (Hm (mkFs (fs_names f) (fs_inodes f) (fs_next_ino f) fl) Hl) as (? & ? & ?). by split_and!.
Qed.

Lemma mkdir_frame k l f : k `prefix_of` l → no_link_on f l → only_dirs l f (mkdir (of_location k) f).2.
Proof.
  intros Hk. revert f. apply syscall_frame. intros f Hl.
  pose proof (resolve_location f true k (no_link_on_prefix f k l Hk Hl)) as Hr.
  destruct (resolve f true (of_location k)) as [k' n|k'|e]; simpl; try apply only_dirs_refl.
  destruct Hr as [-> Hn]. split_and!; [done|done|]. intros j. rewrite node_at_insert by done.
  case_decide as Hj; [right; by subst|by left].
Qed.

Lemma canonicalize_frame p l f : no_link_on f l → only_dirs l f (canonicalize p f).2.
Proof.
  revert f. apply syscall_frame. intros f _. destruct (resolve _ _ _); apply only_dirs_refl.
Qed.

Lemma create_dir_all_frame l f : no_link_on f l → only_dirs l f (create_dir_all (of_location l) f).2.
Proof.
  unfold create_dir_all. generalize (length (of_location l)) as n. intros n. revert f.
  induction n as [|n IH]; intros f Hl; [apply only_dirs_refl|]. cbn [create_dir_all_upto].
  assert (Hmk : ∀ f, no_link_on f l → only_dirs l f (mkdir (take (S n) (of_location l)) f).2).
  { intros f0 Hf0. rewrite take_of_location. apply mkdir_frame; [apply prefix_take|done]. }
  pose proof (Hmk f Hl) as H1. destruct (mkdir (take (S n) (of_location l)) f) as [[[]|e] f1];
    cbn [snd] in *; [done|].
  destruct e; rewrite ?if_snd; try done. destruct (parent _); [|done].
  pose proof (IH f1 (only_dirs_no_link _ _ _ H1 Hl)) as H2. pose proof (only_dirs_trans _ _ _ _ H1 H2) as H3.
  destruct (create_dir_all_upto n (of_location l) f1) as [[[]|e] f2]; cbn [snd] in *; [|done].
  pose proof (only_dirs_trans _ _ _ _ H3 (Hmk f2 (only_dirs_no_link _ _ _ H3 Hl))) as H4.
  destruct (mkdir (take (S n) (of_location l)) f2) as [[[]|e] f3]; cbn [snd] in *; [done|].
  by rewrite if_snd.
Qed.

(** The place below the temporary directory is free or holds the remains of an
    earlier build: no links, and no files shared with the outside. *)
Record reserved (root : list string) (f : Fs) : Prop := {
  rs_above : ∀ l, l `prefix_of` root → l ≠ root → node_at f l = Some Dir;
  rs_root : node_at f root = None ∨ node_at f root = Some Dir;
  rs_links : ∀ l t, root `prefix_of` l → node_at f l ≠ Some (Link t);
  rs_private : ∀ l l' ino, root `prefix_of` l → node_at f l = Some (File ino) →
                 node_at f l' = Some (File ino) → root `prefix_of` l';
  rs_inodes : ∀ l ino, node_at f l = Some (File ino) →
                (ino < fs_next_ino f)%nat ∧ is_Some (fs_inodes f !! ino)
}.

Lemma reserved_no_link root f : reserved root f → no_link_on f root.
Proof.
  intros Hr k t Hk. destruct (decide (k = root)) as [->|Hne].
  - by apply (rs_links root f Hr).
  - by rewrite (rs_above root f Hr).
Qed.

(** After [create_dir_all] and a successful [canonicalize], the directory is the
    confinement. *)
Lemma reserved_confined root f f1 q f2 :
  reserved root f → only_dirs root f f1 →
  canonicalize (of_location root) f1 = (Ok q, f2) →
  q = of_location root ∧ confined root f2 ∧ untouched root f f2.
Proof.
  intros Hr Hd Hc.
  assert (Hq : q = of_location root ∧ node_at f1 root ≠ None ∧ fs_names f2 = fs_names f1 ∧
               fs_inodes f2 = fs_inodes f1 ∧ fs_next_ino f2 = fs_next_ino f1).
  { pose proof (only_dirs_no_link _ _ _ Hd (reserved_no_link _ _ Hr)) as Hl.
    revert Hc. unfold canonicalize, syscall.
    assert (H : ∀ f, fs_names f = fs_names f1 → fs_inodes f = fs_inodes f1 →
      fs_next_ino f = fs_next_ino f1 → match resolve f false (of_location root) with
      | Found l _ => (Ok (of_location l), f) | Missing _ => (Err ENOENT, f)
      | Failed e => (Err e, f) end = (Ok q, f2) → q = of_location root ∧ node_at f1 root ≠ None ∧
      fs_names f2 = fs_names f1 ∧ fs_inodes f2 = fs_inodes f1 ∧ fs_next_ino f2 = fs_next_ino f1).
    { intros f0 E1 E2 E3. assert (Hn : ∀ l, node_at f0 l = node_at f1 l).
      { intros l. unfold node_at. by rewrite E1. }
      assert (Hl0 : no_link_on f0 root) by (intros k t Hk; rewrite Hn; by apply Hl).
      pose proof (resolve_location f0 false root Hl0) as Hres.
      destruct (resolve f0 false _) as [l n|l|e]; try done. intros [= <- <-].
      destruct Hres as [-> Hnode]. rewrite <- Hn, Hnode. done. }
    destruct (fs_faults f1) as [|[] fl]; [by apply H|done|by apply H]. }
  destruct Hq as (-> & Hex & En & Ei & Ex). destruct Hd as (Di & Dx & Hd).
  assert (Hn : ∀ l, node_at f2 l = node_at f1 l) by (intros l; unfold node_at; by rewrite En).
  assert (Hdir : node_at f1 root = Some Dir).
  { destruct (Hd root) as [E|(_ & _ & ->)]; [|done]. destruct (rs_root root f Hr); congruence. }
  assert (Hold : ∀ l n, n ≠ Dir → node_at f1 l = Some n → node_at f l = Some n).
  { intros l n Hne Hl. destruct (Hd l) as [<-|(_ & _ & E)]; [done|congruence]. }
  split; [done|]. split; [split|].
  - intros l Hl. rewrite Hn. destruct (decide (l = root)) as [->|Hne]; [done|].
    destruct (Hd l) as [->|(_ & _ & ->)]; [|done]. by apply (rs_above root f Hr).
  - intros l t Hl. rewrite Hn. intros E%Hold; [|done]. by apply (rs_links root f Hr) in E.
  - intros l l' ino Hl. rewrite !Hn. intros E1%Hold E2%Hold; [|done..]. by eapply (rs_private root f Hr).
  - intros l ino. rewrite Hn, Ex, Ei, Dx, Di. intros E%Hold; [|done]. by apply (rs_inodes root f Hr) in E.
  - intros l Hl. rewrite Hn, Ei, Di. split; [|done]. destruct (Hd l) as [->|(Hp & E & _)]; [done|].
    destruct (decide (l = root)) as [->|Hne]; [by destruct Hl|]. by rewrite (rs_above root f Hr) in E.
Qed.

(** ** The theorems *)

Section Theorems.
Context `{HTar : TarCrates}.

(** Every entry an archive can hold, as the tar crate reads it. *)
Definition no_symlinks (tarball : list byte) (cap : Z) : Prop :=
  let '(stream, capped) := visible (gunzip tarball) cap in
  ∀ entries, tar_entries stream capped = Ok entries → Forall not_symlink entries.

(** C14: an archive without symbolic links changes nothing outside the directory
    it is unpacked in, whatever its entries, whatever their paths and hard links
    say, and wherever a call of the system or the decompression fails. *)
Theorem unpack_contained (tarball : list byte) (sha : string) (t : list string) (name : string)
    (cap : Z) (f : Fs)
    (Hname : components ("component-" +:+ String.substring 0 12 (sha256_hex tarball)) = [Normal name])
    (Hf : reserved (t ++ [name]) f) (Harchive : no_symlinks tarball cap) :
  untouched (t ++ [name]) f (validate_and_unpack tarball sha (of_location t) cap f).2.
Proof.
  unfold validate_and_unpack. destruct (negb _); [done|].
  rewrite Hname, join_of_location by done.
  replace (of_location t ++ List.filter not_cur_dir [Normal name]) with (of_location (t ++ [name]))
    by (unfold of_location; by rewrite fmap_app).
  set (root := t ++ [name]) in *. unfold ubind at 1, temp_dir_call at 1.
  pose proof (create_dir_all_frame root f (reserved_no_link _ _ Hf)) as Hd.
  assert (Hu : ∀ f1, only_dirs root f f1 → untouched root f f1).
  { intros f1 (Hi & _ & H) l Hl. rewrite Hi. split; [|done].
    destruct (H l) as [->|(Hp & E & _)]; [done|].
    destruct (decide (l = root)) as [->|Hne]; [by destruct Hl|]. by rewrite (rs_above root f Hf) in E. }
  destruct (create_dir_all _ f) as [[[]|e] f1]; cbn [snd] in *; [|by apply Hu].
  unfold ubind at 1, temp_dir_call at 1.
  destruct (canonicalize (of_location root) f1) as [[q|e] f2] eqn:Hc.
  - destruct (reserved_confined root f f1 q f2 Hf Hd Hc) as (-> & Hc2 & Hu2).
    unfold no_symlinks in Harchive. destruct (visible _ _) as [stream capped].
    destruct (tar_entries stream capped) as [entries|e] eqn:E; [|done].
    pose proof (unpack_entries_keeps root entries cap (Harchive _ eq_refl) f2 Hc2) as [_ H].
    unfold ubind. destruct (unpack_entries _ _ _ _) as [[[]|e] f3]; by eapply fs_untouched_trans.
  - apply Hu. cbn [snd]. eapply only_dirs_trans; [exact Hd|].
    pose proof (canonicalize_frame (of_location root) root f1
      (only_dirs_no_link _ _ _ Hd (reserved_no_link _ _ Hf))) as Hd2. by rewrite Hc in Hd2.
Qed.

End Theorems.

(** ** What is written *)

Lemma syscall_ok {A} (m : io A) f a f' : syscall m f = (Ok a, f') →
  ∃ f0, fs_names f0 = fs_names f ∧ fs_inodes f0 = fs_inodes f ∧ fs_next_ino f0 = fs_next_ino f ∧
        m f0 = (Ok a, f').
Proof.
  unfold syscall. destruct (fs_faults f) as [|[] fl]; intros H; [by exists f|done|].
  by exists (mkFs (fs_names f) (fs_inodes f) (fs_next_ino f) fl).
Qed.

(** A change of an open file that succeeds. *)
Lemma alter_ok g ino f u f' :
  syscall (λ f, (Ok (), set_inodes (alter g ino (fs_inodes f)) f)) f = (Ok u, f') →
  fs_names f' = fs_names f ∧ fs_inodes f' = alter g ino (fs_inodes f).
Proof. intros (f0 & E1 & E2 & _ & H)%syscall_ok. injection H as _ <-. simpl. by rewrite E1, E2. Qed.

(** A regular file of an archive that is unpacked without an error below the
    root has the archived contents and the archived mode without the setuid,
    setgid and sticky bits, at the place its path says. *)
Theorem unpack_file_written (root l : list string) (entry : Entry) (f f' : Fs)
    (Hf : confined root f) (Hl : inside root l)
    (Hok : unpack_file entry (of_location root) (of_location l) f = (Ok (), f')) :
  ∃ ino mode, e_mode entry = Ok mode ∧ e_data_error entry = None ∧
    node_at f' l = Some (File ino) ∧
    fs_inodes f' !! ino = Some (mkInode (Z.land mode 511) (e_data entry)).
Proof.
  unfold unpack_file, ubind at 1 in Hok.
  destruct (prepare_parent_keeps root l Hl f Hf) as [H1 _].
  destruct (prepare_parent _ _ f) as [[[]|e] f1]; [cbn [snd] in H1|done].
  unfold ubind at 1, ucall at 1 in Hok.
  pose proof (file_create_keeps root l f1 Hl H1) as Hc.
  destruct (file_create _ f1) as [[ino|e] f2]; [|done].
  destruct Hc as (_ & _ & Hc). destruct (Hc ino eq_refl) as (Hn & i & Hi & Hdata).
  unfold ubind, copy_data, ubind, ucall, uvalue, uret, uerr in Hok.
  destruct (file_write ino (e_data entry) f2) as [[[]|e] f3] eqn:Ew; [|done].
  destruct (e_data_error entry) as [e|]; [done|]. destruct (e_mode entry) as [mode|e]; [|done].
  destruct (file_set_mode ino (Z.land mode 511) f3) as [[[]|e] f4] eqn:Em; [|done].
  injection Hok as ->. apply alter_ok in Ew as [N1 I1]. apply alter_ok in Em as [N2 I2].
  exists ino, mode. split_and!; [done|done|by unfold node_at in *; rewrite N2, N1|].
  by rewrite I2, I1, !lookup_alter_eq, Hi; simpl; rewrite Hdata.
Qed.

(** ** Symbolic links *)

(** The check of a link's target is lexical, while the system resolves links on
    the way: [d/e/up] points to the root, so [d/e/up/..] is the directory above
    it, although it reads like [d/e]. *)
Definition escape_entry (t : EntryType) (path : string) (target : option string)
    (data : list byte) : result Entry IoError :=
  Ok (mkEntry t (Ok path) (Z.of_nat (length data)) (Ok 420%Z) (Ok target) data None).

Definition escape_archive : list (result Entry IoError) :=
  [escape_entry EDirectory "d/e" None [];
   escape_entry ESymlink "d/e/up" (Some "../..") [];
   escape_entry ESymlink "f" (Some "d/e/up/../secret") [];
   escape_entry ERegular "f" None [x02]].

(** A directory for the archive next to a private file. *)
Definition escape_fs : Fs :=
  mkFs {[ ["tmp"] := Dir; ["tmp"; "component"] := Dir; ["tmp"; "secret"] := File 0 ]}
       {[ 0 := mkInode 384 [x01] ]} 1 [].

(** C15: with symbolic links the checks do not contain an archive: this one is
    unpacked below [/tmp/component] without an error, and overwrites
    [/tmp/secret]. *)
Theorem symlinks_escape :
  let '(r, f) := unpack_entries escape_archive (of_location ["tmp"; "component"]) 1000 escape_fs in
  r = Ok () ∧
  (i_data <$> fs_inodes escape_fs !! 0) = Some [x01] ∧ (i_data <$> fs_inodes f !! 0) = Some [x02] ∧
  node_at f ["tmp"; "secret"] = Some (File 0) ∧
  ¬ untouched ["tmp"; "component"] escape_fs f.
Proof.
  destruct (unpack_entries _ _ _ _) as [r f] eqn:E. vm_compute in E. injection E as <- <-.
  split_and!; [done..|]. intros H. destruct (H ["tmp"; "secret"]) as [_ Hi].
  - intros Hp%prefix_cons_inv_2. by apply prefix_cons_inv_1 in Hp.
  - specialize (Hi 0 eq_refl). by vm_compute in Hi.
Qed.

(** ** The decompression cap *)

(** A sequence of reads, as any consumer makes them, until one fails: the bytes
    delivered, and the failure. *)
Fixpoint read_sequence (reads : list (Z * Z)) (r : LimitedReader) : list byte * option IoError :=
  match reads with
  | [] => ([], None)
  | (buf, want) :: reads =>
      match limited_read buf want r with
      | (Err e, _) => ([], Some e)
      | (Ok bytes, r) => let '(rest, e) := read_sequence reads r in (bytes ++ rest, e)
      end
  end.

Lemma read_sequence_spec reads inner remaining cap :
  (0 ≤ remaining)%Z →
  let '(bytes, e) := read_sequence reads (mkLimitedReader inner remaining cap) in
  bytes `prefix_of` take (Z.to_nat remaining) inner ∧
  ∀ err, e = Some err → err = IoCapExceeded cap ∧
    (bytes = take (Z.to_nat remaining) inner ∧ Z.to_nat remaining ≤ length inner)%nat.
Proof.
  revert inner remaining. induction reads as [|[buf want] reads IH]; intros inner remaining Hr; simpl.
  { split; [apply prefix_nil|done]. }
  unfold limited_read. simpl. destruct (remaining =? 0)%Z eqn:E; simpl.
  { apply Z.eqb_eq in E as ->. split; [apply prefix_nil|]. intros err [= <-]. split; [done|]. simpl.
    rewrite take_0. split; [done|lia]. }
  set (n := Z.to_nat (Z.min want (Z.min buf remaining))).
  assert (Hn : (n ≤ Z.to_nat remaining)%nat) by lia.
  assert (Hlen : length (take n inner) = n ∨ (length (take n inner) = length inner ∧ drop n inner = [])).
  { rewrite length_take. destruct (decide (n ≤ length inner)%nat); [left; lia|right].
    split; [lia|]. apply drop_ge. lia. }
  assert (H0 : (0 ≤ remaining - Z.of_nat (length (take n inner)))%Z) by (rewrite length_take; lia).
  specialize (IH (drop n inner) _ H0).
  destruct (read_sequence _ _) as [rest e]. destruct IH as [Hp Herr].
  assert (Hsplit : take (Z.to_nat remaining) inner =
    take n inner ++ take (Z.to_nat (remaining - Z.of_nat (length (take n inner)))) (drop n inner)).
  { destruct Hlen as [->|[Hl Hd]].
    - rewrite take_take_drop. f_equal. lia.
    - rewrite Hd, take_nil, app_nil_r, !take_ge; [done| |]; rewrite length_take in Hl; lia. }
  rewrite Hsplit. split; [by apply prefix_app|]. intros err He.
  destruct (Herr err He) as (-> & -> & Hle). split; [done|]. split; [done|].
  rewrite length_drop, length_take in Hle. rewrite length_take in Hlen. lia.
Qed.

(** What a reader is after a sequence of reads without a failure. *)
Lemma read_sequence_app reads more inner remaining cap : ∀ bytes,
  read_sequence reads (mkLimitedReader inner remaining cap) = (bytes, None) →
  read_sequence (reads ++ more) (mkLimitedReader inner remaining cap) =
    let '(rest, e) := read_sequence more
      (mkLimitedReader (drop (length bytes) inner) (remaining - Z.of_nat (length bytes)) cap) in
    (bytes ++ rest, e).
Proof.
  revert inner remaining. induction reads as [|[buf want] reads IH]; intros inner remaining bytes; simpl.
  { intros [= <-]. simpl. rewrite drop_0, Z.sub_0_r. by destruct (read_sequence _ _). }
  unfold limited_read. simpl. destruct (remaining =? 0)%Z; [done|].
  set (n := Z.to_nat (Z.min want (Z.min buf remaining))).
  destruct (read_sequence reads _) as [rest e] eqn:E. intros [= <- ->]. rewrite (IH _ _ _ E), length_app.
  rewrite drop_drop, Nat2Z.inj_add, Z.sub_add_distr.
  replace (drop (length (take n inner) + length rest) inner) with (drop (n + length rest) inner).
  2: { rewrite length_take. destruct (decide (n ≤ length inner)%nat); [f_equal; lia|]. rewrite !drop_ge; [done|lia|lia]. }
  destruct (read_sequence more _) as [rest' e']. by rewrite app_assoc.
Qed.

(** One more read into a buffer that is not empty. *)
Lemma read_next buf want inner remaining cap :
  (0 < buf)%Z → (0 < want)%Z → (0 ≤ remaining)%Z →
  let next := read_sequence [(buf, want)] (mkLimitedReader inner remaining cap) in
  (remaining = 0%Z → next = ([], Some (IoCapExceeded cap))) ∧
  (remaining ≠ 0%Z → inner = [] → next = ([], None)) ∧
  (remaining ≠ 0%Z → inner ≠ [] → ∃ more, more ≠ [] ∧ next = (more, None)).
Proof.
  intros Hb Hw Hr. unfold read_sequence, limited_read. simpl.
  split_and!; intros H; [by rewrite (proj2 (Z.eqb_eq _ _) H)|..]; rewrite (proj2 (Z.eqb_neq _ _) H).
  - intros ->. by rewrite take_nil.
  - intros Hi. rewrite app_nil_r. eexists. split; [|done]. destruct inner as [|x inner]; [done|].
    destruct (Z.to_nat _) eqn:Hn; [lia|done].
Qed.

(** What is left to a reader that has delivered [bytes] without a failure. *)
Lemma read_rest reads inner cap limit bytes buf want :
  (0 < buf)%Z → (0 < want)%Z → (Z.of_nat (length bytes) ≤ limit)%Z →
  read_sequence reads (mkLimitedReader inner limit cap) = (bytes, None) →
  let next := read_sequence (reads ++ [(buf, want)]) (mkLimitedReader inner limit cap) in
  (Z.of_nat (length bytes) = limit → next = (bytes, Some (IoCapExceeded cap))) ∧
  ((Z.of_nat (length bytes) < limit)%Z → length inner ≤ length bytes → next = (bytes, None)) ∧
  ((Z.of_nat (length bytes) < limit)%Z → length bytes < length inner →
   ∃ more, more ≠ [] ∧ next = (bytes ++ more, None)).
Proof.
  intros Hb Hw Hl Hseq. cbv zeta. rewrite (read_sequence_app _ _ _ _ _ _ Hseq).
  destruct (read_next buf want (drop (length bytes) inner) (limit - Z.of_nat (length bytes)) cap Hb Hw ltac:(lia))
    as (H1 & H2 & H3). split_and!.
  - intros He. rewrite H1 by lia. by rewrite app_nil_r.
  - intros Hlt Hi. rewrite H2; [by rewrite app_nil_r|lia|by apply drop_ge].
  - intros Hlt Hi. destruct H3 as (more & Hm & ->); [lia| |by exists more].
    intros Hd. apply (f_equal length) in Hd. rewrite length_drop in Hd. simpl in Hd. lia.
Qed.

(** C24: However the decompressed stream is read, at most one byte more than the
    cap is delivered, and running into the cap is always reported: a read fails
    only when all of that has been delivered, with the error that names the cap;
    and a reader that goes on after reads without a failure, with a buffer that is
    not empty, gets at least one byte more, until it has seen all there is to see.
    Then a stream that is longer than the cap (below the largest u64) answers with
    that error, and any
    other one with the end of the file: a stream that is longer than the cap never
    reads to its end. What a reader can see of a stream is [visible]. *)
Theorem decompression_capped (reads : list (Z * Z)) (inner : list byte) (cap : Z)
    (Hcap : (0 ≤ cap ≤ U64_MAX)%Z) :
  let '(bytes, e) := read_sequence reads (limited_reader_new inner cap) in
  let '(seen, stop) := visible inner cap in
  bytes `prefix_of` seen ∧ (Z.of_nat (length bytes) ≤ cap + 1)%Z ∧
  (∀ err, e = Some err → err = IoCapExceeded cap ∧ bytes = seen ∧ stop = Some cap) ∧
  (∀ buf want, e = None → (0 < buf)%Z → (0 < want)%Z →
     let next := read_sequence (reads ++ [(buf, want)]) (limited_reader_new inner cap) in
     (bytes = seen → next = (bytes, IoCapExceeded <$> stop)) ∧
     (bytes ≠ seen → ∃ more, more ≠ [] ∧ next = (bytes ++ more, None))) ∧
  ((cap < U64_MAX)%Z → stop = Some cap ↔ (cap < Z.of_nat (length inner))%Z).
Proof.
  unfold limited_reader_new, visible. set (limit := Z.min (cap + 1) U64_MAX).
  pose proof (read_sequence_spec reads inner limit cap ltac:(lia)) as H.
  destruct (read_sequence reads _) as [bytes e] eqn:Eseq. destruct H as [Hp He].
  pose proof (prefix_length _ _ Hp) as Hlen. rewrite length_take in Hlen.
  destruct (Z.ltb_spec (Z.of_nat (length inner)) limit) as [E|E]; split_and!; try lia; try done.
  - rewrite take_ge in Hp by lia. done.
  - intros err Herr. destruct (He err Herr) as (_ & _ & Hle). lia.
  - intros buf want -> Hb Hw. rewrite take_ge in Hp by lia.
    destruct (read_rest reads inner cap limit bytes buf want Hb Hw ltac:(lia) Eseq) as (_ & H2 & H3).
    split; [intros ->; apply H2; lia|]. intros Hne. apply H3; [lia|]. destruct Hp as [[|x tl] ->].
    + by rewrite app_nil_r in Hne.
    + rewrite length_app. simpl. lia.
  - intros Hmax. split; [done|lia].
  - intros err Herr. by destruct (He err Herr) as (-> & -> & _).
  - intros buf want -> Hb Hw.
    destruct (read_rest reads inner cap limit bytes buf want Hb Hw ltac:(lia) Eseq) as (H1 & _ & H3).
    split; [intros Heq; apply H1; rewrite Heq, length_take; lia|]. intros Hne.
    assert (length bytes ≠ length (take (Z.to_nat limit) inner)).
    { intros Hl. apply Hne. by apply (prefix_length_eq _ _ Hp); rewrite Hl. }
    rewrite length_take in *. apply H3; lia.
  - intros Hmax. split; [lia|done].
Qed.
