(* ===== verification/Blocking.v ===== *)
(** * Asynchronous code that can wait

    The tasks of the worker wait for each other: on a mutex that is held, on a
    bounded channel that is full or empty, on a task or a process that has not
    ended. An action of a blocking program is a partial function of the state:
    [None] means that the task stays where it is. Otherwise programs are those of
    [Async]. *)

From stdpp Require Import prelude gmap sets list relations.
From S2P Require Import Tokens.

Inductive bprog (S A : Type) : Type :=
| BRet (a : A)
| BStep {R : Type} (act : S → option (R * S)) (k : R → bprog S A).
Arguments BRet {_ _} _.
Arguments BStep {_ _ _} _ _.

Fixpoint bbind {S A B} (m : bprog S A) (f : A → bprog S B) : bprog S B :=
  match m with
  | BRet a => f a
  | BStep act k => BStep act (λ r, bbind (k r) f)
  end.

Declare Scope blocking_scope.
Delimit Scope blocking_scope with blocking.
Notation "'let+' x ':=' m 'in' k" := (bbind m (fun x => k))
  (at level 10, x pattern, m at level 100, k at level 200,
   format "'[v' 'let+'  x  ':='  m  'in' '/' k ']'") : blocking_scope.
Notation "'do+' m 'in' k" := (bbind m (fun _ => k))
  (at level 10, m at level 100, k at level 200,
   format "'[v' 'do+'  m  'in' '/' k ']'") : blocking_scope.
Open Scope blocking_scope.

(** An action that may have to wait, and one that never does. *)
Definition await {S R} (act : S → option (R * S)) : bprog S R := BStep act BRet.
Definition act {S R} (f : S → R * S) : bprog S R := await (λ s, Some (f s)).

Fixpoint bfor_each {S A} (l : list A) (f : A → bprog S unit) : bprog S unit :=
  match l with
  | [] => BRet ()
  | x :: l => do+ f x in bfor_each l f
  end.

(** Execution alone: [None] when the program waits for something that no other
    task will do. *)
Fixpoint brun {S A} (m : bprog S A) (s : S) : option (A * S) :=
  match m with
  | BRet a => Some (a, s)
  | BStep act k => match act s with Some (r, s') => brun (k r) s' | None => None end
  end.

(** ** A pool of tasks *)

Inductive bpool_step {S} : S * list (bprog S unit) → S * list (bprog S unit) → Prop :=
| bpool_step_intro s s' ts1 ts2 (R : Type) (act : S → option (R * S)) k r :
    act s = Some (r, s') →
    bpool_step (s, ts1 ++ BStep act k :: ts2) (s', ts1 ++ k r :: ts2).

Lemma bpool_step_first {S R} (s s' : S) (act : S → option (R * S)) k r ts :
  act s = Some (r, s') → bpool_step (s, BStep act k :: ts) (s', k r :: ts).
Proof. exact (bpool_step_intro s s' [] ts R act k r). Qed.

Lemma bpool_step_second {S R} (s s' : S) m (act : S → option (R * S)) k r ts :
  act s = Some (r, s') → bpool_step (s, m :: BStep act k :: ts) (s', m :: k r :: ts).
Proof. exact (bpool_step_intro s s' [m] ts R act k r). Qed.

(** No task can make a step, and one has not ended. *)
Definition waits {S} (s : S) (m : bprog S unit) : Prop :=
  match m with BRet _ => False | BStep act _ => act s = None end.

Definition deadlocked {S} (c : S * list (bprog S unit)) : Prop :=
  c.2 ≠ [] ∧ Forall (waits c.1) c.2.

Lemma deadlocked_no_step {S} (c c' : S * list (bprog S unit)) : deadlocked c → ¬ bpool_step c c'.
Proof.
  intros [_ Hw] Hs. destruct Hs as [s s' ts1 ts2 R act k r Ha]. simpl in Hw.
  apply Forall_app in Hw as [_ Hw]. apply Forall_cons in Hw as [Hw _]. simpl in Hw. congruence.
Qed.

(** Every action of the program keeps the invariant. *)
Fixpoint bsafe {S A} (I : S → Prop) (m : bprog S A) : Prop :=
  match m with
  | BRet _ => True
  | BStep act k => ∀ s r s', I s → act s = Some (r, s') → I s' ∧ bsafe I (k r)
  end.

Create HintDb blocking.
Create Rewrite HintDb brun.

Lemma brun_bind {S A B} (m : bprog S A) (f : A → bprog S B) s :
  brun (bbind m f) s = match brun m s with Some (a, s') => brun (f a) s' | None => None end.
Proof.
  revert s. induction m as [a|R act k IH]; intros s; [done|].
  simpl. destruct (act s) as [[r s']|]; [apply IH|done].
Qed.

Lemma brun_await {S R} (a : S → option (R * S)) s : brun (await a) s = a s.
Proof. simpl. by destruct (a s) as [[]|]. Qed.

Lemma brun_act {S R} (f : S → R * S) s : brun (act f) s = Some (f s).
Proof. unfold act. rewrite brun_await. done. Qed.

Lemma brun_ret {S A} (a : A) (s : S) : brun (BRet a) s = Some (a, s).
Proof. done. Qed.

Lemma bsafe_bind {S A B} (I : S → Prop) (m : bprog S A) (f : A → bprog S B) :
  bsafe I m → (∀ a, bsafe I (f a)) → bsafe I (bbind m f).
Proof.
  intros Hm Hf. induction m as [a|R act k IH]; simpl in *; [by apply Hf|].
  intros s r s' Hs Ha. destruct (Hm s r s' Hs Ha). split; [done|]. by apply IH.
Qed.

Lemma bsafe_ret {S A} (I : S → Prop) (a : A) : bsafe I (BRet a).
Proof. exact Logic.I. Qed.

Lemma bsafe_await {S R} (I : S → Prop) (a : S → option (R * S)) :
  (∀ s r s', I s → a s = Some (r, s') → I s') → bsafe I (await a).
Proof. intros H s r s' Hs Ha. split; [by eapply H|exact Logic.I]. Qed.

Lemma bsafe_act {S R} (I : S → Prop) (f : S → R * S) :
  (∀ s, I s → I (f s).2) → bsafe I (act f).
Proof. intros H. apply bsafe_await. intros s r s' Hs [= E]. specialize (H s Hs). by rewrite E in H. Qed.

Lemma bsafe_for_each {S A} (I : S → Prop) (l : list A) (f : A → bprog S unit) :
  (∀ x, bsafe I (f x)) → bsafe I (bfor_each l f).
Proof. intros Hf. induction l as [|x l IH]; simpl; [done|]. by apply bsafe_bind. Qed.

Lemma bpool_step_safe {S} (I : S → Prop) (c c' : S * list (bprog S unit)) :
  bpool_step c c' → I c.1 → Forall (bsafe I) c.2 → I c'.1 ∧ Forall (bsafe I) c'.2.
Proof.
  intros [s s' ts1 ts2 R act k r Ha] Hs Hts. simpl in *.
  apply Forall_app in Hts as [H1 H2]. apply Forall_cons in H2 as [Hm H2].
  destruct (Hm s r s' Hs Ha) as [Hs' Hk]. split; [done|].
  apply Forall_app. split; [done|]. by constructor.
Qed.

Lemma bpool_steps_safe {S} (I : S → Prop) (c c' : S * list (bprog S unit)) :
  rtc bpool_step c c' → I c.1 → Forall (bsafe I) c.2 → I c'.1 ∧ Forall (bsafe I) c'.2.
Proof.
  induction 1 as [|c1 c2 c3 Hstep _ IH]; intros Hs Hts; [done|].
  destruct (bpool_step_safe _ _ _ Hstep Hs Hts) as [??]. by apply IH.
Qed.

(** A run alone keeps what every action keeps. *)
Lemma bsafe_run {S A} (I : S → Prop) (m : bprog S A) s a s' :
  bsafe I m → I s → brun m s = Some (a, s') → I s'.
Proof.
  revert s. induction m as [b|R act k IH]; intros s Hm Hs Hr; simpl in *; [by simplify_eq|].
  destruct (act s) as [[r s1]|] eqn:E; [|done]. destruct (Hm s r s1 Hs E). by eapply IH.
Qed.

(** ** Tokens

    As in [Tokens]: a task may have something in hand between two actions, such
    as a mutex, and the invariant speaks about all that is in anyone's hand. *)
Section Owned.
Context {S : Type} {K : Type} `{Countable K} (I : gset K → S → Prop).

Fixpoint bowned {A} (T : gset K) (m : bprog S A) (Q : gset K → A → Prop) : Prop :=
  match m with
  | BRet a => Q T a
  | BStep act k => ∀ s F r s', T ## F → I (T ∪ F) s → act s = Some (r, s') →
      ∃ T', T' ## F ∧ I (T' ∪ F) s' ∧ bowned T' (k r) Q
  end.

(** A program that starts and ends with nothing in hand. *)
Definition bbalanced {A} (m : bprog S A) : Prop := bowned ∅ m (λ T _, T = ∅).

Lemma bowned_mono {A} T (m : bprog S A) Q R :
  bowned T m Q → (∀ T' a, Q T' a → R T' a) → bowned T m R.
Proof.
  revert T. induction m as [a|X act k IH]; intros T Hm HQ; simpl in *; [by apply HQ|].
  intros s F r s' HF Hs Ha. destruct (Hm s F r s' HF Hs Ha) as (T' & ? & ? & ?). exists T'. eauto.
Qed.

Lemma bowned_bind {A B} T (m : bprog S A) (f : A → bprog S B) Q :
  bowned T m (λ T' a, bowned T' (f a) Q) → bowned T (bbind m f) Q.
Proof.
  revert T. induction m as [a|X act k IH]; intros T Hm; simpl in *; [done|].
  change (∀ s F r s', T ## F → I (T ∪ F) s → act s = Some (r, s') →
    ∃ T', T' ## F ∧ I (T' ∪ F) s' ∧ bowned T' (bbind (k r) f) Q).
  intros s F r s' HF Hs Ha. destruct (Hm s F r s' HF Hs Ha) as (T' & ? & ? & ?). exists T'. eauto.
Qed.

Lemma bbalanced_ret {A} (a : A) : bbalanced (BRet a).
Proof. done. Qed.

Lemma bbalanced_bind {A B} (m : bprog S A) (f : A → bprog S B) :
  bbalanced m → (∀ a, bbalanced (f a)) → bbalanced (bbind m f).
Proof.
  intros Hm Hf. apply bowned_bind. eapply bowned_mono; [exact Hm|]. intros T a ->. apply Hf.
Qed.

Lemma bbalanced_await {R} (a : S → option (R * S)) :
  (∀ T s r s', I T s → a s = Some (r, s') → I T s') → bbalanced (await a).
Proof. intros Ha s F r s' HF Hs E. exists ∅. split_and!; [done|by eapply Ha|done]. Qed.

Lemma bbalanced_for_each {A} (l : list A) (f : A → bprog S unit) :
  (∀ x, bbalanced (f x)) → bbalanced (bfor_each l f).
Proof.
  intros Hf. induction l as [|x l IH]; simpl; [apply bbalanced_ret|]. by apply bbalanced_bind.
Qed.

Definition bpool_ok (c : S * list (bprog S unit)) : Prop :=
  ∃ Ts, Forall2 (λ T m, bowned T m (λ _ _, True)) Ts c.2 ∧ disjoint_all Ts ∧ I (⋃ Ts) c.1.

Lemma bpool_ok_step c c' : bpool_step c c' → bpool_ok c → bpool_ok c'.
Proof.
  intros [s s' ts1 ts2 R act k r Ha] (Ts & HTs & Hd & Hs). simpl in *.
  apply Forall2_app_inv_r in HTs as (Ts1 & Ts' & H1 & H2 & ->).
  apply Forall2_cons_inv_r in H2 as (T & Ts2 & Hm & H2 & ->).
  apply disjoint_all_middle in Hd as [HF Hd]. rewrite union_list_middle in Hs.
  destruct (Hm s _ r s' HF Hs Ha) as (T' & HF' & Hs' & Hk).
  exists (Ts1 ++ T' :: Ts2). split_and!.
  - apply Forall2_app; [done|]. by constructor.
  - by apply disjoint_all_middle.
  - by rewrite union_list_middle.
Qed.

Lemma bpool_ok_start s ts : I ∅ s → Forall bbalanced ts → bpool_ok (s, ts).
Proof.
  intros Hs Hts. exists (replicate (length ts) ∅). simpl.
  assert (Hu : ∀ n, ⋃ (replicate n (∅ : gset K)) = ∅).
  { induction n as [|n IH]; [done|]. simpl. rewrite IH. set_solver. }
  split_and!.
  - induction Hts as [|m ts Hm _ IH]; simpl; constructor; [|done].
    eapply bowned_mono; [exact Hm|done].
  - clear Hts. induction (length ts) as [|n IH]; simpl; [done|]. split; [set_solver|done].
  - by rewrite Hu.
Qed.

Lemma bpool_ok_steps c c' : rtc bpool_step c c' → bpool_ok c → bpool_ok c'.
Proof. induction 1; [done|]. eauto using bpool_ok_step. Qed.

End Owned.

Create HintDb bown.
#[export] Hint Resolve bbalanced_bind bbalanced_ret bbalanced_for_each : bown.
#[export] Hint Resolve bsafe_bind bsafe_ret bsafe_act bsafe_await bsafe_for_each : blocking.
#[export] Hint Rewrite @brun_bind @brun_await @brun_act @brun_ret : brun.

#[global] Arguments bbind : simpl never.
#[global] Arguments brun : simpl never.
