(* ===== verification/Supervisor.v ===== *)
(** * The build supervisor of the worker (cbsd-worker, build/supervisor.rs)

    The supervisor owns the active build of the worker and outlives the
    connections to the server: what the build produces goes to the connection if
    there is one, and to a spool file otherwise. Its state is behind one mutex;
    a method that awaits nothing while it holds the mutex is one action, and
    [on_output_message], which sends on the bounded channel of the connection
    while it holds it, is two. *)

From Stdlib Require Import Strings.Byte.
From stdpp Require Import prelude gmap strings list pretty.
From S2P Require Import Prelude Blocking Proto FileSystem Unpack.

Definition DEFAULT_SPOOL_CAP_BYTES : Z := 64 * 1024 * 1024.

(** Capacity of the channel from the supervisor to a connection
    (ws/handler.rs). *)
Definition OUTPUT_CHANNEL_CAPACITY : nat := 64.

Inductive BuildPhase := Accepted | Started | Revoking | TerminalPendingReport.

#[global] Instance BuildPhase_eq_dec : EqDecision BuildPhase.
Proof. solve_decision. Defined.

(** A subprocess handle ([BuildExecutor] of build/executor.rs): the process of
    the table it belongs to. *)
Record BuildExecutor := mkExecutor { ex_build_id : BuildId; ex_pid : nat }.

Record ActiveBuild := mkActiveBuild {
  build_id : BuildId;
  phase : BuildPhase;
  component_dir : Path;
  executor : option BuildExecutor;
  output_task : option nat;
  pending_terminal : option WorkerMessage;
  spool_path : option string;
  spool_bytes : Z;
  spool_exhausted : bool
}.

(** A process: whether [kill] was called for it, and how it ended. *)
Record Process := mkProcess { pr_cancelled : bool; pr_exit : option (option Z) }.

(** A bounded channel: whether the receiver is alive, and what it holds. *)
Record Outbound := mkOutbound { ob_open : bool; ob_queue : list WorkerMessage }.

Inductive RevokeOutcome :=
| RevokingActive
| NonActive (active : BuildId)
| OutcomeIdle.

Inductive SupervisorError := Busy (active : BuildId).

(** The tasks the worker spawns. *)
Inductive WorkerTask :=
| TaskRetire (id : BuildId)
| TaskEscalate (pid : nat)
| TaskStreamer (handle : nat) (id : BuildId) (pid : nat)
| TaskSampler (channel : nat).

(** The worker: the mutex and what it guards, the channels of the connections,
    the spool files, the subprocesses, the tasks that have ended, the messages
    written to the sockets, the file system with the component directories, the
    shutdown flag, the tasks spawned, and the failures to come. *)
Record Worker := mkWorker {
  w_locked : bool;
  w_transport : option nat;
  w_active : option ActiveBuild;
  w_channels : gmap nat Outbound;
  w_spools : gmap string string;
  w_processes : gmap nat Process;
  w_done : gset nat;
  w_wire : list WorkerMessage;
  w_fs : Fs;
  w_stopping : bool;
  w_spawned : list WorkerTask;
  w_next : nat;
  w_faults : list bool
}.

Definition set_locked (x : bool) (w : Worker) : Worker :=
  mkWorker x (w_transport w) (w_active w) (w_channels w) (w_spools w) (w_processes w) (w_done w)
    (w_wire w) (w_fs w) (w_stopping w) (w_spawned w) (w_next w) (w_faults w).
Definition set_transport (x : option nat) (w : Worker) : Worker :=
  mkWorker (w_locked w) x (w_active w) (w_channels w) (w_spools w) (w_processes w) (w_done w)
    (w_wire w) (w_fs w) (w_stopping w) (w_spawned w) (w_next w) (w_faults w).
Definition set_active (x : option ActiveBuild) (w : Worker) : Worker :=
  mkWorker (w_locked w) (w_transport w) x (w_channels w) (w_spools w) (w_processes w) (w_done w)
    (w_wire w) (w_fs w) (w_stopping w) (w_spawned w) (w_next w) (w_faults w).
Definition set_outbound (x : gmap nat Outbound) (w : Worker) : Worker :=
  mkWorker (w_locked w) (w_transport w) (w_active w) x (w_spools w) (w_processes w) (w_done w)
    (w_wire w) (w_fs w) (w_stopping w) (w_spawned w) (w_next w) (w_faults w).
Definition set_spools (x : gmap string string) (w : Worker) : Worker :=
  mkWorker (w_locked w) (w_transport w) (w_active w) (w_channels w) x (w_processes w) (w_done w)
    (w_wire w) (w_fs w) (w_stopping w) (w_spawned w) (w_next w) (w_faults w).
Definition set_processes (x : gmap nat Process) (w : Worker) : Worker :=
  mkWorker (w_locked w) (w_transport w) (w_active w) (w_channels w) (w_spools w) x (w_done w)
    (w_wire w) (w_fs w) (w_stopping w) (w_spawned w) (w_next w) (w_faults w).
Definition set_wire (x : list WorkerMessage) (w : Worker) : Worker :=
  mkWorker (w_locked w) (w_transport w) (w_active w) (w_channels w) (w_spools w) (w_processes w)
    (w_done w) x (w_fs w) (w_stopping w) (w_spawned w) (w_next w) (w_faults w).
Definition set_fs (x : Fs) (w : Worker) : Worker :=
  mkWorker (w_locked w) (w_transport w) (w_active w) (w_channels w) (w_spools w) (w_processes w)
    (w_done w) (w_wire w) x (w_stopping w) (w_spawned w) (w_next w) (w_faults w).
Definition set_spawned (x : list WorkerTask) (w : Worker) : Worker :=
  mkWorker (w_locked w) (w_transport w) (w_active w) (w_channels w) (w_spools w) (w_processes w)
    (w_done w) (w_wire w) (w_fs w) (w_stopping w) x (w_next w) (w_faults w).
Definition set_next (x : nat) (w : Worker) : Worker :=
  mkWorker (w_locked w) (w_transport w) (w_active w) (w_channels w) (w_spools w) (w_processes w)
    (w_done w) (w_wire w) (w_fs w) (w_stopping w) (w_spawned w) x (w_faults w).
Definition set_faults (x : list bool) (w : Worker) : Worker :=
  mkWorker (w_locked w) (w_transport w) (w_active w) (w_channels w) (w_spools w) (w_processes w)
    (w_done w) (w_wire w) (w_fs w) (w_stopping w) (w_spawned w) (w_next w) x.

(** serde_json on the messages, and what the operating system says of a failed
    call. *)
Class Codec := {
  worker_message_to_json : WorkerMessage → string;
  worker_message_of_json : string → option WorkerMessage;
  server_message_of_json : string → option ServerMessage;
  os_error_text : string
}.

(** The constructor arguments of [Supervisor]. *)
Class SupervisorConfig := { spool_root : string; spool_cap_bytes : Z }.

Abbreviation worker_async := (bprog Worker).

(** ** Actions *)

(** A call that fails when the next flag of the schedule says so. *)
Definition fault (w : Worker) : bool * Worker :=
  match w_faults w with
  | [] => (false, w)
  | b :: fl => (b, set_faults fl w)
  end.

(** The mutex: a section that awaits nothing, and its two ends otherwise. *)
Definition critical {A} (f : Worker → A * Worker) : worker_async A :=
  await (λ w, if w_locked w then None else Some (f w)).

Definition spawn_task (t : WorkerTask) (w : Worker) : Worker :=
  set_spawned (w_spawned w ++ [t]) w.

(** A fresh identity of a channel, a task or a process. *)
Definition fresh (w : Worker) : nat * Worker := (w_next w, set_next (S (w_next w)) w).

(** [BuildExecutor::kill]: SIGTERM to the process group once, and an escalation
    to SIGKILL later. *)
Definition kill (exec : BuildExecutor) (w : Worker) : Worker :=
  match w_processes w !! ex_pid exec with
  | Some p =>
      if pr_cancelled p then w
      else spawn_task (TaskEscalate (ex_pid exec))
             (set_processes (<[ex_pid exec := mkProcess true (pr_exit p)]> (w_processes w)) w)
  | None => w
  end.

Definition kill_opt (exec : option BuildExecutor) (w : Worker) : Worker :=
  match exec with Some e => kill e w | None => w end.

(** [BuildExecutor::wait]: until the process has ended. *)
Definition wait (exec : BuildExecutor) : worker_async (option Z) :=
  await (λ w, match w_processes w !! ex_pid exec with
              | Some (mkProcess _ (Some code)) => Some (code, w)
              | _ => None
              end).

(** Awaiting a [JoinHandle]. *)
Definition join_task (t : nat) : worker_async unit :=
  await (λ w, if decide (t ∈ w_done w) then Some ((), w) else None).

(** [component::cleanup]. *)
Definition cleanup_component (dir : Path) : worker_async unit :=
  act (λ w, ((), set_fs (cleanup dir (w_fs w)) w)).

(** [tokio::fs::remove_file] of a spool; a failure is only logged. *)
Definition remove_spool (path : string) : worker_async unit :=
  act (λ w, let '(failed, w) := fault w in
            ((), if failed then w else set_spools (delete path (w_spools w)) w)).

(** ** The fields of the active build *)

Definition with_phase (p : BuildPhase) (a : ActiveBuild) : ActiveBuild :=
  mkActiveBuild (build_id a) p (component_dir a) (executor a) (output_task a) (pending_terminal a)
    (spool_path a) (spool_bytes a) (spool_exhausted a).
Definition with_terminal (p : BuildPhase) (t : option WorkerMessage) (a : ActiveBuild) : ActiveBuild :=
  mkActiveBuild (build_id a) p (component_dir a) (executor a) (output_task a) t
    (spool_path a) (spool_bytes a) (spool_exhausted a).
Definition with_output_task (t : option nat) (a : ActiveBuild) : ActiveBuild :=
  mkActiveBuild (build_id a) (phase a) (component_dir a) (executor a) t (pending_terminal a)
    (spool_path a) (spool_bytes a) (spool_exhausted a).
Definition with_spool (p : option string) (n : Z) (a : ActiveBuild) : ActiveBuild :=
  mkActiveBuild (build_id a) (phase a) (component_dir a) (executor a) (output_task a)
    (pending_terminal a) p n (spool_exhausted a).
Definition with_exhausted (a : ActiveBuild) : ActiveBuild :=
  mkActiveBuild (build_id a) (phase a) (component_dir a) (executor a) (output_task a)
    (pending_terminal a) (spool_path a) (spool_bytes a) true.
(** [take()] of the streaming task, the subprocess and the spool path. *)
Definition without_handles (a : ActiveBuild) : ActiveBuild :=
  mkActiveBuild (build_id a) (phase a) (component_dir a) None None (pending_terminal a)
    None (spool_bytes a) (spool_exhausted a).

Definition newline_char : Ascii.ascii := Ascii.ascii_of_nat 10.
Definition U64_MAX : Z := 2 ^ 64 - 1.

(** [BufReader::lines] on a whole file: split at line feeds, a carriage return
    before one is dropped, and nothing follows the last one. *)
Definition strip_cr (s : string) : string :=
  default s (strip_suffix_char (Ascii.ascii_of_nat 13) s).

Definition file_lines (content : string) : list string :=
  let pieces := split_on newline_char content in
  let last_piece := default "" (last pieces) in
  (strip_cr <$> removelast pieces) ++ (if bool_decide (last_piece = "") then [] else [last_piece]).

Section Supervisor.
Context `{HCodec : Codec} `{HConfig : SupervisorConfig}.

(** ** Spooling *)

(** [append_spool]: directory, open, payload, newline and flush can fail; what
    was written before stays. *)
Definition append_spool (path payload : string) (w : Worker) : result unit string * Worker :=
  let '(f1, w) := fault w in
  if f1 then (Err os_error_text, w) else
  let '(f2, w) := fault w in
  if f2 then (Err os_error_text, w) else
  let old := default "" (w_spools w !! path) in
  let w := set_spools (<[path := old]> (w_spools w)) w in
  let '(f3, w) := fault w in
  if f3 then (Err os_error_text, w) else
  let w := set_spools (<[path := old +:+ payload]> (w_spools w)) w in
  let '(f4, w) := fault w in
  if f4 then (Err os_error_text, w) else
  let w := set_spools (<[path := (old +:+ payload) +:+ String newline_char ""]> (w_spools w)) w in
  let '(f5, w) := fault w in
  if f5 then (Err os_error_text, w) else (Ok (), w).

Definition spool_file (id : BuildId) : string :=
  spool_root +:+ "/build-" +:+ pretty (build_id_0 id) +:+ ".spool".

Definition failure_terminal (id : BuildId) (error : string) : WorkerMessage :=
  BuildFinished id FinFailure (Some error) None.

(** The build is killed and its failure waits for the next connection. *)
Definition fail_spool (a : ActiveBuild) (error : string) (w : Worker) : Worker :=
  set_active (Some (with_terminal TerminalPendingReport
    (Some (failure_terminal (build_id a) error)) (with_exhausted a))) (kill_opt (executor a) w).

(** [spool_and_finalize], under the mutex. *)
Definition spool_and_finalize (msg : WorkerMessage) (is_terminal : bool) (w : Worker) : Worker :=
  match w_active w with
  | None => w
  | Some a =>
      if spool_exhausted a then w
      else if is_terminal then
        set_active (Some (with_terminal TerminalPendingReport (Some msg) a)) w
      else
        let serialized := worker_message_to_json msg in
        let new_total :=
          Z.min (spool_bytes a + (Z.of_nat (String.length serialized) + 1)) U64_MAX in
        if (spool_cap_bytes <? new_total)%Z then
          fail_spool a "worker disconnected output spool exceeded" w
        else
          let path := default (spool_file (build_id a)) (spool_path a) in
          let a := with_spool (Some path) (spool_bytes a) a in
          match append_spool path serialized w with
          | (Ok _, w) => set_active (Some (with_spool (Some path) new_total a)) w
          | (Err e, w) => fail_spool a ("worker spool write error: " +:+ e) w
          end
  end.

Fixpoint parse_lines (lines : list string) : list WorkerMessage :=
  match lines with
  | [] => []
  | line :: lines =>
      if bool_decide (line = "") then parse_lines lines
      else match worker_message_of_json line with
           | Some m => m :: parse_lines lines
           | None => parse_lines lines
           end
  end.

(** [drain_spool]: opening and reading can fail. *)
Definition drain_spool (path : string) (w : Worker) : result (list WorkerMessage) string * Worker :=
  let '(f1, w) := fault w in
  if f1 then (Err os_error_text, w) else
  match w_spools w !! path with
  | None => (Err os_error_text, w)
  | Some content =>
      let '(f2, w) := fault w in
      if f2 then (Err os_error_text, w) else (Ok (parse_lines (file_lines content)), w)
  end.

(** ** Methods *)

Definition register_accepted (id : BuildId) (exec : BuildExecutor) (dir : Path)
    : worker_async (result unit SupervisorError) :=
  critical (λ w,
    match w_active w with
    | Some a => (Err (Busy (build_id a)), w)
    | None => (Ok (), set_active (Some (mkActiveBuild id Accepted dir (Some exec) None None None 0 false)) w)
    end).

(** A change of the active build if it is the one named. *)
Definition on_active (id : BuildId) (f : ActiveBuild → ActiveBuild) (w : Worker) : Worker :=
  match w_active w with
  | Some a => if bool_decide (build_id a = id) then set_active (Some (f a)) w else w
  | None => w
  end.

Definition attach_output_task (id : BuildId) (task : nat) : worker_async unit :=
  critical (λ w, ((), on_active id (with_output_task (Some task)) w)).

Definition mark_started (id : BuildId) : worker_async unit :=
  critical (λ w, ((), on_active id (λ a,
    if bool_decide (phase a = Accepted) then with_phase Started a else a) w)).

Definition on_build_revoke (id : BuildId) : worker_async RevokeOutcome :=
  critical (λ w,
    match w_active w with
    | Some a =>
        if bool_decide (build_id a = id)
        then (RevokingActive, kill_opt (executor a) (set_active (Some (with_terminal Revoking None a)) w))
        else (NonActive (build_id a), w)
    | None => (OutcomeIdle, w)
    end).

(** What [on_output_message] does once it has the mutex. *)
Inductive Forward := ForwardDone | ForwardTo (channel : nat).

Definition begin_output (id : BuildId) (msg : WorkerMessage) (is_terminal : bool) (w : Worker)
    : Forward * Worker :=
  match w_active w with
  | None => (ForwardDone, w)
  | Some a =>
      if negb (bool_decide (build_id a = id)) then (ForwardDone, w)
      else match w_transport w with
           | Some c => (ForwardTo c, set_locked true w)
           | None => (ForwardDone, spool_and_finalize msg is_terminal w)
           end
  end.

(** [Sender::send] on the channel, holding the mutex: it waits while the channel
    is full, and fails when the receiver is gone. *)
Definition finish_output (c : nat) (msg : WorkerMessage) (is_terminal : bool) (w : Worker)
    : option (unit * Worker) :=
  match w_channels w !! c with
  | Some (mkOutbound true q) =>
      if decide (length q < OUTPUT_CHANNEL_CAPACITY)
      then Some ((), set_locked false (set_outbound (<[c := mkOutbound true (q ++ [msg])]> (w_channels w)) w))
      else None
  | _ => Some ((), set_locked false (spool_and_finalize msg is_terminal (set_transport None w)))
  end.

(** [send_or_spool]: other messages go to the connection or nowhere. *)
Definition send_or_spool (msg : WorkerMessage) : worker_async unit :=
  let+ t := critical (λ w, match w_transport w with
                           | Some c => (Some c, set_locked true w)
                           | None => (None, w)
                           end) in
  match t with
  | None => BRet ()
  | Some c =>
      await (λ w, match w_channels w !! c with
                  | Some (mkOutbound true q) =>
                      if decide (length q < OUTPUT_CHANNEL_CAPACITY)
                      then Some ((), set_locked false
                             (set_outbound (<[c := mkOutbound true (q ++ [msg])]> (w_channels w)) w))
                      else None
                  | _ => Some ((), set_locked false w)
                  end)
  end.

Definition output_of (id : BuildId) (msg : WorkerMessage) (is_terminal : bool) : worker_async unit :=
  let+ f := critical (begin_output id msg is_terminal) in
  match f with
  | ForwardDone => BRet ()
  | ForwardTo c => await (finish_output c msg is_terminal)
  end.

Definition on_output_message (msg : WorkerMessage) : worker_async unit :=
  match msg with
  | BuildOutput id _ _ => output_of id msg false
  | BuildFinished id _ _ _ => output_of id msg true
  | _ => send_or_spool msg
  end.

(** [take_reconnect_messages], phase 1: under the mutex. *)
Definition reconnect_snapshot (w : Worker)
    : option (BuildId * option string * option WorkerMessage) * Worker :=
  match w_active w with
  | None => (None, w)
  | Some a =>
      let path := if (0 <? spool_bytes a)%Z then spool_path a else None in
      if bool_decide (phase a = TerminalPendingReport)
      then (Some (build_id a, path, pending_terminal a),
            set_active (Some (with_terminal (phase a) None a)) w)
      else (Some (build_id a, path, None), w)
  end.

(** Phases 2 and 3: the file, without the mutex, then the record. *)
Definition drain_to_messages (id : BuildId) (path : string) : worker_async (list WorkerMessage) :=
  let+ r := act (drain_spool path) in
  do+ remove_spool path in
  do+ critical (λ w, ((), on_active id (with_spool None 0) w)) in
  BRet (match r with Ok msgs => msgs | Err _ => [] end).

Definition take_reconnect_messages : worker_async (list WorkerMessage) :=
  let+ snapshot := critical reconnect_snapshot in
  match snapshot with
  | None => BRet [WorkerStatus Idle None]
  | Some (id, path, terminal) =>
      let+ spooled := match path with Some p => drain_to_messages id p | None => BRet [] end in
      BRet (WorkerStatus Building (Some id) :: spooled ++ match terminal with Some t => [t] | None => [] end)
  end.

Definition attach_transport (c : nat) : worker_async unit :=
  critical (λ w, ((), set_transport (Some c) w)).

Definition detach_transport : worker_async unit :=
  critical (λ w, ((), set_transport None w)).

(** The handles [retire] and [shutdown] take out of the record. *)
Definition await_build (task : option nat) (exec : option BuildExecutor) (dir : Path)
    (spool : option string) : worker_async unit :=
  do+ match task with Some t => join_task t | None => BRet () end in
  do+ match exec with Some e => do+ wait e in BRet () | None => BRet () end in
  do+ cleanup_component dir in
  match spool with Some p => remove_spool p | None => BRet () end.

Definition clear_active (id : BuildId) : worker_async unit :=
  critical (λ w, ((), match w_active w with
                      | Some a => if bool_decide (build_id a = id) then set_active None w else w
                      | None => w
                      end)).

Definition retire (id : BuildId) : worker_async unit :=
  let+ taken := critical (λ w,
    match w_active w with
    | None => (None, w)
    | Some a =>
        if bool_decide (build_id a = id)
        then (Some a, set_active (Some (without_handles a)) w)
        else (None, w)
    end) in
  match taken with
  | None => BRet ()
  | Some a =>
      do+ await_build (output_task a) (executor a) (component_dir a) (spool_path a) in
      clear_active id
  end.

Definition shutdown : worker_async unit :=
  let+ taken := critical (λ w,
    match w_active w with
    | None => (None, w)
    | Some a => (Some a, set_active (Some (without_handles a)) (kill_opt (executor a) w))
    end) in
  match taken with
  | None => BRet ()
  | Some a =>
      do+ await_build (output_task a) (executor a) (component_dir a) (spool_path a) in
      clear_active (build_id a)
  end.

Definition active_build_id : worker_async (option BuildId) :=
  critical (λ w, (match w_active w with Some a => Some (build_id a) | None => None end, w)).

Definition active_spool_bytes : worker_async Z :=
  critical (λ w, (match w_active w with Some a => spool_bytes a | None => 0%Z end, w)).

End Supervisor.
