(* ===== verification/WorkerOutput.v ===== *)
(** * Subprocess output (cbsd-worker, build/output.rs and build/executor.rs)

    The lines a build writes on its standard output become batches of numbered
    log lines, and its last line the result of the build. *)

From stdpp Require Import prelude gmap strings list pretty.
From S2P Require Import Prelude Proto FileSystem.

(** ** build/executor.rs *)

Definition DEFAULT_SIGKILL_TIMEOUT_SECS : Z := 15.

Definition classify_exit_code (code : option Z) : BuildFinishedStatus :=
  match code with
  | Some 0%Z => FinSuccess
  | Some 137%Z | Some 143%Z => FinRevoked
  | _ => FinFailure
  end.

(** ** build/output.rs *)

Definition BATCH_MAX_LINES : nat := 50.
Definition MAX_REPORT_SIZE : Z := 65536.

(** [serde_json::Value], a third-party type, by its compact text: parsing, a
    field of an object, and what the value is. *)
Class JsonValue := {
  json_parse : string → option string;
  json_get : string → string → option string;
  json_as_str : string → option string;
  json_as_i64 : string → option Z;
  json_is_null : string → bool
}.

(** [i64 as i32]. *)
Definition cast_i32 (z : Z) : Z :=
  let m := (z mod 2 ^ 32)%Z in if (m <? 2 ^ 31)%Z then m else (m - 2 ^ 32)%Z.

Record WrapperResult := mkWrapperResult {
  exit_code : Z;
  wr_error : option string;
  wr_build_report : option string
}.

Inductive OutputError := ReadError | SendError.

(** What the loop of [stream_output] waits for: a line, the end or a failure of
    the pipe, or the flush timer. *)
Inductive StdoutEvent := Line (l : string) | FlushTimer | Eof | ReadFailed.

Record StreamState := mkStream {
  line_count : Z;
  batch : list string;
  batch_start_seq : Z;
  wrapper_result : option WrapperResult
}.

Definition stream_start : StreamState := mkStream 0 [] 0 None.

(** A word in double quotes. *)
Definition quoted (s : string) : string :=
  let q := String (Ascii.ascii_of_nat 34) "" in q +:+ s +:+ q.

Definition is_result_line (line : string) : bool :=
  starts_with ("{" +:+ quoted "type" +:+ ":" +:+ quoted "result") line
  || starts_with ("{" +:+ quoted "type" +:+ ": " +:+ quoted "result") line.

Section Stream.
Context `{HJson : JsonValue}.

(** The report of a result line: not too long and not null. *)
Definition report_of (parsed : string) : option string :=
  match json_get parsed "build_report" with
  | None => None
  | Some r =>
      if (MAX_REPORT_SIZE <? Z.of_nat (String.length r))%Z then None
      else if json_is_null r then None else Some r
  end.

Definition error_of (parsed : string) : option string :=
  match json_get parsed "error" with Some v => json_as_str v | None => None end.

Definition exit_code_of (parsed : string) : Z :=
  cast_i32 (default (-1)%Z (match json_get parsed "exit_code" with
                            | Some v => json_as_i64 v | None => None end)).

(** The next log line joins the batch. *)
Definition push_line (line : string) (st : StreamState) : StreamState :=
  mkStream (line_count st + 1) (batch st ++ [line])
    (match batch st with [] => line_count st | _ => batch_start_seq st end) (wrapper_result st).

Definition result_line (line : string) (st : StreamState) : StreamState :=
  match json_parse line with
  | None => st
  | Some parsed =>
      let error := error_of parsed in
      let st := match error with
                | Some err => if bool_decide (err = "") then st
                              else push_line ("[cbsd] build failed: " +:+ err) st
                | None => st
                end in
      mkStream (line_count st) (batch st) (batch_start_seq st)
        (Some (mkWrapperResult (exit_code_of parsed) error (report_of parsed)))
  end.

(** [flush_batch]: the next flag of [sends] is whether the channel is closed. *)
Definition flush_batch (id : BuildId) (sends : list bool) (st : StreamState)
    : list WorkerMessage * bool * StreamState :=
  let msg := BuildOutput id (batch_start_seq st) (batch st) in
  let st := mkStream (line_count st) [] (batch_start_seq st) (wrapper_result st) in
  match sends with
  | true :: _ => ([], false, st)
  | _ => ([msg], true, st)
  end.

Definition Outcome : Type := BuildFinishedStatus * option string * option string.

(** The end of [stream_output]. *)
Definition final_outcome (st : StreamState) : Outcome :=
  match wrapper_result st with
  | Some wr => (classify_exit_code (Some (exit_code wr)), wr_error wr, wr_build_report wr)
  | None => (FinFailure, None, None)
  end.

(** [stream_output]: the messages sent, and the result, [None] while the stream
    has not ended. *)
Fixpoint stream_output (id : BuildId) (events : list StdoutEvent) (sends : list bool)
    (st : StreamState) : list WorkerMessage * option (result Outcome OutputError) :=
  match events with
  | [] => ([], None)
  | Line line :: events =>
      if is_result_line line then stream_output id events sends (result_line line st)
      else
        let st := push_line line st in
        if BATCH_MAX_LINES <=? length (batch st) then
          let '(sent, ok, st) := flush_batch id sends st in
          if ok then let '(more, r) := stream_output id events (drop 1 sends) st in (sent ++ more, r)
          else (sent, Some (Err SendError))
        else stream_output id events sends st
  | Eof :: _ =>
      match batch st with
      | [] => ([], Some (Ok (final_outcome st)))
      | _ => let '(sent, ok, st) := flush_batch id sends st in
             (sent, Some (if ok then Ok (final_outcome st) else Err SendError))
      end
  | ReadFailed :: _ =>
      match batch st with
      | [] => ([], Some (Err ReadError))
      | _ => let '(sent, _, _) := flush_batch id sends st in (sent, Some (Err ReadError))
      end
  | FlushTimer :: events =>
      match batch st with
      | [] => stream_output id events sends st
      | _ =>
          let '(sent, ok, st) := flush_batch id sends st in
          if ok then let '(more, r) := stream_output id events (drop 1 sends) st in (sent ++ more, r)
          else (sent, Some (Err SendError))
      end
  end.

(** ** What the messages mean *)

(** The messages cut [lines] into non-empty batches numbered from [seq]. *)
Fixpoint batches (id : BuildId) (seq : Z) (msgs : list WorkerMessage) (lines : list string) : Prop :=
  match msgs with
  | [] => lines = []
  | BuildOutput id' start l :: msgs =>
      id' = id ∧ start = seq ∧ l ≠ [] ∧
      ∃ rest, lines = l ++ rest ∧ batches id (seq + Z.of_nat (length l)) msgs rest
  | _ => False
  end.

(** The lines a result line puts in the log. *)
Definition result_log (line : string) : list string :=
  match json_parse line with
  | None => []
  | Some parsed =>
      match error_of parsed with
      | Some err => if bool_decide (err = "") then [] else ["[cbsd] build failed: " +:+ err]
      | None => []
      end
  end.

(** The log of the events before the end of the pipe, and the last result
    line. *)
Fixpoint log_of (events : list StdoutEvent) : list string :=
  match events with
  | Line line :: events => (if is_result_line line then result_log line else [line]) ++ log_of events
  | FlushTimer :: events => log_of events
  | _ => []
  end.

Fixpoint result_of (events : list StdoutEvent) (r : option WrapperResult) : option WrapperResult :=
  match events with
  | Line line :: events =>
      result_of events (if is_result_line line then
        match json_parse line with
        | Some parsed => Some (mkWrapperResult (exit_code_of parsed) (error_of parsed) (report_of parsed))
        | None => r
        end else r)
  | FlushTimer :: events => result_of events r
  | _ => r
  end.

Fixpoint ends_with (e : StdoutEvent) (events : list StdoutEvent) : Prop :=
  match events with
  | [] => False
  | Eof :: _ => e = Eof
  | ReadFailed :: _ => e = ReadFailed
  | _ :: events => ends_with e events
  end.

Lemma batches_cons id seq l msgs lines : l ≠ [] →
  batches id (seq + Z.of_nat (length l)) msgs lines →
  batches id seq (BuildOutput id seq l :: msgs) (l ++ lines).
Proof. intros Hl H. simpl. split_and!; [done|done|done|]. by exists lines. Qed.

(** The state between two events: the batch is what has not been sent. *)
Definition stream_ok (seq : Z) (st : StreamState) : Prop :=
  line_count st = (seq + Z.of_nat (length (batch st)))%Z ∧ (batch st ≠ [] → batch_start_seq st = seq).

Lemma push_line_ok line seq st : stream_ok seq st → stream_ok seq (push_line line st).
Proof.
  intros [Hc Hb]. unfold stream_ok, push_line. simpl. rewrite length_app. simpl. split; [lia|].
  intros _. destruct (batch st) eqn:E; [simpl in Hc; lia|by apply Hb].
Qed.

Lemma result_line_ok line seq st : is_result_line line = true → stream_ok seq st →
  stream_ok seq (result_line line st) ∧ batch (result_line line st) = batch st ++ result_log line ∧
  wrapper_result (result_line line st) = result_of [Line line] (wrapper_result st).
Proof.
  intros E Hs. unfold result_line, result_log. simpl. rewrite E.
  destruct (json_parse line) as [parsed|]; [|by rewrite app_nil_r].
  destruct (error_of parsed) as [err|]; simpl; [|by rewrite app_nil_r].
  case_bool_decide; simpl; [by rewrite app_nil_r|].
  split; [|done]. exact (push_line_ok _ _ _ Hs).
Qed.

Lemma result_of_cons line events r :
  result_of (Line line :: events) r = result_of events (result_of [Line line] r).
Proof. done. Qed.

(** A flush on an open channel sends the batch and starts the next one. *)
Lemma flush_ok id seq st : stream_ok seq st → batch st ≠ [] →
  ∃ st', flush_batch id [] st = ([BuildOutput id seq (batch st)], true, st') ∧
    stream_ok (seq + Z.of_nat (length (batch st))) st' ∧ batch st' = [] ∧
    wrapper_result st' = wrapper_result st.
Proof.
  intros [Hc Hb] Hne. eexists. unfold flush_batch. rewrite Hb by done. split; [done|].
  split_and!; [|done|done]. split; [simpl; lia|done].
Qed.

Lemma stream_output_spec id events : ∀ seq st, stream_ok seq st → ends_with Eof events →
  let '(msgs, r) := stream_output id events [] st in
  batches id seq msgs (batch st ++ log_of events) ∧
  r = Some (Ok (final_outcome (mkStream 0 [] 0 (result_of events (wrapper_result st))))).
Proof.
  induction events as [|[line| | |] events IH]; intros seq st Hs He; [done| | | |done].
  - rewrite result_of_cons. cbn [stream_output log_of]. destruct (is_result_line line) eqn:E.
    + destruct (result_line_ok _ _ _ E Hs) as (Hs' & Hb & Hw). specialize (IH seq _ Hs' He).
      rewrite Hb, Hw, <- app_assoc in IH. done.
    + pose proof (push_line_ok line _ _ Hs) as Hs'.
      assert (Hr : result_of [Line line] (wrapper_result st) = wrapper_result (push_line line st))
        by (simpl; by rewrite E).
      rewrite Hr. assert (Hb : batch (push_line line st) = batch st ++ [line]) by done.
      rewrite (app_assoc (batch st)), <- Hb.
      destruct (BATCH_MAX_LINES <=? _); [|by apply IH].
      destruct (flush_ok id seq _ Hs') as (st' & -> & Hs2 & Hb2 & Hw2).
      { rewrite Hb. by destruct (batch st). }
      specialize (IH _ _ Hs2 He). rewrite Hb2, Hw2 in IH. cbn [drop].
      destruct (stream_output _ _ _ _) as [more r]. destruct IH as [H1 H2]. split; [|done].
      apply batches_cons; [rewrite Hb; by destruct (batch st)|done].
  - cbn [stream_output log_of result_of]. destruct (batch st) as [|b0 bs] eqn:Eb.
    { specialize (IH seq st Hs He). by rewrite Eb in IH. }
    destruct (flush_ok id seq _ Hs) as (st' & -> & Hs2 & Hb2 & Hw2); [by rewrite Eb|].
    specialize (IH _ _ Hs2 He). rewrite Hb2, Hw2 in IH. cbn [drop].
    destruct (stream_output _ _ _ _) as [more r]. destruct IH as [H1 H2]. split; [|done].
    rewrite <- Eb. apply batches_cons; [by rewrite Eb|done].
  - cbn [stream_output log_of result_of]. rewrite app_nil_r.
    destruct (batch st) as [|b0 bs] eqn:Eb; [done|].
    destruct (flush_ok id seq _ Hs) as (st' & -> & Hs2 & Hb2 & Hw2); [by rewrite Eb|].
    rewrite <- Eb. split; [|by rewrite <- Hw2]. rewrite <- (app_nil_r (batch st)) at 2.
    apply batches_cons; [by rewrite Eb|done].
Qed.

(** The output of a build arrives whole: whenever the flush timer fires, the
    messages sent until the end of the pipe cut the log into non-empty batches
    that are numbered without gaps from 0. The log has every line of the build
    in order, except the result lines, of which it shows the error, and the
    status is classified from the exit code of the last result line, a failure
    without one. *)
Theorem stream_output_complete (id : BuildId) (events : list StdoutEvent)
    (He : ends_with Eof events) :
  let '(msgs, r) := stream_output id events [] stream_start in
  batches id 0 msgs (log_of events) ∧
  r = Some (Ok (match result_of events None with
                | Some wr => (classify_exit_code (Some (exit_code wr)), wr_error wr, wr_build_report wr)
                | None => (FinFailure, None, None)
                end)).
Proof.
  pose proof (stream_output_spec id events 0 stream_start) as H.
  destruct (stream_output _ _ _ _) as [msgs r]. apply H; [|done]. by split.
Qed.

End Stream.
