(* ===== verification/WorkerConfig.v ===== *)
(** * Configuration of the worker (cbsd-worker, config.rs)

    The resolution of the identity of the worker from a token or from single
    fields, with the checks that decide whether the worker may start. A path is
    kept as its text. *)

From stdpp Require Import prelude gmap strings list.
From S2P Require Import Prelude Proto FileSystem Common.

(** ** Configuration *)

Record LoggingConfig := mkLogging { lg_level : string; lg_log_file : option string }.

Definition default_log_level : string := "info".
Definition logging_default : LoggingConfig := mkLogging default_log_level None.

Record WorkerMetricsConfig := mkWorkerMetrics {
  wm_enabled : bool;
  push_interval_secs : Z;
  ccache_interval_secs : Z
}.

Definition metrics_default : WorkerMetricsConfig := mkWorkerMetrics true 15 60.

Record WorkerConfig := mkWorkerConfig {
  wc_server_url : string;
  wc_worker_token : option string;
  wc_api_key : option string;
  wc_arch : option string;
  wc_tls_ca_bundle_path : option string;
  wc_cbscore_wrapper_path : option string;
  wc_cbscore_config_path : option string;
  wc_build_timeout_secs : option Z;
  wc_component_temp_dir : option string;
  wc_sigkill_escalation_timeout_secs : option Z;
  wc_reconnect_backoff_ceiling_secs : option Z;
  wc_max_uncompressed_component_bytes : option Z;
  wc_logging : LoggingConfig;
  wc_metrics : WorkerMetricsConfig
}.

Record ResolvedWorkerConfig := mkResolved {
  server_url : string;
  api_key : string;
  worker_name : string;
  arch : Arch;
  dev_mode : bool;
  tls_ca_bundle_path : option string;
  cbscore_wrapper_path : option string;
  cbscore_config_path : option string;
  build_timeout_secs : option Z;
  component_temp_dir : option string;
  sigkill_escalation_timeout_secs : option Z;
  reconnect_backoff_ceiling_secs : option Z;
  max_uncompressed_component_bytes : option Z;
  metrics : WorkerMetricsConfig
}.

Definition backoff_ceiling_secs (c : ResolvedWorkerConfig) : Z :=
  default 30%Z (reconnect_backoff_ceiling_secs c).

Definition max_component_bytes (c : ResolvedWorkerConfig) : Z :=
  default (256 * 1024 * 1024)%Z (max_uncompressed_component_bytes c).

(** [ConfigError::Validation]; reading and parsing the file are not modelled. *)
Inductive ConfigError := Validation (msg : string).

(** [url::Host]. *)
Inductive Host :=
| Domain (d : string)
| Ipv4 (a b c d : Z)
| Ipv6 (segments : list Z).

(** The base64, serde_json and url crates. A URL can have no host. *)
Class ConfigCrates := {
  base64url_decode : string → result string string;
  worker_token_of_json : string → result WorkerToken string;
  url_parse : string → option (option Host)
}.

Section Config.
Context `{HCrates : ConfigCrates}.

(** [Ipv4Addr::is_loopback] and [Ipv6Addr::is_loopback]. *)
Definition host_is_loopback (h : Host) : bool :=
  match h with
  | Domain d => bool_decide (to_lowercase d = "localhost")
  | Ipv4 a _ _ _ => (a =? 127)%Z
  | Ipv6 segments => bool_decide (segments = [0; 0; 0; 0; 0; 0; 0; 1]%Z)
  end.

Definition is_loopback_url (url : string) : bool :=
  match url_parse url with
  | Some (Some h) => host_is_loopback h
  | _ => false
  end.

Definition parse_arch (s : string) : result Arch ConfigError :=
  if bool_decide (s = "x86_64") then Ok X86_64
  else if bool_decide (s = "aarch64") || bool_decide (s = "arm64") then Ok Aarch64
  else Err (Validation ("unsupported arch '" +:+ s +:+ "'; expected 'x86_64' or 'aarch64'")).

(** The checks on the log file, if there is one. *)
Definition check_log_file (f : Fs) (path : string) : option ConfigError :=
  let p := components path in
  if negb (is_absolute p) then
    Some (Validation ("logging.log-file must be an absolute path, got '" +:+ path +:+ "'"))
  else if lacks_file_name p then
    Some (Validation ("logging.log-file has no filename component: '" +:+ path +:+ "'"))
  else match parent p with
       | Some dir =>
           if negb (bool_decide (dir = [])) && negb (path_exists f dir) then
             Some (Validation ("logging.log-file parent directory does not exist: '"
                     +:+ display dir +:+ "'"))
           else None
       | None => None
       end.

Definition resolved_with (c : WorkerConfig) (is_dev : bool) (key name : string) (a : Arch)
    : ResolvedWorkerConfig :=
  mkResolved (wc_server_url c) key name a is_dev (wc_tls_ca_bundle_path c)
    (wc_cbscore_wrapper_path c) (wc_cbscore_config_path c) (wc_build_timeout_secs c)
    (wc_component_temp_dir c) (wc_sigkill_escalation_timeout_secs c)
    (wc_reconnect_backoff_ceiling_secs c) (wc_max_uncompressed_component_bytes c) (wc_metrics c).

(** The identity from a token. *)
Definition resolve_token (c : WorkerConfig) (is_dev : bool) (b64 : string)
    : result ResolvedWorkerConfig ConfigError :=
  match base64url_decode b64 with
  | Err e => Err (Validation ("invalid worker token base64: " +:+ e))
  | Ok json =>
      match worker_token_of_json json with
      | Err e => Err (Validation ("invalid worker token JSON: " +:+ e))
      | Ok token =>
          match parse_arch (wt_arch token) with
          | Err e => Err e
          | Ok a => Ok (resolved_with c is_dev (wt_api_key token) (wt_worker_name token) a)
          end
      end
  end.

(** The identity from single fields. *)
Definition resolve_fields (c : WorkerConfig) (is_dev : bool)
    : result ResolvedWorkerConfig ConfigError :=
  match wc_api_key c with
  | None => Err (Validation "api_key is required when no worker_token is provided")
  | Some key =>
      if bool_decide (key = "") then Err (Validation "api_key must not be empty")
      else match wc_arch c with
           | None => Err (Validation "arch is required when no worker_token is provided")
           | Some s =>
               match parse_arch s with
               | Err e => Err e
               | Ok a => Ok (resolved_with c is_dev key "legacy-worker" a)
               end
           end
  end.

Definition resolve_config (env : Environment) (f : Fs) (c : WorkerConfig)
    : result ResolvedWorkerConfig ConfigError :=
  if bool_decide (wc_server_url c = "") then Err (Validation "server_url must not be empty")
  else
    let is_dev := is_truthy_env env "CBSD_DEV" in
    if negb is_dev && bool_decide (lg_log_file (wc_logging c) = None) then
      Err (Validation ("logging.log-file is required when CBSD_DEV is not set — "
        +:+ "in production mode there is no console output, so a log "
        +:+ "file path must be configured"))
    else if is_dev && negb (is_loopback_url (wc_server_url c)) then
      Err (Validation ("cbsd-worker refuses to start: dev mode (CBSD_DEV) is active but server_url '"
        +:+ wc_server_url c +:+ "' is not a loopback address. "
        +:+ "Dev mode disables TLS certificate verification; only "
        +:+ "loopback URLs (localhost, 127.0.0.1, [::1]) are accepted in this mode."))
    else
      match match lg_log_file (wc_logging c) with
            | Some path => check_log_file f path | None => None end with
      | Some e => Err e
      | None =>
          match match env "CBSD_WORKER_TOKEN" with Some t => Some t | None => wc_worker_token c end with
          | Some b64 => resolve_token c is_dev b64
          | None => resolve_fields c is_dev
          end
      end.

(** ** What a resolved configuration guarantees *)

Lemma resolved_dev_mode c is_dev key name a :
  dev_mode (resolved_with c is_dev key name a) = is_dev ∧
  server_url (resolved_with c is_dev key name a) = wc_server_url c.
Proof. done. Qed.

(** A worker that starts without TLS verification (development mode) only
    talks to a loopback address, and only when the environment says so with one
    of the accepted words; otherwise it logs to a file with an absolute path.
    The token of the environment wins over the token of the configuration, and
    any token over the single fields. *)
Theorem resolved_config_safe (env : Environment) (f : Fs) (c : WorkerConfig) (r : ResolvedWorkerConfig)
    (Hok : resolve_config env f c = Ok r) :
  server_url r = wc_server_url c ∧ server_url r ≠ "" ∧
  (dev_mode r = true ↔ ∃ v, env "CBSD_DEV" = Some v ∧ to_lowercase v ∈ TRUTHY_VALUES) ∧
  (dev_mode r = true → ∃ h, url_parse (server_url r) = Some (Some h) ∧ host_is_loopback h = true) ∧
  (dev_mode r = false → ∃ path, lg_log_file (wc_logging c) = Some path ∧
     is_absolute (components path) = true) ∧
  (∀ t, env "CBSD_WORKER_TOKEN" = Some t → resolve_token c (dev_mode r) t = Ok r) ∧
  (∀ t, env "CBSD_WORKER_TOKEN" = None → wc_worker_token c = Some t →
     resolve_token c (dev_mode r) t = Ok r) ∧
  (env "CBSD_WORKER_TOKEN" = None → wc_worker_token c = None →
     api_key r ≠ "" ∧ wc_api_key c = Some (api_key r)).
Proof.
  unfold resolve_config in Hok.
  destruct (bool_decide (wc_server_url c = "")) eqn:Hurl; [done|]. apply bool_decide_eq_false_1 in Hurl.
  set (is_dev := is_truthy_env env "CBSD_DEV") in *.
  destruct (negb is_dev && _) eqn:Hlog; [done|]. destruct (is_dev && _) eqn:Hloop; [done|].
  destruct (match lg_log_file _ with Some _ => _ | None => _ end) eqn:Hfile; [done|].
  assert (Hr : server_url r = wc_server_url c ∧ dev_mode r = is_dev).
  { unfold resolve_token, resolve_fields in Hok. by split_matches. }
  destruct Hr as [-> Hd]. rewrite Hd. split_and!; [done|done| | | | | |].
  - unfold is_dev, is_truthy_env. destruct (env "CBSD_DEV") as [v|] eqn:E.
    + rewrite is_truthy_spec. split; [by exists v|by intros (? & [= <-] & ?)].
    + split; [done|by intros (? & ? & _)].
  - intros Hdev. rewrite Hdev in Hloop. simpl in Hloop. apply negb_false_iff in Hloop.
    unfold is_loopback_url in Hloop.
    destruct (url_parse _) as [[h|]|]; [|done|done]. by exists h.
  - intros Hdev. rewrite Hdev in Hlog. simpl in Hlog. apply bool_decide_eq_false_1 in Hlog.
    destruct (lg_log_file (wc_logging c)) as [path|]; [|done]. exists path. split; [done|].
    unfold check_log_file in Hfile. by destruct (is_absolute _).
  - intros t Ht. by rewrite Ht in Hok.
  - intros t Ht Hc. by rewrite Ht, Hc in Hok.
  - intros Ht Hc. rewrite Ht, Hc in Hok. unfold resolve_fields in Hok.
    destruct (wc_api_key c) as [key|]; [|done]. destruct (bool_decide (key = "")) eqn:Hk; [done|].
    apply bool_decide_eq_false_1 in Hk. by split_matches.
Qed.

End Config.
