(* ===== verification/WorkerHandler.v ===== *)
(** * The connection of the worker (cbsd-worker, ws/handler.rs,
    ws/connection.rs, build/executor.rs)

    One connection to the server: handshake, delivery of what the supervisor
    kept, the loop over frames, outbound messages and the shutdown signal; the
    handling of a dispatched build; and the loop that reconnects. The frames of a
    connection and the branches [select!] takes are arguments, since both are up
    to the environment; a branch that is not ready waits. *)

From Stdlib Require Import Strings.Byte SpecFloat.
From stdpp Require Import prelude gmap strings list pretty.
From S2P Require Import Prelude Blocking Proto FileSystem Unpack.
From S2P Require Import Supervisor WorkerOutput WorkerConfig.

Definition PROTOCOL_VERSION : Z := 2.

(** A message of the socket, or its failure. *)
Inductive WsFrame :=
| WsText (json : string)
| WsBinary (data : list byte)
| WsPing
| WsPong
| WsClose
| WsRaw
| WsFailed.

Inductive HandlerError :=
| Deserialize
| Send
| Receive
| ConnectionClosed
| ServerError (reason : string)
| UnexpectedFrame.

(** ** build/executor.rs *)

Inductive ExecutorError :=
| WrapperNotFound (path : string)
| MissingConfig (field : string)
| Spawn
| WriteStdin.

(** What the operating system and the websocket crate say of an error, where
    the executable and temporary files live, and the version string. *)
Class WorkerEnv := {
  current_exe_dir : option string;
  std_temp_dir : string;
  ws_error_text : string;
  VERSION : string
}.

Section Handler.
Context `{HCodec : Codec} `{HConfig : SupervisorConfig} `{HTar : TarCrates} `{HJson : JsonValue}
  `{HWorkerEnv : WorkerEnv}.

Definition executor_error_text (e : ExecutorError) : string :=
  match e with
  | WrapperNotFound path => "cbscore wrapper not found: " +:+ path
  | MissingConfig field => "missing required config: " +:+ field
  | Spawn => "failed to spawn build subprocess: " +:+ os_error_text
  | WriteStdin => "failed to write to subprocess stdin: " +:+ os_error_text
  end.

Definition handler_error_text (e : HandlerError) : string :=
  match e with
  | Deserialize => "deserialize error: " +:+ ws_error_text
  | Send => "send error: " +:+ ws_error_text
  | Receive => "receive error: " +:+ ws_error_text
  | ConnectionClosed => "connection closed"
  | ServerError reason => "server error: " +:+ reason
  | UnexpectedFrame => "unexpected frame type"
  end.

Definition resolve_wrapper_path (c : ResolvedWorkerConfig) : string :=
  match cbscore_wrapper_path c with
  | Some path => path
  | None => default "." current_exe_dir +:+ "/scripts/cbscore-wrapper.py"
  end.

(** [spawn_build]: the input of the subprocess is the descriptor, the component
    directory and the trace id, which the model of the process does not need. *)
Definition spawn_build (c : ResolvedWorkerConfig) (id : BuildId) (descriptor : BuildDescriptor)
    (component_path : Path) (trace_id : string) : worker_async (result BuildExecutor ExecutorError) :=
  act (λ w,
    let wrapper := resolve_wrapper_path c in
    if negb (path_exists (w_fs w) (components wrapper)) then (Err (WrapperNotFound wrapper), w)
    else match cbscore_config_path c with
         | None => (Err (MissingConfig "cbscore-config-path"), w)
         | Some _ =>
             let '(failed, w) := fault w in
             if failed then (Err Spawn, w) else
             let '(pid, w) := fresh w in
             let w := set_processes (<[pid := mkProcess false None]> (w_processes w)) w in
             let '(failed, w) := fault w in
             if failed then (Err WriteStdin, w) else (Ok (mkExecutor id pid), w)
         end).

(** ** Sending and receiving *)

(** [send_msg]: serialising a message cannot fail. *)
Definition send_msg (msg : WorkerMessage) : worker_async (result unit HandlerError) :=
  act (λ w, let '(failed, w) := fault w in
            if failed then (Err Send, w) else (Ok (), set_wire (w_wire w ++ [msg]) w)).

(** [send_msg(...).await?; return Ok(())]. *)
Definition reply (msg : WorkerMessage) (frames : list WsFrame)
    : worker_async (result unit HandlerError * list WsFrame) :=
  let+ r := send_msg msg in BRet (r, frames).

(** The end of the stream is the connection closing. *)
Fixpoint wait_for_welcome (frames : list WsFrame)
    : result (string * bool) HandlerError * list WsFrame :=
  match frames with
  | [] => (Err ConnectionClosed, [])
  | WsFailed :: frames => (Err Receive, frames)
  | WsClose :: frames => (Err ConnectionClosed, frames)
  | WsText text :: frames =>
      match server_message_of_json text with
      | None => (Err Deserialize, frames)
      | Some (Welcome _ connection_id _ accepts_metrics) =>
          (Ok (connection_id, accepts_metrics), frames)
      | Some (ErrorMsg reason _ _) => (Err (ServerError reason), frames)
      | Some _ => wait_for_welcome frames
      end
  | _ :: frames => wait_for_welcome frames
  end.

Definition read_server_message (frame : option WsFrame) : result (option ServerMessage) HandlerError :=
  match frame with
  | None => Err ConnectionClosed
  | Some WsFailed => Err Receive
  | Some WsClose => Err ConnectionClosed
  | Some (WsText text) => Ok (server_message_of_json text)
  | Some _ => Ok None
  end.

Fixpoint read_binary_frame (frames : list WsFrame) : result (list byte) HandlerError * list WsFrame :=
  match frames with
  | [] => (Err ConnectionClosed, [])
  | WsFailed :: frames => (Err Receive, frames)
  | WsBinary data :: frames => (Ok data, frames)
  | WsPing :: frames | WsPong :: frames => read_binary_frame frames
  | WsClose :: frames => (Err ConnectionClosed, frames)
  | _ :: frames => (Err UnexpectedFrame, frames)
  end.

(** ** A dispatched build *)

Definition fs_call {A E} (m : Fs → result A E * Fs) : worker_async (result A E) :=
  act (λ w, let '(r, f) := m (w_fs w) in (r, set_fs f w)).

Definition component_temp (c : ResolvedWorkerConfig) : Path :=
  components (match component_temp_dir c with
              | Some d => d | None => std_temp_dir +:+ "/cbsd-components" end).

Definition rejected (id : BuildId) (reason : string) (frames : list WsFrame)
    : worker_async (result unit HandlerError * list WsFrame) :=
  reply (BuildRejected id reason) frames.

Definition failed_build (id : BuildId) (error : string) (frames : list WsFrame)
    : worker_async (result unit HandlerError * list WsFrame) :=
  reply (BuildFinished id FinFailure (Some error) None) frames.

Definition spawn_streamer (id : BuildId) (pid : nat) : worker_async nat :=
  act (λ w, let '(h, w) := fresh w in (h, spawn_task (TaskStreamer h id pid) w)).

(** After the acceptance: the subprocess, the registration, and the start. *)
Definition start_build (c : ResolvedWorkerConfig) (id : BuildId) (trace_id : string)
    (descriptor : BuildDescriptor) (dir : Path) (frames : list WsFrame)
    : worker_async (result unit HandlerError * list WsFrame) :=
  let+ e := spawn_build c id descriptor dir trace_id in
  match e with
  | Err err =>
      do+ cleanup_component dir in
      failed_build id ("spawn failed: " +:+ executor_error_text err) frames
  | Ok exec =>
      let+ r := register_accepted id exec dir in
      match r with
      | Err (Busy active) =>
          failed_build id ("supervisor: worker is busy with build " +:+ pretty (build_id_0 active)) frames
      | Ok _ =>
          let+ r := send_msg (BuildStarted id) in
          match r with
          | Err e => BRet (Err e, frames)
          | Ok _ =>
              do+ mark_started id in
              let+ task := spawn_streamer id (ex_pid exec) in
              do+ attach_output_task id task in
              BRet (Ok (), frames)
          end
      end
  end.

Definition handle_build_new (c : ResolvedWorkerConfig) (frames : list WsFrame) (id : BuildId)
    (trace_id : string) (descriptor : BuildDescriptor) (component_sha256 : string)
    : worker_async (result unit HandlerError * list WsFrame) :=
  let+ active := active_build_id in
  match active with
  | Some _ => rejected id "worker is busy" frames
  | None =>
      match read_binary_frame frames with
      | (Err err, frames) =>
          rejected id ("failed to read component tarball: " +:+ handler_error_text err) frames
      | (Ok tarball, frames) =>
          let+ made := fs_call (create_dir_all (component_temp c)) in
          match made with
          | Err e => rejected id ("failed to create temp directory: " +:+ errno_text e) frames
          | Ok _ =>
              let+ unpacked := fs_call (validate_and_unpack tarball component_sha256 (component_temp c)
                                          (max_component_bytes c)) in
              match unpacked with
              | Err _ => rejected id "component integrity check failed" frames
              | Ok dir =>
                  let+ r := send_msg (BuildAccepted id) in
                  match r with
                  | Err e => BRet (Err e, frames)
                  | Ok _ => start_build c id trace_id descriptor dir frames
                  end
              end
          end
      end
  end.

(** [run_output_streamer]: the local channel hands every message of
    [stream_output] to the supervisor in order, and is not closed before the
    last one; [None] is a subprocess without standard output. *)
Definition streamer_messages (id : BuildId) (stdout : option (list StdoutEvent)) : list WorkerMessage :=
  match stdout with
  | None => [BuildFinished id FinFailure (Some "no stdout on subprocess") None]
  | Some events =>
      let '(sent, r) := stream_output id events [] stream_start in
      sent ++ match r with
              | None => []
              | Some (Ok (status, error, report)) => [BuildFinished id status error report]
              | Some (Err _) =>
                  [BuildFinished id FinFailure
                     (Some ("output streaming error: failed to read subprocess output: " +:+ os_error_text))
                     None]
              end
  end.

Definition run_output_streamer (id : BuildId) (stdout : option (list StdoutEvent)) : worker_async unit :=
  bfor_each (streamer_messages id stdout) on_output_message.

(** ** The message loop *)

(** The branches of [select!]. *)
Inductive Branch := OnFrame | OnOutbound | OnShutdown.

(** [Receiver::recv] on the connection's own channel, whose sender it holds. *)
Definition recv_outbound (ch : nat) : worker_async WorkerMessage :=
  await (λ w, match w_channels w !! ch with
              | Some (mkOutbound o (m :: q)) =>
                  Some (m, set_outbound (<[ch := mkOutbound o q]> (w_channels w)) w)
              | _ => None
              end).

Definition spawn_retire (id : BuildId) : worker_async unit :=
  act (λ w, ((), spawn_task (TaskRetire id) w)).

(** A message to the server; a terminal one retires its build once it is sent. *)
Definition send_outbound (msg : WorkerMessage) : worker_async (result unit HandlerError) :=
  let+ r := send_msg msg in
  match r with
  | Err e => BRet (Err e)
  | Ok _ => match msg with
            | BuildFinished id _ _ _ => do+ spawn_retire id in BRet (Ok ())
            | _ => BRet (Ok ())
            end
  end.

Definition handle_revoke (id : BuildId) : worker_async (result unit HandlerError) :=
  let+ outcome := on_build_revoke id in
  match outcome with
  | RevokingActive | NonActive _ => BRet (Ok ())
  | OutcomeIdle => send_msg (BuildFinished id FinRevoked None None)
  end.

(** One message of the server. *)
Definition handle_server_message (c : ResolvedWorkerConfig) (msg : ServerMessage)
    (frames : list WsFrame) : worker_async (result unit HandlerError * list WsFrame) :=
  match msg with
  | BuildNew id trace_id _ descriptor component_sha256 =>
      handle_build_new c frames id trace_id descriptor component_sha256
  | BuildRevoke id _ => let+ r := handle_revoke id in BRet (r, frames)
  | Welcome _ _ _ _ => BRet (Ok (), frames)
  | ErrorMsg reason _ _ => do+ detach_transport in BRet (Err (ServerError reason), frames)
  | UnauthorizedBuildAction _ _ _ => BRet (Ok (), frames)
  end.

(** [state.notify.notified()], enabled when the worker was not stopping as
    [select!] began: it is ready once the signal comes. *)
Definition shutdown_notified (stopping : bool) : worker_async unit :=
  await (λ w, if stopping then None else if w_stopping w then Some ((), w) else None).

Definition stop_work : worker_async unit :=
  do+ send_msg (WorkerStopping "SIGTERM received") in
  do+ shutdown in
  detach_transport.

(** The loop, for as many rounds as there are branches: [None] while it has not
    ended. *)
Fixpoint message_loop (c : ResolvedWorkerConfig) (ch : nat) (branches : list Branch)
    (frames : list WsFrame) : worker_async (option (result unit HandlerError)) :=
  match branches with
  | [] => BRet None
  | branch :: branches =>
      let+ stopping := act (λ w, (w_stopping w, w)) in
      match branch with
      | OnFrame =>
          match read_server_message (head frames) with
          | Err e => BRet (Some (Err e))
          | Ok None => message_loop c ch branches (tail frames)
          | Ok (Some msg) =>
              let+ (r, frames) := handle_server_message c msg (tail frames) in
              match r with
              | Err e => BRet (Some (Err e))
              | Ok _ => message_loop c ch branches frames
              end
          end
      | OnOutbound =>
          let+ msg := recv_outbound ch in
          let+ r := send_outbound msg in
          match r with
          | Err e => BRet (Some (Err e))
          | Ok _ => message_loop c ch branches frames
          end
      | OnShutdown =>
          do+ shutdown_notified stopping in
          do+ stop_work in
          BRet (Some (Ok ()))
      end
  end.

(** ** The connection *)

(** The delivery of what was kept: it stops at the first failure. *)
Fixpoint send_all (msgs : list WorkerMessage) : worker_async (result unit HandlerError) :=
  match msgs with
  | [] => BRet (Ok ())
  | m :: msgs =>
      let+ r := send_outbound m in
      match r with Err e => BRet (Err e) | Ok _ => send_all msgs end
  end.

(** metrics/sampler.rs. *)
Definition should_start (metrics_enabled accepts_metrics : bool) : bool :=
  metrics_enabled && accepts_metrics.

Definition hello (c : ResolvedWorkerConfig) : WorkerMessage :=
  Hello PROTOCOL_VERSION (arch c) 0 0 (Some VERSION).

(** The outbound channel of this connection, and its end. *)
Definition open_outbound : worker_async nat :=
  act (λ w, let '(ch, w) := fresh w in
            (ch, set_outbound (<[ch := mkOutbound true []]> (w_channels w)) w)).
Definition drop_outbound (ch : nat) : worker_async unit :=
  act (λ w, ((), set_outbound (<[ch := mkOutbound false []]> (w_channels w)) w)).

(** From the Welcome on. *)
Definition connected (c : ResolvedWorkerConfig) (ch : nat) (accepts_metrics : bool)
    (branches : list Branch) (frames : list WsFrame)
    : worker_async (option (result unit HandlerError)) :=
  do+ attach_transport ch in
  let+ pending := take_reconnect_messages in
  let+ r := send_all pending in
  match r with
  | Err e => BRet (Some (Err e))
  | Ok _ =>
      do+ (if should_start (wm_enabled (metrics c)) accepts_metrics
           then act (λ w, ((), spawn_task (TaskSampler ch) w)) else BRet ()) in
      message_loop c ch branches frames
  end.

Definition run_connection (c : ResolvedWorkerConfig) (branches : list Branch) (frames : list WsFrame)
    : worker_async (option (result unit HandlerError)) :=
  let+ r := send_msg (hello c) in
  match r with
  | Err e => BRet (Some (Err e))
  | Ok _ =>
      match wait_for_welcome frames with
      | (Err e, _) => BRet (Some (Err e))
      | (Ok (_, accepts_metrics), frames) =>
          let+ ch := open_outbound in
          let+ r := connected c ch accepts_metrics branches frames in
          match r with
          | None => BRet None
          | Some r => do+ drop_outbound ch in BRet (Some r)
          end
      end
  end.

(** ** Reconnection *)

Definition f64_mul (x y : f64) : f64 := SFmul 53 1024 x y.
Definition f64_add (x y : f64) : f64 := SFadd 53 1024 x y.

(** [f64::min] and [f64::max]: a NaN loses. *)
Definition f64_min (x y : f64) : f64 :=
  match x, y with
  | S754_nan, _ => y
  | _, S754_nan => x
  | _, _ => if SFltb x y then x else y
  end.
Definition f64_max (x y : f64) : f64 :=
  match x, y with
  | S754_nan, _ => y
  | _, S754_nan => x
  | _, _ => if SFltb x y then y else x
  end.

(** 1.0, 2.0, 0.2 and 0.1. *)
Definition f64_1 : f64 := S754_finite false 4503599627370496 (-52).
Definition f64_2 : f64 := S754_finite false 4503599627370496 (-51).
Definition f64_0_2 : f64 := S754_finite false 7205759403792794 (-55).
Definition f64_0_1 : f64 := S754_finite false 7205759403792794 (-56).

Record Backoff := mkBackoff {
  initial_secs : f64;
  multiplier : f64;
  jitter_fraction : f64;
  ceiling_secs : f64;
  current : f64
}.

Definition backoff_new (ceiling : f64) : Backoff :=
  mkBackoff f64_1 f64_2 f64_0_2 ceiling (S754_zero false).

Definition with_current (x : f64) (b : Backoff) : Backoff :=
  mkBackoff (initial_secs b) (multiplier b) (jitter_fraction b) (ceiling_secs b) x.

(** [next_delay]: [jitter] is what the random generator draws from
    [-jitter_fraction..=jitter_fraction]. *)
Definition next_delay (jitter : f64) (b : Backoff) : f64 * Backoff :=
  let cur := if SFeqb (current b) (S754_zero false) then initial_secs b
             else f64_min (f64_mul (current b) (multiplier b)) (ceiling_secs b) in
  (f64_max (f64_mul cur (f64_add f64_1 jitter)) f64_0_1, with_current cur b).

Definition backoff_reset (b : Backoff) : Backoff := with_current (S754_zero false) b.

(** What the environment makes of one round: the connection it gives, if any,
    and the random draw; during the pause the signal may come. *)
Record Attempt := mkAttempt {
  at_connection : option (list Branch * list WsFrame);
  at_jitter : f64;
  at_interrupted : bool
}.

(** [reconnect_loop]: the delays slept, and whether the loop has ended. It has
    not when a connection still runs. *)
Fixpoint reconnect_loop (c : ResolvedWorkerConfig) (attempts : list Attempt) (b : Backoff)
    (delays : list f64) : worker_async (list f64 * bool) :=
  match attempts with
  | [] => BRet (delays, false)
  | a :: attempts =>
      let+ stopping := act (λ w, (w_stopping w, w)) in
      if stopping then BRet (delays, true) else
      let+ b := match at_connection a with
                | None => BRet (Some b)
                | Some (branches, frames) =>
                    let+ r := run_connection c branches frames in
                    match r with
                    | None => BRet None
                    | Some _ => do+ detach_transport in BRet (Some (backoff_reset b))
                    end
                end in
      match b with
      | None => BRet (delays, false)
      | Some b =>
          let+ stopping := act (λ w, (w_stopping w, w)) in
          if stopping then BRet (delays, true) else
          let '(delay, b) := next_delay (at_jitter a) b in
          if at_interrupted a then BRet (delays ++ [delay], true)
          else reconnect_loop c attempts b (delays ++ [delay])
      end
  end.

(** The loop from the start of the worker. *)
Definition run_worker (c : ResolvedWorkerConfig) (attempts : list Attempt) : worker_async (list f64 * bool) :=
  reconnect_loop c attempts (backoff_new (f64_of_u64 (backoff_ceiling_secs c))) [].

End Handler.

(** [install_signal_handler] (signal.rs): SIGTERM sets the flag, then wakes who
    waits. *)
Definition sigterm : worker_async unit :=
  act (λ w, ((), mkWorker (w_locked w) (w_transport w) (w_active w) (w_channels w) (w_spools w)
    (w_processes w) (w_done w) (w_wire w) (w_fs w) true (w_spawned w) (w_next w) (w_faults w))).
