(* ===== verification/WorkerMetrics.v ===== *)
(** * The metrics of the worker (cbsd-worker, metrics/)

    What a worker process counts, what it reads from its host, and the task of a
    connection that sends both to the server. The readings of the sysinfo crate
    and the runs of the ccache command are arguments. Then what they show: every
    tick of the sampler is a message or a counted drop. *)

From Stdlib Require Import SpecFloat.
From stdpp Require Import prelude gmap strings list relations.
From S2P Require Import Prelude Common Blocking Proto FileSystem Unpack Supervisor WorkerOutput WorkerConfig.
From S2P Require Import WorkerHandler.

(** ** app.rs *)

(** The statics of the process; [started_at] is set by the first read. *)
Record Statics := mkStatics {
  SUCCESS : Z; FAILURE : Z; REVOKED : Z; PUSH_DROPS : Z; SIGKILL_ESCALATIONS : Z;
  STARTED_AT : option Z
}.

(** The statics of a process that starts. *)
Definition statics_init : Statics := mkStatics 0 0 0 0 0 None.

(** [fetch_add(1)] on an [AtomicU64]. *)
Definition fetch_add_1 (x : Z) : Z := ((x + 1) mod 2 ^ 64)%Z.

Definition record_subprocess_exit (status : BuildFinishedStatus) (s : Statics) : Statics :=
  match status with
  | FinSuccess => mkStatics (fetch_add_1 (SUCCESS s)) (FAILURE s) (REVOKED s) (PUSH_DROPS s)
                    (SIGKILL_ESCALATIONS s) (STARTED_AT s)
  | FinFailure => mkStatics (SUCCESS s) (fetch_add_1 (FAILURE s)) (REVOKED s) (PUSH_DROPS s)
                    (SIGKILL_ESCALATIONS s) (STARTED_AT s)
  | FinRevoked => mkStatics (SUCCESS s) (FAILURE s) (fetch_add_1 (REVOKED s)) (PUSH_DROPS s)
                    (SIGKILL_ESCALATIONS s) (STARTED_AT s)
  end.

Definition exit_tally (s : Statics) : SubprocessExitCounts :=
  mkSubprocessExitCounts (SUCCESS s) (FAILURE s) (REVOKED s).

Definition record_push_drop (s : Statics) : Statics :=
  mkStatics (SUCCESS s) (FAILURE s) (REVOKED s) (fetch_add_1 (PUSH_DROPS s))
    (SIGKILL_ESCALATIONS s) (STARTED_AT s).

Definition record_sigkill_escalation (s : Statics) : Statics :=
  mkStatics (SUCCESS s) (FAILURE s) (REVOKED s) (PUSH_DROPS s)
    (fetch_add_1 (SIGKILL_ESCALATIONS s)) (STARTED_AT s).

Definition NANOS_PER_SEC : Z := 1000000000.

(** Instants are nanoseconds of the monotonic clock. *)
Definition uptime_secs (now : Z) (s : Statics) : Z * Statics :=
  let started := default now (STARTED_AT s) in
  (((now - started) / NANOS_PER_SEC)%Z,
   mkStatics (SUCCESS s) (FAILURE s) (REVOKED s) (PUSH_DROPS s) (SIGKILL_ESCALATIONS s) (Some started)).

(** [str::split_whitespace]: the word that begins here, and those after it. *)
Fixpoint words_from (s : string) : string * list string :=
  match s with
  | EmptyString => (EmptyString, [])
  | String c s =>
      let '(w, l) := words_from s in
      if is_space c then (EmptyString, if bool_decide (w = "") then l else w :: l) else (String c w, l)
  end.
Definition split_whitespace (s : string) : list string :=
  let '(w, l) := words_from s in if bool_decide (w = "") then l else w :: l.

(** [str::parse::<u64>]. *)
Fixpoint parse_u64_digits (acc : Z) (s : string) : option Z :=
  match s with
  | EmptyString => Some acc
  | String c s =>
      let n := Ascii.nat_of_ascii c in
      if (48 <=? n) && (n <=? 57)
      then let acc := (acc * 10 + Z.of_nat (n - 48))%Z in
           if (U64_MAX <? acc)%Z then None else parse_u64_digits acc s
      else None
  end.
Definition parse_u64 (s : string) : option Z :=
  let digits := match s with
                | String c t => if Ascii.eqb c (Ascii.ascii_of_nat 43) then t else s
                | EmptyString => s
                end in
  if bool_decide (digits = "") then None else parse_u64_digits 0 digits.

Record CcacheStats := mkCcacheStats {
  size_kib : option Z; max_kib : option Z; direct_hit : Z; preprocessed_hit : Z; miss : Z
}.

Definition parse_stats_line (st : CcacheStats) (line : string) : CcacheStats :=
  match split_whitespace line with
  | key :: val :: _ =>
      match parse_u64 val with
      | None => st
      | Some num =>
          let '(mkCcacheStats size max direct pre miss) := st in
          if bool_decide (key = "cache_size_kibibyte") then mkCcacheStats (Some num) max direct pre miss
          else if bool_decide (key = "max_cache_size_kibibyte") then mkCcacheStats size (Some num) direct pre miss
          else if bool_decide (key = "direct_cache_hit") then mkCcacheStats size max num pre miss
          else if bool_decide (key = "preprocessed_cache_hit") then mkCcacheStats size max direct num miss
          else if bool_decide (key = "cache_miss") then mkCcacheStats size max direct pre num
          else st
      end
  | _ => st
  end.

Definition f64_div (x y : f64) : f64 := SFdiv 53 1024 x y.
Definition f64_0 : f64 := S754_zero false.

Definition parse_print_stats (text : string) : option CcacheMetrics :=
  let st := foldl parse_stats_line (mkCcacheStats None None 0 0 0) (file_lines text) in
  let hits := ((direct_hit st + preprocessed_hit st) mod 2 ^ 64)%Z in
  let lookups := ((hits + miss st) mod 2 ^ 64)%Z in
  let hit_ratio := if (lookups =? 0)%Z then f64_0 else f64_div (f64_of_u64 hits) (f64_of_u64 lookups) in
  size ← size_kib st; max ← max_kib st;
  Some (mkCcacheMetrics ((size * 1024) mod 2 ^ 64)%Z ((max * 1024) mod 2 ^ 64)%Z hit_ratio).

(** A run of [ccache --print-stats]: [None] if it could not be started. *)
Record CommandOutput := mkCommandOutput { co_success : bool; co_stdout : string }.

Definition sample_ccache (output : option CommandOutput) : option CcacheMetrics :=
  match output with
  | Some out => if co_success out then parse_print_stats (co_stdout out) else None
  | None => None
  end.

(** ** host.rs *)

Record Disk := mkDisk {
  mount_point : string; total_space : Z; available_space : Z;
  total_read_bytes : Z; total_written_bytes : Z
}.

(** What sysinfo has after the refreshes. *)
Record SystemReadings := mkReadings {
  global_cpu_usage : f64; load_average_one : f64;
  total_memory : Z; used_memory : Z; available_memory : Z; total_swap : Z; used_swap : Z;
  disks : list Disk
}.

(** [f64::clamp]. *)
Definition f64_clamp (x lo hi : f64) : f64 :=
  if SFltb x lo then lo else if SFltb hi x then hi else x.

(** [u64::saturating_add] and [u64::saturating_sub]. *)
Definition sat_add (a b : Z) : Z := Z.min (a + b) U64_MAX.
Definition sat_sub (a b : Z) : Z := Z.max (a - b) 0.

Definition sample_disk (d : Disk) : FilesystemUsage :=
  mkFilesystemUsage (mount_point d) (total_space d) (sat_sub (total_space d) (available_space d)).

Definition sample (r : SystemReadings) : HostMetrics :=
  let '(read, written) := foldl (λ '(r, w) d, (sat_add r (total_read_bytes d), sat_add w (total_written_bytes d)))
                            (0%Z, 0%Z) (disks r) in
  mkHostMetrics (f64_clamp (f64_div (global_cpu_usage r) (f64_of_u64 100)) f64_0 f64_1) (load_average_one r)
    (total_memory r) (used_memory r) (available_memory r) (total_swap r) (used_swap r)
    (sample_disk <$> disks r) read written.

(** ** sampler.rs *)

(** The worker and the statics of its process. *)
Definition SamplerWorld : Type := Worker * Statics.
Abbreviation sampler_async := (bprog SamplerWorld).

Definition statics {A} (f : Statics → A * Statics) : sampler_async A :=
  act (λ '(w, s), let '(a, s) := f s in (a, (w, s))).

(** A program of the worker. *)
Fixpoint on_worker {A} (m : bprog Worker A) : sampler_async A :=
  match m with
  | BRet a => BRet a
  | BStep act k =>
      BStep (λ ws : SamplerWorld, match act ws.1 with Some (r, w) => Some (r, (w, ws.2)) | None => None end)
        (λ r, on_worker (k r))
  end.

(** build/executor.rs: the task that [kill] spawns, once its sleep is over. A
    process that is killed ends without an exit code. *)
Definition kill_group (pid : nat) (w : Worker) : Worker :=
  match w_processes w !! pid with
  | Some (mkProcess cancelled None) =>
      set_processes (<[pid := mkProcess cancelled (Some None)]> (w_processes w)) w
  | _ => w
  end.
Definition escalate (pid : nat) : sampler_async unit :=
  do+ statics (λ s, ((), record_sigkill_escalation s)) in
  on_worker (act (λ w, ((), kill_group pid w))).

(** [try_send]. *)
Definition send_or_count (ch : nat) (msg : WorkerMessage) : sampler_async bool :=
  act (λ '(w, s),
    match w_channels w !! ch with
    | Some (mkOutbound true q) =>
        if decide (length q < OUTPUT_CHANNEL_CAPACITY)
        then (true, (set_outbound (<[ch := mkOutbound true (q ++ [msg])]> (w_channels w)) w, s))
        else (true, (w, record_push_drop s))
    | _ => (false, (w, s))
    end).

(** A tick of the interval: the clock, the run of ccache if there is one and the
    clock after it, the readings of the host, and the clock at the end. *)
Record Tick := mkTick {
  tk_now : Z; tk_ccache : option CommandOutput; tk_refreshed : Z; tk_readings : SystemReadings;
  tk_assembled : Z
}.

Definition ccache_due (interval : Z) (last_ccache : option Z) (t : Tick) : bool :=
  match last_ccache with None => true | Some l => (interval <=? tk_now t - l)%Z end.

Definition push_sample (ch : nat) (carried : option CcacheMetrics) (t : Tick) : sampler_async bool :=
  let host := sample (tk_readings t) in
  let+ exits := statics (λ s, (exit_tally s, s)) in
  let+ spool := on_worker active_spool_bytes in
  let+ drops := statics (λ s, (PUSH_DROPS s, s)) in
  let+ escalations := statics (λ s, (SIGKILL_ESCALATIONS s, s)) in
  let+ uptime := statics (uptime_secs (tk_assembled t)) in
  send_or_count ch (Proto.Metrics uptime host (mkAppMetrics carried exits spool drops escalations)).

(** The loop: [true] when the channel was closed, [false] when it waits for the
    next tick. *)
Fixpoint run_sampler (ch : nat) (interval : Z) (ticks : list Tick)
    (carried : option CcacheMetrics) (last_ccache : option Z) : sampler_async bool :=
  match ticks with
  | [] => BRet false
  | t :: ticks =>
      let '(carried, last_ccache) :=
        if ccache_due interval last_ccache t then (sample_ccache (tk_ccache t), Some (tk_refreshed t))
        else (carried, last_ccache) in
      let+ open := push_sample ch carried t in
      if open then run_sampler ch interval ticks carried last_ccache else BRet true
  end.

(** ** What the metrics of the worker show

    Bounds of a host sample; every tick of the sampler is a message or a counted
    drop, with fresh ccache numbers; and where the sampler waits after all. *)

(** ** The host *)

Lemma clamp_bounds x : SFltb (f64_clamp x f64_0 f64_1) f64_0 = false ∧ SFltb f64_1 (f64_clamp x f64_0 f64_1) = false.
Proof.
  unfold f64_clamp. destruct (SFltb x f64_0) eqn:E0; [by vm_compute|].
  destruct (SFltb f64_1 x) eqn:E1; [by vm_compute|done].
Qed.

Definition u64 (z : Z) : Prop := (0 ≤ z ≤ U64_MAX)%Z.

Lemma sat_add_u64 a b : (0 ≤ a)%Z → (0 ≤ b)%Z → u64 (sat_add a b).
Proof. unfold u64, sat_add, U64_MAX. lia. Qed.

Lemma disk_totals ds r w :
  u64 r → u64 w → Forall (λ d, u64 (total_read_bytes d) ∧ u64 (total_written_bytes d)) ds →
  let t := foldl (λ '(r, w) d, (sat_add r (total_read_bytes d), sat_add w (total_written_bytes d))) (r, w) ds in
  u64 t.1 ∧ u64 t.2 ∧ (r ≤ t.1)%Z ∧ (w ≤ t.2)%Z.
Proof.
  intros Hr Hw Hds. revert r w Hr Hw. induction Hds as [|d ds [H1 H2] _ IH]; intros r w Hr Hw.
  - simpl. split_and!; [done..|lia|lia].
  - simpl. destruct (IH (sat_add r (total_read_bytes d)) (sat_add w (total_written_bytes d))) as (? & ? & ? & ?).
    + apply sat_add_u64; [apply Hr|apply H1].
    + apply sat_add_u64; [apply Hw|apply H2].
    + split_and!; [done..| |]; unfold u64, sat_add in *; lia.
Qed.

(** A sample of the host is in range whatever the host reports. The busy ratio
    is between 0 and 1, no file system uses more than it has, and the totals of
    the disks are 64-bit numbers that do not wrap. *)
Theorem sample_bounds (r : SystemReadings)
    (Hdisks : Forall (λ d, u64 (total_space d) ∧ u64 (available_space d) ∧
                           u64 (total_read_bytes d) ∧ u64 (total_written_bytes d)) (disks r)) :
  SFltb (cpu_busy_ratio (sample r)) f64_0 = false ∧ SFltb f64_1 (cpu_busy_ratio (sample r)) = false ∧
  Forall (λ fs, (0 ≤ fs_used_bytes fs ≤ fs_total_bytes fs)%Z) (filesystems (sample r)) ∧
  u64 (disk_read_bytes_total (sample r)) ∧ u64 (disk_written_bytes_total (sample r)).
Proof.
  unfold sample.
  destruct (disk_totals (disks r) 0 0) as (H1 & H2 & _ & _); [done..| |].
  { eapply Forall_impl; [exact Hdisks|]. by intros d (_ & _ & ?). }
  destruct (foldl _ _ _) as [read written]. simpl in *.
  destruct (clamp_bounds (f64_div (global_cpu_usage r) (f64_of_u64 100))) as [Hlo Hhi].
  split_and!; [done..| |done|done].
  apply Forall_fmap. eapply Forall_impl; [exact Hdisks|]. intros d (Ht & Ha & _).
  unfold u64, sat_sub in *. simpl. unfold sat_sub. lia.
Qed.

(** ** The sampler *)

(** The uptime that a process reports first is zero, however long it has run:
    the start is taken when it is first asked for. *)
Lemma first_uptime_is_zero now s : STARTED_AT s = None → (uptime_secs now s).1 = 0%Z.
Proof. intros Hs. unfold uptime_secs. rewrite Hs. simpl. by rewrite Z.sub_diag. Qed.

(** What a tick leaves in the statics, with and without a drop. *)
Definition after_push (dropped : bool) (t : Tick) (s : Statics) : Statics :=
  let s := (uptime_secs (tk_assembled t) s).2 in if dropped then record_push_drop s else s.

(** The message of a tick. *)
Definition pushed (carried : option CcacheMetrics) (t : Tick) (w : Worker) (s : Statics) : WorkerMessage :=
  Metrics (uptime_secs (tk_assembled t) s).1 (sample (tk_readings t))
    (mkAppMetrics carried (exit_tally s) (default 0%Z (Supervisor.spool_bytes <$> w_active w)) (PUSH_DROPS s)
       (SIGKILL_ESCALATIONS s)).

Lemma brun_statics {A} (f : Statics → A * Statics) w s :
  brun (statics f) (w, s) = Some ((f s).1, (w, (f s).2)).
Proof. unfold statics. rewrite brun_act. by destruct (f s). Qed.

(** Every cancelled build counts as escalated: the task does not look whether
    SIGTERM was enough. *)
Lemma escalation_counts_exited pid cancelled code w s :
  w_processes w !! pid = Some (mkProcess cancelled (Some code)) →
  brun (escalate pid) (w, s) = Some ((), (w, record_sigkill_escalation s)).
Proof.
  intros Hp. unfold escalate. rewrite brun_bind, brun_statics.
  assert (kill_group pid w = w) as Hk by (unfold kill_group; by rewrite Hp).
  etrans; [|rewrite <- Hk at 1]; done.
Qed.

Lemma brun_spool_bytes w s :
  w_locked w = false →
  brun (on_worker active_spool_bytes) (w, s) = Some (default 0%Z (Supervisor.spool_bytes <$> w_active w), (w, s)).
Proof.
  intros Hl. unfold active_spool_bytes, critical, await.
  transitivity (if w_locked w then None
    else Some (match w_active w with Some a => Supervisor.spool_bytes a | None => 0%Z end, (w, s)));
    [by destruct w as [[] ? ? ? ? ? ? ? ? ? ? ? ?]|].
  rewrite Hl. by destruct (w_active w).
Qed.

Lemma brun_push_sample ch carried t w s :
  w_locked w = false →
  brun (push_sample ch carried t) (w, s) =
  match w_channels w !! ch with
  | Some (mkOutbound true q) =>
      if decide (length q < OUTPUT_CHANNEL_CAPACITY)
      then Some (true, (set_outbound (<[ch := mkOutbound true (q ++ [pushed carried t w s])]> (w_channels w)) w,
                        after_push false t s))
      else Some (true, (w, after_push true t s))
  | _ => Some (false, (w, after_push false t s))
  end.
Proof.
  intros Hl. unfold push_sample.
  rewrite brun_bind, brun_statics. cbn [fst snd].
  rewrite brun_bind, brun_spool_bytes by done.
  rewrite brun_bind, brun_statics. cbn [fst snd].
  rewrite brun_bind, brun_statics. cbn [fst snd].
  rewrite brun_bind, brun_statics. cbn [fst snd].
  unfold send_or_count. rewrite brun_act. unfold after_push, pushed.
  destruct (w_channels w !! ch) as [[[] q]|]; try done. by destruct (decide _).
Qed.

Lemma set_outbound_id ch o w :
  w_channels w !! ch = Some o → set_outbound (<[ch := o]> (w_channels w)) w = w.
Proof. intros Hch. unfold set_outbound. rewrite insert_id by done. by destruct w. Qed.

Lemma fetch_add_after n k : fetch_add_1 n = ((n + 1) mod 2 ^ 64)%Z →
  ((fetch_add_1 n + k) mod 2 ^ 64 = (n + (k + 1)) mod 2 ^ 64)%Z.
Proof. intros ->. rewrite Zplus_mod_idemp_l. f_equal. lia. Qed.

(** The ccache numbers of the message of a tick: those of its own run of the
    command, or of an earlier one that is not yet due again. *)
Definition fresh_ccache (interval : Z) (carried : option CcacheMetrics) (last : option Z)
    (ticks : list Tick) (i : nat) (t : Tick) (c : option CcacheMetrics) : Prop :=
  (∃ l, last = Some l ∧ c = carried ∧ (tk_now t - l < interval)%Z) ∨
  (∃ j tj, j ≤ i ∧ ticks !! j = Some tj ∧ c = sample_ccache (tk_ccache tj) ∧
           (j = i ∨ (tk_now t - tk_refreshed tj < interval)%Z)).

Lemma fresh_ccache_tail interval carried last t0 ticks i t c :
  fresh_ccache interval
    (if ccache_due interval last t0 then sample_ccache (tk_ccache t0) else carried)
    (if ccache_due interval last t0 then Some (tk_refreshed t0) else last) ticks i t c →
  fresh_ccache interval carried last (t0 :: ticks) (S i) t c.
Proof.
  intros [(l & Hl & -> & Ht)|(j & tj & Hj & Htj & -> & Hfresh)].
  - destruct (ccache_due interval last t0).
    + right. exists 0, t0. split_and!; [lia|done|done|]. right. by injection Hl as ->.
    + left. by exists l.
  - right. exists (S j), tj. split_and!; [lia|done|done|]. destruct Hfresh as [->|]; [by left|by right].
Qed.

Lemma fresh_ccache_head interval carried last t ticks :
  fresh_ccache interval carried last (t :: ticks) 0 t
    (if ccache_due interval last t then sample_ccache (tk_ccache t) else carried).
Proof.
  destruct (ccache_due interval last t) eqn:E.
  - right. exists 0, t. split_and!; [lia|done|done|by left].
  - left. unfold ccache_due in E. destruct last as [l|]; [|done]. exists l.
    apply Z.leb_gt in E. split_and!; [done|done|lia].
Qed.

(** The message of the [i]-th tick. *)
Definition sample_message (interval : Z) (carried : option CcacheMetrics) (last : option Z)
    (ticks : list Tick) (w : Worker) (s : Statics) (i : nat) (m : WorkerMessage) : Prop :=
  ∃ t up app, ticks !! i = Some t ∧ m = Metrics up (sample (tk_readings t)) app ∧
    subprocess_exits app = exit_tally s ∧
    Proto.spool_bytes app = default 0%Z (Supervisor.spool_bytes <$> w_active w) ∧
    push_drops_total app = PUSH_DROPS s ∧ fresh_ccache interval carried last ticks i t (ccache app).

Lemma sampler_run ch interval q w ticks : ∀ carried last s,
  w_locked w = false → w_channels w !! ch = Some (mkOutbound true q) → length q ≤ OUTPUT_CHANNEL_CAPACITY →
  (0 ≤ PUSH_DROPS s < 2 ^ 64)%Z →
  ∃ msgs s', brun (run_sampler ch interval ticks carried last) (w, s) =
      Some (false, (set_outbound (<[ch := mkOutbound true (q ++ msgs)]> (w_channels w)) w, s')) ∧
    length msgs = Nat.min (length ticks) (OUTPUT_CHANNEL_CAPACITY - length q) ∧
    exit_tally s' = exit_tally s ∧
    PUSH_DROPS s' = ((PUSH_DROPS s + Z.of_nat (length ticks - length msgs)) mod 2 ^ 64)%Z ∧
    ∀ i m, msgs !! i = Some m → sample_message interval carried last ticks w s i m.
Proof.
  revert q w. induction ticks as [|t ticks IH]; intros q w carried last s Hl Hch Hq Hs.
  - exists [], s. rewrite app_nil_r, set_outbound_id by done. simpl. rewrite Z.add_0_r, Z.mod_small by done.
    by split_and!.
  - cbn [run_sampler].
    set (carried' := if ccache_due interval last t then sample_ccache (tk_ccache t) else carried).
    set (last' := if ccache_due interval last t then Some (tk_refreshed t) else last).
    assert ((if ccache_due interval last t then (sample_ccache (tk_ccache t), Some (tk_refreshed t))
             else (carried, last)) = (carried', last')) as ->
      by (unfold carried', last'; by destruct (ccache_due interval last t)).
    rewrite brun_bind, brun_push_sample, Hch by done. destruct (decide _) as [Hroom|Hfull].
    + set (m := pushed carried' t w s).
      set (w1 := set_outbound (<[ch := mkOutbound true (q ++ [m])]> (w_channels w)) w).
      destruct (IH (q ++ [m]) w1 carried' last' (after_push false t s)) as (msgs & s' & Hrun & Hlen & Hex & Hdr & Hms).
      { done. } { apply lookup_insert_eq. } { rewrite length_app. simpl. lia. } { done. }
      exists (m :: msgs), s'. rewrite Hrun. split_and!.
      * do 3 f_equal. unfold w1, set_outbound. simpl. by rewrite insert_insert_eq, <- app_assoc.
      * cbn [length]. rewrite Hlen, length_app. cbn [length]. lia.
      * by rewrite Hex.
      * rewrite Hdr. simpl. do 3 f_equal.
      * intros [|i] m'; simpl.
        -- intros [= <-]. exists t. unfold m, pushed. eexists _, _. split_and!; try done. apply fresh_ccache_head.
        -- intros Hi. destruct (Hms i m' Hi) as (ti & up & app & Hti & -> & H1 & H2 & H3 & H4).
           exists ti, up, app. split_and!; try done. by apply fresh_ccache_tail.
    + destruct (IH q w carried' last' (after_push true t s)) as (msgs & s' & Hrun & Hlen & Hex & Hdr & Hms);
        [done..|apply Z.mod_pos_bound; lia|].
      exists msgs, s'. rewrite Hrun. assert (length msgs = 0) as H0 by lia.
      apply length_zero_iff_nil in H0 as ->. split_and!; [done|cbn [length]; lia|by rewrite Hex| |done].
      rewrite Hdr. simpl length. rewrite Nat.sub_0_r. unfold after_push, record_push_drop at 1. cbn [PUSH_DROPS].
      rewrite fetch_add_after by done. unfold uptime_secs. simpl PUSH_DROPS. f_equal. lia.
Qed.

(** While the mutex of the supervisor is held, a tick gets as far as reading the
    fill of the spool, and waits there with nothing sent and nothing counted. *)
Lemma sampler_waits ch interval t ticks carried last w s :
  ∃ ts, rtc bpool_step ((set_locked true w, s), [do+ run_sampler ch interval (t :: ticks) carried last in BRet ()])
          ((set_locked true w, s), ts) ∧
        deadlocked ((set_locked true w, s), ts).
Proof.
  cbn [run_sampler]. destruct (if ccache_due interval last t then _ else _) as [c l].
  eexists. split.
  - eapply rtc_l; [|apply rtc_refl].
    by apply (bpool_step_first (set_locked true w, s) (set_locked true w, s) _ _ (exit_tally s)).
  - split; [done|]. by repeat constructor.
Qed.

(** C32: The sampler accounts for every tick for which it gets the supervisor's
    mutex. As long as the mutex is free, the channel is open and nobody drains it,
    the sampler goes on: a tick puts a message into the channel or, when the
    channel is full, adds one to the drops. Each message has the readings of its
    tick, the tally of the exits, the fill of the spool, the drops before it, and
    ccache numbers from a run of the command that was due no later than the tick.
    While the mutex is held, a tick waits: it sends nothing and counts no drop. *)
Theorem sampler_accounts_for_ticks (ch : nat) (interval : Z) (ticks : list Tick) (q : list WorkerMessage)
    (w : Worker) (s : Statics)
    (Hl : w_locked w = false) (Hch : w_channels w !! ch = Some (mkOutbound true q))
    (Hq : length q ≤ OUTPUT_CHANNEL_CAPACITY) (Hs : (0 ≤ PUSH_DROPS s < 2 ^ 64)%Z) :
  (∃ msgs s', brun (run_sampler ch interval ticks None None) (w, s) =
      Some (false, (set_outbound (<[ch := mkOutbound true (q ++ msgs)]> (w_channels w)) w, s')) ∧
    length msgs = Nat.min (length ticks) (OUTPUT_CHANNEL_CAPACITY - length q) ∧
    exit_tally s' = exit_tally s ∧
    PUSH_DROPS s' = ((PUSH_DROPS s + Z.of_nat (length ticks - length msgs)) mod 2 ^ 64)%Z ∧
    ∀ i m, msgs !! i = Some m → ∃ t up app, ticks !! i = Some t ∧ m = Metrics up (sample (tk_readings t)) app ∧
      subprocess_exits app = exit_tally s ∧
      Proto.spool_bytes app = default 0%Z (Supervisor.spool_bytes <$> w_active w) ∧
      push_drops_total app = PUSH_DROPS s ∧
      ∃ j tj, j ≤ i ∧ ticks !! j = Some tj ∧ ccache app = sample_ccache (tk_ccache tj) ∧
              (j = i ∨ (tk_now t - tk_refreshed tj < interval)%Z)) ∧
  ∀ t rest carried last, ∃ ts,
    rtc bpool_step ((set_locked true w, s), [do+ run_sampler ch interval (t :: rest) carried last in BRet ()])
      ((set_locked true w, s), ts) ∧
    deadlocked ((set_locked true w, s), ts).
Proof.
  split; [|intros; apply sampler_waits].
  destruct (sampler_run ch interval q w ticks None None s Hl Hch Hq Hs) as (msgs & s' & H1 & H2 & H3 & H4 & H5).
  exists msgs, s'. split_and!; [done..|]. intros i m Hm.
  destruct (H5 i m Hm) as (t & up & app & Ht & Hma & E1 & E2 & E3 & [(l & [=] & _)|Hj]).
  exists t, up, app. by split_and!.
Qed.

(** It ends at the first tick after the connection has dropped the channel. *)
Lemma sampler_stops ch interval t ticks w s :
  w_locked w = false → w_channels w !! ch = Some (mkOutbound false []) →
  brun (run_sampler ch interval (t :: ticks) None None) (w, s) = Some (true, (w, after_push false t s)).
Proof. intros Hl Hch. cbn [run_sampler]. simpl ccache_due. cbn iota. by rewrite brun_bind, brun_push_sample, Hch. Qed.

(** A full channel stalls the sampler. The message of the sampler never waits,
    but reading the fill of the spool waits for the supervisor, which holds its
    mutex while an output message waits for room: the sampler neither sends nor
    counts a drop until the channel is drained. *)
Theorem full_channel_stalls_sampler `{HCodec : Codec} `{HConfig : SupervisorConfig} (ch : nat) (interval : Z)
    (t : Tick) (ticks : list Tick) (a : ActiveBuild) (seq : Z) (lines : list string)
    (q : list WorkerMessage) (w : Worker) (s : Statics)
    (Hl : w_locked w = false) (Ha : w_active w = Some a) (Ht : w_transport w = Some ch)
    (Hch : w_channels w !! ch = Some (mkOutbound true q)) (Hfull : length q = OUTPUT_CHANNEL_CAPACITY) :
  ∃ ts, rtc bpool_step
      ((w, s), [on_worker (on_output_message (BuildOutput (build_id a) seq lines));
                do+ run_sampler ch interval (t :: ticks) None None in BRet ()]) ((set_locked true w, s), ts) ∧
    deadlocked ((set_locked true w, s), ts).
Proof.
  set (out := BuildOutput (build_id a) seq lines).
  eexists. split.
  - eapply rtc_l; [apply (bpool_step_first (w, s) (set_locked true w, s) _ _ (ForwardTo ch))|].
    { simpl. rewrite Hl. unfold begin_output. rewrite Ha, bool_decide_eq_true_2 by done. simpl. by rewrite Ht. }
    eapply rtc_l; [|apply rtc_refl].
    by apply (bpool_step_second (set_locked true w, s) (set_locked true w, s) _ _ _ (exit_tally s)).
  - split; [done|]. repeat constructor; try done.
    unfold finish_output. cbn. rewrite Hch. rewrite decide_False by lia. done.
Qed.
