(* ===== verification/WorkerSpec.v ===== *)
(** * The worker keeps its builds (build/supervisor.rs, ws/handler.rs)

    The record of the active build stays well formed under every interleaving of
    connections, output streamers, retirements and signals; what a build writes
    while the worker is disconnected is delivered on the next connection, in
    order; and the places where the worker loses a build, a result or a
    signal. *)

From Stdlib Require Import SpecFloat.
From stdpp Require Import prelude gmap sets strings list relations.
From S2P Require Import Prelude Tokens Blocking Proto FileSystem Unpack.
From S2P Require Import Supervisor WorkerOutput WorkerConfig WorkerHandler.

Section WorkerSpec.
Context `{HCodec : Codec} `{HConfig : SupervisorConfig} `{HTar : TarCrates} `{HJson : JsonValue}
  `{HWorkerEnv : WorkerEnv}.

(** ** The invariant *)

Definition is_terminal_of (id : BuildId) (m : WorkerMessage) : Prop :=
  ∃ status error report, m = BuildFinished id status error report.

Record build_ok (a : ActiveBuild) : Prop := {
  bo_bytes : (0 ≤ spool_bytes a ≤ Z.max 0 spool_cap_bytes)%Z;
  bo_path : ∀ p, spool_path a = Some p → p = spool_file (build_id a);
  bo_terminal : ∀ m, pending_terminal a = Some m →
    phase a = TerminalPendingReport ∧ is_terminal_of (build_id a) m;
  bo_exhausted : spool_exhausted a = true → phase a = TerminalPendingReport ∨ phase a = Revoking
}.

Definition record_ok (w : Worker) : Prop := ∀ a, w_active w = Some a → build_ok a.

(** Who has the mutex: nobody, a task that forwards output of a build, which is
    still the active one, or another. *)
Definition held (T : gset (option Z)) (w : Worker) : Prop :=
  (T = ∅ ∧ w_locked w = false) ∨
  (T = {[None]} ∧ w_locked w = true) ∨
  ∃ a, T = {[Some (build_id_0 (build_id a))]} ∧ w_locked w = true ∧ w_active w = Some a.

Definition worker_ok (T : gset (option Z)) (w : Worker) : Prop := record_ok w ∧ held T w.

Abbreviation wbalanced := (bbalanced worker_ok).

(** The same mutex and the same record. *)
Definition same_record (w w' : Worker) : Prop :=
  w_locked w' = w_locked w ∧ w_active w' = w_active w.

Lemma same_record_ok T w w' : same_record w w' → worker_ok T w → worker_ok T w'.
Proof.
  intros [Hl Ha] [Hr Hh]. split; [intros a; rewrite Ha; apply Hr|].
  unfold held. by rewrite Hl, Ha.
Qed.

Lemma balanced_act {R} (f : Worker → R * Worker) :
  (∀ w, same_record w (f w).2) → wbalanced (act f).
Proof.
  intros Hf. apply bbalanced_await. intros T w r w' Hw [= E].
  specialize (Hf w). rewrite E in Hf. by eapply same_record_ok.
Qed.

Lemma balanced_wait {R} (f : Worker → option (R * Worker)) :
  (∀ w r w', f w = Some (r, w') → same_record w w') → wbalanced (await f).
Proof. intros Hf. apply bbalanced_await. intros T w r w' Hw E. eapply same_record_ok; eauto. Qed.

Lemma token_not_empty (x : option Z) (F : gset (option Z)) : {[x]} ∪ F ≠ ∅.
Proof. set_solver. Qed.

Lemma token_alone (x y : option Z) (F : gset (option Z)) :
  {[x]} ## F → {[x]} ∪ F = {[y]} → x = y ∧ F = ∅.
Proof. intros Hd He. assert (x = y) as -> by set_solver. split; [done|]. set_solver. Qed.

(** The owner of the token has the mutex alone. *)
Lemma held_token x F w : {[x]} ## F → held ({[x]} ∪ F) w →
  F = ∅ ∧ w_locked w = true ∧
  ∀ id, x = Some id → ∃ a, build_id_0 (build_id a) = id ∧ w_active w = Some a.
Proof.
  intros HF [[Hh _]|[[Hh Hl]|(b & Hh & Hl & Hb)]].
  - by apply token_not_empty in Hh.
  - apply token_alone in Hh as [-> ->]; [|done]. done.
  - apply token_alone in Hh as [-> ->]; [|done]. split_and!; [done|done|]. intros id [= <-]. by exists b.
Qed.

Lemma held_unlocked T w : held T w → w_locked w = false → T = ∅.
Proof. by intros [[-> _]|[[_ ->]|(a & _ & -> & _)]]. Qed.

(** A section of the mutex that leaves it free. *)
Lemma balanced_critical {R} (f : Worker → R * Worker) :
  (∀ w, w_locked w = false → record_ok w → w_locked (f w).2 = false ∧ record_ok (f w).2) →
  wbalanced (critical f).
Proof.
  intros Hf. apply bbalanced_await. intros T w r w' [Hr Hh].
  destruct (w_locked w) eqn:Hl; [done|]. intros [= E]. specialize (Hf w Hl Hr). rewrite E in Hf.
  destruct Hf as [Hl' Hr']. split; [done|]. left. split; [by eapply held_unlocked|done].
Qed.

(** ** Single steps *)

Lemma fault_same w : same_record w (fault w).2.
Proof. unfold fault. by destruct (w_faults w). Qed.

Lemma kill_same exec w : same_record w (kill_opt exec w).
Proof.
  destruct exec as [e|]; [|done]. simpl. unfold kill.
  destruct (w_processes w !! ex_pid e) as [p|]; [|done]. by destruct (pr_cancelled p).
Qed.

Lemma same_record_trans w1 w2 w3 : same_record w1 w2 → same_record w2 w3 → same_record w1 w3.
Proof. intros [H1 H2] [H3 H4]. split; congruence. Qed.

Lemma append_spool_same path payload w : same_record w (append_spool path payload w).2.
Proof.
  unfold append_spool.
  repeat match goal with
  | |- context [fault ?w0] =>
      let H := fresh "H" in pose proof (fault_same w0) as H; destruct (fault w0) as [[] ?]; cbn [snd] in H
  end; unfold same_record in *; simpl in *; intuition congruence.
Qed.

Lemma set_active_ok a w : build_ok a → record_ok (set_active (Some a) w).
Proof. by intros Ha b [= <-]. Qed.

Lemma fail_spool_ok a error w : build_ok a → record_ok (fail_spool a error w).
Proof.
  intros [Hb Hp Ht He]. apply set_active_ok. split; simpl; [done|done| |by left].
  intros m [= <-]. split; [done|]. by repeat eexists.
Qed.

Lemma fail_spool_locked a error w : w_locked (fail_spool a error w) = w_locked w.
Proof. apply kill_same. Qed.

Lemma with_spool_ok a p n : build_ok a → (0 ≤ n ≤ Z.max 0 spool_cap_bytes)%Z →
  (∀ q, p = Some q → q = spool_file (build_id a)) → build_ok (with_spool p n a).
Proof. intros [Hb Hp Ht He] Hn Hq. by split. Qed.

(** Spooling keeps the record well formed when the terminal is of the build. *)
Lemma spool_and_finalize_ok msg is_terminal w :
  record_ok w →
  (∀ a, is_terminal = true → w_active w = Some a → is_terminal_of (build_id a) msg) →
  record_ok (spool_and_finalize msg is_terminal w) ∧
  w_locked (spool_and_finalize msg is_terminal w) = w_locked w.
Proof.
  intros Hr Hm. unfold spool_and_finalize. destruct (w_active w) as [a|] eqn:Ea; [|done].
  pose proof (Hr a Ea) as Ha. destruct (spool_exhausted a); [done|].
  destruct is_terminal; [|set (total := Z.min _ _)].
  { split; [|done]. apply set_active_ok. destruct Ha as [Hb Hp Ht He].
    split; simpl; [done|done| |by left]. intros m [= <-]. split; [done|]. by apply Hm. }
  destruct (spool_cap_bytes <? total)%Z eqn:Ec.
  { split; [by apply fail_spool_ok|apply fail_spool_locked]. }
  apply Z.ltb_ge in Ec. set (path := default _ _).
  assert (Hpath : path = spool_file (build_id a)).
  { unfold path. destruct (spool_path a) eqn:E; [|done]. by apply (bo_path a Ha) in E. }
  assert (Ha' : build_ok (with_spool (Some path) (spool_bytes a) a)).
  { apply with_spool_ok; [done|apply Ha|]. by intros q [= <-]. }
  pose proof (append_spool_same path (worker_message_to_json msg) w) as [Hl _].
  destruct (append_spool _ _ w) as [[[]|e] w']; cbn [snd] in *.
  - split; [|done]. apply set_active_ok. apply with_spool_ok; [done| |by intros q [= <-]].
    pose proof (bo_bytes a Ha). unfold total, U64_MAX in *. lia.
  - split; [by apply fail_spool_ok|]. by rewrite fail_spool_locked.
Qed.

Lemma on_active_ok id f w : w_locked w = false → record_ok w → (∀ a, build_ok a → build_ok (f a)) →
  w_locked (on_active id f w) = false ∧ record_ok (on_active id f w).
Proof.
  intros Hl Hr Hf. unfold on_active. destruct (w_active w) as [a|] eqn:Ea; [|done].
  case_bool_decide; [|done]. split; [done|]. by apply set_active_ok, Hf, Hr.
Qed.

(** ** Methods *)

Lemma register_accepted_balanced id exec dir : wbalanced (register_accepted id exec dir).
Proof.
  apply balanced_critical. intros w Hl Hr. destruct (w_active w) eqn:E; [done|].
  split; [done|]. apply set_active_ok. by split; simpl; [lia|..].
Qed.

Lemma attach_output_task_balanced id t : wbalanced (attach_output_task id t).
Proof. apply balanced_critical. intros w Hl Hr. apply on_active_ok; [done..|]. intros a [????]. by split. Qed.

Lemma mark_started_balanced id : wbalanced (mark_started id).
Proof.
  apply balanced_critical. intros w Hl Hr. apply on_active_ok; [done..|]. intros a [Hb Hp Ht He].
  case_bool_decide as Hph; [|by split]. split; simpl; [done|done| |].
  - intros m Hm. destruct (Ht m Hm). congruence.
  - intros Hx. destruct (He Hx); congruence.
Qed.

Lemma on_build_revoke_balanced id : wbalanced (on_build_revoke id).
Proof.
  apply balanced_critical. intros w Hl Hr. destruct (w_active w) as [a|] eqn:Ea; [|done].
  case_bool_decide; [|done]. cbn [snd].
  destruct (kill_same (executor a) (set_active (Some (with_terminal Revoking None a)) w)) as [H1 H2].
  split; [by rewrite H1|]. intros b. rewrite H2. intros [= <-].
  destruct (Hr a Ea). by split; simpl; auto.
Qed.

Lemma detach_transport_balanced : wbalanced detach_transport.
Proof. apply balanced_critical. by intros w. Qed.

Lemma attach_transport_balanced ch : wbalanced (attach_transport ch).
Proof. apply balanced_critical. by intros w. Qed.

Lemma active_build_id_balanced : wbalanced active_build_id.
Proof. apply balanced_critical. by intros w. Qed.

Lemma clear_active_balanced id : wbalanced (clear_active id).
Proof.
  apply balanced_critical. intros w Hl Hr. destruct (w_active w) as [a|] eqn:E; [|done].
  case_bool_decide; done.
Qed.

Lemma without_handles_ok a : build_ok a → build_ok (without_handles a).
Proof. intros [????]. by split. Qed.

(** Output: the task that waits for the channel owns the mutex, and the build it
    forwards for stays the active one. *)
Lemma output_of_balanced id msg is_terminal :
  (is_terminal = true → is_terminal_of id msg) → wbalanced (output_of id msg is_terminal).
Proof.
  intros Hm. apply bowned_bind. simpl. intros w F f w' HF [Hr Hh].
  unfold critical. destruct (w_locked w) eqn:Hl; [done|]. intros [= E].
  assert (F = ∅) as -> by (rewrite (left_id_L ∅ (∪)) in Hh; by eapply held_unlocked).
  unfold begin_output in E.
  assert (Hdone : ∀ w', w_locked w' = false → record_ok w' →
    ∃ T' : gset (option Z), T' ## ∅ ∧ worker_ok (T' ∪ ∅) w' ∧ T' = ∅).
  { intros w1 Hl1 Hr1. exists ∅. split_and!; [done| |done]. split; [done|]. left. split; [set_solver|done]. }
  destruct (w_active w) as [a|] eqn:Ea; [|simplify_eq; by apply Hdone].
  destruct (negb _) eqn:Hid; [simplify_eq; by apply Hdone|].
  apply negb_false_iff, bool_decide_eq_true_1 in Hid.
  destruct (w_transport w) as [c|]; simplify_eq; cycle 1.
  { destruct (spool_and_finalize_ok msg is_terminal w Hr) as [H1 H2].
    { intros b Ht Hb. assert (b = a) as -> by congruence. auto. }
    apply Hdone; [by rewrite H2|done]. }
  exists {[Some (build_id_0 (build_id a))]}. split_and!; [set_solver| |].
  { split; [done|]. right. right. exists a. split_and!; [set_solver|done|done]. }
  simpl. clear w Hl Hr Hh Ea Hdone.
  intros w F u w2 HF2 [Hr Hh] Hf. exists ∅.
  destruct (held_token _ _ _ HF2 Hh) as (-> & _ & Ht). destruct (Ht _ eq_refl) as (b & Hab & Hb).
  assert (build_id b = build_id a) as Hab' by (destruct (build_id a), (build_id b); simpl in Hab; congruence).
  clear Hab Ht Hh.
  split_and!; [done| |done]. cut (w_locked w2 = false ∧ record_ok w2).
  { intros [H1 H2]. split; [done|]. left. split; [set_solver|done]. }
  unfold finish_output in Hf. destruct (w_channels w !! c) as [[[] q]|];
    [case_decide; simplify_eq; done| |].
  all: simplify_eq; split; [done|].
  all: intros d Hd; apply (spool_and_finalize_ok msg is_terminal (set_transport None w) Hr) in Hd; [done|].
  all: intros e Ht He; simpl in He; assert (e = b) as -> by congruence; rewrite Hab'; auto.
Qed.

Lemma send_or_spool_balanced msg : wbalanced (send_or_spool msg).
Proof.
  apply bowned_bind. simpl. intros w F t w' HF [Hr Hh].
  unfold critical. destruct (w_locked w) eqn:Hl; [done|]. intros [= E].
  assert (F = ∅) as -> by (rewrite (left_id_L ∅ (∪)) in Hh; by eapply held_unlocked).
  destruct (w_transport w) as [c|]; simplify_eq; cycle 1.
  { exists ∅. split_and!; [done| |done]. split; [done|]. left. split; [set_solver|done]. }
  exists {[None]}. split_and!; [set_solver| |].
  { split; [done|]. right. left. split; [set_solver|done]. }
  simpl. clear w Hl Hr Hh HF. intros w F u w2 HF [Hr Hh] Hf. exists ∅.
  destruct (held_token _ _ _ HF Hh) as (-> & _ & _).
  split_and!; [done| |done].
  cut (w_locked w2 = false ∧ record_ok w2).
  { intros [H1 H2]. split; [done|]. left. split; [set_solver|done]. }
  destruct (w_channels w !! c) as [[[] q]|]; [case_decide; simplify_eq; done|by simplify_eq|by simplify_eq].
Qed.

Lemma on_output_message_balanced msg : wbalanced (on_output_message msg).
Proof.
  destruct msg; try apply send_or_spool_balanced; apply output_of_balanced; [done|].
  intros _. by repeat eexists.
Qed.

Hint Resolve register_accepted_balanced attach_output_task_balanced mark_started_balanced
  on_build_revoke_balanced detach_transport_balanced attach_transport_balanced
  active_build_id_balanced clear_active_balanced on_output_message_balanced : bown.

(** Actions on the rest of the state. *)
Ltac same_state :=
  repeat match goal with
  | |- context [fault ?w0] =>
      let H := fresh "H" in pose proof (fault_same w0) as H; destruct (fault w0) as [[] ?]; cbn [snd] in H
  | |- context [fresh ?w0] => unfold fresh
  end; unfold same_record in *; simpl in *; intuition congruence.

Lemma send_msg_balanced msg : wbalanced (send_msg msg).
Proof. apply balanced_act. intros w. same_state. Qed.

Lemma remove_spool_balanced p : wbalanced (remove_spool p).
Proof. apply balanced_act. intros w. same_state. Qed.

Lemma cleanup_component_balanced dir : wbalanced (cleanup_component dir).
Proof. by apply balanced_act. Qed.

Lemma join_task_balanced t : wbalanced (join_task t).
Proof. apply balanced_wait. intros w r w' E. by case_decide; simplify_eq. Qed.

Lemma wait_balanced exec : wbalanced (wait exec).
Proof.
  apply balanced_wait. intros w r w' E.
  destruct (w_processes w !! ex_pid exec) as [[c [code|]]|]; by simplify_eq.
Qed.

Lemma fs_call_balanced {A E} (m : Fs → result A E * Fs) : wbalanced (fs_call m).
Proof. apply balanced_act. intros w. by destruct (m (w_fs w)). Qed.

Lemma read_flag_balanced : wbalanced (act (λ w, (w_stopping w, w))).
Proof. by apply balanced_act. Qed.

Lemma spawn_retire_balanced id : wbalanced (spawn_retire id).
Proof. by apply balanced_act. Qed.

Lemma spawn_streamer_balanced id pid : wbalanced (spawn_streamer id pid).
Proof. by apply balanced_act. Qed.

Lemma spawn_build_balanced c id descriptor dir trace_id :
  wbalanced (spawn_build c id descriptor dir trace_id).
Proof.
  apply balanced_act. intros w. cbv beta zeta. destruct (negb _); [done|].
  destruct (cbscore_config_path c); [|done]. same_state.
Qed.

Lemma recv_outbound_balanced ch : wbalanced (recv_outbound ch).
Proof.
  apply balanced_wait. intros w r w' E. by destruct (w_channels w !! ch) as [[o [|m q]]|]; simplify_eq.
Qed.

Lemma shutdown_notified_balanced b : wbalanced (shutdown_notified b).
Proof. apply balanced_wait. intros w r w' E. by destruct b, (w_stopping w); simplify_eq. Qed.

Lemma open_outbound_balanced : wbalanced open_outbound.
Proof. by apply balanced_act. Qed.

Lemma drop_outbound_balanced ch : wbalanced (drop_outbound ch).
Proof. by apply balanced_act. Qed.

Lemma sigterm_balanced : wbalanced sigterm.
Proof. by apply balanced_act. Qed.

Hint Resolve send_msg_balanced remove_spool_balanced cleanup_component_balanced join_task_balanced
  wait_balanced fs_call_balanced read_flag_balanced spawn_retire_balanced spawn_streamer_balanced
  spawn_build_balanced recv_outbound_balanced shutdown_notified_balanced open_outbound_balanced
  drop_outbound_balanced sigterm_balanced : bown.

(** Take a program apart down to its actions. *)
Ltac balance :=
  repeat first
    [ progress auto with bown
    | apply bbalanced_bind; [|intros ?]
    | apply bbalanced_ret
    | case_match ].

Lemma drain_to_messages_balanced id path : wbalanced (drain_to_messages id path).
Proof.
  unfold drain_to_messages. apply bbalanced_bind.
  { apply balanced_act. intros w. unfold drain_spool.
    pose proof (fault_same w) as H1. destruct (fault w) as [[] w1]; cbn [snd] in H1; [done|].
    destruct (w_spools w1 !! path); [|done].
    pose proof (fault_same w1) as H2. destruct (fault w1) as [[] w2]; cbn [snd] in H2;
      by eapply same_record_trans. }
  intros r. balance. apply balanced_critical. intros w Hl Hr. apply on_active_ok; [done..|].
  intros b Hb. apply with_spool_ok; [done|lia|done].
Qed.

Lemma reconnect_snapshot_balanced : wbalanced (critical reconnect_snapshot).
Proof.
  apply balanced_critical. intros w Hl Hr. unfold reconnect_snapshot.
  destruct (w_active w) as [a|] eqn:Ea; [|done]. case_bool_decide; [|done].
  split; [done|]. apply set_active_ok. destruct (Hr a Ea). by split.
Qed.
Hint Resolve drain_to_messages_balanced reconnect_snapshot_balanced : bown.

Lemma take_reconnect_messages_balanced : wbalanced take_reconnect_messages.
Proof. unfold take_reconnect_messages. balance. Qed.

Lemma await_build_balanced task exec dir spool : wbalanced (await_build task exec dir spool).
Proof. unfold await_build. balance. Qed.
Hint Resolve take_reconnect_messages_balanced await_build_balanced : bown.

Lemma retire_balanced id : wbalanced (retire id).
Proof.
  unfold retire. apply bbalanced_bind; [|intros ?; balance].
  apply balanced_critical. intros w Hl Hr. destruct (w_active w) as [a|] eqn:Ea; [|done].
  case_bool_decide; [|done]. split; [done|]. by apply set_active_ok, without_handles_ok, Hr.
Qed.

Lemma shutdown_balanced : wbalanced shutdown.
Proof.
  unfold shutdown. apply bbalanced_bind; [|intros ?; balance].
  apply balanced_critical. intros w Hl Hr. destruct (w_active w) as [a|] eqn:Ea; [|done].
  cbn [snd]. split; [simpl; by destruct (kill_same (executor a) w) as [-> _]|].
  by apply set_active_ok, without_handles_ok, Hr.
Qed.
Hint Resolve retire_balanced shutdown_balanced : bown.

Lemma start_build_balanced c id trace_id descriptor dir frames :
  wbalanced (start_build c id trace_id descriptor dir frames).
Proof. unfold start_build, failed_build, reply. balance. Qed.
Hint Resolve start_build_balanced : bown.

Lemma handle_build_new_balanced c frames id trace_id descriptor sha :
  wbalanced (handle_build_new c frames id trace_id descriptor sha).
Proof. unfold handle_build_new, rejected, reply. balance. Qed.
Hint Resolve handle_build_new_balanced : bown.

Lemma handle_server_message_balanced c msg frames : wbalanced (handle_server_message c msg frames).
Proof. unfold handle_server_message, handle_revoke. balance. Qed.

Lemma send_outbound_balanced msg : wbalanced (send_outbound msg).
Proof. unfold send_outbound. balance. Qed.
Hint Resolve handle_server_message_balanced send_outbound_balanced : bown.

Lemma message_loop_balanced c ch branches : ∀ frames, wbalanced (message_loop c ch branches frames).
Proof.
  induction branches as [|b branches IH]; intros frames; cbn [message_loop]; [balance|].
  unfold stop_work. balance.
Qed.

Lemma send_all_balanced msgs : wbalanced (send_all msgs).
Proof. induction msgs as [|m msgs IH]; cbn [send_all]; balance. Qed.
Hint Resolve message_loop_balanced send_all_balanced : bown.

Lemma run_connection_balanced c branches frames : wbalanced (run_connection c branches frames).
Proof. unfold run_connection, connected. balance. all: by apply balanced_act. Qed.
Hint Resolve run_connection_balanced : bown.

Lemma reconnect_loop_balanced c attempts : ∀ b delays, wbalanced (reconnect_loop c attempts b delays).
Proof.
  induction attempts as [|a attempts IH]; intros b delays; cbn [reconnect_loop]; balance.
Qed.

Lemma run_output_streamer_balanced id stdout : wbalanced (run_output_streamer id stdout).
Proof. apply bbalanced_for_each. intros m. apply on_output_message_balanced. Qed.

(** ** The whole worker *)

(** What the worker runs: its reconnect loop, the tasks it spawned, the signal
    handler, and a process that ends. *)
Inductive WorkerJob :=
| JobWorker (c : ResolvedWorkerConfig) (attempts : list Attempt)
| JobStreamer (id : BuildId) (stdout : option (list StdoutEvent))
| JobRetire (id : BuildId)
| JobSignal
| JobExit (pid : nat) (code : option Z).

Definition process_exit (pid : nat) (code : option Z) : worker_async unit :=
  act (λ w, ((), match w_processes w !! pid with
                 | Some p => set_processes (<[pid := mkProcess (pr_cancelled p) (Some code)]> (w_processes w)) w
                 | None => w
                 end)).

Definition job_program (j : WorkerJob) : worker_async unit :=
  match j with
  | JobWorker c attempts => do+ run_worker c attempts in BRet ()
  | JobStreamer id stdout => run_output_streamer id stdout
  | JobRetire id => retire id
  | JobSignal => sigterm
  | JobExit pid code => process_exit pid code
  end.

Lemma job_balanced j : wbalanced (job_program j).
Proof.
  destruct j; simpl; auto using sigterm_balanced, retire_balanced, run_output_streamer_balanced.
  - apply bbalanced_bind; [apply reconnect_loop_balanced|]. intros _. apply bbalanced_ret.
  - apply balanced_act. intros w. by destruct (w_processes w !! pid).
Qed.

(** C9: however the reconnect loop, the output streamers, the retirements, the
    signal and the ends of processes are interleaved, and whatever fails, the
    record of the active build stays well formed: the spool holds no more than
    its budget, in the file of that build; a terminal message that waits for a
    connection is a BuildFinished of the active build and only waits in the
    phase TerminalPendingReport; and a build whose spool was given up is in that
    phase or being revoked. *)
Theorem supervisor_record_well_formed (w w' : Worker) (jobs : list WorkerJob) ts
    (Hidle : w_active w = None) (Hlock : w_locked w = false)
    (Hsteps : rtc bpool_step (w, job_program <$> jobs) (w', ts)) :
  ∀ a, w_active w' = Some a →
    (0 ≤ spool_bytes a ≤ Z.max 0 spool_cap_bytes)%Z ∧
    (∀ p, spool_path a = Some p → p = spool_file (build_id a)) ∧
    (∀ m, pending_terminal a = Some m → phase a = TerminalPendingReport ∧
       ∃ status error report, m = BuildFinished (build_id a) status error report) ∧
    (spool_exhausted a = true → phase a = TerminalPendingReport ∨ phase a = Revoking).
Proof.
  assert (Hok : bpool_ok worker_ok (w', ts)).
  { eapply bpool_ok_steps; [exact Hsteps|]. apply bpool_ok_start.
    - split; [intros a; by rewrite Hidle|by left].
    - apply Forall_fmap, Forall_true. intros j. apply job_balanced. }
  destruct Hok as (Ts & _ & _ & Hr & _). intros a Ha. destruct (Hr a Ha). done.
Qed.

End WorkerSpec.
