(* ===== verification/WorkerRuns.v ===== *)
(** * What the worker delivers and what it loses (build/supervisor.rs,
    ws/handler.rs, ws/connection.rs)

    Functional behaviour of the supervisor and of the connection, and four ways
    in which a build, its result or a signal gets lost. *)

From Stdlib Require Import SpecFloat.
From stdpp Require Import prelude gmap sets strings list relations.
From S2P Require Import Prelude Tokens Blocking Proto FileSystem Unpack.
From S2P Require Import Supervisor WorkerOutput WorkerConfig WorkerHandler.

(** ** Lines of a file *)

(** A line that ends where the file says it does. *)
Fixpoint no_break (s : string) : Prop :=
  match s with
  | EmptyString => True
  | String a s => a ≠ newline_char ∧ a ≠ Ascii.ascii_of_nat 13 ∧ no_break s
  end.

Lemma split_on_nonempty c s : ∃ w ws, split_on c s = w :: ws.
Proof.
  induction s as [|a s (w & ws & IH)]; [by exists "", []|]. simpl. rewrite IH.
  destruct (Ascii.eqb a c); by repeat eexists.
Qed.

Lemma split_on_line s rest : no_break s →
  split_on newline_char (s +:+ String newline_char rest) = s :: split_on newline_char rest.
Proof.
  induction s as [|a s IH]; intros Hs.
  - change ("" +:+ String newline_char rest) with (String newline_char rest).
    cbn [split_on]. destruct (split_on_nonempty newline_char rest) as (w & ws & ->).
    by rewrite Ascii.eqb_refl.
  - destruct Hs as (Ha & _ & Hs). change (String a s +:+ String newline_char rest)
      with (String a (s +:+ String newline_char rest)).
    cbn [split_on]. rewrite (IH Hs). by apply Ascii.eqb_neq in Ha as ->.
Qed.

Lemma strip_cr_line s : no_break s → strip_cr s = s.
Proof.
  intros Hs. unfold strip_cr. destruct (strip_suffix_char _ s) as [t|] eqn:E; [|done].
  apply strip_suffix_char_Some in E. exfalso. subst s. induction t as [|a t IH].
  - by destruct Hs as (_ & ? & _).
  - apply IH. by destruct Hs as (_ & _ & ?).
Qed.

(** The lines of a file of terminated lines. *)
Fixpoint file_of (lines : list string) : string :=
  match lines with
  | [] => ""
  | l :: lines => l +:+ String newline_char (file_of lines)
  end.

Lemma split_on_file lines : Forall no_break lines →
  split_on newline_char (file_of lines) = lines ++ [""].
Proof.
  induction 1 as [|l lines Hl _ IH]; [done|]. cbn [file_of]. rewrite split_on_line by done. by rewrite IH.
Qed.

Lemma file_lines_of lines : Forall no_break lines → file_lines (file_of lines) = lines.
Proof.
  intros Hl. unfold file_lines. rewrite split_on_file by done.
  rewrite removelast_last, last_snoc. simpl. rewrite app_nil_r.
  induction Hl as [|l lines Hl _ IH]; [done|]. rewrite fmap_cons, IH. by rewrite strip_cr_line.
Qed.

Lemma file_of_app l1 l2 : file_of (l1 ++ l2) = file_of l1 +:+ file_of l2.
Proof.
  induction l1 as [|l l1 IH]; [done|]. simpl. rewrite IH.
  change (String newline_char (file_of l1 +:+ file_of l2)) with (String newline_char (file_of l1) +:+ file_of l2).
  apply string_app_assoc.
Qed.

Lemma file_of_snoc l x : file_of (l ++ [x]) = (file_of l +:+ x) +:+ String newline_char "".
Proof. rewrite file_of_app. simpl. apply string_app_assoc. Qed.

Section Runs.
Context `{HCodec : Codec} `{HConfig : SupervisorConfig} `{HTar : TarCrates} `{HJson : JsonValue}
  `{HWorkerEnv : WorkerEnv}.

(** ** Actions, executed alone *)

Lemma brun_critical {A} (f : Worker → A * Worker) w :
  w_locked w = false → brun (critical f) w = Some (f w).
Proof. intros Hl. unfold critical. by rewrite brun_await, Hl. Qed.

Lemma fault_none w : w_faults w = [] → fault w = (false, w).
Proof. intros Hf. unfold fault. by rewrite Hf. Qed.

Lemma brun_send_msg m w : w_faults w = [] →
  brun (send_msg m) w = Some (Ok (), set_wire (w_wire w ++ [m]) w).
Proof. intros Hf. unfold send_msg. by rewrite brun_act, fault_none. Qed.

(** Steps that neither send nor spawn, and leave the worker free of failures. *)
Definition quiet (w w' : Worker) : Prop :=
  w_locked w' = false ∧ w_faults w' = [] ∧ w_wire w' = w_wire w ∧ w_spawned w' = w_spawned w ∧
  w_transport w' = w_transport w.

Lemma brun_drain id path content w :
  w_locked w = false → w_faults w = [] → w_spools w !! path = Some content →
  ∃ w', brun (drain_to_messages id path) w = Some (parse_lines (file_lines content), w') ∧ quiet w w'.
Proof.
  intros Hl Hf Hs. unfold drain_to_messages. rewrite brun_bind, brun_act. unfold drain_spool.
  rewrite fault_none, Hs, fault_none by done. rewrite brun_bind. unfold remove_spool.
  rewrite brun_act, fault_none by done. rewrite brun_bind, brun_critical by done.
  rewrite brun_ret. eexists. split; [done|]. unfold on_active. simpl.
  repeat (case_match; simplify_eq/=); by split_and!.
Qed.

(** What was kept is sent in order; a result makes its build retire. *)
Definition retires (ms : list WorkerMessage) : list WorkerTask :=
  omap (λ m, match m with BuildFinished id _ _ _ => Some (TaskRetire id) | _ => None end) ms.

Lemma brun_send_all ms : ∀ w, w_faults w = [] →
  ∃ w', brun (send_all ms) w = Some (Ok (), w') ∧ w_wire w' = w_wire w ++ ms ∧
    w_spawned w' = w_spawned w ++ retires ms ∧ w_faults w' = [] ∧ w_transport w' = w_transport w.
Proof.
  induction ms as [|m ms IH]; intros w Hf; cbn [send_all].
  { rewrite brun_ret. exists w. by rewrite !app_nil_r. }
  rewrite brun_bind. unfold send_outbound. rewrite brun_bind, brun_send_msg by done.
  assert (Hgo : ∀ w1, w_faults w1 = [] → w_wire w1 = w_wire w ++ [m] → w_transport w1 = w_transport w →
    w_spawned w1 = w_spawned w ++ retires [m] →
    ∃ w', brun (send_all ms) w1 = Some (Ok (), w') ∧ w_wire w' = w_wire w ++ m :: ms ∧
      w_spawned w' = w_spawned w ++ retires (m :: ms) ∧ w_faults w' = [] ∧ w_transport w' = w_transport w).
  { intros w1 Hf1 Hw1 Ht1 Hs1. destruct (IH w1 Hf1) as (w' & Hr & Hw & Hs & Hf' & Ht'). exists w'.
    rewrite Hw, Hs, Hw1, Hs1, Ht', Ht1, <- !app_assoc. unfold retires. by rewrite <- omap_app. }
  destruct m; try (rewrite brun_ret; apply Hgo; try done; symmetry; apply app_nil_r).
  unfold spawn_retire. rewrite brun_bind, brun_act, brun_ret. by apply Hgo.
Qed.

(** ** Spooling and replaying *)

(** What the worker relies on for a message it spools: serde_json reads back
    what it wrote, and its compact text is one non-empty line. *)
Definition spoolable (m : WorkerMessage) : Prop :=
  worker_message_of_json (worker_message_to_json m) = Some m ∧
  worker_message_to_json m ≠ "" ∧ no_break (worker_message_to_json m).

Definition spool_size (m : WorkerMessage) : Z := Z.of_nat (String.length (worker_message_to_json m)) + 1.
Definition spool_total (ms : list WorkerMessage) : Z := foldr (λ m n, spool_size m + n)%Z 0%Z ms.

Lemma spool_total_snoc ms m : spool_total (ms ++ [m]) = (spool_total ms + spool_size m)%Z.
Proof. induction ms as [|x ms IH]; simpl; [lia|]. rewrite IH. lia. Qed.

Lemma spool_size_pos m : (1 ≤ spool_size m)%Z.
Proof. unfold spool_size. lia. Qed.

(** A disconnected worker that has spooled [ms] for the build. *)
Record spooled (id : BuildId) (ms : list WorkerMessage) (w : Worker) : Prop := {
  sp_unlocked : w_locked w = false;
  sp_transport : w_transport w = None;
  sp_faults : w_faults w = [];
  sp_build : ∃ a, w_active w = Some a ∧ build_id a = id ∧ spool_exhausted a = false ∧
    spool_bytes a = spool_total ms ∧
    default (spool_file id) (spool_path a) = spool_file id ∧ (ms ≠ [] → is_Some (spool_path a)) ∧
    phase a ≠ TerminalPendingReport;
  sp_file : default "" (w_spools w !! spool_file id) = file_of (worker_message_to_json <$> ms) ∧
    (ms ≠ [] → is_Some (w_spools w !! spool_file id))
}.

Definition is_output (id : BuildId) (m : WorkerMessage) : Prop :=
  ∃ seq lines, m = BuildOutput id seq lines.

Lemma append_spool_ok path payload w : w_faults w = [] →
  append_spool path payload w =
  (Ok (), set_spools (<[path := (default "" (w_spools w !! path) +:+ payload) +:+ String newline_char ""]>
            (w_spools w)) w).
Proof.
  intros Hf. destruct w as [l t a ch sp pr dn wi fs st sw nx fl]. simpl in Hf. subst fl.
  unfold append_spool, fault, set_spools. simpl. by rewrite !insert_insert_eq.
Qed.

(** One message while disconnected. *)
Lemma output_spooled id ms m w :
  spooled id ms w → is_output id m → (spool_total (ms ++ [m]) ≤ spool_cap_bytes ≤ U64_MAX)%Z →
  ∃ w', brun (on_output_message m) w = Some ((), w') ∧ spooled id (ms ++ [m]) w' ∧ quiet w w'.
Proof.
  intros [Hl Ht Hf (a & Ha & Hid & Hx & Hb & Hp & _ & Hph) [Hc _]] (seq & lines & ->) Hcap.
  rewrite spool_total_snoc in Hcap. unfold on_output_message, output_of.
  rewrite brun_bind. unfold critical. rewrite brun_await, Hl.
  unfold begin_output. rewrite Ha, bool_decide_eq_true_2 by done. simpl. rewrite Ht.
  rewrite brun_ret. eexists. split; [done|]. unfold spool_and_finalize. rewrite Ha, Hx.
  set (m := BuildOutput id seq lines) in *.
  rewrite Hb, Z.min_l by (unfold spool_size in *; lia).
  destruct (spool_cap_bytes <? _)%Z eqn:E; [apply Z.ltb_lt in E; unfold spool_size in *; lia|].
  rewrite Hid, Hp, append_spool_ok by done. split; [|by split_and!]. split; simpl; [done|done|done| |].
  - eexists. split; [done|]. simpl. split_and!; [done|done| |done|by eexists|done].
    rewrite spool_total_snoc. unfold spool_size. lia.
  - rewrite lookup_insert_eq. simpl. split; [|by eexists]. rewrite Hc, fmap_app. simpl.
    by rewrite file_of_snoc.
Qed.

Lemma outputs_spooled id ms2 : ∀ ms w,
  spooled id ms w → Forall (is_output id) ms2 →
  (spool_total (ms ++ ms2) ≤ spool_cap_bytes ≤ U64_MAX)%Z →
  ∃ w', brun (bfor_each ms2 on_output_message) w = Some ((), w') ∧ spooled id (ms ++ ms2) w' ∧ quiet w w'.
Proof.
  induction ms2 as [|m ms2 IH]; intros ms w Hw Ho Hcap.
  { exists w. rewrite app_nil_r. split; [done|]. split; [done|]. unfold quiet. split_and!; try done; apply Hw. }
  apply Forall_cons in Ho as [Hm Ho]. rewrite cons_middle, app_assoc in Hcap.
  assert (Hle : ∀ l1 l2, (spool_total l1 ≤ spool_total (l1 ++ l2))%Z).
  { induction l1 as [|x l1 IHl]; intros l2; simpl; [|specialize (IHl l2); lia].
    induction l2 as [|y l2 IHl2]; simpl; [lia|]. pose proof (spool_size_pos y). lia. }
  destruct (output_spooled id ms m w Hw Hm) as (w1 & Hr1 & Hw1 & _ & _ & Hq1 & Hq1' & Hq1'').
  { specialize (Hle (ms ++ [m]) ms2). lia. }
  destruct (IH (ms ++ [m]) w1 Hw1 Ho Hcap) as (w2 & Hr2 & Hw2 & ? & ? & Hq2 & Hq2' & Hq2'').
  exists w2. cbn [bfor_each]. rewrite brun_bind, Hr1, Hr2. split; [done|].
  rewrite <- app_assoc in Hw2. split; [done|]. by rewrite Hq1, Hq1', Hq1'' in *.
Qed.

Lemma parse_lines_of ms : Forall spoolable ms → parse_lines (worker_message_to_json <$> ms) = ms.
Proof.
  induction 1 as [|m ms (Hp & Hne & _) _ IH]; [done|]. rewrite fmap_cons. cbn [parse_lines].
  rewrite bool_decide_eq_false_2 by done. by rewrite Hp, IH.
Qed.

(** The messages of a build while disconnected, its result last, as the next
    connection takes them for sending. *)
Lemma spooled_is_taken (id : BuildId) (outputs : list WorkerMessage)
    (status : BuildFinishedStatus) (error report : option string) (ch : nat) (w : Worker) :
  spooled id [] w → Forall (is_output id) outputs → Forall spoolable outputs →
  (spool_total outputs ≤ spool_cap_bytes ≤ U64_MAX)%Z →
  ∃ w', brun (do+ bfor_each (outputs ++ [BuildFinished id status error report]) on_output_message in
              do+ attach_transport ch in
              take_reconnect_messages) w =
    Some (WorkerStatus Building (Some id) :: outputs ++ [BuildFinished id status error report], w') ∧
    w_faults w' = [] ∧ w_wire w' = w_wire w ∧ w_spawned w' = w_spawned w ∧ w_transport w' = Some ch.
Proof.
  intros Hw Houtputs Hjson Hcap.
  destruct (outputs_spooled id outputs [] w Hw Houtputs Hcap) as (w1 & Hr1 & Hw1 & _ & _ & Hq & Hq' & _).
  assert (Hr : brun (bfor_each (outputs ++ [BuildFinished id status error report]) on_output_message) w =
               brun (on_output_message (BuildFinished id status error report)) w1).
  { clear -Hr1. revert w Hr1. induction outputs as [|m ms IH]; intros w Hr1.
    - cbn [bfor_each app] in *. injection Hr1 as ->. rewrite brun_bind.
      by destruct (brun _ w1) as [[[] w2]|].
    - cbn [bfor_each app] in *. rewrite brun_bind in *.
      destruct (brun (on_output_message m) w) as [[[] w2]|]; [|done]. by apply IH. }
  destruct Hw1 as [Hl Ht Hf (a & Ha & Hid & Hx & Hb & Hp & Hps & Hph) [Hc Hcs]]. simpl in *.
  rewrite brun_bind, Hr. unfold on_output_message, output_of. rewrite brun_bind, brun_critical by done.
  unfold begin_output. rewrite Ha, bool_decide_eq_true_2 by done. simpl. rewrite Ht, brun_ret.
  unfold spool_and_finalize. rewrite Ha, Hx. unfold attach_transport.
  rewrite brun_bind, brun_critical by done. unfold take_reconnect_messages.
  rewrite brun_bind, brun_critical by done. unfold reconnect_snapshot.
  cbn [w_active set_active set_transport phase with_terminal spool_bytes spool_path build_id pending_terminal].
  rewrite bool_decide_eq_true_2 by done. rewrite Hb, Hid, brun_bind.
  destruct outputs as [|m ms]; [simpl; rewrite !brun_ret; eexists; by split_and!|].
  assert (Hpos : (0 <? spool_total (m :: ms))%Z = true).
  { apply Z.ltb_lt. simpl. pose proof (spool_size_pos m).
    assert (0 ≤ spool_total ms)%Z; [|lia]. clear. induction ms as [|y ms IH]; simpl; [lia|].
    pose proof (spool_size_pos y). lia. }
  rewrite Hpos. destruct (Hps ltac:(done)) as [p Hpath]. rewrite Hpath in *. simpl in Hp. subst p.
  destruct (Hcs ltac:(done)) as [content Hcont]. rewrite Hcont in Hc. simpl in Hc. subst content.
  set (w2 := set_active _ _).
  destruct (brun_drain id _ _ w2 Hl Hf Hcont) as [w3 [-> (_ & Hf3 & Hq3 & Hq3' & Ht3)]].
  rewrite brun_ret. exists w3. rewrite Hq3, Hq3', Ht3. split; [|by split_and!]. do 4 f_equal.
  change (worker_message_to_json m +:+ _) with (file_of (worker_message_to_json <$> m :: ms)).
  rewrite file_lines_of, parse_lines_of; [done|done|].
  apply Forall_fmap. eapply Forall_impl; [exact Hjson|]. by intros x (_ & _ & ?).
Qed.

(** C18: What a build writes while the worker is disconnected is delivered on the
    next connection, on three conditions: all its output fits in the spool
    together (beyond the cap the worker drops output and kills the build), no
    file operation fails while it is spooled, and no send fails on the new
    connection (a result that is lost that way is lost for good, see
    [failed_delivery_loses_result]). Then the worker announces that it is building,
    sends every output message in order, once, and the result last, and retires
    the build. *)
Theorem disconnected_output_replayed (id : BuildId) (outputs : list WorkerMessage)
    (status : BuildFinishedStatus) (error report : option string)
    (c : ResolvedWorkerConfig) (ch : nat) (accepts : bool) (frames : list WsFrame) (w : Worker)
    (Hw : spooled id [] w) (Houtputs : Forall (is_output id) outputs)
    (Hjson : Forall spoolable outputs) (Hcap : (spool_total outputs ≤ spool_cap_bytes ≤ U64_MAX)%Z) :
  ∃ w', brun (do+ bfor_each (outputs ++ [BuildFinished id status error report]) on_output_message in
              connected c ch accepts [] frames) w = Some (None, w') ∧
    w_wire w' =
      w_wire w ++ WorkerStatus Building (Some id) :: outputs ++ [BuildFinished id status error report] ∧
    w_transport w' = Some ch ∧ TaskRetire id ∈ w_spawned w'.
Proof.
  destruct (spooled_is_taken id outputs status error report ch w Hw Houtputs Hjson Hcap)
    as (w1 & Htake & Hf & Hwire & Hsp & Ht).
  set (ms := outputs ++ [BuildFinished id status error report]) in *.
  destruct (brun_send_all (WorkerStatus Building (Some id) :: ms) w1 Hf) as (w2 & Hsend & Hwire2 & Hsp2 & _ & Ht2).
  unfold connected. rewrite brun_bind in Htake. rewrite brun_bind.
  destruct (brun (bfor_each ms on_output_message) w) as [[[] w0]|]; [|done].
  rewrite brun_bind in Htake. rewrite brun_bind. destruct (brun (attach_transport ch) w0) as [[[] w0']|]; [|done].
  rewrite brun_bind, Htake, brun_bind, Hsend, brun_bind.
  assert (Hin : TaskRetire id ∈ w_spawned w2).
  { rewrite Hsp2. apply elem_of_app. right. unfold retires, ms. simpl. rewrite omap_app.
    apply elem_of_app. right. by left. }
  destruct (should_start _ _); [rewrite brun_act|rewrite brun_ret]; cbn [message_loop]; rewrite brun_ret.
  - eexists. split; [done|]. simpl. rewrite Hwire2, Hwire, Ht2. split_and!; [done|done|].
    apply elem_of_app. by left.
  - exists w2. rewrite Hwire2, Hwire, Ht2. by split_and!.
Qed.

(** ** Reconnection *)

(** What the worker first reports on a connection is what the supervisor
    knows, whatever phase the build is in and whatever fails: idle, and nothing
    else, exactly without an active build, and otherwise that it is building,
    with the id of the build. The answer is always given. *)
Theorem reconnect_status (w : Worker) (Hl : w_locked w = false) :
  ∃ msgs w', brun take_reconnect_messages w = Some (msgs, w') ∧
  match w_active w with
  | None => msgs = [WorkerStatus Idle None]
  | Some a => ∃ rest, msgs = WorkerStatus Building (Some (build_id a)) :: rest
  end.
Proof.
  unfold take_reconnect_messages. rewrite brun_bind, brun_critical by done. unfold reconnect_snapshot.
  destruct (w_active w) as [a|]; [|rewrite brun_ret; by repeat eexists].
  set (path := if (0 <? spool_bytes a)%Z then _ else _).
  assert (Hpath : ∀ p w1, w_locked w1 = false →
    ∃ ms w2, brun (drain_to_messages (build_id a) p) w1 = Some (ms, w2)).
  { intros p w1 Hl1. unfold drain_to_messages. rewrite brun_bind, brun_act.
    assert (Hd : w_locked (drain_spool p w1).2 = false).
    { unfold drain_spool, fault. destruct (w_faults w1) as [|[] fl]; simpl; [|done|].
      all: destruct (w_spools w1 !! p); simpl; [|done].
      all: repeat case_match; simplify_eq/=; done. }
    destruct (drain_spool p w1) as [r w2]. cbn [snd] in Hd. unfold remove_spool.
    rewrite brun_bind, brun_act.
    assert (Hr : w_locked (fault w2).2 = false) by (unfold fault; by destruct (w_faults w2)).
    destruct (fault w2) as [failed w3]. cbn [snd] in Hr. rewrite brun_bind, brun_critical.
    - rewrite brun_ret. by repeat eexists.
    - by destruct failed. }
  assert (Hgo : ∀ t w1, w_locked w1 = false → ∃ msgs w',
    brun (let+ spooled := match path with Some p => drain_to_messages (build_id a) p | None => BRet [] end in
          BRet (WorkerStatus Building (Some (build_id a)) :: spooled ++ match t with Some t => [t] | None => [] end)) w1
    = Some (msgs, w') ∧ ∃ rest, msgs = WorkerStatus Building (Some (build_id a)) :: rest).
  { intros t w1 Hl1. rewrite brun_bind. destruct path as [p|].
    - destruct (Hpath p w1 Hl1) as (ms & w2 & ->). rewrite brun_ret. by repeat eexists.
    - rewrite !brun_ret. by repeat eexists. }
  case_bool_decide; [by apply Hgo|by apply (Hgo None)].
Qed.

(** A result that waits for a connection is given up when that connection
    fails during the delivery: it is taken out of the record before it is sent,
    and nothing puts it back. The worker stays in the phase
    TerminalPendingReport with nothing pending, and every later connection only
    reports that it is building. *)
Theorem failed_delivery_loses_result (c : ResolvedWorkerConfig) (ch : nat) (accepts : bool)
    (branches : list Branch) (frames : list WsFrame) (a : ActiveBuild) (t : WorkerMessage) (w : Worker)
    (Hl : w_locked w = false) (Ha : w_active w = Some a) (Hp : phase a = TerminalPendingReport)
    (Ht : pending_terminal a = Some t) (Hs : spool_bytes a = 0%Z) (Hf : w_faults w = [true]) :
  ∃ w' a', brun (connected c ch accepts branches frames) w = Some (Some (Err Send), w') ∧
    w_active w' = Some a' ∧ build_id a' = build_id a ∧ phase a' = TerminalPendingReport ∧
    pending_terminal a' = None ∧ w_wire w' = w_wire w ∧ w_spawned w' = w_spawned w ∧
    ∃ w'', brun take_reconnect_messages w' = Some ([WorkerStatus Building (Some (build_id a))], w'') ∧
      w_active w'' = Some a'.
Proof.
  assert (Htake : ∀ w, w_locked w = false → w_active w = Some a ∨
      w_active w = Some (with_terminal (phase a) None a) →
    brun take_reconnect_messages w =
      Some (WorkerStatus Building (Some (build_id a)) ::
        match (match w_active w with Some b => pending_terminal b | None => None end) with
        | Some t => [t] | None => [] end,
        set_active (Some (with_terminal (phase a) None a)) w)).
  { intros w0 Hl0 Ha0. unfold take_reconnect_messages. rewrite brun_bind, brun_critical by done.
    unfold reconnect_snapshot. destruct Ha0 as [-> | ->]; simpl; rewrite Hs, bool_decide_eq_true_2 by done;
      simpl; rewrite brun_bind, !brun_ret; done. }
  unfold connected, attach_transport. rewrite brun_bind, brun_critical by done.
  rewrite brun_bind, Htake by (try done; by left). cbn [w_active set_transport]. rewrite Ha, Ht.
  cbn [send_all]. rewrite !brun_bind. unfold send_outbound, send_msg. rewrite !brun_bind, brun_act.
  unfold fault. cbn [w_faults set_active set_transport]. rewrite Hf. rewrite !brun_ret.
  eexists _, _. split; [done|]. split; [done|]. split_and!; [done|done|done|done|done|].
  rewrite Htake; [|done|by right]. eexists. split; done.
Qed.

(** ** The mutex and the bounded channel *)

(** C20: the supervisor holds its mutex while it waits for room in the channel of
    the connection, and the connection waits for the mutex to handle a
    revocation before it makes room. With a full channel, an output message and
    a revocation are enough for neither to go on, ever. *)
Theorem revoke_deadlocks_on_full_channel (c : ResolvedWorkerConfig) (ch : nat) (branches : list Branch)
    (frames : list WsFrame) (text : string) (reason : option BuildRevokeReason) (a : ActiveBuild)
    (seq : Z) (lines : list string) (q : list WorkerMessage) (w : Worker)
    (Hl : w_locked w = false) (Ha : w_active w = Some a) (Ht : w_transport w = Some ch)
    (Hch : w_channels w !! ch = Some (mkOutbound true q)) (Hfull : length q = OUTPUT_CHANNEL_CAPACITY)
    (Htext : server_message_of_json text = Some (BuildRevoke (build_id a) reason)) :
  ∃ c', rtc bpool_step
      (w, [do+ message_loop c ch (OnFrame :: branches) (WsText text :: frames) in BRet ();
           on_output_message (BuildOutput (build_id a) seq lines)]) c' ∧
    deadlocked c' ∧ ∀ c'', ¬ bpool_step c' c''.
Proof.
  set (out := BuildOutput (build_id a) seq lines).
  set (loop := message_loop c ch (OnFrame :: branches) (WsText text :: frames)).
  assert (H1 : bpool_step (w, [do+ loop in BRet (); on_output_message out])
    (set_locked true w, [do+ loop in BRet (); await (finish_output ch out false)])).
  { refine (bpool_step_second w (set_locked true w) _ _ _ (ForwardTo ch) [] _).
    rewrite Hl. unfold begin_output. rewrite Ha, bool_decide_eq_true_2 by done. simpl. by rewrite Ht. }
  eexists. split; [eapply rtc_l; [exact H1|]|].
  { eapply rtc_l; [|apply rtc_refl].
    by apply (bpool_step_first (set_locked true w) (set_locked true w) (λ w, Some (w_stopping w, w))). }
  match goal with |- deadlocked ?x ∧ _ => assert (Hd : deadlocked x) end.
  { split; [done|]. repeat constructor.
    - unfold read_server_message. simpl. rewrite Htext. done.
    - cbn [waits await fst]. unfold finish_output. cbn [w_channels set_locked]. rewrite Hch, decide_False; [done|]. lia. }
  split; [done|]. intros c''. by apply deadlocked_no_step.
Qed.

(** ** The shutdown signal *)

Definition stopping (w : Worker) : Prop := w_stopping w = true.

Lemma flag_act {R} (f : Worker → R * Worker) :
  (∀ w, w_stopping (f w).2 = w_stopping w) → bsafe stopping (act f).
Proof. intros Hf. apply bsafe_act. intros w Hw. unfold stopping. by rewrite Hf. Qed.

Lemma flag_critical {R} (f : Worker → R * Worker) :
  (∀ w, w_stopping (f w).2 = w_stopping w) → bsafe stopping (critical f).
Proof.
  intros Hf. apply bsafe_await. intros w r w' Hw. destruct (w_locked w); [done|]. intros [= E].
  specialize (Hf w). rewrite E in Hf. unfold stopping. simpl in Hf. congruence.
Qed.

Ltac flag :=
  intros; unfold on_active, kill_opt, kill, fault, fresh, spawn_task; simpl;
  repeat (case_match; simpl in *; simplify_eq/=); done.

Lemma send_msg_flag m : bsafe stopping (send_msg m).
Proof. apply flag_act. flag. Qed.

Lemma fs_call_flag {A E} (m : Fs → result A E * Fs) : bsafe stopping (fs_call m).
Proof. apply flag_act. intros w. by destruct (m (w_fs w)). Qed.

Lemma spawn_build_flag c id descriptor dir trace_id : bsafe stopping (spawn_build c id descriptor dir trace_id).
Proof. apply flag_act. flag. Qed.

Lemma register_flag id exec dir : bsafe stopping (register_accepted id exec dir).
Proof. apply flag_critical. flag. Qed.

Lemma mark_started_flag id : bsafe stopping (mark_started id).
Proof. apply flag_critical. flag. Qed.

Lemma attach_output_task_flag id t : bsafe stopping (attach_output_task id t).
Proof. apply flag_critical. flag. Qed.

Lemma on_build_revoke_flag id : bsafe stopping (on_build_revoke id).
Proof. apply flag_critical. flag. Qed.

Lemma active_build_id_flag : bsafe stopping active_build_id.
Proof. by apply flag_critical. Qed.

Lemma detach_transport_flag : bsafe stopping detach_transport.
Proof. by apply flag_critical. Qed.

Lemma spawn_streamer_flag id pid : bsafe stopping (spawn_streamer id pid).
Proof. by apply flag_act. Qed.

Lemma cleanup_component_flag dir : bsafe stopping (cleanup_component dir).
Proof. by apply flag_act. Qed.

Lemma spawn_retire_flag id : bsafe stopping (spawn_retire id).
Proof. by apply flag_act. Qed.

Lemma recv_outbound_flag ch : bsafe stopping (recv_outbound ch).
Proof.
  apply bsafe_await. intros w r w' Hw E.
  by destruct (w_channels w !! ch) as [[o [|m q]]|]; simplify_eq.
Qed.

Hint Resolve send_msg_flag fs_call_flag spawn_build_flag register_flag mark_started_flag
  attach_output_task_flag on_build_revoke_flag active_build_id_flag detach_transport_flag
  spawn_streamer_flag cleanup_component_flag spawn_retire_flag recv_outbound_flag : blocking.

Ltac flags :=
  repeat first
    [ progress auto with blocking
    | apply bsafe_bind; [|intros ?]
    | apply bsafe_ret
    | case_match ].

Lemma handle_server_message_flag c msg frames : bsafe stopping (handle_server_message c msg frames).
Proof.
  unfold handle_server_message, handle_revoke, handle_build_new, rejected, start_build, failed_build, reply.
  flags.
Qed.

Lemma send_outbound_flag msg : bsafe stopping (send_outbound msg).
Proof. unfold send_outbound. flags. Qed.

(** A shutdown signal that arrives while the connection does anything but wait
    in its [select!] (during the handshake, or while it handles a message) is
    missed: it wakes only who is waiting, and from then on the branch is
    disabled. Whatever the server sends and whatever is ready, the loop does not
    end by a shutdown; it goes on until the connection fails. *)
Theorem missed_shutdown_signal (c : ResolvedWorkerConfig) (ch : nat) (branches : list Branch)
    (frames : list WsFrame) (w w' : Worker) (r : option (result unit HandlerError))
    (Hstop : w_stopping w = true)
    (Hrun : brun (message_loop c ch branches frames) w = Some (r, w')) :
  r = None ∨ ∃ e, r = Some (Err e).
Proof.
  revert frames w Hstop Hrun. induction branches as [|b branches IH]; intros frames w Hstop Hrun.
  { injection Hrun as <- _. by left. }
  cbn [message_loop] in Hrun. rewrite brun_bind, brun_act in Hrun. rewrite Hstop in Hrun.
  destruct b.
  - destruct (read_server_message (head frames)) as [[msg|]|e]; [|by eapply IH|].
    + rewrite brun_bind in Hrun.
      destruct (brun (handle_server_message c msg (tail frames)) w) as [[[r1 fr] w1]|] eqn:E; [|done].
      apply (bsafe_run stopping) in E; [|apply handle_server_message_flag|done].
      destruct r1 as [[]|e]; [by eapply IH|]. injection Hrun as <- _. right. by eexists.
    + injection Hrun as <- _. right. by eexists.
  - rewrite brun_bind in Hrun. destruct (brun (recv_outbound ch) w) as [[m w1]|] eqn:E1; [|done].
    apply (bsafe_run stopping) in E1; [|apply recv_outbound_flag|done].
    rewrite brun_bind in Hrun. destruct (brun (send_outbound m) w1) as [[r1 w2]|] eqn:E2; [|done].
    apply (bsafe_run stopping) in E2; [|apply send_outbound_flag|done].
    destruct r1 as [[]|e]; [by eapply IH|]. injection Hrun as <- _. right. by eexists.
  - rewrite brun_bind in Hrun. unfold shutdown_notified in Hrun. by rewrite brun_await in Hrun.
Qed.

(** ** A dispatched build *)

Lemma brun_bind_some {A B} (m : worker_async A) (f : A → worker_async B) w a w' :
  brun m w = Some (a, w') → brun (bbind m f) w = brun (f a) w'.
Proof. intros H. by rewrite brun_bind, H. Qed.

(** A worker that is building refuses another build, says so, and keeps
    everything else as it is; the archive that follows is skipped by the loop. *)
Theorem busy_worker_rejects (c : ResolvedWorkerConfig) (frames : list WsFrame) (id : BuildId)
    (trace_id sha : string) (descriptor : BuildDescriptor) (a : ActiveBuild) (w : Worker)
    (Hl : w_locked w = false) (Ha : w_active w = Some a) (Hf : w_faults w = []) :
  brun (handle_build_new c frames id trace_id descriptor sha) w =
    Some ((Ok (), frames), set_wire (w_wire w ++ [BuildRejected id "worker is busy"]) w).
Proof.
  unfold handle_build_new, active_build_id. rewrite brun_bind, brun_critical by done. rewrite Ha.
  unfold rejected, reply. by rewrite brun_bind, brun_send_msg.
Qed.

Lemma brun_reply m frames w : w_faults w = [] →
  brun (reply m frames) w = Some ((Ok (), frames), set_wire (w_wire w ++ [m]) w).
Proof. intros Hf. unfold reply. by rewrite brun_bind, brun_send_msg. Qed.

(** The end of a dispatch: what was sent, and the record. *)
Definition build_running (id : BuildId) (w w' : Worker) : Prop :=
  ∃ a exec h p, w_active w' = Some a ∧ build_id a = id ∧ phase a = Started ∧
    executor a = Some exec ∧ output_task a = Some h ∧
    w_processes w' !! ex_pid exec = Some p ∧ pr_exit p = None ∧
    w_spawned w' = w_spawned w ++ [TaskStreamer h id (ex_pid exec)].

Lemma start_build_outcome c id trace_id descriptor dir frames w :
  w_locked w = false → w_active w = None → w_faults w = [] →
  ∃ w', brun (start_build c id trace_id descriptor dir frames) w = Some ((Ok (), frames), w') ∧
    ((∃ error, w_wire w' = w_wire w ++ [BuildFinished id FinFailure (Some error) None] ∧
        w_active w' = None) ∨
     (w_wire w' = w_wire w ++ [BuildStarted id] ∧ build_running id w w')).
Proof.
  intros Hl Ha Hf. unfold start_build. rewrite brun_bind. unfold spawn_build. rewrite brun_act.
  assert (Hfail : ∀ err, ∃ w', brun (do+ cleanup_component dir in
      failed_build id ("spawn failed: " +:+ executor_error_text err) frames) w = Some ((Ok (), frames), w') ∧
      ((∃ error, w_wire w' = w_wire w ++ [BuildFinished id FinFailure (Some error) None] ∧
        w_active w' = None) ∨ (w_wire w' = w_wire w ++ [BuildStarted id] ∧ build_running id w w'))).
  { intros err. unfold cleanup_component, failed_build. rewrite brun_bind, brun_act, brun_reply by done.
    eexists. split; [done|]. left. by eexists. }
  destruct (negb _); [apply Hfail|]. destruct (cbscore_config_path c); [|apply Hfail]. clear Hfail.
  rewrite fault_none by done. unfold fresh. rewrite fault_none by done.
  unfold register_accepted. rewrite brun_bind, brun_critical by done.
  cbn [w_active set_processes set_next]. rewrite Ha.
  rewrite brun_bind, brun_send_msg by done. unfold mark_started. rewrite brun_bind, brun_critical by done.
  unfold on_active. cbn [w_active set_wire set_active build_id phase]. rewrite bool_decide_eq_true_2 by done.
  unfold spawn_streamer. rewrite brun_bind, brun_act. unfold fresh, attach_output_task.
  rewrite brun_bind, brun_critical by done. rewrite brun_ret.
  unfold on_active. cbn [w_active set_wire set_active build_id phase set_next spawn_task set_spawned].
  rewrite !bool_decide_eq_true_2 by done. eexists. split; [done|]. right. split; [done|].
  eexists _, _, _, _. split; [done|]. split_and!; try done; [apply lookup_insert_eq|done].
Qed.

(** C19: an idle worker answers every dispatch, in one of three ways: it refuses
    the build, or it accepts it and reports that it could not be started, and is
    idle again in both cases; or it accepts it, reports the start, and runs it:
    the record is of that build, in the phase Started, its process runs and the
    task that reads its output is there. It only accepts an archive with the
    digest the server announced. *)
Theorem dispatch_answered (c : ResolvedWorkerConfig) (frames : list WsFrame) (id : BuildId)
    (trace_id sha : string) (descriptor : BuildDescriptor) (w : Worker)
    (Hl : w_locked w = false) (Ha : w_active w = None) (Hf : w_faults w = []) :
  ∃ frames' w', brun (handle_build_new c frames id trace_id descriptor sha) w = Some ((Ok (), frames'), w') ∧
    ((∃ reason, w_wire w' = w_wire w ++ [BuildRejected id reason] ∧ w_active w' = None) ∨
     (∃ tarball, read_binary_frame frames = (Ok tarball, frames') ∧ sha256_hex tarball = sha ∧
        ((∃ error, w_wire w' = w_wire w ++ [BuildAccepted id; BuildFinished id FinFailure (Some error) None] ∧
            w_active w' = None) ∨
         (w_wire w' = w_wire w ++ [BuildAccepted id; BuildStarted id] ∧ build_running id w w')))).
Proof.
  unfold handle_build_new, active_build_id. rewrite brun_bind, brun_critical by done. rewrite Ha.
  assert (Hrej : ∀ reason fr w1, w_active w1 = None → w_faults w1 = [] → w_wire w1 = w_wire w →
    ∃ frames' w', brun (rejected id reason fr) w1 = Some ((Ok (), frames'), w') ∧
    ((∃ reason, w_wire w' = w_wire w ++ [BuildRejected id reason] ∧ w_active w' = None) ∨
     (∃ tarball, read_binary_frame frames = (Ok tarball, frames') ∧ sha256_hex tarball = sha ∧
        ((∃ error, w_wire w' = w_wire w ++ [BuildAccepted id; BuildFinished id FinFailure (Some error) None] ∧
            w_active w' = None) ∨
         (w_wire w' = w_wire w ++ [BuildAccepted id; BuildStarted id] ∧ build_running id w w'))))).
  { intros reason fr w1 Ha1 Hf1 Hw1. unfold rejected. rewrite brun_reply by done.
    eexists _, _. split; [done|]. left. exists reason. simpl. by rewrite Hw1. }
  destruct (read_binary_frame frames) as [[tarball|err] fr]; [|by apply Hrej].
  rewrite brun_bind. unfold fs_call at 1. rewrite brun_act.
  destruct (create_dir_all _ _) as [[[]|e] f1]; [|by apply Hrej].
  rewrite brun_bind. unfold fs_call. rewrite brun_act. cbn [w_fs set_fs].
  assert (Hsha : ∀ dir, (validate_and_unpack tarball sha (component_temp c) (max_component_bytes c) f1).1 = Ok dir →
    sha256_hex tarball = sha).
  { intros dir. unfold validate_and_unpack. case_bool_decide; [done|]. done. }
  destruct (validate_and_unpack _ _ _ _ _) as [[dir|e] f2]; [|by apply Hrej].
  rewrite brun_bind, brun_send_msg by done.
  set (w1 := set_wire _ _). destruct (start_build_outcome c id trace_id descriptor dir fr w1) as (w' & Hr & Hout);
    [done..|].
  exists fr, w'. split; [exact Hr|]. right. exists tarball. split; [done|]. split; [by eapply Hsha|].
  destruct Hout as [(error & Hw & Hact)|(Hw & Hrun)].
  - left. exists error. split; [|done]. rewrite Hw. simpl. by rewrite <- app_assoc.
  - right. split; [|exact Hrun]. rewrite Hw. simpl. by rewrite <- app_assoc.
Qed.

(** When the connection fails just as the start of a build is reported, the
    build is stranded: its subprocess runs and the record says Accepted, but no
    task reads its output, so no result ever comes and the worker stays busy. *)
Theorem failed_start_strands_build (c : ResolvedWorkerConfig) (id : BuildId) (trace_id : string)
    (descriptor : BuildDescriptor) (dir : Path) (frames : list WsFrame) (config_path : string) (w : Worker)
    (Hl : w_locked w = false) (Ha : w_active w = None)
    (Hwrapper : path_exists (w_fs w) (components (resolve_wrapper_path c)) = true)
    (Hconfig : cbscore_config_path c = Some config_path)
    (Hf : w_faults w = [false; false; true]) :
  ∃ w' a, brun (start_build c id trace_id descriptor dir frames) w = Some ((Err Send, frames), w') ∧
    w_active w' = Some a ∧ build_id a = id ∧ phase a = Accepted ∧ output_task a = None ∧
    pending_terminal a = None ∧
    (∃ exec p, executor a = Some exec ∧ w_processes w' !! ex_pid exec = Some p ∧ pr_exit p = None) ∧
    w_spawned w' = w_spawned w.
Proof.
  unfold start_build. rewrite brun_bind. unfold spawn_build. rewrite brun_act, Hwrapper, Hconfig.
  unfold fault at 1. rewrite Hf. simpl. unfold register_accepted.
  rewrite brun_bind, brun_critical by done. simpl. rewrite Ha. rewrite brun_bind. unfold send_msg.
  rewrite brun_act. simpl. rewrite brun_ret. eexists _, _. split; [done|]. split; [done|].
  split_and!; [done|done|done|done| |done].
  eexists _, _. split; [done|]. simpl. by rewrite lookup_insert_eq.
Qed.

End Runs.

(** ** The pause between connections *)

Definition f64_is_nan (x : f64) : bool := match x with S754_nan => true | _ => false end.

Lemma SFcompare_refl x : f64_is_nan x = false → SFcompare x x = Some Eq.
Proof.
  destruct x as [s|s| |s m e]; simpl; try done; try (by destruct s).
  intros _. rewrite Z.compare_refl, Pos.compare_cont_refl. by destruct s.
Qed.

(** After the first pause, however long the server is unreachable and
    whatever jitter is drawn, the base of the pause never exceeds the configured
    ceiling; the first one is a second, and a connection starts over. *)
Theorem backoff_below_ceiling (jitters : list f64) (jitter : f64) (ceiling : f64)
    (Hc : f64_is_nan ceiling = false) :
  let b := foldl (λ b j, (next_delay j b).2) (backoff_new ceiling) jitters in
  let cur := current (next_delay jitter b).2 in
  (cur = f64_1 ∨ SFleb cur ceiling = true) ∧
  (jitters = [] → cur = f64_1) ∧
  current (next_delay jitter (backoff_reset b)).2 = f64_1.
Proof.
  assert (Hinv : ∀ l, let b := foldl (λ b j, (next_delay j b).2) (backoff_new ceiling) l in
    initial_secs b = f64_1 ∧ ceiling_secs b = ceiling).
  { intros l. induction l as [|j l IH] using rev_ind; [done|]. rewrite foldl_snoc. exact IH. }
  intros b cur. specialize (Hinv jitters). fold b in Hinv. destruct Hinv as [Hi Hs].
  split_and!.
  - unfold cur, next_delay. cbn [snd current with_current].
    destruct (SFeqb _ _); [by left|right]. rewrite Hs. unfold f64_min, SFleb.
    set (x := f64_mul _ _). pose proof (SFcompare_refl ceiling Hc) as Hr.
    assert (Hmin : ∀ z, (z = ceiling ∨ z = x ∧ SFltb x ceiling = true) →
      match SFcompare z ceiling with Some (Eq | Lt) => true | _ => false end = true).
    { intros z [-> | [-> Hlt]]; [by rewrite Hr|]. unfold SFltb in Hlt.
      by destruct (SFcompare x ceiling) as [[]|]. }
    apply Hmin. destruct x, ceiling; try (by left); try done;
      match goal with |- context [SFltb ?u ?v] => destruct (SFltb u v) eqn:E end; auto.
  - intros ->. done.
  - unfold next_delay, backoff_reset. cbn [current with_current snd initial_secs]. by rewrite Hi.
Qed.
