(* ===== verification/WorkerSamples.v ===== *)
(** * A concrete worker, and the theorems on it

    Instances of the third-party code, an archive, a file system and the states
    of a worker, and one application of each theorem about the worker that has
    hypotheses. *)

From Stdlib Require Import Strings.Byte SpecFloat.
From stdpp Require Import prelude gmap sets strings list relations.
From S2P Require Import Prelude Tokens Blocking Proto FileSystem Unpack.
From S2P Require Import UnpackSpec Supervisor WorkerOutput WorkerConfig WorkerHandler.
From S2P Require Import WorkerSpec WorkerRuns.

(** ** The crates *)

(** An archive of one script; the digest is a constant. *)
Definition sample_digest : string := "0123456789abcdef".

Definition sample_script : Entry :=
  mkEntry ERegular (Ok "build/run.sh") 2 (Ok 493%Z) (Ok None) [x41; x42] None.

#[export] Instance sample_tar : TarCrates := {
  sha256_hex := λ _, sample_digest;
  gunzip := λ b, b;
  tar_entries := λ _ _, Ok [Ok sample_script]
}.

Definition sample_output : WorkerMessage := BuildOutput (mkBuildId 7) 0 ["hello"].

#[export] Instance sample_codec : Codec := {
  worker_message_to_json := λ m, match m with BuildOutput _ _ [l] => l | _ => "other" end;
  worker_message_of_json := λ s, Some (BuildOutput (mkBuildId 7) 0 [s]);
  server_message_of_json := λ s, if bool_decide (s = "revoke 7")
                                 then Some (BuildRevoke (mkBuildId 7) None) else None;
  os_error_text := "No space left on device (os error 28)"
}.

#[export] Instance sample_spool : SupervisorConfig := { spool_root := "/var/spool"; spool_cap_bytes := 1024 }.

#[export] Instance sample_json : JsonValue := {
  json_parse := λ s, Some s;
  json_get := λ _ key, if bool_decide (key = "exit_code") then Some "0" else None;
  json_as_str := λ _, None;
  json_as_i64 := λ s, if bool_decide (s = "0") then Some 0%Z else None;
  json_is_null := λ _, false
}.

#[export] Instance sample_worker_env : WorkerEnv := {
  current_exe_dir := Some "/usr/bin";
  std_temp_dir := "/tmp";
  ws_error_text := "connection reset";
  VERSION := "1.0"
}.

#[export] Instance sample_config_crates : ConfigCrates := {
  base64url_decode := λ s, Ok s;
  worker_token_of_json := λ s, Ok (mkWorkerToken "w1" "worker" s "x86_64");
  url_parse := λ s, if bool_decide (s = "wss://localhost/ws") then Some (Some (Domain "localhost")) else None
}.

(** ** States *)

Definition sample_fs : Fs :=
  mkFs {[ ["tmp"] := Dir; ["usr"] := Dir; ["usr"; "wrapper.py"] := File 0 ]}
       {[ 0 := mkInode 420 [x01] ]} 1 [].

Definition sample_resolved : ResolvedWorkerConfig :=
  mkResolved "wss://build/ws" "key" "worker" X86_64 false None (Some "/usr/wrapper.py")
    (Some "/etc/cbscore.yaml") None (Some "/tmp") None None None metrics_default.

Definition idle_worker : Worker :=
  mkWorker false None None ∅ ∅ ∅ ∅ [] sample_fs false [] 0 [].

Definition sample_build (p : BuildPhase) (t : option WorkerMessage) : ActiveBuild :=
  mkActiveBuild (mkBuildId 7) p [] None None t None 0 false.

Definition building (transport : option nat) (channels : gmap nat Outbound) (a : ActiveBuild)
    (faults : list bool) : Worker :=
  mkWorker false transport (Some a) channels ∅ ∅ ∅ [] sample_fs false [] 0 faults.

(** ** Lemmas on the concrete file system *)

Lemma sample_nodes l n : node_at sample_fs l = Some n →
  (l = [] ∨ l = ["tmp"] ∨ l = ["usr"]) ∧ n = Dir ∨ l = ["usr"; "wrapper.py"] ∧ n = File 0.
Proof.
  destruct l as [|x l]; [intros [= <-]; auto|]. simpl.
  rewrite !lookup_insert, lookup_singleton.
  repeat case_decide; intros E; simplify_eq; auto.
Qed.

Lemma sample_reserved : reserved ["tmp"; "component-0123456789ab"] sample_fs.
Proof.
  split.
  - intros l [k Hk] Hne. destruct l as [|x [|y [|z l]]]; simplify_eq/=; try done; by vm_compute.
  - by left.
  - intros l t Hp [[_ ?]|[_ ?]]%sample_nodes; done.
  - intros l l' ino Hp [[_ ?]|[-> _]]%sample_nodes; [done|]. destruct Hp as [k Hk]. by simplify_eq/=.
  - intros l ino [[_ ?]|[_ [= ->]]]%sample_nodes; [done|]. split; [simpl; lia|by eexists].
Qed.

Lemma unpack_contained_witness :
  untouched ["tmp"; "component-0123456789ab"] sample_fs
    (validate_and_unpack [x41] sample_digest (of_location ["tmp"]) 100 sample_fs).2 ∧
  (validate_and_unpack [x41] sample_digest (of_location ["tmp"]) 100 sample_fs).1 =
    Ok (of_location ["tmp"; "component-0123456789ab"]).
Proof.
  split; [|by vm_compute].
  apply (unpack_contained [x41] sample_digest ["tmp"] "component-0123456789ab" 100 sample_fs).
  - by vm_compute.
  - apply sample_reserved.
  - intros entries [= <-]. by repeat constructor.
Defined.

Lemma stream_output_complete_witness :
  let '(msgs, r) := stream_output (mkBuildId 7) [Line "compiling"; FlushTimer; Line "done"; Eof] [] stream_start in
  batches (mkBuildId 7) 0 msgs ["compiling"; "done"] ∧ r = Some (Ok (FinFailure, None, None)).
Proof.
  apply (stream_output_complete (mkBuildId 7) [Line "compiling"; FlushTimer; Line "done"; Eof]). done.
Defined.

Definition dev_environment (name : string) : option string :=
  if bool_decide (name = "CBSD_DEV") then Some "True" else None.

Definition dev_config : WorkerConfig :=
  mkWorkerConfig "wss://localhost/ws" (Some "token") None None None None None None None None None None
    logging_default metrics_default.

Lemma resolved_config_safe_witness :
  ∃ r, resolve_config dev_environment sample_fs dev_config = Ok r ∧ dev_mode r = true ∧
    ∃ h, url_parse (server_url r) = Some (Some h) ∧ host_is_loopback h = true.
Proof.
  eexists. split; [by vm_compute|]. split; [done|].
  refine (proj1 (proj2 (proj2 (proj2
    (resolved_config_safe dev_environment sample_fs dev_config _ ltac:(by vm_compute))))) _). done.
Defined.

(** A dispatch and a signal, the latter first. *)
Lemma supervisor_record_well_formed_witness :
  ∃ w' ts, rtc bpool_step (idle_worker, job_program <$> [JobSignal]) (w', ts) ∧
    ∀ a, w_active w' = Some a → (0 ≤ spool_bytes a ≤ Z.max 0 1024)%Z.
Proof.
  assert (H : rtc bpool_step (idle_worker, job_program <$> [JobSignal])
    (mkWorker false None None ∅ ∅ ∅ ∅ [] sample_fs true [] 0 [], [BRet ()])).
  { eapply rtc_l; [|apply rtc_refl]. by apply (bpool_step_first idle_worker). }
  eexists _, _. split; [exact H|]. intros a Ha.
  destruct (supervisor_record_well_formed idle_worker _ [JobSignal] _ eq_refl eq_refl H a Ha). done.
Defined.

Lemma sample_spooled : spooled (mkBuildId 7) [] (building None ∅ (sample_build Started None) []).
Proof.
  split; [done|done|done| |by split].
  exists (sample_build Started None). by split_and!.
Qed.

Lemma disconnected_output_replayed_witness :
  ∃ w', brun (do+ bfor_each ([sample_output] ++ [BuildFinished (mkBuildId 7) FinSuccess None None])
                    on_output_message in
              connected sample_resolved 3 false [] []) (building None ∅ (sample_build Started None) []) =
      Some (None, w') ∧
    w_wire w' = WorkerStatus Building (Some (mkBuildId 7)) :: [sample_output]
                  ++ [BuildFinished (mkBuildId 7) FinSuccess None None].
Proof.
  destruct (disconnected_output_replayed (mkBuildId 7) [sample_output] FinSuccess None None sample_resolved 3
              false [] (building None ∅ (sample_build Started None) [])) as (w' & H1 & H2 & _).
  - apply sample_spooled.
  - repeat constructor. by repeat eexists.
  - repeat constructor; by vm_compute.
  - by vm_compute.
  - exists w'. split; [exact H1|exact H2].
Defined.

Lemma reconnect_status_witness :
  ∃ msgs w', brun take_reconnect_messages (building None ∅ (sample_build Started None) []) = Some (msgs, w') ∧
    ∃ rest, msgs = WorkerStatus Building (Some (mkBuildId 7)) :: rest.
Proof. exact (reconnect_status (building None ∅ (sample_build Started None) []) eq_refl). Defined.

Definition pending_result : WorkerMessage := BuildFinished (mkBuildId 7) FinSuccess None None.

Lemma failed_delivery_loses_result_witness :
  ∃ w' a', brun (connected sample_resolved 0 false [] [])
      (building None ∅ (sample_build TerminalPendingReport (Some pending_result)) [true]) =
      Some (Some (Err Send), w') ∧ w_active w' = Some a' ∧ pending_terminal a' = None.
Proof.
  destruct (failed_delivery_loses_result sample_resolved 0 false [] []
    (sample_build TerminalPendingReport (Some pending_result)) pending_result
    (building None ∅ (sample_build TerminalPendingReport (Some pending_result)) [true])
    eq_refl eq_refl eq_refl eq_refl eq_refl eq_refl) as (w' & a' & H1 & H2 & _ & _ & H3 & _).
  by exists w', a'.
Defined.

Definition full_channel : gmap nat Outbound :=
  {[ 3 := mkOutbound true (replicate 64 sample_output) ]}.

Lemma revoke_deadlocks_on_full_channel_witness :
  ∃ c', rtc bpool_step
      (building (Some 3) full_channel (sample_build Started None) [],
       [do+ message_loop sample_resolved 3 [OnFrame] [WsText "revoke 7"] in BRet ();
        on_output_message (BuildOutput (mkBuildId 7) 0 ["hello"])]) c' ∧
    deadlocked c' ∧ ∀ c'', ¬ bpool_step c' c''.
Proof.
  exact (revoke_deadlocks_on_full_channel sample_resolved 3 [] [] "revoke 7" None
    (sample_build Started None) 0 ["hello"] (replicate 64 sample_output)
    (building (Some 3) full_channel (sample_build Started None) [])
    eq_refl eq_refl eq_refl eq_refl eq_refl eq_refl).
Defined.

Definition stopping_worker : Worker :=
  mkWorker false None None ∅ ∅ ∅ ∅ [] sample_fs true [] 0 [].

Lemma missed_shutdown_signal_witness :
  ∃ r w', brun (message_loop sample_resolved 3 [OnFrame; OnFrame] [WsPing; WsClose]) stopping_worker = Some (r, w') ∧
    (r = None ∨ ∃ e, r = Some (Err e)).
Proof.
  eexists _, _. split; [reflexivity|].
  by apply (missed_shutdown_signal sample_resolved 3 [OnFrame; OnFrame] [WsPing; WsClose]
    stopping_worker stopping_worker).
Defined.

Definition plain_descriptor : BuildDescriptor :=
  mkDescriptor "1" None None (mkSignedOffBy "u" "e") (mkDestImage "i" "t") []
    (mkTarget "d" "9" "rpm" X86_64).

Lemma dispatch_answered_witness :
  ∃ frames' w', brun (handle_build_new sample_resolved [WsBinary [x41]] (mkBuildId 7) "trace"
      plain_descriptor sample_digest) idle_worker = Some ((Ok (), frames'), w') ∧ w_wire w' = [BuildAccepted (mkBuildId 7); BuildStarted (mkBuildId 7)].
Proof.
  destruct (dispatch_answered sample_resolved [WsBinary [x41]] (mkBuildId 7) "trace" sample_digest
    plain_descriptor idle_worker eq_refl eq_refl eq_refl) as (frames' & w' & Hr & _).
  exists frames', w'. split; [exact Hr|]. vm_compute in Hr. injection Hr as _ <-. done.
Defined.

Lemma failed_start_strands_build_witness :
  ∃ w' a, brun (start_build sample_resolved (mkBuildId 7) "trace"
      plain_descriptor
      [] []) (mkWorker false None None ∅ ∅ ∅ ∅ [] sample_fs false [] 0 [false; false; true]) =
      Some ((Err Send, []), w') ∧ w_active w' = Some a ∧ output_task a = None.
Proof.
  destruct (failed_start_strands_build sample_resolved (mkBuildId 7) "trace"
    plain_descriptor
    [] [] "/etc/cbscore.yaml" (mkWorker false None None ∅ ∅ ∅ ∅ [] sample_fs false [] 0 [false; false; true])
    eq_refl eq_refl ltac:(by vm_compute) eq_refl eq_refl) as (w' & a & H1 & H2 & _ & _ & H3 & _).
  by exists w', a.
Defined.

Lemma backoff_below_ceiling_witness :
  current (next_delay (S754_zero false) (foldl (λ b j, (next_delay j b).2) (backoff_new (f64_of_u64 30))
    (replicate 7 (S754_zero false)))).2 = f64_of_u64 30 ∧
  SFleb (current (next_delay (S754_zero false) (foldl (λ b j, (next_delay j b).2) (backoff_new (f64_of_u64 30))
    (replicate 7 (S754_zero false)))).2) (f64_of_u64 30) = true.
Proof.
  split; [by vm_compute|].
  destruct (backoff_below_ceiling (replicate 7 (S754_zero false)) (S754_zero false) (f64_of_u64 30) eq_refl)
    as [[H|H] _]; [by vm_compute in H|exact H].
Defined.

Lemma decompression_capped_witness :
  (0 ≤ 2 ≤ U64_MAX)%Z ∧
  read_sequence [(8, 2); (8, 8); (8, 8)]%Z (limited_reader_new [x41; x42; x43; x44] 2) =
    ([x41; x42; x43], Some (IoCapExceeded 2)) ∧
  [x41; x42; x43] `prefix_of` (visible [x41; x42; x43; x44] 2).1.
Proof.
  assert (H : (0 ≤ 2 ≤ U64_MAX)%Z) by (unfold U64_MAX; lia).
  split; [exact H|]. split; [by vm_compute|].
  exact (proj1 (decompression_capped [(8, 2); (8, 8); (8, 8)]%Z [x41; x42; x43; x44] 2 H)).
Defined.
