(* ===== verification/Samples.v ===== *)
(** * A concrete server

    Instances of the parameters of the development and a small server with
    users, roles, a channel, a worker and builds in every stage, on which the
    theorems are instantiated. *)

From Stdlib Require Import Strings.Byte.
From stdpp Require Import prelude gmap strings list relations pretty.
From S2P Require Import TokenCache.
From S2P Require Import Prelude Async Proto Queue Db App Auth DbRoles DbChannels.
From S2P Require Import Channels Components Logs Dispatch Handler Lifecycle Coherence.
From S2P Require Import Refinement Routes Submission TagFormat Recovery Scheduler.

(** ** Parameters *)

Definition sample_descriptor : BuildDescriptor :=
  mkDescriptor "19.2.3" None None (mkSignedOffBy "nobody" "nobody@example.com")
    (mkDestImage "ceph" "v19.2.3") [mkComponent "ceph" "main" (Some "github.com/ceph/ceph")]
    (mkTarget "rockylinux" "el9" "rpm" X86_64).

#[export] Instance sample_env : Env := {
  uuid_v4 := λ n, "uuid-" +:+ pretty n;
  tar_gz := λ names, repeat Byte.x00 (length names);
  sha256 := λ _, [Byte.xab; Byte.x01];
  metrics_enabled := false;
  liveness_grace_period_secs := 60;
  io_error_text := "input/output error";
  sql_error_text := λ e, match e with DbFault => "disk error" | _ => "constraint" end
}.

#[export, refine] Instance sample_iter : HashIter := {
  hash_iter := λ K _ _ V m, map_to_list m
}.
Proof. done. Defined.

#[export] Instance sample_serde : Serde := {
  descriptor_to_json := λ _, "descriptor";
  descriptor_of_json := λ t, if bool_decide (t = "descriptor") then Some sample_descriptor else None;
  json_error_text := λ _, "expected value";
  json_of_string := λ t, Some t
}.

#[export] Instance sample_chrono : Chrono := {
  Cron := unit;
  cron_from_str := λ _, Some ();
  find_next_occurrence := λ _ t, Some (t + 3600)%Z;
  timestamp_opt := λ t, Some t;
  civil := λ _, mkDateTime 2026 1 2 3 4 5
}.

Definition sample_components : list ComponentInfo := [mkComponentInfo "ceph" ["19"]].

(** ** Tables *)

Definition alice : UserRow :=
  mkUserRow (mkUserRecord "alice@example.com" "Alice" true (Some 1%Z) false) None 100 100 (Some 100%Z).
Definition bob : UserRow :=
  mkUserRow (mkUserRecord "bob@example.com" "Bob" true None false) None 100 100 None.

Definition ces : ChannelRow := mkChannelRow 1 "ces" "stable" (Some 1%Z) None 100 100.
Definition ces_dev : ChannelTypeRow := mkChannelTypeRow 1 1 "dev" "ces-project" "${username}" None 100 100.

Definition nightly : PeriodicTaskRow :=
  mkPeriodicTaskRow "nightly" "0 2 * * *" "v{version}" "descriptor" 1 "high" None true
    "alice@example.com" 100 100 0 None None None None.

Definition worker_row : WorkerRow :=
  mkWorkerRow "w1" "builder-1" "x86_64" 7 "alice@example.com" 100 None.

Definition worker_key : ApiKey :=
  mkApiKey (mkApiKeyRow 7 "worker:builder-1" "hash-of-key" "0123456789ab" "alice@example.com" None
              false 100) None None.

Definition sample_db : Db :=
  mkDb ∅ 1 ∅ {["w1" := worker_row]}
    (<["alice@example.com" := alice]> {["bob@example.com" := bob]})
    {[1%Z := ces]} 2 {[1%Z := ces_dev]} 2
    (<["dev" := mkRoleRecord "dev" "" false 100]> {["admin" := mkRoleRecord "admin" "" true 100]})
    {[("alice@example.com", "dev")]}
    (list_to_set [("dev", "builds:create"); ("dev", "builds:revoke:own"); ("dev", "builds:list:own");
                  ("dev", "periodic:create")])
    (list_to_set [("dev", "channel", "ces/*"); ("dev", "repository", "github.com/ceph/*")])
    {["nightly" := nightly]} ∅ 1 {[7%Z := worker_key]} 8 ∅ 1.

(** ** The stages of a build *)

Definition s_init : AppState := mkApp sample_db queue_new ∅ ∅ ∅ ∅ ∅ (token_cache_new 100) false ∅ 0 [] 1000 [].

Definition alice_user : AuthUser :=
  mkAuthUser "alice@example.com" "Alice"
    ["builds:create"; "builds:list:own"; "builds:revoke:own"; "periodic:create"] false.

Definition bob_user : AuthUser := mkAuthUser "bob@example.com" "Bob" [] false.

Definition sample_body : SubmitBuildBody := mkSubmitBody sample_descriptor High.

(** Build 1 is queued. *)
Definition s_queued : AppState := (run (submit_build sample_components alice_user sample_body) s_init).2.

Definition builder : WorkerState := Connected "w1" "builder-1" X86_64 8 16000 None.

(** Its worker is connected. *)
Definition s_ready : AppState :=
  (run (do* open_channel "c1" in modify_queue (register_worker "c1" builder)) s_queued).2.

(** The build is dispatched, started, being revoked; the worker is gone. *)
Definition s_dispatched : AppState := (run try_dispatch s_ready).2.
Definition s_started : AppState :=
  (run (handle_worker_message "c1" "builder-1" "w1" (BuildStarted (mkBuildId 1))) s_dispatched).2.
Definition s_revoking : AppState := (run (revoke_build alice_user 1) s_dispatched).2.
Definition s_finished : AppState :=
  (run (handle_worker_message "c1" "builder-1" "w1"
          (BuildFinished (mkBuildId 1) FinSuccess None None)) s_started).2.
Definition s_dead : AppState := (run (modify_queue (set_worker_state "c1" Dead)) s_started).2.

(** ** They agree with the specification *)

Lemma s_init_coh : Coh s_init.
Proof.
  split; [|done]. split; simpl.
  - by intros [].
  - constructor.
  - intros id. unfold states. simpl. rewrite fmap_empty, lookup_empty. split; [|done].
    by intros ?%elem_of_nil.
  - intros id. unfold states. simpl. rewrite fmap_empty, !lookup_empty. split; [by intros []|].
    by intros (? & ? & _).
  - by intros ???%lookup_empty_Some.
  - intros id. unfold states. simpl. rewrite fmap_empty, lookup_empty. by intros [].
  - intros id. unfold ids, db_ids. simpl. rewrite dom_empty_L. set_solver.
Qed.

Lemma refines_open_channel P cid : refines P (open_channel cid).
Proof. by apply refines_frame. Qed.

Lemma refines_coh {A} (m : async A) s : refines (λ _, True) m → Coh s → Coh (run m s).2.
Proof. intros Hm Hs. by apply Hm. Qed.

Lemma s_queued_coh : Coh s_queued.
Proof. apply refines_coh; [apply refines_submit|apply s_init_coh]. Qed.

Lemma s_ready_coh : Coh s_ready.
Proof.
  apply refines_coh; [|apply s_queued_coh]. apply refines_seq; [apply refines_open_channel|].
  intros _. by apply refines_modify_queue.
Qed.

Lemma s_dispatched_coh : Coh s_dispatched.
Proof. apply refines_coh; [apply refines_try_dispatch|apply s_ready_coh]. Qed.

Lemma s_started_coh : Coh s_started.
Proof. apply refines_coh; [apply refines_worker_message|apply s_dispatched_coh]. Qed.

Lemma s_revoking_coh : Coh s_revoking.
Proof. apply refines_coh; [apply refines_revoke|apply s_dispatched_coh]. Qed.

Lemma s_finished_coh : Coh s_finished.
Proof. apply refines_coh; [apply refines_worker_message|apply s_started_coh]. Qed.

Lemma s_dead_coh : Coh s_dead.
Proof. apply refines_coh; [apply refines_set_worker|apply s_started_coh]. Qed.

(** The stages are the intended ones. *)
Example stages :
  states s_queued = {[1%Z := Queued]} ∧ states s_dispatched = {[1%Z := Dispatched]} ∧
  states s_started = {[1%Z := Started]} ∧ states s_revoking = {[1%Z := Revoking]} ∧
  states s_finished = {[1%Z := Success]} ∧ pending_ids (queue s_ready) = [1%Z].
Proof. vm_compute. done. Qed.

Lemma sample_db_wf : db_wf sample_db.
Proof.
  split; simpl; intros i; [by intros r ?%lookup_empty_Some|..];
    by intros [? ?%lookup_empty_Some].
Qed.

Lemma sample_channels_wf : channels_wf sample_db.
Proof.
  split; simpl.
  - by intros i c [<- <-]%lookup_singleton_Some.
  - by intros i c [<- <-]%lookup_singleton_Some.
  - by intros i j c c' [<- <-]%lookup_singleton_Some [<- <-]%lookup_singleton_Some.
  - by intros i j c c' [<- <-]%lookup_singleton_Some [<- <-]%lookup_singleton_Some.
  - intros i c tid [<- <-]%lookup_singleton_Some _ [= <-]. exists ces_dev.
    by rewrite lookup_singleton_eq.
Qed.
