(* ===== verification/Witnesses.v ===== *)
(** * The theorems at work

    Each theorem with hypotheses, applied to the concrete server of Samples.v. *)

From stdpp Require Import prelude gmap strings list relations pretty.
From S2P Require Import Prelude Async Proto Queue Db App Auth DbRoles DbChannels.
From S2P Require Import Channels Components Logs Dispatch Handler Lifecycle Coherence.
From S2P Require Import Refinement Routes Submission TagFormat Recovery Exclusive Scheduler.
From S2P Require Import Periodic System DispatchSpec HandlerSpec RoutesSpec LogsSpec Integrity.
From S2P Require Import Samples.

Open Scope Z_scope.

(** ** The whole server *)

Definition sample_jobs : list (Z * Job) :=
  [(2000, JobRevoke alice_user 1); (2010, JobTask (TaskRevokeTimeout 1)); (2020, JobSweep 3);
   (2030, JobScheduler 2030 true)].

Lemma server_refines_lifecycle_witness :
  Coh s_dispatched ∧
  lc_steps (states s_dispatched) (states (serve_all sample_components sample_jobs s_dispatched)).
Proof.
  split; [exact s_dispatched_coh|].
  apply (server_refines_lifecycle sample_components sample_jobs s_dispatched s_dispatched_coh).
Defined.

Lemma s_queued_db_wf : db_wf (pool s_queued).
Proof.
  assert (t_builds (pool s_queued) = {[1 := new_row 1 sample_descriptor "alice@example.com" High None
    (Some 1) (Some 1) 1000]}) as Hb by (vm_compute; reflexivity).
  split; rewrite ?Hb.
  - by intros i r [<- <-]%lookup_singleton_Some.
  - intros i [r [<- <-]%lookup_singleton_Some]. vm_compute. reflexivity.
  - assert (dom (t_build_logs (pool s_queued)) = {[1]}) as Hd by (vm_compute; reflexivity).
    intros i Hi%elem_of_dom. rewrite Hd in Hi. apply elem_of_singleton in Hi as ->. vm_compute. reflexivity.
Qed.

Definition s_ready_tasks : list (async unit) := [serve sample_components (JobSweep 1)].

Lemma reach_sweep : rtc (sys_step sample_components) (s_queued, []) (s_queued, s_ready_tasks).
Proof. apply rtc_once. apply (sys_start sample_components s_queued [] (JobSweep 1)). Qed.

Lemma queue_exclusive_always_witness : in_one_place (queue s_queued) ∧ lanes_wf (queue s_queued).
Proof.
  apply (queue_exclusive_always sample_components s_queued s_queued s_ready_tasks).
  - exact s_queued_db_wf.
  - exact s_queued_coh.
  - exact reach_sweep.
Defined.

Lemma crash_recovery_witness :
  ∃ s'', run run_startup_recovery (restart s_queued 5000) = (Ok (), s'') ∧ Coh s'' ∧
    q_active (queue s'') = ∅ ∧ (∀ i st, states s'' !! i = Some st → st = Queued ∨ terminal st).
Proof.
  apply (crash_recovery sample_components s_queued s_queued s_ready_tasks).
  - exact s_queued_db_wf.
  - exact s_queued_coh.
  - exact reach_sweep.
Defined.

Lemma recovery_establishes_agreement_witness :
  ∃ s', run run_startup_recovery (restart s_queued 5000) = (Ok (), s') ∧ Coh s'.
Proof.
  destruct (recovery_establishes_agreement (restart s_queued 5000) eq_refl eq_refl s_queued_db_wf)
    as (s' & Hr & Hc & _).
  exists s'. split; [exact Hr|exact Hc].
Defined.

(** ** Dispatch *)

Lemma dispatch_decision_witness :
  ∃ info s' b ab, dispatch_under_lock s_ready = (Ok info, s') ∧ pending (queue s_ready) = b :: pending (queue s') ∧
    q_active (queue s') = <[build_id_0 (qb_build_id b) := ab]> (q_active (queue s_ready)).
Proof.
  pose proof (dispatch_decision s_ready (proj2 s_ready_coh) (coh_lanes _ _ _ (proj1 s_ready_coh))) as Hd.
  assert (is_ok (dispatch_under_lock s_ready).1 = true) as Hok by (vm_compute; reflexivity).
  destruct (dispatch_under_lock s_ready) as [[info|e] s']; [|discriminate Hok].
  destruct Hd as (b & rest & cid & ws & ab & Hp & Hp' & _ & _ & Ha & _).
  exists info, s', b, ab. split; [reflexivity|]. split; [|exact Ha]. rewrite Hp, Hp'. reflexivity.
Defined.

Lemma unassigned_message_ignored_witness :
  untouched s_dispatched
    (run (handle_worker_message "c2" "other" "w2" (BuildStarted (mkBuildId 1))) s_dispatched).2.
Proof.
  apply (unassigned_message_ignored s_dispatched "c2" "other" "w2" (BuildStarted (mkBuildId 1)) (mkBuildId 1)).
  - reflexivity.
  - vm_compute. reflexivity.
Defined.

Definition sample_active : ActiveBuild :=
  default (mkActive 0 "" 0 "" sample_descriptor Low 0 AwaitingReceipt) (q_active (queue s_dispatched) !! 1).

Lemma received_build_not_requeued_witness :
  (claim_assignment "c1" 1 s_dispatched).1 = true ∧
  run (ack_timer_fired 1 (ab_ack_cancel sample_active)) (claim_assignment "c1" 1 s_dispatched).2
    = ((), (claim_assignment "c1" 1 s_dispatched).2).
Proof.
  apply (received_build_not_requeued s_dispatched (claim_assignment "c1" 1 s_dispatched).2 "c1"
           (mkBuildId 1) sample_active).
  - vm_compute. reflexivity.
  - done.
Defined.

Lemma rollback_resets_witness :
  (run (rollback_active_to_queued 1) s_dispatched).1 = true.
Proof.
  apply (rollback_resets s_dispatched 1 sample_active).
  - vm_compute. reflexivity.
  - vm_compute. reflexivity.
Defined.

Lemma sweep_terminates_witness : run (sweep_loop 7) s_ready = run (sweep_loop 2) s_ready.
Proof.
  apply (sweep_terminates s_ready 7). vm_compute. lia.
Defined.

Lemma coh_upd_faults f s : coh (states s) (ids s) (queue s) →
  coh (states (upd_faults f s)) (ids (upd_faults f s)) (queue (upd_faults f s)).
Proof. done. Qed.

Definition head_build : QueuedBuild :=
  default (mkQueued (mkBuildId 0) Low sample_descriptor "" 0) (head (pending (queue s_ready))).

Lemma dispatch_db_failure_loses_build_witness :
  (run try_dispatch (upd_faults [true] s_ready)).1 = Err (Database DbFault) ∧
  states (run try_dispatch (upd_faults [true] s_ready)).2 !! 1 = Some Queued.
Proof.
  pose proof (dispatch_db_failure_loses_build (upd_faults [true] s_ready) head_build [] "c1" []
                (coh_upd_faults [true] s_ready (proj1 s_ready_coh))) as Hd.
  destruct Hd as (H1 & H2 & _).
  - vm_compute. reflexivity.
  - exists builder. split_and!; [vm_compute; reflexivity..|].
    intros i ab Ha. exfalso. assert (q_active (queue (upd_faults [true] s_ready)) = ∅) as He
      by (vm_compute; reflexivity). rewrite He in Ha. by apply lookup_empty_Some in Ha.
  - reflexivity.
  - split; [exact H1|exact H2].
Defined.

Definition revoking_active : ActiveBuild :=
  default sample_active (q_active (queue s_revoking) !! 1).

Lemma ack_timeout_undoes_revocation_witness :
  states (run (ack_timer_fired 1 (ab_ack_cancel revoking_active)) s_revoking).2 !! 1 = Some Queued.
Proof.
  apply (ack_timeout_undoes_revocation s_revoking 1 revoking_active).
  - exact s_revoking_coh.
  - vm_compute. reflexivity.
  - vm_compute. reflexivity.
  - intros Hin. apply (bool_decide_eq_true_2 _) in Hin. vm_compute in Hin. discriminate Hin.
Defined.

Lemma finished_message_finishes_witness :
  Coh (run (handle_worker_message "c1" "builder-1" "w1" (BuildFinished (mkBuildId 1) FinFailure None None))
         s_started).2.
Proof.
  destruct (q_active (queue s_started) !! 1) as [ab|] eqn:E; [|vm_compute in E; discriminate E].
  apply (finished_message_finishes s_started "c1" "builder-1" "w1" (mkBuildId 1) FinFailure None None
           (default ab (active_build_for_connection 1 "c1" (queue s_started)))).
  - exact s_started_coh.
  - vm_compute. reflexivity.
Defined.

(** ** Connections *)

Lemma dead_worker_releases_builds_witness :
  conn_idle "c1" (queue (run (handle_worker_dead "c1") s_dead).2).
Proof.
  destruct (dead_worker_releases_builds s_dead "c1" s_dead_coh) as (s1 & _ & _ & _ & Hidle).
  - intros ws Hws. assert (Some ws = Some Dead) as Hd by (rewrite <- Hws; vm_compute; reflexivity).
    injection Hd as ->. reflexivity.
  - exact Hidle.
Defined.

Lemma migration_takes_over_witness :
  active_builds_with_receipt_for_connection "c1"
    (migrate_connection "w1" "c2" builder (queue s_started)).2 = [].
Proof.
  apply (migration_takes_over (queue s_started) "w1" "c1" "c2" builder true).
  vm_compute. reflexivity.
Defined.

Definition started_active : ActiveBuild := default sample_active (q_active (queue s_started) !! 1).

Lemma idle_report_keeps_own_builds_witness :
  states (run (handle_worker_status "c1" "w1" Idle None) s_started).2 !! 1 = states s_started !! 1.
Proof.
  apply (idle_report_keeps_own_builds s_started "c1" "w1" None 1 started_active).
  - exact s_started_coh.
  - vm_compute. reflexivity.
  - vm_compute. reflexivity.
Defined.

Lemma stale_report_not_answered_witness :
  run (handle_worker_status "c1" "w1" Building (Some (mkBuildId 1))) s_queued = ((), s_queued).
Proof.
  apply (stale_report_not_answered s_queued "c1" "w1" 1 Queued).
  - exact s_queued_coh.
  - vm_compute. reflexivity.
  - left. reflexivity.
Defined.

Lemma handshake_gate_witness :
  ∃ f, (run (handle_connection "c9" worker_row 5 [InText (Ok (Hello 1 X86_64 8 16000 None))]) s_ready).2
       = upd_faults f s_ready.
Proof.
  apply (handshake_gate "c9" worker_row 5 [InText (Ok (Hello 1 X86_64 8 16000 None))] s_ready).
  intros m rest Hw. injection Hw as <- <-. intros [Hv _]. discriminate Hv.
Defined.

(** ** Users and channels *)

Lemma require_scopes_all_iff_witness :
  (run (require_scopes_all alice_user [(ScopeRepository, "github.com/ceph/ceph")]) s_init).1 = Ok ().
Proof.
  apply (require_scopes_all_iff alice_user [(ScopeRepository, "github.com/ceph/ceph")] s_init eq_refl).
  exists "dev". split.
  - apply (bool_decide_eq_true_1 _). vm_compute. reflexivity.
  - apply Forall_singleton. right. exists "github.com/ceph/*". split.
    + apply (bool_decide_eq_true_1 _). vm_compute. reflexivity.
    + apply (pat_prefix "github.com/ceph/").
Defined.

Lemma load_authed_user_caps_witness :
  ∃ row, user_record "alice@example.com" (pool s_init) = Some row ∧ ur_active row = true.
Proof.
  destruct (run (load_authed_user "alice@example.com") s_init).1 as [u|e] eqn:E; [|vm_compute in E; discriminate E].
  destruct (load_authed_user_caps "alice@example.com" s_init u eq_refl E) as (row & H1 & H2 & _).
  exists row. split; [exact H1|exact H2].
Defined.

Definition alice_descriptor : BuildDescriptor := sign_off alice_user sample_descriptor.

Lemma resolve_and_rewrite_sound_witness :
  ∃ rc d, (run (resolve_and_rewrite alice_descriptor alice) s_init).1 = Ok (rc, d) ∧
          resolution_ok s_init alice_descriptor alice rc d.
Proof.
  destruct (run (resolve_and_rewrite alice_descriptor alice) s_init).1 as [[rc d]|e] eqn:E;
    [|vm_compute in E; discriminate E].
  exists rc, d. split; [reflexivity|].
  apply (resolve_and_rewrite_sound s_init alice_descriptor alice rc d eq_refl sample_channels_wf E).
Defined.

Lemma resolve_and_rewrite_complete_witness :
  ∃ d, run (resolve_and_rewrite alice_descriptor alice) s_init =
    (Ok (mkResolvedChannel 1 1 "${username}", d), s_init).
Proof.
  apply (resolve_and_rewrite_complete s_init alice_descriptor alice ces ces_dev "dev").
  - reflexivity.
  - exact sample_channels_wf.
  - vm_compute. reflexivity.
  - reflexivity.
  - vm_compute. reflexivity.
  - reflexivity.
  - reflexivity.
  - reflexivity.
  - reflexivity.
  - apply (bool_decide_eq_true_1 _). vm_compute. reflexivity.
  - right. exists "ces/*". split.
    + apply (bool_decide_eq_true_1 _). vm_compute. reflexivity.
    + apply (pat_prefix "ces/").
Defined.

Lemma submission_outcome_witness :
  (∃ resp, accepted sample_components alice_user sample_body s_init s_queued resp) ∧
  (run (submit_build sample_components bob_user sample_body) s_init).2 = s_init.
Proof.
  pose proof (submission_outcome sample_components s_init alice_user sample_body s_init_coh
                sample_channels_wf) as Ha.
  pose proof (submission_outcome sample_components s_init bob_user sample_body s_init_coh
                sample_channels_wf) as Hb.
  assert (is_ok (run (submit_build sample_components alice_user sample_body) s_init).1 = true) as Hok
    by (vm_compute; reflexivity).
  assert (is_ok (run (submit_build sample_components bob_user sample_body) s_init).1 = false) as Hno
    by (vm_compute; reflexivity).
  split.
  - unfold s_queued.
    destruct (run (submit_build sample_components alice_user sample_body) s_init) as [[resp|e] s'];
      [exists resp; exact Ha|discriminate Hok].
  - destruct (run (submit_build sample_components bob_user sample_body) s_init) as [[resp|e] s'];
      [discriminate Hno|exact Hb].
Defined.

Definition all_builds : ListBuildsQuery := mkListQuery None None.

Lemma listing_exact_witness :
  ∃ l, run (list_builds_route alice_user all_builds) s_queued = (Ok l, s_queued) ∧ may_list alice_user.
Proof.
  pose proof (listing_exact s_queued alice_user all_builds (proj2 s_queued_coh)) as Hl.
  assert (is_ok (run (list_builds_route alice_user all_builds) s_queued).1 = true) as Hok
    by (vm_compute; reflexivity).
  destruct (run (list_builds_route alice_user all_builds) s_queued) as [[l|e] s']; [|discriminate Hok].
  destruct Hl as (-> & Hm & _). exists l. split; [reflexivity|exact Hm].
Defined.

Definition sample_row : BuildRow :=
  new_row 1 sample_descriptor "alice@example.com" High None (Some 1) (Some 1) 1000.

(** Bob may view no builds, and learns that there is a build 1 and no build 99. *)
Lemma foreign_builds_hidden_witness :
  run (get_build_route bob_user 99) s_queued = (Err no_such_build, s_queued) ∧
  run (get_build_route bob_user 1) s_queued = (Err list_forbidden, s_queued).
Proof.
  destruct (foreign_builds_hidden s_queued bob_user 1 99 sample_row (proj2 s_queued_coh)) as [Hget _].
  - vm_compute. reflexivity.
  - discriminate.
  - vm_compute. reflexivity.
  - exact (Hget eq_refl).
Defined.

Lemma queued_build_revoked_witness :
  1 ∉ pending_ids (queue (run (revoke_build alice_user 1) s_queued).2).
Proof.
  apply (queued_build_revoked s_queued alice_user 1 sample_row).
  - exact s_queued_coh.
  - vm_compute. reflexivity.
  - reflexivity.
  - right. split; reflexivity.
Defined.

Definition sample_changes : list (Z * ChannelStmt) :=
  [(200, CreateType 1 "release" "ces-project" ""); (210, SetDefaultType 1 2); (220, SoftDeleteType 1)].

Lemma channel_integrity_witness :
  ∃ x, (get_type 2 230 (exec_channel_stmts sample_changes sample_db)).1 = Ok (Some x) ∧ ctr_channel_id x = 1.
Proof.
  destruct (channel_integrity sample_changes sample_db 230 sample_channels_wf) as (_ & _ & Hdef).
  apply (Hdef 1 (mkChannelRow 1 "ces" "stable" (Some 2) None 100 210) 2).
  - vm_compute. reflexivity.
  - reflexivity.
  - reflexivity.
Defined.

Lemma role_deletion_witness : run (delete_role "admin") s_init = (Ok false, s_init).
Proof.
  pose proof (role_deletion s_init "admin" eq_refl) as Hd. vm_compute in Hd. exact Hd.
Defined.

(** ** The scheduler *)

Lemma trigger_checks_owner_witness :
  ∃ u, user_record "alice@example.com" (pool s_init) = Some u ∧
       (run (trigger_periodic_build sample_components nightly) s_init).1 = Ok 1.
Proof.
  destruct (trigger_checks_owner sample_components nightly s_init 1 s_init_coh sample_channels_wf)
    as (u & _ & _ & _ & _ & Hu & _).
  - vm_compute. reflexivity.
  - exists u. split; [exact Hu|]. vm_compute. reflexivity.
Defined.

Lemma transient_failure_bookkeeping_witness :
  ∃ row, t_periodic_tasks (pool (run (record_outcome nightly (Err (Transient "db down"))) s_init).2)
           !! "nightly" = Some row ∧ pt_retry_count row = 1.
Proof.
  destruct (transient_failure_bookkeeping nightly "db down" s_init) as (row & Hrow & Hretry & _).
  - reflexivity.
  - vm_compute. reflexivity.
  - vm_compute. split; [discriminate|reflexivity].
  - exists row. split; [exact Hrow|]. apply Hretry. vm_compute. reflexivity.
Defined.

Lemma schedule_head_earliest_witness :
  compute_schedule 5000 [nightly] = [(8600, "nightly")] ∧ next_fire 5000 nightly = Some 8600.
Proof.
  assert (compute_schedule 5000 [nightly] = [(8600, "nightly")]) as Hc by (vm_compute; reflexivity).
  split; [exact Hc|].
  destruct (schedule_head_earliest 5000 [nightly] 8600 "nightly" [] Hc) as ((task & Ht & _ & Hn) & _).
  apply list_elem_of_singleton in Ht as ->. exact Hn.
Defined.

(** The server after the default channel of the owner was deleted. *)
Definition s_channel_gone : AppState := upd_pool (soft_delete_channel 1 500 sample_db).2 s_init.

Lemma deleted_default_is_retried_witness :
  ∃ m, run (trigger_periodic_build sample_components nightly) s_channel_gone
       = (Err (Transient m), s_channel_gone).
Proof.
  eexists.
  apply (deleted_default_is_retried sample_components nightly s_channel_gone alice
           (set_tag "v19.2.3" (sign_off_record alice sample_descriptor)) 1 (delete_channel_row 500 ces)).
  - reflexivity.
  - vm_compute. reflexivity.
  - vm_compute. reflexivity.
  - reflexivity.
  - reflexivity.
  - vm_compute. reflexivity.
  - discriminate.
Defined.

(** ** Logs *)

Definition s_logged : AppState :=
  (run (handle_worker_message "c1" "builder-1" "w1" (BuildOutput (mkBuildId 1) 0 ["one"; "two"])) s_started).2.

Lemma get_seq_offset_exact_witness : get_seq_offset 1 1 s_logged = Some 4.
Proof.
  apply (get_seq_offset_exact s_logged 1 [(0, 0); (1, 4)]).
  - vm_compute. reflexivity.
  - repeat constructor.
  - right. left.
Defined.

Lemma logged_lines_addressable_witness :
  ∃ o rest, get_seq_offset 1 3 (run (write_build_output 1 "c1" 2 ["three"; "four"]) s_logged).2 = Some o ∧
    drop_bytes (Z.to_nat o) (file_content 1 (run (write_build_output 1 "c1" 2 ["three"; "four"]) s_logged).2)
      = ("four" +:+ newline) +:+ rest.
Proof.
  assert (seq_indices s_logged !! 1 = Some [(0, 0); (1, 4)]) as Hi by (vm_compute; reflexivity).
  destruct (logged_lines_addressable s_logged 1 "c1" 2 ["three"; "four"]) as (_ & _ & _ & _ & Hl).
  - vm_compute. reflexivity.
  - discriminate.
  - rewrite Hi. repeat constructor.
  - rewrite Hi. intros q o Hq. simpl in Hq.
    apply elem_of_cons in Hq as [[= -> ->]|[= -> ->]%list_elem_of_singleton]; reflexivity.
  - discriminate.
  - vm_compute. discriminate.
  - exact (Hl 1%nat "four" eq_refl).
Defined.
