(* ===== verification/AdminWitnesses.v ===== *)
(** * A concrete server with logins and tokens

    Instances of the third-party code around credentials (an LRU cache, hashes,
    sealed tokens, the Google endpoints, JSON values) and states with an
    administrator, keys and logs, and each theorem with hypotheses applied to
    them. *)

From Stdlib Require Import Strings.Byte.
From stdpp Require Import prelude gmap strings list countable relations pretty.
From S2P Require Import Prelude Async Proto Common ServerConfig Queue Db TokenCache.
From S2P Require Import App DbRoles DbCredentials DbUsers Auth Login AuthRoutes Admin WorkerAdmin.
From S2P Require Import Components Routes Scheduler PeriodicRoutes Samples DbChannels Channels Logs Dispatch.
From S2P Require Import Handler Lifecycle Coherence Refinement LoginSpec TokenSpec AdminSpec LogsSpec LogReaders.
From S2P Require Import LogReadersSpec Startup DispatchSpec PeriodicRoutesSpec.

(** ** The LRU cache: the most recent entry first *)

Definition without (h : Digest) (l : list (Digest * CachedToken)) : list (Digest * CachedToken) :=
  filter (λ e, e.1 ≠ h) l.

Definition list_peek (h : Digest) (l : list (Digest * CachedToken)) : option CachedToken :=
  (list_to_map l : gmap Digest CachedToken) !! h.

Lemma peek_cons h h' e l :
  list_peek h' ((h, e) :: l) = if bool_decide (h' = h) then Some e else list_peek h' l.
Proof.
  unfold list_peek. rewrite list_to_map_cons. case_bool_decide as Hh; [subst; by rewrite lookup_insert_eq|].
  by rewrite lookup_insert_ne.
Qed.

Lemma peek_without h h' l :
  list_peek h' (without h l) = if bool_decide (h' = h) then None else list_peek h' l.
Proof.
  induction l as [|[k v] l IH]; [unfold list_peek; simpl; rewrite lookup_empty; by case_bool_decide|].
  unfold without. rewrite filter_cons. cbn [fst]. fold (without h l).
  destruct (decide (k ≠ h)) as [Hk|Hk].
  - rewrite !peek_cons, IH. case_bool_decide as Hk'; [subst; by rewrite bool_decide_eq_false_2|done].
  - apply dec_stable in Hk as ->. rewrite IH, peek_cons. by case_bool_decide.
Qed.

Definition list_push (capacity : nat) (h : Digest) (e : CachedToken) (l : list (Digest * CachedToken))
    : option (Digest * CachedToken) * list (Digest * CachedToken) :=
  match list_peek h l with
  | Some old => (Some (h, old), (h, e) :: without h l)
  | None =>
      match last l with
      | Some (k, _) =>
          if length l <? capacity then (None, (h, e) :: l)
          else (match list_peek k l with Some v => Some (k, v) | None => None end, (h, e) :: without k l)
      | None => (None, [(h, e)])
      end
  end.

Lemma peek_last k v l : last l = Some (k, v) → is_Some (list_peek k l).
Proof.
  intros Hl. unfold list_peek. apply elem_of_dom. rewrite dom_list_to_map_L.
  apply elem_of_list_to_set, list_elem_of_fmap. exists (k, v). split; [done|].
  apply last_Some in Hl as [l' ->]. apply elem_of_app. right. by apply list_elem_of_singleton.
Qed.

Lemma list_push_lookup c h e l h' :
  list_peek h' (list_push c h e l).2 =
  if bool_decide (h' = h) then Some e
  else match (list_push c h e l).1 with
       | Some (k, _) => if bool_decide (h' = k) then None else list_peek h' l
       | None => list_peek h' l
       end.
Proof.
  unfold list_push. destruct (list_peek h l) as [old|] eqn:Hh; cbn [fst snd].
  { rewrite peek_cons, peek_without. by case_bool_decide. }
  destruct (last l) as [[k v]|] eqn:Hl; [|apply last_None in Hl as ->; apply peek_cons].
  destruct (length l <? c); cbn [fst snd]; [apply peek_cons|].
  destruct (peek_last k v l Hl) as [w ->]. by rewrite peek_cons, peek_without.
Qed.

Lemma list_push_returns c h e l k v : (list_push c h e l).1 = Some (k, v) → list_peek k l = Some v.
Proof.
  unfold list_push. destruct (list_peek h l) as [old|] eqn:Hh; cbn [fst]; [by intros [= <- <-]|].
  destruct (last l) as [[k' v']|] eqn:Hl; [|done]. destruct (length l <? c); [done|]. cbn [fst].
  destruct (list_peek k' l) as [w|] eqn:Hk; [|done]. by intros [= <- <-].
Qed.

Lemma list_push_present c h e l v : list_peek h l = Some v → (list_push c h e l).1 = Some (h, v).
Proof. unfold list_push. by intros ->. Qed.

Definition list_get (h : Digest) (l : list (Digest * CachedToken)) : list (Digest * CachedToken) :=
  match list_peek h l with Some v => (h, v) :: without h l | None => l end.

Lemma list_get_lookup h l h' : list_peek h' (list_get h l) = list_peek h' l.
Proof.
  unfold list_get. destruct (list_peek h l) as [v|] eqn:Hh; [|done].
  rewrite peek_cons, peek_without. case_bool_decide; [by subst|done].
Qed.

#[export] Instance sample_lru : LruCrate := {
  lru_push h e l := let r := list_push (lru_capacity l) h e (lru_entries l) in
                    (r.1, mkLru (lru_capacity l) r.2);
  lru_get h l := (lru_peek h l, mkLru (lru_capacity l) (list_get h (lru_entries l)));
  lru_pop h l := (lru_peek h l, mkLru (lru_capacity l) (without h (lru_entries l)));
  lru_push_lookup h e l := list_push_lookup (lru_capacity l) h e (lru_entries l);
  lru_push_returns h e l := list_push_returns (lru_capacity l) h e (lru_entries l);
  lru_push_present h e l := list_push_present (lru_capacity l) h e (lru_entries l);
  lru_get_result h l := eq_refl;
  lru_get_lookup h l := list_get_lookup h (lru_entries l);
  lru_pop_result h l := eq_refl;
  lru_pop_lookup h l h' := peek_without h h' (lru_entries l)
}.

(** ** Tokens *)

(** A byte string as the digest of itself. *)
#[export] Instance web_env : Env := {
  uuid_v4 := λ n, "uuid-" +:+ pretty n;
  tar_gz := λ names, repeat Byte.x00 (length names);
  sha256 := λ b, b;
  metrics_enabled := false;
  liveness_grace_period_secs := 60;
  io_error_text := "input/output error";
  sql_error_text := λ e, match e with DbFault => "disk error" | _ => "constraint" end
}.

Definition zero_bit : Ascii.ascii := Ascii.ascii_of_nat 48.
Definition one_bit : Ascii.ascii := Ascii.ascii_of_nat 49.

Fixpoint bits_of (p : positive) : string :=
  match p with xH => "" | xO p => String zero_bit (bits_of p) | xI p => String one_bit (bits_of p) end.
Fixpoint of_bits (s : string) : positive :=
  match s with
  | EmptyString => xH
  | String c s => if Ascii.eqb c zero_bit then xO (of_bits s) else xI (of_bits s)
  end.

Lemma of_bits_of p : of_bits (bits_of p) = p.
Proof. induction p as [p IH|p IH|]; simpl; congruence. Qed.

Definition payload_text (p : CbsdTokenPayloadV1) : string := bits_of (encode (pl_expires p, pl_user p)).
Definition payload_of_text (s : string) : option CbsdTokenPayloadV1 :=
  (λ p : option Z * string, mkPayload p.1 p.2) <$> decode (of_bits s).

Lemma payload_text_inv p : payload_of_text (payload_text p) = Some p.
Proof. unfold payload_of_text, payload_text. rewrite of_bits_of, decode_encode. by destruct p. Qed.

#[export] Instance sample_tokens : TokenCrates := {
  argon2_check := λ raw hash, bool_decide (hash = "argon2:" +:+ raw);
  argon2_hash_password := λ raw salt, Ok ("argon2:" +:+ raw);
  random_bytes := λ n, repeat (if Nat.even n then Byte.x1a else Byte.x2b) 32;
  symmetric_key_ok := λ _, true;
  paseto_open := λ _ raw _, strip_prefix "v4.local." raw;
  paseto_seal := λ _ _ payload _, Some ("v4.local." +:+ payload);
  payload_to_json := λ p, Some (payload_text p);
  payload_of_json := payload_of_text;
  join_error_text := "task panicked"
}.

#[export] Instance sample_web : WebCrates := {
  read_secrets_file := λ _, Ok "secrets";
  google_secrets_of_json := λ _, Ok (mkGoogleWebSecrets "id" "secret" ["https://cbs.example.com/callback"]);
  http_post_form := λ _ form, Ok (mkHttpResponse true "access");
  http_get_bearer := λ _ token, Ok (mkHttpResponse (bool_decide (token = "access")) "carol");
  access_token_of_json := λ t, Ok t;
  userinfo_of_json := λ t, Ok (mkGoogleUserInfo "Carol@Example.com" "Carol" true);
  base64url_encode := λ s, "b64." +:+ s
}.

#[export] Instance sample_admin_crates : AdminCrates := {
  worker_token_to_json := λ t, wt_worker_id t +:+ "," +:+ wt_worker_name t +:+ "," +:+ wt_api_key t +:+ ","
                                 +:+ wt_arch t;
  parse_iso_date := λ s, if bool_decide (s = "2026-01-01") then Ok 20454%Z else Err "invalid date";
  date_succ := λ d, Some (d + 1)%Z
}.

#[export] Instance sample_json : JsonValue := {
  Value := string;
  value_string := id;
  is_object := λ v, bool_decide (v = "descriptor");
  value_get := λ _ _, None;
  as_array := λ _, None;
  as_str := λ _, None;
  value_to_string := id;
  value_from_str := Some;
  descriptor_from_value := λ v, if bool_decide (v = "descriptor") then Ok sample_descriptor else Err "expected descriptor"
}.

(** ** Configuration *)

Definition zeros64 : string := String.concat "" (repeat "00" 32).

Definition web_config : ServerConfig :=
  mkServerConfig "0.0.0.0:8080" None None "cbsd.db" "/var/log/cbsd" "components"
    (mkSecrets zeros64 15552000) (mkOAuthConfig "secrets.json" ["example.com"] false)
    timeouts_default log_retention_default (mkSeed (Some "root@example.com")) (mkDev false [])
    (mkServerLogging "info" (Some "/var/log/cbsd/server.log")) server_metrics_default.

Definition web_oauth : OAuthState := mkOAuthState "id" "secret" "https://cbs.example.com/callback".

(** ** The theorems on credentials, tasks and logs at work

    Each theorem with hypotheses, applied to the concrete server above. *)

Open Scope string_scope.

(** ** A server with an administrator and a key *)

Definition root : UserRow :=
  mkUserRow (mkUserRecord "root@example.com" "Root" true None false) None 100 100 (Some 100%Z).

Definition raw_key : string := "cbsk_" +:+ hex_encode (random_bytes 0).

Definition root_key : ApiKey :=
  mkApiKey (mkApiKeyRow 8 "laptop" ("argon2:" +:+ raw_key) (String.substring 5 12 raw_key)
              "root@example.com" None false 100) None None.

Definition web_db : Db :=
  mkDb ∅ 1 ∅ {["w1" := worker_row]}
    (<["root@example.com" := root]> {["alice@example.com" := alice]})
    {[1%Z := ces]} 2 {[1%Z := ces_dev]} 2
    (<["dev" := mkRoleRecord "dev" "" false 100]> {["admin" := mkRoleRecord "admin" "" true 100]})
    (list_to_set [("root@example.com", "admin"); ("alice@example.com", "dev")])
    (list_to_set [("admin", "*"); ("dev", "builds:create"); ("dev", "periodic:manage:own")])
    (list_to_set [("dev", "channel", "ces/*"); ("dev", "repository", "github.com/ceph/*")])
    {["nightly" := nightly]} ∅ 1 (<[8%Z := root_key]> {[7%Z := worker_key]}) 9 ∅ 1.

Definition s_web : AppState :=
  mkApp web_db queue_new ∅ ∅ ∅ ∅ ∅ (token_cache_new 100) false ∅ 0 [] 1000 [].

Definition root_user : AuthUser := mkAuthUser "root@example.com" "Root" ["*"] false.

Lemma web_keys (i : Z) (k : ApiKey) :
  t_api_keys (pool s_web) !! i = Some k → (i = 8 ∧ k = root_key ∨ i = 7 ∧ k = worker_key)%Z.
Proof.
  simpl. intros [[<- <-]|[_ [<- <-]%lookup_singleton_Some]]%lookup_insert_Some; [by left|by right].
Qed.

Lemma web_creds_wf : creds_wf (pool s_web).
Proof.
  split; [by intros i k [[-> ->]|[-> ->]]%web_keys|].
  intros i r Hr. simpl in Hr. by apply lookup_empty_Some in Hr.
Qed.

Lemma web_sound : sound s_web.
Proof. split; [done|exact web_creds_wf|apply cache_new_indexed|done]. Qed.

Lemma web_presents : presents s_web raw_key 8 root_key.
Proof.
  split; [by vm_compute..|]. intros j k [[-> ->]|[-> ->]]%web_keys; [done|by vm_compute].
Qed.

(** ** Tokens *)

(** A key is created, used by its owner, and another one revoked; its owner is
    still authenticated with it. *)
Definition web_requests : list Request :=
  [Authenticate (Some raw_key) SessionMissing; CreateApiKey root_user "ci";
   RevokeApiKey root_user "2b2b2b2b2b2b"].

Lemma accepted_token_is_live_witness :
  ∃ u, (run (from_request_parts web_config (Some raw_key) SessionMissing)
          (run (handle_requests web_config web_oauth web_requests) s_web).2).1 = Ok u ∧
    ∃ e raw' row, digest raw' = digest raw_key ∧
      live (pool (run (handle_requests web_config web_oauth web_requests) s_web).2) e raw' ∧
      user_record (tok_owner_email e) (pool (run (handle_requests web_config web_oauth web_requests) s_web).2)
        = Some row ∧ au_email u = ur_email row.
Proof.
  destruct (run (from_request_parts web_config (Some raw_key) SessionMissing)
              (run (handle_requests web_config web_oauth web_requests) s_web).2).1 as [u|e] eqn:Hu;
    [|exfalso; vm_compute in Hu; discriminate Hu].
  exists u. split; [reflexivity|].
  destruct (accepted_token_is_live web_config web_oauth s_web web_requests raw_key SessionMissing u
              web_sound eq_refl Hu) as (e & raw' & row & H1 & H2 & _ & H3 & _ & H4).
  exists e, raw', row. split_and!; assumption.
Defined.

Lemma revocation_race_witness :
  ∃ s', (∃ k' : ApiKey, t_api_keys (pool s') !! 8%Z = Some k' ∧ ak_revoked k' = true) ∧
    (run (verify_api_key raw_key) s').1 = Ok (entry_of ApiKeyToken (candidate_of_key root_key)).
Proof.
  destruct (revocation_race s_web root_user raw_key 8 root_key) as (s' & _ & H1 & H2).
  - reflexivity.
  - exact web_creds_wf.
  - exact web_presents.
  - reflexivity.
  - reflexivity.
  - vm_compute. reflexivity.
  - reflexivity.
  - reflexivity.
  - exists s'. split; [exact H1|exact H2].
Defined.

Lemma registered_worker_connects_witness :
  ∃ code resp s' key cid row s'',
    run (register_worker root_user "builder-2" "aarch64") s_web = (Ok (code, resp), s') ∧
    run (ws_upgrade (Some ("Bearer " +:+ key))) s' = (Ok (cid, row), s'') ∧
    wr_id row = rw_worker_id resp.
Proof.
  destruct (run (register_worker root_user "builder-2" "aarch64") s_web) as [[[code resp]|e] s'] eqn:Hreg;
    [|exfalso; vm_compute in Hreg; discriminate Hreg].
  destruct (registered_worker_connects s_web s' root_user "builder-2" "aarch64" code resp eq_refl web_creds_wf Hreg)
    as (key & cid & row & s'' & _ & H1 & H2 & _).
  - intros n. simpl. destruct (Nat.even n); reflexivity.
  - intros raw salt hash [= <-]. simpl. apply bool_decide_eq_true_2. reflexivity.
  - intros j k [[-> ->]|[-> ->]]%web_keys; vm_compute; reflexivity.
  - vm_compute. reflexivity.
  - exists code, resp, s', key, cid, row, s''. split_and!; [reflexivity|exact H1|exact H2].
Defined.

(** ** Administrators *)

Lemma web_holders : wildcard_holders (pool s_web) = {[normalize_email "root@example.com"]}.
Proof. vm_compute. reflexivity. Qed.

Lemma last_admin_stays_witness :
  ∃ msg, run (deactivate_entity root_user "root@example.com") s_web = (Err (CONFLICT, msg), s_web).
Proof.
  apply (last_admin_stays s_web root_user "root@example.com").
  - unfold has_admin. rewrite web_holders. intros H. vm_compute in H. discriminate H.
  - reflexivity.
  - reflexivity.
  - exact web_holders.
Defined.

Lemma last_admin_removed_witness :
  wildcard_holders (pool (run (remove_entity_role root_user "root@example.com" "admin") s_web).2) = ∅.
Proof.
  pose proof (last_admin_removed s_web root_user "root@example.com" "admin" eq_refl eq_refl web_holders) as H.
  destruct (run (remove_entity_role root_user "root@example.com" "admin") s_web) as [r s'].
  apply H. intros r' _ Hr'. simpl in Hr'. set_solver.
Defined.

(** ** Logins and start-up *)

Definition login_session : Session :=
  mkSession (<["oauth_state" := "nonce"]> {["client_type" := "cli"]}) 1 None.
Definition login_query : CallbackQuery := mkCallbackQuery (Some "code") "nonce" None.

Lemma web_users (e : string) (u : UserRow) : t_users (pool s_web) !! e = Some u → ur_email u = e.
Proof. simpl. by intros [[<- <-]|[_ [<- <-]%lookup_singleton_Some]]%lookup_insert_Some. Qed.

(** The command line's login: its token works as a bearer and in a session. *)
Lemma login_token_accepted_witness :
  ∃ redirect ses' s' raw,
    run (callback web_config web_oauth login_query login_session) s_web = (Ok (redirect, ses'), s') ∧
    hands_out "cli" raw redirect ses' ∧
    ∀ bearer session, carries_login raw bearer session →
      ∃ u, (run (from_request_parts web_config bearer session) s').1 = Ok u.
Proof.
  destruct (run (callback web_config web_oauth login_query login_session) s_web)
    as [[[redirect ses']|e] s'] eqn:Hrun; [|exfalso; vm_compute in Hrun; discriminate Hrun].
  assert (faults s' = [] ∧ clock s' = clock s_web) as [Hf Hc] by by (vm_compute in Hrun; injection Hrun as _ _ <-).
  assert (∀ e, from_option ur_active true (user_record e (pool s_web)) = true) as Hact.
  { intros e. unfold user_record, user_row. simpl.
    destruct (<[_ := _]> _ !! e) as [u|] eqn:E; [|done]. simpl.
    by apply lookup_insert_Some in E as [[_ <-]|[_ [_ <-]%lookup_singleton_Some]]. }
  destruct (login_token_accepted web_config web_oauth s_web s' login_query login_session redirect ses')
    as (_ & email & name & raw & _ & H1 & (u & Hu & _ & _ & Ha) & H2 & H3).
  - reflexivity.
  - reflexivity.
  - exact Hrun.
  - intros key payload nonce raw t [= <-] _. apply strip_prefix_app.
  - intros key ttl payload nonce raw [= <-]. apply starts_with_spec. by exists payload.
  - intros p j [= <-]. apply payload_text_inv.
  - exact web_users.
  - exists redirect, ses', s', raw. split_and!; [reflexivity|exact H1|]. intros bearer session Hp.
    rewrite Hact in Ha. assert (clock s_web ≤ clock s' < clock s_web + max_token_ttl_seconds (secrets web_config))%Z as Ht.
    { rewrite Hc. vm_compute. split; [intros [=]|reflexivity]. }
    specialize (H3 s' bearer session u Hf Ht H2 Hp Hu). rewrite Ha in H3. destruct H3 as [caps H3].
    eexists. exact H3.
Defined.

Definition s_empty : AppState :=
  upd_pool
    (mkDb ∅ 1 ∅ ∅ {["alice@example.com" := alice]} ∅ 1 ∅ 1 ∅ ∅ ∅ ∅ ∅ ∅ 1 ∅ 1 ∅ 1)
    s_web.

Definition first_config : ServerConfig :=
  mkServerConfig "0.0.0.0:8080" None None "cbsd.db" "/var/log/cbsd" "components"
    (mkSecrets zeros64 15552000) (mkOAuthConfig "secrets.json" ["example.com"] false)
    timeouts_default log_retention_default (mkSeed (Some "first@example.com")) (mkDev false [])
    (mkServerLogging "info" (Some "/var/log/cbsd/server.log")) server_metrics_default.

Lemma seed_establishes_admin_witness :
  ∃ s', run (run_first_startup_seed first_config) s_empty = (Ok (), s') ∧
    wildcard_holders (pool s') = {["first@example.com"]}.
Proof.
  destruct (seed_establishes_admin s_empty first_config) as (H1 & _ & H3).
  - split; reflexivity.
  - intros email [= <-]. vm_compute. reflexivity.
  - destruct H3 as [s' Hs']; [reflexivity|reflexivity|]. exists s'. split; [exact Hs'|].
    exact (proj2 (proj2 (proj1 (H1 s' Hs')))).
Defined.

Definition started_build : ActiveBuild :=
  default (mkActive 0 "" 0 "" sample_descriptor Low 0 AwaitingReceipt) (q_active (queue s_started) !! 1%Z).

Lemma drain_overwrites_result_witness :
  ∃ s', states s' !! 1%Z = Some Revoking ∧ q_active (queue s') !! 1%Z = None.
Proof.
  destruct (drain_overwrites_result (HEnv := sample_env) s_started "c1" "builder-1" "w1" (mkBuildId 1)
              FinSuccess None None started_build) as (_ & s' & _ & H1 & H2).
  - exact s_started_coh.
  - vm_compute. reflexivity.
  - vm_compute. reflexivity.
  - exists s'. split; [exact H1|exact H2].
Defined.

(** ** Logs *)

Definition log_lines : list string := ["configure"; "make"; "done"].

(** Build 1 is running and writes its log, and an old log of build 2 is kept. *)
Definition row_of (i : Z) (st : BuildState) (finished : option Z) : BuildRow :=
  mkBuildRow i "descriptor" 1 "alice@example.com" "high" None (Some 1%Z) (Some 1%Z) 100 100 st None None
    None (Some 100%Z) finished None.

Definition logs_db : Db :=
  set_builds (<[1%Z := row_of 1 Started None]> {[2%Z := row_of 2 Success (Some 200%Z)]})
    (set_build_logs (<[1%Z := mkBuildLogRow (log_path_of 1) 20 false 100]>
                       {[2%Z := mkBuildLogRow (log_path_of 2) 20 true 200]}) web_db).

Definition s_logs : AppState :=
  mkApp logs_db queue_new ∅ ∅ ∅ {[1%Z := line_entries 0 0 log_lines]}
    (<[1%Z := lines_text log_lines]> {[2%Z := lines_text log_lines]}) (token_cache_new 100) false ∅ 0 []
    10000000 [].

Lemma log_lines_clean : Forall clean_line log_lines.
Proof. repeat (constructor; [split; [split|]; vm_compute; reflexivity|]). constructor. Qed.

Lemma tail_is_last_lines_witness :
  ∃ r, run (read_tail 1 2 1000) s_logs = (Ok (Some r), s_logs) ∧ tail_lines r = ["make"; "done"].
Proof.
  destruct (tail_is_last_lines s_logs 1 (lines_text log_lines) 2 1000) as (r & H1 & H2 & H3).
  - reflexivity.
  - vm_compute. reflexivity.
  - vm_compute. reflexivity.
  - reflexivity.
  - exists r. split; [exact H1|]. cbv zeta in H3. rewrite H2 in H3. vm_compute in H3. exact H3.
Defined.

Lemma s_logs_has_log (i : Z) st : i = 1%Z ∨ i = 2%Z → st = t_build_logs (pool s_logs) !! i →
  ∀ row, st = Some row → has_log s_logs i row log_lines.
Proof.
  intros Hi -> row Hrow. destruct Hi as [-> | ->]; vm_compute in Hrow; injection Hrow as <-;
    (split; [reflexivity|vm_compute; eexists; reflexivity|vm_compute; reflexivity..|exact log_lines_clean|done]).
Qed.

Lemma follow_delivers_log_witness :
  run (sse_follow 5 1 None) s_logs = (Ok (numbered 0 log_lines), s_logs) ∧
  run (sse_follow 5 1 (Some 0%Z)) s_logs = (Ok (numbered 1 ["make"; "done"]), s_logs) ∧
  run (sse_follow 5 1 (Some 2%Z)) s_logs = (Ok (numbered 3 log_lines), s_logs) ∧
  run (sse_follow 5 2 None) s_logs = (Ok (numbered 0 log_lines ++ [EventDone])%list, s_logs).
Proof.
  destruct (follow_delivers_log s_logs 4 1 (mkBuildLogRow (log_path_of 1) 20 false 100) log_lines) as [H1 _].
  { eapply s_logs_has_log; [left; reflexivity|reflexivity|vm_compute; reflexivity]. }
  destruct (follow_delivers_log s_logs 5 2 (mkBuildLogRow (log_path_of 2) 20 true 200) log_lines) as [_ H2].
  { eapply s_logs_has_log; [right; reflexivity|reflexivity|vm_compute; reflexivity]. }
  destruct H1 as (H1 & H1' & H1''); [reflexivity|vm_compute; reflexivity|].
  destruct H2 as [H2 _]; [reflexivity|vm_compute; reflexivity|].
  split; [exact H1|]. split; [exact (H1' 0 ltac:(simpl; lia))|]. split; [|exact H2].
  exact (H1'' 2 ltac:(simpl; lia) ltac:(lia)).
Defined.

Lemma gc_removes_exactly_expired_witness :
  log_files (run (run_gc_cycle 30) s_logs).2 !! 2%Z = None ∧
  log_files (run (run_gc_cycle 30) s_logs).2 !! 1%Z = log_files s_logs !! 1%Z.
Proof.
  destruct (gc_removes_exactly_expired s_logs 30) as (H1 & H2 & _).
  - intros i r. simpl. intros [[<- <-]|[_ [<- <-]%lookup_singleton_Some]]%lookup_insert_Some; reflexivity.
  - destruct (H1 eq_refl) as [_ H1']. split.
    + apply H1'; [vm_compute; eexists; reflexivity|vm_compute; reflexivity].
    + apply H2. vm_compute. reflexivity.
Defined.

(** ** Periodic tasks *)

Definition tasks_user : AuthUser :=
  mkAuthUser "alice@example.com" "Alice" ["builds:create"; "periodic:create"; "periodic:manage:own"] false.

Definition task_jobs : list (async unit) :=
  [do* handle_task_request sample_components tasks_user
         (UpdateTask "nightly" (mkUpdateTask _ (Some "30 2 * * *") None None None None)) in Ret ();
   scheduler_pass sample_components 5000 false].

Lemma s_init_tasks_valid : tasks_valid sample_components s_init.
Proof.
  intros id t. simpl. intros [<- <-]%lookup_singleton_Some. split; [reflexivity|vm_compute; reflexivity|].
  exists "descriptor". split; [reflexivity|vm_compute; reflexivity].
Qed.

Lemma stored_tasks_stay_valid_witness :
  tasks_valid sample_components
    (run (do* handle_task_request sample_components tasks_user
                (UpdateTask "nightly" (mkUpdateTask _ (Some "30 2 * * *") None None None None)) in Ret ()) s_init).2.
Proof.
  eapply (stored_tasks_stay_valid sample_components s_init _ task_jobs).
  - exact s_init_tasks_valid.
  - repeat constructor.
  - apply (run_is_schedule _ s_init [] [scheduler_pass sample_components 5000 false]).
Defined.

Lemma manual_trigger_outcome_witness :
  ∃ resp s', run (trigger_task sample_components tasks_user "nightly" None) s_init = (Ok resp, s') ∧
    triggered sample_components tasks_user "nightly" None s_init s' resp.
Proof.
  pose proof (manual_trigger_outcome sample_components s_init tasks_user "nightly" None s_init_coh sample_channels_wf) as H.
  destruct (run (trigger_task sample_components tasks_user "nightly" None) s_init) as [[resp|e] s'] eqn:Hrun;
    [|exfalso; vm_compute in Hrun; discriminate Hrun].
  exists resp, s'. split; [reflexivity|exact H].
Defined.
