(* ===== verification/Cbc.v ===== *)
(** * The command-line client: requests, configuration, tables (cbc, client.rs,
    config.rs, error.rs, table.rs)

    A command is a program over what it can touch: the files, the terminal and
    the requests it has sent. What the network answers is a function of the
    requests so far. Every call of the file system can fail; a failing write
    leaves a prefix behind. Parsing of the command line is done by clap from the
    declarations; a command starts with the parsed arguments. *)

From stdpp Require Import prelude gmap strings list pretty.
From S2P Require Import Prelude Async Proto Common FileSystem.

(** ** error.rs *)

Inductive Error :=
| ErrConfig (msg : string)
| ErrConnection (msg : string)
| ErrApi (status : Z) (message : string)
| ErrOther (msg : string).

(** [impl Display for Error]. *)
Definition error_to_string (e : Error) : string :=
  match e with
  | ErrConfig msg => "config error: " +:+ msg
  | ErrConnection msg => "connection error: " +:+ msg
  | ErrApi status message => "server error (" +:+ pretty status +:+ "): " +:+ message
  | ErrOther msg => "error: " +:+ msg
  end.

(** How a command can end without success: with an error, or in a panic of an
    index into a string. *)
Inductive Exit := Failed (e : Error) | Panicked.

(** ** Third-party code and the outside *)

(** The [url] crate. *)
Class UrlCrate := {
  Url : Type;
  url_parse : string → result Url string;
  url_scheme : Url → string;
  url_path : Url → string;
  url_set_path : string → Url → Url;
  url_join : Url → string → result Url string;
  url_text : Url → string
}.

Inductive Method := GET | POST | PUT | DELETE.

Definition method_text (m : Method) : string :=
  match m with GET => "GET" | POST => "POST" | PUT => "PUT" | DELETE => "DELETE" end.

(** A request with its [Authorization] header and its JSON body. *)
Record HttpRequest `{UrlCrate} := mkRequest {
  hr_method : Method;
  hr_url : Url;
  hr_authorization : option string;
  hr_check_certs : bool;
  hr_body : option string
}.

(** A response: its status, and its body in chunks, with the failure of the
    connection that cuts it off, if any. *)
Record HttpResponse := mkResponse {
  hp_status : Z;
  hp_chunks : list string;
  hp_cut : option string
}.

Definition response_body (r : HttpResponse) : result string string :=
  match hp_cut r with None => Ok (String.concat "" (hp_chunks r)) | Some e => Err e end.

(** [reqwest]: what may be a header value, whether a client can be built, what
    comes back for the last of the requests that the program has handed to it, and
    what it sends by itself before that: no client of the program sets a redirect
    policy, so the library follows the redirects that a server answers with, and
    the answer is that of the last of them. *)
Class HttpCrate `{UrlCrate} := {
  header_value : string → result string string;
  client_build : bool → result unit string;
  status_text : Z → string;
  redirects : list HttpRequest → list HttpRequest;
  answer : list HttpRequest → result HttpResponse string
}.

(** All requests that leave the machine when the program hands over these. *)
Definition on_wire `{HttpCrate} (sent : list HttpRequest) : list HttpRequest :=
  mjoin (imap (λ n r, r :: redirects (take (S n) sent)) sent).

(** serde's [Serialize] and [Deserialize] of a type, as JSON text. *)
Class Serialize (A : Type) := to_json : A → string.
Class Deserialize (A : Type) := of_json : string → result A string.

#[export] Instance serialize_value `{JsonValue} : Serialize Value := value_to_string.
#[export] Instance serialize_unit : Serialize () := λ _, "null".

(** More of serde_json's [Value]: what the client builds and reads. *)
Class JsonMore `{JsonValue} := {
  value_null : Value;
  value_int : Z → Value;
  value_object : list (string * Value) → Value;
  as_bool : Value → option bool;
  descriptor_to_value : BuildDescriptor → result Value string
}.

(** The host: the configuration directory of the user, the id of the process
    and the texts of errors. *)
Class Host := {
  dirs_config_dir : option Path;
  process_id : Z;
  os_error : string
}.

(** ** The world of a command *)

Inductive Entry := Directory | File (mode : Z) (contents : string).

Record World `{UrlCrate} := mkWorld {
  w_files : gmap string Entry;
  w_stdout : list string;
  w_stderr : list string;
  w_stdin : list string;
  w_sent : list HttpRequest;
  w_temp_counter : nat;
  w_faults : list (option nat)
}.

Section World.
Context `{UrlCrate}.

Definition set_files (x : gmap string Entry) (w : World) : World :=
  mkWorld _ x (w_stdout w) (w_stderr w) (w_stdin w) (w_sent w) (w_temp_counter w) (w_faults w).
Definition set_stdout (x : list string) (w : World) : World :=
  mkWorld _ (w_files w) x (w_stderr w) (w_stdin w) (w_sent w) (w_temp_counter w) (w_faults w).
Definition set_stderr (x : list string) (w : World) : World :=
  mkWorld _ (w_files w) (w_stdout w) x (w_stdin w) (w_sent w) (w_temp_counter w) (w_faults w).
Definition set_stdin (x : list string) (w : World) : World :=
  mkWorld _ (w_files w) (w_stdout w) (w_stderr w) x (w_sent w) (w_temp_counter w) (w_faults w).
Definition set_sent (x : list HttpRequest) (w : World) : World :=
  mkWorld _ (w_files w) (w_stdout w) (w_stderr w) (w_stdin w) x (w_temp_counter w) (w_faults w).
Definition set_temp_counter (x : nat) (w : World) : World :=
  mkWorld _ (w_files w) (w_stdout w) (w_stderr w) (w_stdin w) (w_sent w) x (w_faults w).
Definition set_faults (x : list (option nat)) (w : World) : World :=
  mkWorld _ (w_files w) (w_stdout w) (w_stderr w) (w_stdin w) (w_sent w) (w_temp_counter w) x.

(** The next flag of the schedule: [Some n] is a failure, of a write after [n]
    bytes. *)
Definition next_fault (w : World) : option nat * World :=
  match w_faults w with [] => (None, w) | f :: fs => (f, set_faults fs w) end.

Abbreviation command := (prog World).

Definition emit (text : string) : command () := atomic (λ w, ((), set_stdout (w_stdout w ++ [text]) w)).
Definition println (line : string) : command () := emit (line +:+ String lf "").
Definition eprint (text : string) : command () := atomic (λ w, ((), set_stderr (w_stderr w ++ [text]) w)).
Definition eprintln (line : string) : command () := eprint (line +:+ String lf "").
Definition println_each (lines : list string) : command () := for_each lines println.

(** A line that is printed when there is something to print. *)
Definition println_some {A} (x : option A) (line : A → string) : command () :=
  match x with Some a => println (line a) | None => Ret () end.

(** A call of the file system. *)
Definition fs_call `{Host} {A} (f : World → result A string * World) : command (result A string) :=
  atomic (λ w, let '(fault, w) := next_fault w in
               match fault with Some _ => (Err os_error, w) | None => f w end).
End World.

Abbreviation command := (prog World).

(** [io::stdin().read_line]: the empty string at the end of the input. *)
Definition read_line `{UrlCrate} `{Host} : command (result string string) :=
  fs_call (λ w, match w_stdin w with
                | [] => (Ok "", w)
                | l :: ls => (Ok l, set_stdin ls w)
                end).

(** ** client.rs *)

Record ClientOpts := mkOpts { debug : bool; no_tls_verify : bool; insecure_http : bool }.

Definition warnings (o : ClientOpts) : list string :=
  (if no_tls_verify o then ["warning: TLS certificate verification is disabled"] else [])
  ++ (if insecure_http o
      then ["warning: --insecure-http is set; bearer tokens are sent in cleartext"] else []).

Record CbcClient `{UrlCrate} := mkClient {
  cl_authorization : option string;
  cl_check_certs : bool;
  base_url : Url;
  cl_debug : bool
}.

Section Client.
Context `{HUrl : UrlCrate} `{HHttp : !HttpCrate} `{HJson : JsonValue}.

Definition parse_base_url (host : string) (insecure : bool) : result Url Error :=
  let s := match strip_suffix "/" host with Some _ => host | None => host +:+ "/" end in
  match url_parse s with
  | Err e => Err (ErrConfig ("invalid host URL '" +:+ host +:+ "': " +:+ e))
  | Ok url =>
      let scheme := url_scheme url in
      let allowed := bool_decide (scheme = "https") || (bool_decide (scheme = "http") && insecure) in
      if negb allowed then Err (ErrConfig ("host must be https; got: " +:+ scheme))
      else Ok (url_set_path (url_path url +:+ "api/") url)
  end.

Definition build_client (base : Url) (authorization : option string) (o : ClientOpts)
    : result CbcClient Error :=
  match client_build (no_tls_verify o) with
  | Err e => Err (ErrConnection ("cannot build HTTP client: " +:+ e))
  | Ok _ => Ok (mkClient _ authorization (negb (no_tls_verify o)) base (debug o))
  end.

Definition client_new (host token : string) (o : ClientOpts) : result CbcClient Error :=
  match parse_base_url host (insecure_http o) with
  | Err e => Err e
  | Ok base =>
      match header_value ("Bearer " +:+ token) with
      | Err e => Err (ErrConfig ("invalid token: " +:+ e))
      | Ok value => build_client base (Some value) o
      end
  end.

Definition unauthenticated (host : string) (o : ClientOpts) : result CbcClient Error :=
  match parse_base_url host (insecure_http o) with
  | Err e => Err e
  | Ok base => build_client base None o
  end.

Definition request_of (c : CbcClient) (method : Method) (url : Url) (body : option string) : HttpRequest :=
  mkRequest _ method url (cl_authorization c) (cl_check_certs c) body.

(** Handing a request to the library: the answer, after the redirects that it
    follows, depends on all that were sent. *)
Definition send (r : HttpRequest) : command (result HttpResponse string) :=
  atomic (λ w, let sent := w_sent w ++ [r] in (answer sent, set_sent sent w)).

Definition debug_line (c : CbcClient) (line : string) : command () :=
  if cl_debug c then eprintln line else Ret ().

(** The URL of a path, with the trace of the request. *)
Definition request_builder (c : CbcClient) (method : Method) (path : string) (body : option string)
    : command (result HttpRequest Error) :=
  match url_join (base_url c) path with
  | Err e => Ret (Err (ErrConnection ("invalid path '" +:+ path +:+ "': " +:+ e)))
  | Ok url =>
      do* debug_line c (method_text method +:+ " " +:+ url_text url) in
      Ret (Ok (request_of c method url body))
  end.

Definition is_success (status : Z) : bool := (200 <=? status)%Z && (status <? 300)%Z.

(** The [detail] of an error response, or its whole text. *)
Definition api_error (resp : HttpResponse) : Error :=
  let text := match response_body resp with Ok t => t | Err _ => "" end in
  ErrApi (hp_status resp)
    (default text (v ← value_from_str text; d ← value_get v "detail"; as_str d)).

Definition exchange (c : CbcClient) (method : Method) (path : string) (body : option string)
    : command (result HttpResponse Error) :=
  let? req := request_builder c method path body map_err id in
  let? resp := send req map_err ErrConnection in
  do* debug_line c ("  -> " +:+ status_text (hp_status resp)) in
  if is_success (hp_status resp) then Ret (Ok resp) else Ret (Err (api_error resp)).

Definition get_stream (c : CbcClient) (path : string) : command (result HttpResponse Error) :=
  exchange c GET path None.

Definition request {T} `{!Deserialize T} (c : CbcClient) (method : Method) (path : string)
    (body : option string) : command (result T Error) :=
  let? resp := exchange c method path body map_err id in
  Ret (match response_body resp with
       | Err e => Err (ErrOther ("cannot decode response: " +:+ e))
       | Ok text =>
           match of_json text with
           | Ok v => Ok v
           | Err e => Err (ErrOther ("cannot decode response: " +:+ e))
           end
       end).

Definition http_get {T} `{!Deserialize T} (c : CbcClient) (path : string) : command (result T Error) :=
  request c GET path None.
Definition http_post {B T} `{!Serialize B} `{!Deserialize T} (c : CbcClient) (path : string) (body : B)
    : command (result T Error) :=
  request c POST path (Some (to_json body)).
Definition put_json {B T} `{!Serialize B} `{!Deserialize T} (c : CbcClient) (path : string) (body : B)
    : command (result T Error) :=
  request c PUT path (Some (to_json body)).
Definition put_empty {T} `{!Deserialize T} (c : CbcClient) (path : string) : command (result T Error) :=
  request c PUT path None.
Definition http_delete {T} `{!Deserialize T} (c : CbcClient) (path : string) : command (result T Error) :=
  request c DELETE path None.
End Client.

(** ** config.rs *)

Record Config := mkConfig { host : string; token : string }.
Record ConfigFile := mkConfigFile { cf_host : string; cf_token : string }.

Section ConfigFiles.
Context `{HUrl : UrlCrate} `{HHost : Host} `{HS : !Serialize ConfigFile} `{HD : !Deserialize ConfigFile}.

Definition default_path : option Path :=
  (λ d, join (join d [Normal "cbc"]) [Normal "config.json"]) <$> dirs_config_dir.

Definition resolve_path (path : option Path) : result Path Error :=
  match path with
  | Some p => Ok p
  | None => match default_path with
            | Some p => Ok p
            | None => Err (ErrConfig "cannot determine config directory")
            end
  end.

(** [std::fs::read_to_string]: a regular file with valid UTF-8. *)
Definition read_to_string (p : Path) : command (result string string) :=
  fs_call (λ w, match w_files w !! display p with
                | Some (File _ c) => if valid_utf8 c then (Ok c, w) else (Err os_error, w)
                | _ => (Err os_error, w)
                end).

Definition load (path : option Path) : command (result Config Error) :=
  let? p := Ret (resolve_path path) map_err id in
  let? contents := read_to_string p
    map_err (λ e, ErrConfig ("cannot read " +:+ display p +:+ ": " +:+ e)) in
  match of_json contents with
  | Err e => Ret (Err (ErrConfig ("invalid config at " +:+ display p +:+ ": " +:+ e)))
  | Ok f => Ret (Ok (mkConfig (cf_host f) (cf_token f)))
  end.

(** The parent directory, unless it is the empty path. *)
Definition parent_dir (p : Path) : option Path :=
  match parent p with Some (c :: d) => Some (c :: d) | _ => None end.

(** [std::fs::create_dir_all]: the path and its ancestors, from the root on. *)
Fixpoint make_dirs (done todo : Path) (files : gmap string Entry) : option (gmap string Entry) :=
  match todo with
  | [] => Some files
  | c :: todo =>
      let p := done ++ [c] in
      match files !! display p with
      | Some (File _ _) => None
      | Some Directory => make_dirs p todo files
      | None => make_dirs p todo (<[display p := Directory]> files)
      end
  end.

Definition create_dir_all (p : Path) : command (result unit string) :=
  fs_call (λ w, match make_dirs [] p (w_files w) with
                | Some files => (Ok (), set_files files w)
                | None => (Err os_error, w)
                end).

(** Opening a file that must not exist, with a mode. *)
Definition open_new (p : Path) (mode : Z) : command (result unit string) :=
  fs_call (λ w, match w_files w !! display p with
                | Some _ => (Err os_error, w)
                | None => (Ok (), set_files (<[display p := File mode ""]> (w_files w)) w)
                end).

(** Writing to a file that was just created: all of the text, or a part of it
    and an error. *)
Definition write_new (p : Path) (text : string) : command (result unit string) :=
  atomic (λ w, let '(fault, w) := next_fault w in
    let put t := match w_files w !! display p with
                 | Some (File mode c) => set_files (<[display p := File mode (c +:+ t)]> (w_files w)) w
                 | _ => w
                 end in
    match fault with
    | None => (Ok (), put text)
    | Some n => (Err os_error, put (String.substring 0 n text))
    end).

Definition rename (from to : Path) : command (result unit string) :=
  fs_call (λ w, match w_files w !! display from, w_files w !! display to with
                | Some (File m c), (None | Some (File _ _)) =>
                    (Ok (), set_files (<[display to := File m c]> (delete (display from) (w_files w))) w)
                | _, _ => (Err os_error, w)
                end).

(** [Ok false]: there was no such file. *)
Definition remove_file (p : Path) : command (result bool string) :=
  fs_call (λ w, match w_files w !! display p with
                | Some (File _ _) => (Ok true, set_files (delete (display p) (w_files w)) w)
                | None => (Ok false, w)
                | Some Directory => (Err os_error, w)
                end).

(** A sibling of the path with the process id and a counter in its name. *)
Definition temp_path_for (p : Path) : command Path :=
  atomic (λ w,
    let n := w_temp_counter w in
    let name := match last p with Some (Normal f) => f | _ => "config.json" end in
    let name := name +:+ "." +:+ pretty process_id +:+ "." +:+ pretty n +:+ ".tmp" in
    (match parent_dir p with Some d => join d [Normal name] | None => [Normal name] end,
     set_temp_counter (S n) w)).

Definition CONFIG_MODE : Z := 384.

(** Writing the file next to the target, and moving it over the target. *)
Definition write_and_rename (tmp_path path : Path) (json : string) : command (result unit Error) :=
  let* write_result := write_new tmp_path json in
  match write_result with
  | Err e => Ret (Err (ErrConfig ("cannot write " +:+ display tmp_path +:+ ": " +:+ e)))
  | Ok _ =>
      do? rename tmp_path path
        map_err (λ e, ErrConfig ("cannot replace " +:+ display path +:+ " with "
                        +:+ display tmp_path +:+ ": " +:+ e)) in
      Ret (Ok ())
  end.

Definition save (c : Config) (path : Path) : command (result unit Error) :=
  do? match parent_dir path with
      | Some d => do? create_dir_all d
                    map_err (λ e, ErrConfig ("cannot create directory " +:+ display d +:+ ": " +:+ e)) in
                  Ret (Ok ())
      | None => Ret (Ok ())
      end map_err id in
  let json := to_json (mkConfigFile (host c) (token c)) in
  let* tmp_path := temp_path_for path in
  do? open_new tmp_path CONFIG_MODE
    map_err (λ e, ErrConfig ("cannot create temp file " +:+ display tmp_path +:+ ": " +:+ e)) in
  let* saved := write_and_rename tmp_path path json in
  match saved with
  | Ok _ => Ret (Ok ())
  | Err err =>
      let* removed := remove_file tmp_path in
      do* match removed with
          | Ok _ => Ret ()
          | Err e => eprintln ("warning: failed to clean up temp file " +:+ display tmp_path +:+ ": " +:+ e)
          end in
      Ret (Err err)
  end.
End ConfigFiles.

(** ** table.rs *)

(** [{cell:<width$}]: padded on the right to a number of characters. *)
Fixpoint spaces (n : nat) : string :=
  match n with 0 => "" | S n => String (Ascii.ascii_of_nat 32) (spaces n) end.
Definition char_count (s : string) : nat := length (chars s).
Definition pad_right (width : nat) (cell : string) : string := cell +:+ spaces (width - char_count cell).

(** The widths of the columns: the longest cell of each. *)
Definition widen (widths : list nat) (row : list string) : list nat :=
  imap (λ i w, match row !! i with Some cell => w `max` char_count cell | None => w end) widths.
Definition column_widths (headers : list string) (rows : list (list string)) : list nat :=
  foldl widen (char_count <$> headers) rows.

(** The cells of a line: the last one is not padded. *)
Fixpoint render_cells (widths : list nat) (cells : list string) : string :=
  match widths with
  | [] => ""
  | [_] => default "" (head cells)
  | width :: widths => pad_right width (default "" (head cells)) +:+ "  " +:+ render_cells widths (tail cells)
  end.

Definition render_row (widths : list nat) (cells : list string) : string :=
  trim_end ("  " +:+ render_cells widths cells) +:+ String lf "".

Definition format_table (headers : list string) (rows : list (list string)) : string :=
  let widths := column_widths headers rows in
  String.concat "" (render_row widths <$> headers :: rows).

Definition print_table `{UrlCrate} (headers : list string) (rows : list (list string)) : command () :=
  emit (format_table headers rows).

(** ** The start of a command *)

Section Commands.
Context `{HUrl : UrlCrate} `{HHttp : !HttpCrate} `{HHost : Host} `{HD : !Deserialize ConfigFile}.

(** [Config::load] and [CbcClient::new], with which the commands begin. *)
Definition connect {A} (config_path : option Path) (o : ClientOpts)
    (k : Config → CbcClient → command (result A Exit)) : command (result A Exit) :=
  let? config := load config_path map_err Failed in
  let? client := Ret (client_new (host config) (token config) o) map_err Failed in
  k config client.

(** Confirmation of an irreversible operation. *)
Definition confirmed {A} (yes_i_really_mean_it : bool) (k : command (result A Exit))
    : command (result A Exit) :=
  if yes_i_really_mean_it then k
  else
    do* eprintln "this is a destructive operation; pass --yes-i-really-mean-it to confirm" in
    Ret (Err (Failed (ErrOther "confirmation required"))).
End Commands.

(** serde reading an enum from a string value, as the commands do with options. *)
Definition of_option {A} (o : option A) (msg : string) : result A Error :=
  match o with Some a => Ok a | None => Err (ErrOther msg) end.

(** [Option::transpose] after [map]. *)
Definition transpose {A B E} (f : A → result B E) (o : option A) : result (option B) E :=
  match o with
  | None => Ok None
  | Some a => match f a with Ok b => Ok (Some b) | Err e => Err e end
  end.

(** [collect] into a [Result]. *)
Fixpoint collect {A B E} (f : A → result B E) (l : list A) : result (list B) E :=
  match l with
  | [] => Ok []
  | x :: l =>
      match f x with
      | Err e => Err e
      | Ok y => match collect f l with Ok ys => Ok (y :: ys) | Err e => Err e end
      end
  end.

Definition yes_no (b : bool) : string := if b then "yes" else "no".
Definition or_dash (o : option string) : string := default "-" o.

(** [detail] of a response, which most of them have. *)
Record SimpleResponse := mkSimple { sr_detail : option string }.
Record DetailResponse := mkDetail { dr_detail : string }.

(** chrono: a time in a [strftime] format, if it is in the range of dates, and
    whether a text is a date. *)
Class ClientChrono := {
  format_time : string → Z → option string;
  is_iso_date : string → bool
}.
