(* ===== verification/CbcBuilds.v ===== *)
(** * The client's build commands (cbc, builds.rs)

    Submitting, listing, showing and revoking builds, and the parsing of the
    options that describe a build. *)

From stdpp Require Import prelude gmap strings list pretty sorting.
From S2P Require Import Prelude Async Common FileSystem Cbc Proto.

(** ** The options and messages *)

Record BuildDescriptorArgs := mkDescriptorArgs {
  da_channel : option string;
  da_components : list string;
  da_version_type : option string;
  da_distro : string;
  da_os_version : string;
  da_image_name : string;
  da_image_tag : option string;
  da_arch : string;
  da_repo_override : list string;
  da_priority : string
}.

Record BuildNewArgs := mkBuildNewArgs { bn_version : string; bn_descriptor : BuildDescriptorArgs }.
Record BuildListArgs := mkBuildListArgs { bl_all : bool; bl_state : option string; bl_limit : nat }.
Record BuildGetArgs := mkBuildGetArgs { bg_id : Z; bg_json : bool }.

Record SubmitBuildBody := mkSubmitBody { sb_descriptor : BuildDescriptor; sb_priority : Priority }.
Record SubmitBuildResponse := mkSubmitResponse {
  sbr_id : Z; sbr_state : string; sbr_warning : option string }.

Record BuildRecord `{JsonValue} := mkBuildRecord {
  br_id : Z;
  br_descriptor : string;
  br_user_email : string;
  br_priority : string;
  br_state : string;
  br_worker_id : option string;
  br_trace_id : option string;
  br_error : option string;
  br_submitted_at : Z;
  br_queued_at : Z;
  br_started_at : option Z;
  br_finished_at : option Z;
  br_build_report : option Value
}.

Record WhoamiResponse := mkWhoami { wh_email : string; wh_name : string }.
Record ComponentInfo := mkComponentInfo { ci_name : string; ci_versions : list string }.
Record RevokeResponse := mkRevokeResponse { rv_detail : string }.

(** ** Parsing of options *)

Definition at_sign : Ascii.ascii := Ascii.ascii_of_nat 64.
Definition equals_sign : Ascii.ascii := Ascii.ascii_of_nat 61.

Definition parse_components (raw : list string) : result (list BuildComponent) Error :=
  collect (λ s, match split_once at_sign s with
                | None => Err (ErrOther ("invalid component '" +:+ s +:+ "': expected name@ref"))
                | Some (name, git_ref) => Ok (mkComponent name git_ref None)
                end) raw.

(** The first component of the name gets the repository. *)
Fixpoint set_repo (name url : string) (components : list BuildComponent) : option (list BuildComponent) :=
  match components with
  | [] => None
  | c :: cs =>
      if bool_decide (bc_name c = name) then Some (mkComponent (bc_name c) (bc_git_ref c) (Some url) :: cs)
      else cons c <$> set_repo name url cs
  end.

Fixpoint apply_repo_overrides (components : list BuildComponent) (overrides : list string)
    : result (list BuildComponent) Error :=
  match overrides with
  | [] => Ok components
  | ov :: ovs =>
      match split_once equals_sign ov with
      | None => Err (ErrOther ("invalid repo override '" +:+ ov +:+ "': expected name=url"))
      | Some (name, url) =>
          match set_repo name url components with
          | None => Err (ErrOther ("repo override for unknown component '" +:+ name +:+ "'"))
          | Some components => apply_repo_overrides components ovs
          end
      end
  end.

Definition version_type_of_string (s : string) : option VersionType :=
  List.find (λ v, bool_decide (version_type_to_string v = s)) [Release; Dev; Test; Ci].
Definition priority_of_string (s : string) : option Priority :=
  List.find (λ p, bool_decide (priority_to_string p = s)) [High; Normal; Low].

Definition parse_version_type (s : string) : result VersionType Error :=
  of_option (version_type_of_string s)
    ("invalid version type '" +:+ s +:+ "': expected release, dev, test, or ci").
Definition parse_arch (s : string) : result Arch Error :=
  of_option (arch_of_string s) ("invalid architecture '" +:+ s +:+ "': expected x86_64 or aarch64").
Definition parse_priority (s : string) : result Priority Error :=
  of_option (priority_of_string s) ("invalid priority '" +:+ s +:+ "': expected high, normal, or low").

Definition format_timestamp `{ClientChrono} (ts : Z) : string :=
  default (pretty ts) (format_time "%Y-%m-%d %H:%M" ts).

(** [name@ref]. *)
Definition component_display (c : BuildComponent) : string := bc_name c +:+ "@" +:+ bc_git_ref c.

Definition join_with (sep : string) (l : list string) : string := String.concat sep l.

(** The descriptor of the options of [build new] and [periodic new], signed by
    who is logged in, and the priority. *)
Definition descriptor_of_args (version : string) (d : BuildDescriptorArgs) (whoami : WhoamiResponse)
    : result (BuildDescriptor * Priority) Error :=
  match parse_components (da_components d) with
  | Err e => Err e
  | Ok components =>
  match apply_repo_overrides components (da_repo_override d) with
  | Err e => Err e
  | Ok components =>
  match transpose parse_version_type (da_version_type d) with
  | Err e => Err e
  | Ok version_type =>
  match parse_arch (da_arch d) with
  | Err e => Err e
  | Ok arch =>
  match parse_priority (da_priority d) with
  | Err e => Err e
  | Ok priority =>
      let image_tag := default version (da_image_tag d) in
      Ok (mkDescriptor version (da_channel d) version_type
            (mkSignedOffBy (wh_name whoami) (wh_email whoami))
            (mkDestImage (da_image_name d) image_tag) components
            (mkTarget (da_distro d) (da_os_version d) "rpm" arch), priority)
  end end end end end.

(** ** The commands *)

Section Builds.
Context `{HUrl : UrlCrate} `{HHttp : !HttpCrate} `{HJson : JsonValue} `{HMore : !JsonMore} `{HHost : Host} `{HChrono : ClientChrono}
  `{!Deserialize ConfigFile} `{!Deserialize WhoamiResponse} `{!Serialize SubmitBuildBody}
  `{!Deserialize SubmitBuildResponse} `{!Deserialize (list BuildRecord)} `{!Deserialize BuildRecord}
  `{!Deserialize BuildDescriptor}  `{!Deserialize RevokeResponse} `{!Deserialize (list ComponentInfo)}.
Variables (config_path : option Path) (opts : ClientOpts).

Definition cmd_new (args : BuildNewArgs) : command (result () Exit) :=
  connect config_path opts (λ _ client,
    let? whoami := http_get (T := WhoamiResponse) client "auth/whoami" map_err Failed in
    let d := bn_descriptor args in
    let? (descriptor, priority) := Ret (descriptor_of_args (bn_version args) d whoami) map_err Failed in
    let? resp := http_post (T := SubmitBuildResponse) client "builds" (mkSubmitBody descriptor priority)
      map_err Failed in
    let image_tag := default (bn_version args) (da_image_tag d) in
    do* println_each [
      "  version: " +:+ bn_version args;
      "  channel: " +:+ or_dash (da_channel d);
      "     type: " +:+ or_dash (da_version_type d);
      "    image: " +:+ da_image_name d +:+ ":" +:+ image_tag;
      "    comps: " +:+ join_with ", " (component_display <$> bd_components descriptor);
      "   distro: " +:+ da_distro d +:+ " " +:+ da_os_version d;
      "";
      "build " +:+ pretty (sbr_id resp) +:+ " submitted (" +:+ sbr_state resp +:+ ")"] in
    do* println_some (sbr_warning resp) (λ w, "warning: " +:+ w) in
    Ret (Ok ())).

(** Newest first. *)
Definition newer (a b : BuildRecord) : Prop := (br_id b ≤ br_id a)%Z.
#[local] Instance newer_dec a b : Decision (newer a b).
Proof. unfold newer. apply _. Defined.

Definition listed (limit : nat) (builds : list BuildRecord) : list BuildRecord :=
  take limit (merge_sort newer builds).

Definition list_path (user state : option string) : string :=
  match ((match user with Some u => ["user=" +:+ u] | None => [] end)
         ++ (match state with Some s => ["state=" +:+ s] | None => [] end))%list with
  | [] => "builds"
  | parts => "builds?" +:+ join_with "&" parts
  end.

Definition cmd_list (args : BuildListArgs) : command (result () Exit) :=
  connect config_path opts (λ _ client,
    let? user := if bl_all args then Ret (Ok None)
                 else let? whoami := http_get (T := WhoamiResponse) client "auth/whoami" map_err id in
                      Ret (Ok (Some (wh_email whoami))) map_err Failed in
    let? builds := http_get (T := list BuildRecord) client (list_path user (bl_state args)) map_err Failed in
    match listed (bl_limit args) builds with
    | [] => do* println "no builds found" in Ret (Ok ())
    | builds =>
        do* print_table ["ID"; "STATE"; "USER"; "SUBMITTED"]
              ((λ b, ["#" +:+ pretty (br_id b); br_state b; br_user_email b;
                      format_timestamp (br_submitted_at b)]) <$> builds) in
        Ret (Ok ())
    end).

Definition cmd_revoke (id : Z) : command (result () Exit) :=
  connect config_path opts (λ _ client,
    let? resp := http_delete (T := RevokeResponse) client ("builds/" +:+ pretty id) map_err Failed in
    do* println (rv_detail resp) in Ret (Ok ())).

Definition cmd_components : command (result () Exit) :=
  connect config_path opts (λ _ client,
    let? components := http_get (T := list ComponentInfo) client "components" map_err Failed in
    match components with
    | [] => do* println "no components found" in Ret (Ok ())
    | _ =>
        do* for_each components (λ c,
              do* println ("  " +:+ ci_name c) in
              println ("    versions: " +:+ join_with ", " (ci_versions c))) in
        Ret (Ok ())
    end).

(** [&sha[..7]], which panics when the seventh byte is inside a character. *)
Definition is_char_boundary (n : nat) (s : string) : bool :=
  match String.get n s with
  | Some c => negb (is_continuation_byte c)
  | None => bool_decide (n = String.length s)
  end.
Definition slice_to (n : nat) (s : string) : result string Exit :=
  if is_char_boundary n s then Ok (String.substring 0 n s) else Err Panicked.

Definition str_of (v : Value) (key : string) : option string := x ← value_get v key; as_str x.
Definition bool_of (v : Value) (key : string) : bool := default false (x ← value_get v key; as_bool x).

(** The lines of a component of the report. *)
Definition component_lines (c : Value) : result (list string) Exit :=
  let name := or_dash (str_of c "name") in
  let ver := or_dash (str_of c "version") in
  let sha := or_dash (str_of c "sha1") in
  match (if 7 <? String.length sha then slice_to 7 sha else Ok sha) with
  | Err e => Err e
  | Ok sha_short =>
      Ok (("      " +:+ name +:+ " " +:+ ver +:+ " (" +:+ sha_short +:+ ")")
          :: match str_of c "rpms_s3_path" with
             | Some rpms => ["        rpms: " +:+ rpms]
             | None => []
             end)
  end.

(** The components one after the other, until one panics. *)
Fixpoint print_components (comps : list Value) : command (result () Exit) :=
  match comps with
  | [] => Ret (Ok ())
  | c :: cs =>
      let? lines := Ret (component_lines c) map_err id in
      do* println_each lines in
      print_components cs
  end.

Definition print_report (report : Value) : command (result () Exit) :=
  do* println "" in
  do* println "  report:" in
  do* match value_get report "container_image" with
      | Some img =>
          println ("    image: " +:+ or_dash (str_of img "name") +:+ ":" +:+ or_dash (str_of img "tag")
                   +:+ " (" +:+ (if bool_of img "pushed" then "pushed" else "not pushed") +:+ ")")
      | None => Ret ()
      end in
  do? match (v ← value_get report "components"; as_array v) with
      | Some (c :: comps) => do* println "    components:" in print_components (c :: comps)
      | _ => Ret (Ok ())
      end map_err id in
  do* match value_get report "release_descriptor" with
      | Some rel => println ("    release: s3://" +:+ or_dash (str_of rel "bucket") +:+ "/"
                             +:+ or_dash (str_of rel "s3_path"))
      | None => Ret ()
      end in
  do* (if bool_of report "skipped" then println "    (skipped — image already existed)" else Ret ()) in
  Ret (Ok ()).

Definition opt_str (o : option string) : Value := match o with Some s => value_string s | None => value_null end.
Definition opt_int (o : option Z) : Value := match o with Some z => value_int z | None => value_null end.

(** The output of [--json]. *)
Definition build_json (b : BuildRecord) : Value :=
  value_object [
    ("info", value_object [
       ("id", value_int (br_id b)); ("state", value_string (br_state b));
       ("user_email", value_string (br_user_email b)); ("priority", value_string (br_priority b));
       ("descriptor", default value_null (value_from_str (br_descriptor b)));
       ("worker_id", opt_str (br_worker_id b)); ("trace_id", opt_str (br_trace_id b));
       ("error", opt_str (br_error b)); ("submitted_at", value_int (br_submitted_at b));
       ("queued_at", value_int (br_queued_at b)); ("started_at", opt_int (br_started_at b));
       ("finished_at", opt_int (br_finished_at b))]);
    ("report", default value_null (br_build_report b))].

Definition print_descriptor (d : BuildDescriptor) : command () :=
  println_each [
    " version: " +:+ bd_version d;
    " channel: " +:+ or_dash (bd_channel d);
    "    type: " +:+ or_dash (version_type_to_string <$> bd_version_type d);
    "   image: " +:+ di_name (bd_dst_image d) +:+ ":" +:+ di_tag (bd_dst_image d);
    "   comps: " +:+ join_with ", " (component_display <$> bd_components d);
    "  distro: " +:+ bt_distro (bd_build d) +:+ " " +:+ bt_os_version (bd_build d)].

Definition cmd_get (args : BuildGetArgs) : command (result () Exit) :=
  connect config_path opts (λ _ client,
    let? build := http_get (T := BuildRecord) client ("builds/" +:+ pretty (bg_id args)) map_err Failed in
    if bg_json args then
      do* println (value_to_string (build_json build)) in Ret (Ok ())
    else
      do* println_each [
        "      id: " +:+ pretty (br_id build); "   state: " +:+ br_state build;
        "    user: " +:+ br_user_email build; "priority: " +:+ br_priority build] in
      do* match of_json (A := BuildDescriptor) (br_descriptor build) with
          | Ok d => print_descriptor d
          | Err _ => Ret ()
          end in
      do* println_some (br_worker_id build) (λ w, "  worker: " +:+ w) in
      do* println_some (br_trace_id build) (λ t, "   trace: " +:+ t) in
      do* println ("  queued: " +:+ format_timestamp (br_submitted_at build)) in
      do* println_some (br_started_at build) (λ t, " started: " +:+ format_timestamp t) in
      do* println_some (br_finished_at build) (λ t, "finished: " +:+ format_timestamp t) in
      match br_build_report build with
      | Some report => print_report report
      | None => Ret (Ok ())
      end).
End Builds.
