(* ===== verification/CbcLogs.v ===== *)
(** * The client's log commands (cbc, logs.rs)

    The tail of a log, following it over an event stream, and downloading it. *)

From stdpp Require Import prelude gmap strings list pretty.
From S2P Require Import Prelude Async Common FileSystem Cbc CbcBuilds Proto.

Record TailArgs := mkTailArgs { tl_id : Z; tl_n : Z }.
Record GetArgs := mkGetArgs { ga_id : Z; ga_output : option string }.

Record TailResponse := mkTailResponse {
  tr_build_id : Z;
  tr_lines : list string;
  tr_returned : Z;
  tr_requested : Z;
  tr_truncated : bool
}.

Record BuildStateResponse := mkStateResponse { bs_id : Z; bs_state : string }.

(** What a [reqwest_eventsource] stream yields: the connection opened (again), an
    event with its name and data, or an error after which it tries again. *)
Inductive EsItem := EsOpen | EsMessage (event data : string) | EsError (text : string).

(** The stream for the last request sent, until it ends, and the text of a size
    with one decimal of a unit. *)
Class EventSourceCrate `{UrlCrate} := {
  event_source : list HttpRequest → result (list EsItem) string;
  one_decimal : Z → Z → string
}.

Section Logs.
Context `{HUrl : UrlCrate} `{HHttp : !HttpCrate} `{HJson : JsonValue} `{HHost : Host}
  `{HEvents : !EventSourceCrate} `{!Deserialize ConfigFile} `{!Deserialize TailResponse}
  `{!Deserialize BuildStateResponse}.
Variables (config_path : option Path) (opts : ClientOpts).

Definition cmd_tail (args : TailArgs) : command (result () Exit) :=
  connect config_path opts (λ _ client,
    let? resp := http_get (T := TailResponse) client
                   ("builds/" +:+ pretty (tl_id args) +:+ "/logs/tail?n=" +:+ pretty (tl_n args)) map_err Failed in
    let shown := "(showing " +:+ pretty (tr_returned resp) +:+ " of " +:+ pretty (tr_requested resp)
                 +:+ " requested lines" in
    do* println (if tr_truncated resp then shown +:+ "; earlier output truncated by server)"
                 else shown +:+ ")") in
    do* println_each (tr_lines resp) in
    Ret (Ok ())).

Definition MAX_RETRIES : nat := 3.

(** The loop over the stream. *)
Fixpoint follow_events (retries : nat) (items : list EsItem) : command () :=
  match items with
  | [] => Ret ()
  | EsMessage event data :: items =>
      if bool_decide (event = "done") then Ret ()
      else do* println data in follow_events 0 items
  | EsOpen :: items => follow_events 0 items
  | EsError e :: items =>
      let retries := S retries in
      if MAX_RETRIES <=? retries then eprintln ("stream error: " +:+ e) else follow_events retries items
  end.

Definition open_events (req : HttpRequest) : command (result (list EsItem) string) :=
  atomic (λ w, let sent := w_sent w ++ [req] in (event_source sent, set_sent sent w)).

Definition cmd_follow (id : Z) : command (result () Exit) :=
  connect config_path opts (λ _ client,
    let? request := request_builder client GET ("builds/" +:+ pretty id +:+ "/logs/follow") None
      map_err Failed in
    let? items := open_events request
      map_err (λ e, Failed (ErrOther ("cannot create event source: " +:+ e))) in
    do* follow_events 0 items in
    let? build := http_get (T := BuildStateResponse) client ("builds/" +:+ pretty id) map_err Failed in
    do* println ("--- build " +:+ pretty id +:+ " finished: " +:+ bs_state build +:+ " ---") in
    Ret (Ok ())).

Definition KB : Z := 1024.
Definition MB : Z := 1024 * KB.
Definition GB : Z := 1024 * MB.

Definition format_size (bytes : Z) : string :=
  if (GB <=? bytes)%Z then one_decimal bytes GB +:+ " GB"
  else if (MB <=? bytes)%Z then one_decimal bytes MB +:+ " MB"
  else if (KB <=? bytes)%Z then one_decimal bytes KB +:+ " KB"
  else pretty bytes +:+ " B".

(** [File::create]: a new file, or the old one emptied. *)
Definition create_file (path : string) : command (result unit string) :=
  fs_call (λ w, match w_files w !! path with
                | Some Directory => (Err os_error, w)
                | Some (File mode _) => (Ok (), set_files (<[path := File mode ""]> (w_files w)) w)
                | None => (Ok (), set_files (<[path := File 420 ""]> (w_files w)) w)
                end).

(** Writing a chunk at the end of the open file. *)
Definition write_chunk (path chunk : string) : command (result unit string) :=
  atomic (λ w, let '(fault, w) := next_fault w in
    let put t := match w_files w !! path with
                 | Some (File mode c) => set_files (<[path := File mode (c +:+ t)]> (w_files w)) w
                 | _ => w
                 end in
    match fault with
    | None => (Ok (), put chunk)
    | Some n => (Err os_error, put (String.substring 0 n chunk))
    end).

Fixpoint write_chunks (path : string) (total_bytes : Z) (chunks : list string) : command (result Z Error) :=
  match chunks with
  | [] => Ret (Ok total_bytes)
  | chunk :: chunks =>
      do? write_chunk path chunk map_err (λ e, ErrOther ("write error: " +:+ e)) in
      write_chunks path (total_bytes + Z.of_nat (String.length chunk))%Z chunks
  end.

Definition cmd_get (args : GetArgs) : command (result () Exit) :=
  connect config_path opts (λ _ client,
    let output_path := default ("build-" +:+ pretty (ga_id args) +:+ ".log") (ga_output args) in
    let? resp := get_stream client ("builds/" +:+ pretty (ga_id args) +:+ "/logs") map_err Failed in
    do? create_file output_path
      map_err (λ e, Failed (ErrOther ("cannot create '" +:+ output_path +:+ "': " +:+ e))) in
    let? total_bytes := write_chunks output_path 0 (hp_chunks resp) map_err Failed in
    match hp_cut resp with
    | Some e => Ret (Err (Failed (ErrConnection ("download error: " +:+ e))))
    | None =>
        do* println ("log written to " +:+ output_path +:+ " (" +:+ format_size total_bytes +:+ ")") in
        Ret (Ok ())
    end).
End Logs.
