(* ===== verification/CbcPeriodic.v ===== *)
(** * The client's commands on periodic tasks (cbc, periodic.rs)

    Creating, listing, showing, changing, deleting, enabling, disabling and
    triggering tasks, and the short ids by which they are named. *)

From stdpp Require Import prelude gmap strings list pretty.
From S2P Require Import Prelude Async Common FileSystem Cbc CbcBuilds Proto.

Record PeriodicNewArgs := mkPeriodicNewArgs {
  pn_cron : string;
  pn_tag_format : string;
  pn_summary : option string;
  pn_version : string;
  pn_descriptor : BuildDescriptorArgs
}.

Record PeriodicUpdateArgs := mkPeriodicUpdateArgs {
  pu_id : string;
  pu_cron : option string;
  pu_tag_format : option string;
  pu_summary : option string;
  pu_version : option string;
  pu_channel : option string;
  pu_components : option (list string);
  pu_version_type : option string;
  pu_distro : option string;
  pu_os_version : option string;
  pu_image_name : option string;
  pu_image_tag : option string;
  pu_arch : option string;
  pu_repo_override : option (list string);
  pu_priority : option string
}.

Record PeriodicDeleteArgs := mkPeriodicDeleteArgs { pd_id : string; pd_yes : bool }.
Record PeriodicTriggerArgs := mkPeriodicTriggerArgs { pt_id : string; pt_priority : option string }.

Record CreatePeriodicBody `{JsonValue} := mkCreatePeriodic {
  cp_cron_expr : string;
  cp_tag_format : string;
  cp_descriptor : Value;
  cp_priority : string;
  cp_summary : option string
}.

Record PeriodicTaskResponse := mkTaskResponse {
  ptr_id : string;
  ptr_enabled : bool;
  ptr_cron_expr : option string;
  ptr_next_run : option Z;
  ptr_state : option string
}.

Record PeriodicListItem := mkListItem {
  li_id : string;
  li_enabled : bool;
  li_cron_expr : string;
  li_next_run : option Z
}.

Record PeriodicDetail `{JsonValue} := mkPeriodicDetail {
  td_id : string;
  td_cron_expr : string;
  td_tag_format : string;
  td_enabled : bool;
  td_created_by : option string;
  td_next_run : option Z;
  td_retry_count : option Z;
  td_last_error : option string;
  td_last_build_id : option Z;
  td_last_triggered_at : option Z;
  td_descriptor : option Value;
  td_priority : option string;
  td_summary : option string
}.

Record TriggerPeriodicBody := mkTriggerBody { tb_priority : option Priority }.
Record TriggerPeriodicResponse := mkTriggerResponse {
  tp_build_id : Z;
  tp_tag : option string;
  tp_priority : option string;
  tp_warning : option string
}.

(** ** Naming tasks *)

(** The one task whose id begins with the text; the text itself without the
    permission to list tasks. *)
Definition resolve_from_fetch (fetched : result (list PeriodicListItem) Error) (prefix : string)
    : result string Error :=
  match fetched with
  | Err (ErrApi 403 _) => Ok prefix
  | Err e => Err e
  | Ok tasks =>
      match List.filter (λ t, starts_with prefix (li_id t)) tasks with
      | [] => Err (ErrOther ("no periodic task matching '" +:+ prefix +:+ "'"))
      | [t] => Ok (li_id t)
      | matches =>
          Err (ErrOther ("ambiguous task id '" +:+ prefix +:+ "' matches:" +:+ String lf ""
                 +:+ join_with (String lf "") ((λ t, "  " +:+ li_id t +:+ "  " +:+ li_cron_expr t) <$> matches)))
      end
  end.

Definition dash : Ascii.ascii := Ascii.ascii_of_nat 45.

(** The id up to its [n]-th dash. *)
Fixpoint truncate_components (id : string) (n : nat) : string :=
  match id with
  | EmptyString => EmptyString
  | String c s =>
      if Ascii.eqb c dash
      then match n with 0 | 1 => EmptyString | S n => String c (truncate_components s n) end
      else String c (truncate_components s n)
  end.

Fixpoint first_unique (ids : list string) (candidates : list nat) : option nat :=
  match candidates with
  | [] => None
  | n :: ns =>
      if bool_decide (NoDup ((λ id, truncate_components id n) <$> ids)) then Some n else first_unique ids ns
  end.

(** The fewest components, up to five, with which the ids differ. *)
Definition min_unique_components (ids : list string) : nat := default 5 (first_unique ids [1; 2; 3; 4; 5]).

(** ** The commands *)

Section Periodic.
Context `{HUrl : UrlCrate} `{HHttp : !HttpCrate} `{HJson : JsonValue} `{HMore : !JsonMore} `{HHost : Host}
  `{HChrono : ClientChrono} `{!Deserialize ConfigFile} `{!Deserialize WhoamiResponse}
  `{!Deserialize (list PeriodicListItem)} `{!Deserialize PeriodicTaskResponse} `{!Deserialize PeriodicDetail}
  `{!Deserialize SimpleResponse} `{!Deserialize TriggerPeriodicResponse} `{!Serialize CreatePeriodicBody}
  `{!Serialize TriggerPeriodicBody}.
Variables (config_path : option Path) (opts : ClientOpts).

Definition resolve_periodic_id (client : CbcClient) (prefix : string) : command (result string Error) :=
  let* fetched := http_get (T := list PeriodicListItem) client "periodic" in
  Ret (resolve_from_fetch fetched prefix).

Definition cmd_new (args : PeriodicNewArgs) : command (result () Exit) :=
  connect config_path opts (λ _ client,
    let? whoami := http_get (T := WhoamiResponse) client "auth/whoami" map_err Failed in
    let? (descriptor, priority) :=
      Ret (descriptor_of_args (pn_version args) (pn_descriptor args) whoami) map_err Failed in
    let? descriptor_json := Ret (descriptor_to_value descriptor)
      map_err (λ e, Failed (ErrOther ("cannot serialize descriptor: " +:+ e))) in
    let body := mkCreatePeriodic _ (pn_cron args) (pn_tag_format args) descriptor_json
                  (priority_to_string priority) (pn_summary args) in
    let? resp := http_post (T := PeriodicTaskResponse) client "periodic" body map_err Failed in
    do* println ("periodic task " +:+ ptr_id resp +:+ " created (enabled)") in
    do* println_some (ptr_cron_expr resp) (λ c, "  schedule: " +:+ c) in
    do* println_some (ptr_next_run resp) (λ t, "  next run: " +:+ format_timestamp t +:+ " UTC") in
    Ret (Ok ())).

Definition cmd_list : command (result () Exit) :=
  connect config_path opts (λ _ client,
    let? tasks := http_get (T := list PeriodicListItem) client "periodic" map_err Failed in
    match tasks with
    | [] => do* println "no periodic tasks found" in Ret (Ok ())
    | _ =>
        let n := min_unique_components (li_id <$> tasks) in
        do* print_table ["ID"; "ENABLED"; "SCHEDULE"; "NEXT RUN"]
              ((λ t, [truncate_components (li_id t) n; yes_no (li_enabled t); li_cron_expr t;
                      if li_enabled t then or_dash (format_timestamp <$> li_next_run t) else "-"]) <$> tasks) in
        Ret (Ok ())
    end).

(** [v.get(key)] and [v.get(outer).get(inner)] as text. *)
Definition nested (v : Value) (outer inner : string) : option string := o ← value_get v outer; str_of o inner.

(** The components of a stored descriptor as [name@ref], those that have both. *)
Definition stored_component (c : Value) : option string :=
  name ← str_of c "name"; git_ref ← str_of c "ref"; Some (name +:+ "@" +:+ git_ref).
Definition stored_components (v : Value) : option (list string) :=
  match value_get v "components" with
  | Some c => (λ l : list Value, omap stored_component l) <$> as_array c
  | None => None
  end.

Definition print_stored_descriptor (v : Value) : command () :=
  let image := match nested v "dst_image" "name", nested v "dst_image" "tag" with
               | Some name, Some tag => name +:+ ":" +:+ tag
               | Some name, None => name
               | None, _ => "-"
               end in
  println_each [
    ""; "  descriptor:";
    "     version: " +:+ or_dash (str_of v "version");
    "     channel: " +:+ or_dash (str_of v "channel");
    "        type: " +:+ or_dash (str_of v "version_type");
    "       image: " +:+ image;
    "       comps: " +:+ or_dash (join_with ", " <$> stored_components v);
    "      distro: " +:+ or_dash (nested v "build" "distro") +:+ " " +:+ default "" (nested v "build" "os_version")].

Definition cmd_get (id : string) : command (result () Exit) :=
  connect config_path opts (λ _ client,
    let? id := resolve_periodic_id client id map_err Failed in
    let? task := http_get (T := PeriodicDetail) client ("periodic/" +:+ id) map_err Failed in
    do* println_each [
      "          id: " +:+ td_id task; "        cron: " +:+ td_cron_expr task;
      "  tag format: " +:+ td_tag_format task; "     enabled: " +:+ yes_no (td_enabled task)] in
    do* println_some (td_created_by task) (λ b, "  created by: " +:+ b) in
    do* println (match td_next_run task with
                 | Some t => "    next run: " +:+ format_timestamp t +:+ " UTC"
                 | None => "    next run: -"
                 end) in
    do* println ("     retries: " +:+ pretty (default 0%Z (td_retry_count task))) in
    do* println ("  last error: " +:+ or_dash (td_last_error task)) in
    do* println (match td_last_build_id task, td_last_triggered_at task with
                 | Some b, Some t => "  last build: #" +:+ pretty b +:+ " at " +:+ format_timestamp t
                 | Some b, None => "  last build: #" +:+ pretty b
                 | None, _ => "  last build: -"
                 end) in
    do* match td_descriptor task with Some v => print_stored_descriptor v | None => Ret () end in
    do* println_some (td_priority task) (λ p, "    priority: " +:+ p) in
    do* println_some (td_summary task) (λ s, "     summary: " +:+ s) in
    Ret (Ok ())).

(** Whether any option of the descriptor is given, and whether any at all is. *)
Definition has_descriptor_field (a : PeriodicUpdateArgs) : bool :=
  bool_decide (is_Some (pu_version a)) || bool_decide (is_Some (pu_channel a))
  || bool_decide (is_Some (pu_components a)) || bool_decide (is_Some (pu_version_type a))
  || bool_decide (is_Some (pu_distro a)) || bool_decide (is_Some (pu_os_version a))
  || bool_decide (is_Some (pu_image_name a)) || bool_decide (is_Some (pu_image_tag a))
  || bool_decide (is_Some (pu_arch a)) || bool_decide (is_Some (pu_repo_override a)).

Definition has_field (a : PeriodicUpdateArgs) : bool :=
  bool_decide (is_Some (pu_cron a)) || bool_decide (is_Some (pu_tag_format a))
  || bool_decide (is_Some (pu_summary a)) || has_descriptor_field a
  || bool_decide (is_Some (pu_priority a)).

(** The descriptor of an update: what is given, and otherwise what is stored. *)
Definition merged_descriptor (a : PeriodicUpdateArgs) (stored : Value) (whoami : WhoamiResponse)
    : result BuildDescriptor Error :=
  let version := default (default "" (str_of stored "version")) (pu_version a) in
  let channel := default (default "" (str_of stored "channel")) (pu_channel a) in
  match transpose parse_version_type
          (match pu_version_type a with Some t => Some t | None => str_of stored "version_type" end) with
  | Err e => Err e
  | Ok version_type =>
  let distro := default (default "rockylinux" (nested stored "build" "distro")) (pu_distro a) in
  let os_version := default (default "el9" (nested stored "build" "os_version")) (pu_os_version a) in
  let image_name := default (default "ceph/ceph" (nested stored "dst_image" "name")) (pu_image_name a) in
  let image_tag := default (default version (nested stored "dst_image" "tag")) (pu_image_tag a) in
  match parse_arch (default (default "x86_64" (nested stored "build" "arch")) (pu_arch a)) with
  | Err e => Err e
  | Ok arch =>
  match parse_components (default (default [] (stored_components stored)) (pu_components a)) with
  | Err e => Err e
  | Ok components =>
  match apply_repo_overrides components (default [] (pu_repo_override a)) with
  | Err e => Err e
  | Ok components =>
      Ok (mkDescriptor version (if bool_decide (channel = "") then None else Some channel) version_type
            (mkSignedOffBy (wh_name whoami) (wh_email whoami)) (mkDestImage image_name image_tag)
            components (mkTarget distro os_version "rpm" arch))
  end end end end.

Definition text_field (key : string) (o : option string) : list (string * Value) :=
  match o with Some s => [(key, value_string s)] | None => [] end.

(** The descriptor field of the request. *)
Definition descriptor_field (client : CbcClient) (id : string) (a : PeriodicUpdateArgs)
    : command (result (list (string * Value)) Exit) :=
  if negb (has_descriptor_field a) then Ret (Ok [])
  else
    let? existing := http_get (T := PeriodicDetail) client ("periodic/" +:+ id) map_err Failed in
    let stored := default value_null (td_descriptor existing) in
    let? whoami := http_get (T := WhoamiResponse) client "auth/whoami" map_err Failed in
    let? descriptor := Ret (merged_descriptor a stored whoami) map_err Failed in
    let? json := Ret (descriptor_to_value descriptor)
      map_err (λ e, Failed (ErrOther ("cannot serialize descriptor: " +:+ e))) in
    Ret (Ok [("descriptor", json)]).

Definition cmd_update (a : PeriodicUpdateArgs) : command (result () Exit) :=
  if negb (has_field a) then
    Ret (Err (Failed (ErrOther "at least one option must be provided for update")))
  else
    connect config_path opts (λ _ client,
      let? id := resolve_periodic_id client (pu_id a) map_err Failed in
      do? Ret (transpose parse_priority (pu_priority a)) map_err Failed in
      let? descriptor := descriptor_field client id a map_err Datatypes.id in
      let body := (text_field "cron_expr" (pu_cron a) ++ text_field "tag_format" (pu_tag_format a)
                   ++ text_field "summary" (pu_summary a) ++ text_field "priority" (pu_priority a)
                   ++ descriptor)%list in
      do? put_json (T := SimpleResponse) client ("periodic/" +:+ id) (value_object body) map_err Failed in
      do* println ("periodic task " +:+ id +:+ " updated") in
      Ret (Ok ())).

Definition cmd_delete (a : PeriodicDeleteArgs) : command (result () Exit) :=
  confirmed (pd_yes a) (connect config_path opts (λ _ client,
    let? id := resolve_periodic_id client (pd_id a) map_err Failed in
    do* println ("deleting periodic task " +:+ id) in
    do? http_delete (T := SimpleResponse) client ("periodic/" +:+ id) map_err Failed in
    do* println ("periodic task " +:+ id +:+ " deleted") in
    Ret (Ok ()))).

Definition cmd_enable (id : string) : command (result () Exit) :=
  connect config_path opts (λ _ client,
    let? id := resolve_periodic_id client id map_err Failed in
    do? put_empty (T := SimpleResponse) client ("periodic/" +:+ id +:+ "/enable") map_err Failed in
    do* println ("periodic task " +:+ id +:+ " enabled") in
    Ret (Ok ())).

Definition cmd_disable (id : string) : command (result () Exit) :=
  connect config_path opts (λ _ client,
    let? id := resolve_periodic_id client id map_err Failed in
    do? put_empty (T := SimpleResponse) client ("periodic/" +:+ id +:+ "/disable") map_err Failed in
    do* println ("periodic task " +:+ id +:+ " disabled") in
    Ret (Ok ())).

Definition cmd_trigger (a : PeriodicTriggerArgs) : command (result () Exit) :=
  connect config_path opts (λ _ client,
    let? priority := Ret (transpose parse_priority (pt_priority a)) map_err Failed in
    let? id := resolve_periodic_id client (pt_id a) map_err Failed in
    let? resp := http_post (T := TriggerPeriodicResponse) client ("periodic/" +:+ id +:+ "/trigger")
                   (mkTriggerBody priority) map_err Failed in
    do* println ("periodic task " +:+ id +:+ " triggered: build " +:+ pretty (tp_build_id resp)) in
    do* println_some (tp_tag resp) (λ t, "  tag:      " +:+ t) in
    do* println_some (tp_priority resp) (λ p, "  priority: " +:+ p) in
    do* println_some (tp_warning resp) (λ w, "  warning:  " +:+ w) in
    Ret (Ok ())).
End Periodic.
