(* ===== verification/CbcWorkers.v ===== *)
(** * The client's commands on workers (cbc, worker.rs) *)

From stdpp Require Import prelude gmap strings list pretty.
From S2P Require Import Prelude Async Common FileSystem Cbc CbcBuilds.

Record RegisterArgs := mkRegisterArgs { rg_name : string; rg_arch : string }.
Record DeregisterArgs := mkDeregisterArgs { dg_id : string; dg_yes : bool }.

Record WorkerInfo := mkWorkerInfo {
  wi_worker_id : string;
  wi_name : string;
  wi_arch : string;
  wi_status : string;
  wi_version : option string;
  wi_last_seen : option Z;
  wi_current_build_id : option Z
}.

Record RegisterWorkerResponse := mkRegisterResponse {
  rr_worker_id : string;
  rr_name : string;
  rr_arch : string;
  rr_worker_token : string
}.

Record RegisterWorkerBody := mkRegisterBody { rb_name : string; rb_arch : string }.
Record DeregisterResponse := mkDeregisterResponse { dre_detail : string }.

Section Workers.
Context `{HUrl : UrlCrate} `{HHttp : !HttpCrate} `{HJson : JsonValue} `{HHost : Host}
  `{HChrono : ClientChrono} `{!Deserialize ConfigFile} `{!Deserialize (list WorkerInfo)}
  `{!Deserialize RegisterWorkerResponse} `{!Serialize RegisterWorkerBody} `{!Deserialize DeregisterResponse}.
Variables (config_path : option Path) (opts : ClientOpts).

(** [&id[..12.min(len)]] of each match. *)
Definition candidate_line (w : WorkerInfo) : result string Exit :=
  match slice_to (12 `min` String.length (wi_worker_id w)) (wi_worker_id w) with
  | Ok short => Ok ("  " +:+ short +:+ "  " +:+ wi_name w)
  | Err e => Err e
  end.

(** The one worker whose id begins with the text, and its name. *)
Definition resolve_fetched (fetched : result (list WorkerInfo) Error) (prefix : string)
    : result (string * string) Exit :=
  match fetched with
  | Err (ErrApi 403 _) => Ok (prefix, "unknown")
  | Err e => Err (Failed e)
  | Ok workers =>
      match List.filter (λ w, starts_with prefix (wi_worker_id w)) workers with
      | [] => Err (Failed (ErrOther ("no worker matching '" +:+ prefix +:+ "'")))
      | [w] => Ok (wi_worker_id w, wi_name w)
      | matches =>
          match collect candidate_line matches with
          | Err e => Err e
          | Ok list =>
              Err (Failed (ErrOther ("ambiguous prefix '" +:+ prefix +:+ "' matches:" +:+ String lf ""
                     +:+ join_with (String lf "") list)))
          end
      end
  end.

Definition resolve_worker_id (client : CbcClient) (prefix : string)
    : command (result (string * string) Exit) :=
  let* fetched := http_get (T := list WorkerInfo) client "workers" in
  Ret (resolve_fetched fetched prefix).

Definition cmd_list : command (result () Exit) :=
  connect config_path opts (λ _ client,
    let? workers := http_get (T := list WorkerInfo) client "workers" map_err Failed in
    match workers with
    | [] => do* println "no workers found" in Ret (Ok ())
    | _ =>
        do* print_table ["NAME"; "ARCH"; "STATUS"; "VERSION"; "BUILD"; "LAST SEEN"]
              ((λ w, [wi_name w; wi_arch w; wi_status w; or_dash (wi_version w);
                      or_dash ((λ id : Z, "#" +:+ pretty id) <$> wi_current_build_id w);
                      or_dash (format_timestamp <$> wi_last_seen w)]) <$> workers) in
        Ret (Ok ())
    end).

Definition cmd_register (args : RegisterArgs) : command (result () Exit) :=
  if negb (bool_decide (rg_arch args = "x86_64")) && negb (bool_decide (rg_arch args = "aarch64")) then
    Ret (Err (Failed (ErrOther ("invalid architecture '" +:+ rg_arch args
                                +:+ "': expected x86_64 or aarch64"))))
  else
    connect config_path opts (λ _ client,
      let? resp := http_post (T := RegisterWorkerResponse) client "admin/workers"
                     (mkRegisterBody (rg_name args) (rg_arch args)) map_err Failed in
      do* println_each [
        "worker '" +:+ rr_name resp +:+ "' registered"; "  id: " +:+ rr_worker_id resp; "";
        "worker token (save this - it cannot be recovered):"; ""; "  " +:+ rr_worker_token resp; "";
        "Set as CBSD_WORKER_TOKEN in the worker environment,"; "or as 'worker-token' in worker.yaml."] in
      Ret (Ok ())).

Definition cmd_deregister (args : DeregisterArgs) : command (result () Exit) :=
  confirmed (dg_yes args) (connect config_path opts (λ _ client,
    let? (resolved_id, name) := resolve_worker_id client (dg_id args) map_err id in
    let? resp := http_delete (T := DeregisterResponse) client ("admin/workers/" +:+ resolved_id)
      map_err Failed in
    do* println (if bool_decide (name = "unknown") then dre_detail resp
                 else "worker '" +:+ name +:+ "' deregistered (API key revoked)") in
    Ret (Ok ()))).

Definition cmd_regenerate_token (id : string) : command (result () Exit) :=
  connect config_path opts (λ _ client,
    let? (resolved_id, name) := resolve_worker_id client id map_err Datatypes.id in
    let? resp := http_post (T := RegisterWorkerResponse) client
                   ("admin/workers/" +:+ resolved_id +:+ "/regenerate-token") () map_err Failed in
    let display_name := if bool_decide (name = "unknown") then rr_name resp else name in
    do* println_each [
      "worker '" +:+ display_name +:+ "' token regenerated"; "";
      "WARNING: if the worker is currently building, the"; "build will be re-queued."; "";
      "new worker token (save this - it cannot be recovered):"; ""; "  " +:+ rr_worker_token resp; "";
      "The worker must be restarted with the new token."] in
    Ret (Ok ())).
End Workers.
