(* ===== verification/CbcChannels.v ===== *)
(** * The client's commands on channels and the queue (cbc, channels.rs,
    admin/channels.rs, admin/queue.rs) *)

From stdpp Require Import prelude gmap strings list pretty.
From S2P Require Import Prelude Async Common FileSystem Cbc CbcBuilds.

(** ** channels.rs *)

Record TypeResponse := mkTypeResponse {
  tyr_id : Z;
  tyr_type_name : string;
  tyr_project : string;
  tyr_prefix_template : string
}.

Record ChannelResponse := mkChannelResponse {
  chr_id : Z;
  chr_name : string;
  chr_description : string;
  chr_default_type_id : option Z;
  chr_types : list TypeResponse
}.

(** ** admin/channels.rs *)

Record ChannelCreateArgs := mkChannelCreate { cca_name : string; cca_description : option string }.
Record ChannelUpdateArgs := mkChannelUpdate {
  cua_id : Z; cua_name : option string; cua_description : option string }.
Record SetDefaultTypeArgs := mkSetDefaultType { sdt_channel_id : Z; sdt_type_id : Z }.
Record TypeAddArgs := mkTypeAdd {
  taa_channel_id : Z; taa_type_name : string; taa_project : string; taa_prefix : string }.
Record TypeUpdateArgs := mkTypeUpdate {
  tua_type_id : Z; tua_channel_id : Z; tua_project : option string; tua_prefix : option string }.
Record TypeDeleteArgs := mkTypeDelete { tda_type_id : Z; tda_channel_id : Z }.

Record CreateChannelBody := mkCreateChannel { ccb_name : string; ccb_description : string }.
Record UpdateChannelBody := mkUpdateChannel { ucb_name : option string; ucb_description : option string }.
Record AddTypeBody := mkAddType { atb_type_name : string; atb_project : string; atb_prefix_template : string }.
Record UpdateTypeBody := mkUpdateType { utb_project : option string; utb_prefix_template : option string }.
Record SetDefaultTypeBody := mkDefaultTypeBody { sdb_type_id : Z }.
Record SetDefaultChannelBody := mkDefaultChannelBody { sdc_channel_id : Z }.
Record ChannelItem := mkChannelItem { chi_id : Z; chi_name : string }.
Record TypeResponseItem := mkTypeItem { tri_id : Z; tri_type_name : string; tri_project : string }.

(** ** admin/queue.rs *)

Record QueueStatus := mkQueueStatus { qs_high : Z; qs_normal : Z; qs_low : Z }.

Section Channels.
Context `{HUrl : UrlCrate} `{HHttp : !HttpCrate} `{HJson : JsonValue} `{HHost : Host}
  `{!Deserialize ConfigFile} `{!Deserialize (list ChannelResponse)} `{!Deserialize ChannelItem}
  `{!Deserialize TypeResponseItem} `{!Deserialize DetailResponse} `{!Deserialize QueueStatus}
  `{!Serialize CreateChannelBody} `{!Serialize UpdateChannelBody} `{!Serialize AddTypeBody}
  `{!Serialize UpdateTypeBody} `{!Serialize SetDefaultTypeBody} `{!Serialize SetDefaultChannelBody}.
Variables (config_path : option Path) (opts : ClientOpts).

Definition type_line (default_type_id : option Z) (t : TypeResponse) : string :=
  let marker := if bool_decide (default_type_id = Some (tyr_id t)) then " [default]" else "" in
  let prefix_display := if bool_decide (tyr_prefix_template t = "") then ""
                        else ", prefix=" +:+ tyr_prefix_template t in
  "    " +:+ pad_right 8 (tyr_type_name t) +:+ " project=" +:+ tyr_project t +:+ prefix_display +:+ marker.

Definition channel_lines (c : ChannelResponse) : list string :=
  ("  " +:+ chr_name c +:+ " (id=" +:+ pretty (chr_id c) +:+ ")"
   +:+ (if bool_decide (chr_description c = "") then "" else " — " +:+ chr_description c))
  :: match chr_types c with
     | [] => ["    (no types configured)"]
     | types => type_line (chr_default_type_id c) <$> types
     end.

Definition cmd_list : command (result () Exit) :=
  connect config_path opts (λ _ client,
    let? channels := http_get (T := list ChannelResponse) client "channels" map_err Failed in
    match channels with
    | [] => do* println "no channels found" in Ret (Ok ())
    | _ => do* for_each channels (λ c, println_each (channel_lines c)) in Ret (Ok ())
    end).

Definition set_user_default_channel (email : string) (channel_id : Z) : command (result () Exit) :=
  connect config_path opts (λ _ client,
    let? resp := put_json (T := DetailResponse) client ("admin/entity/" +:+ email +:+ "/default-channel")
                   (mkDefaultChannelBody channel_id) map_err Failed in
    do* println (dr_detail resp) in Ret (Ok ())).

Definition cmd_create (args : ChannelCreateArgs) : command (result () Exit) :=
  connect config_path opts (λ _ client,
    let? resp := http_post (T := ChannelItem) client "channels"
                   (mkCreateChannel (cca_name args) (default "" (cca_description args))) map_err Failed in
    do* println ("channel '" +:+ chi_name resp +:+ "' created (id=" +:+ pretty (chi_id resp) +:+ ")") in
    Ret (Ok ())).

Definition cmd_update (args : ChannelUpdateArgs) : command (result () Exit) :=
  match cua_name args, cua_description args with
  | None, None =>
      Ret (Err (Failed (ErrOther "at least one of --name or --description must be provided")))
  | name, description =>
      connect config_path opts (λ _ client,
        let? resp := put_json (T := ChannelItem) client ("channels/" +:+ pretty (cua_id args))
                       (mkUpdateChannel name description) map_err Failed in
        do* println ("channel '" +:+ chi_name resp +:+ "' updated (id=" +:+ pretty (chi_id resp) +:+ ")") in
        Ret (Ok ()))
  end.

Definition cmd_delete (id : Z) : command (result () Exit) :=
  connect config_path opts (λ _ client,
    let? resp := http_delete (T := DetailResponse) client ("channels/" +:+ pretty id) map_err Failed in
    do* println (dr_detail resp) in Ret (Ok ())).

Definition cmd_type_add (args : TypeAddArgs) : command (result () Exit) :=
  connect config_path opts (λ _ client,
    let? resp := http_post (T := TypeResponseItem) client
                   ("channels/" +:+ pretty (taa_channel_id args) +:+ "/types")
                   (mkAddType (taa_type_name args) (taa_project args) (taa_prefix args)) map_err Failed in
    do* println ("type '" +:+ tri_type_name resp +:+ "' added to channel " +:+ pretty (taa_channel_id args)
                 +:+ " (type_id=" +:+ pretty (tri_id resp) +:+ ", project=" +:+ tri_project resp +:+ ")") in
    Ret (Ok ())).

Definition cmd_type_update (args : TypeUpdateArgs) : command (result () Exit) :=
  match tua_project args, tua_prefix args with
  | None, None =>
      Ret (Err (Failed (ErrOther "at least one of --project or --prefix must be provided")))
  | project, prefix =>
      connect config_path opts (λ _ client,
        let? resp := put_json (T := TypeResponseItem) client
                       ("channels/" +:+ pretty (tua_channel_id args) +:+ "/types/" +:+ pretty (tua_type_id args))
                       (mkUpdateType project prefix) map_err Failed in
        do* println ("type '" +:+ tri_type_name resp +:+ "' updated (type_id=" +:+ pretty (tri_id resp)
                     +:+ ", project=" +:+ tri_project resp +:+ ")") in
        Ret (Ok ()))
  end.

Definition cmd_type_delete (args : TypeDeleteArgs) : command (result () Exit) :=
  connect config_path opts (λ _ client,
    let? resp := http_delete (T := DetailResponse) client
                   ("channels/" +:+ pretty (tda_channel_id args) +:+ "/types/" +:+ pretty (tda_type_id args))
                   map_err Failed in
    do* println (dr_detail resp) in Ret (Ok ())).

Definition cmd_set_default_type (args : SetDefaultTypeArgs) : command (result () Exit) :=
  connect config_path opts (λ _ client,
    let? resp := put_json (T := DetailResponse) client
                   ("channels/" +:+ pretty (sdt_channel_id args) +:+ "/default-type")
                   (mkDefaultTypeBody (sdt_type_id args)) map_err Failed in
    do* println (dr_detail resp) in Ret (Ok ())).

Definition queue_run : command (result () Exit) :=
  connect config_path opts (λ _ client,
    let? status := http_get (T := QueueStatus) client "admin/queue" map_err Failed in
    do* println_each [
      "  " +:+ pad_right 10 "PRIORITY" +:+ " PENDING";
      "  " +:+ pad_right 10 "high" +:+ " " +:+ pretty (qs_high status);
      "  " +:+ pad_right 10 "normal" +:+ " " +:+ pretty (qs_normal status);
      "  " +:+ pad_right 10 "low" +:+ " " +:+ pretty (qs_low status)] in
    Ret (Ok ())).
End Channels.
