(* ===== verification/CbcRoles.v ===== *)
(** * The client's commands on roles and users (cbc, admin/roles.rs,
    admin/users.rs) *)

From stdpp Require Import prelude gmap strings list pretty.
From S2P Require Import Prelude Async Common FileSystem Cbc CbcBuilds.

(** ** admin/roles.rs *)

Record CreateRoleArgs := mkCreateRole {
  cra_name : string;
  cra_caps : list string;
  cra_scope : list string;
  cra_description : option string
}.
Record UpdateRoleArgs := mkUpdateRole { ura_name : string; ura_caps : list string; ura_scope : list string }.
Record DeleteRoleArgs := mkDeleteRole { dra_name : string; dra_yes : bool }.

Record RoleListItem := mkRoleItem {
  rli_name : string; rli_description : string; rli_builtin : bool; rli_created_at : Z }.
Record ScopeItem := mkScopeItem { si_scope_type : string; si_pattern : string }.
Record RoleDetail := mkRoleDetail {
  rd_name : string;
  rd_description : string;
  rd_builtin : bool;
  rd_caps : list string;
  rd_scopes : list ScopeItem
}.
Record CreateRoleBody := mkCreateRoleBody {
  crb_name : string; crb_caps : list string; crb_scopes : list ScopeItem; crb_description : option string }.
Record UpdateRoleBody := mkUpdateRoleBody {
  urb_name : string; urb_caps : list string; urb_scopes : list ScopeItem }.

Definition parse_scope (s : string) : result ScopeItem Error :=
  match split_once equals_sign s with
  | None => Err (ErrOther ("invalid scope '" +:+ s +:+ "': expected TYPE=PATTERN (e.g. channel=ces-devel/*)"))
  | Some (scope_type, pattern) =>
      if bool_decide (scope_type = "") || bool_decide (pattern = "") then
        Err (ErrOther ("invalid scope '" +:+ s +:+ "': both type and pattern must be non-empty"))
      else Ok (mkScopeItem scope_type pattern)
  end.

(** A conflict is shown before the command fails with it. *)
Definition showing_conflict {A} `{UrlCrate} (r : result A Error) (hint : list string)
    (k : A → command (result () Exit)) : command (result () Exit) :=
  match r with
  | Ok a => k a
  | Err (ErrApi 409 message) =>
      do* eprintln ("error: " +:+ message) in
      do* for_each hint eprintln in
      Ret (Err (Failed (ErrApi 409 message)))
  | Err e => Ret (Err (Failed e))
  end.

(** Entries under a heading, which only the first one shows. *)
Definition entry_lines (heading : string) (entries : list string) : list string :=
  match entries with
  | [] => [heading +:+ "(none)"]
  | e :: es => (heading +:+ e) :: ((λ e, "            " +:+ e) <$> es)
  end.

Section Roles.
Context `{HUrl : UrlCrate} `{HHttp : !HttpCrate} `{HJson : JsonValue} `{HHost : Host}
  `{!Deserialize ConfigFile} `{!Deserialize (list RoleListItem)} `{!Deserialize RoleDetail}
  `{!Deserialize SimpleResponse} `{!Serialize CreateRoleBody} `{!Serialize UpdateRoleBody}.
Variables (config_path : option Path) (opts : ClientOpts).

Definition roles_list : command (result () Exit) :=
  connect config_path opts (λ _ client,
    let? roles := http_get (T := list RoleListItem) client "permissions/roles" map_err Failed in
    match roles with
    | [] => do* println "no roles found" in Ret (Ok ())
    | _ =>
        do* print_table ["NAME"; "BUILTIN"; "DESCRIPTION"]
              ((λ r, [rli_name r; yes_no (rli_builtin r); rli_description r]) <$> roles) in
        Ret (Ok ())
    end).

Definition roles_create (args : CreateRoleArgs) : command (result () Exit) :=
  connect config_path opts (λ _ client,
    let? scopes := Ret (collect parse_scope (cra_scope args)) map_err Failed in
    do? http_post (T := SimpleResponse) client "permissions/roles"
          (mkCreateRoleBody (cra_name args) (cra_caps args) scopes (cra_description args)) map_err Failed in
    do* println ("role '" +:+ cra_name args +:+ "' created") in
    Ret (Ok ())).

Definition roles_get (name : string) : command (result () Exit) :=
  connect config_path opts (λ _ client,
    let? role := http_get (T := RoleDetail) client ("permissions/roles/" +:+ name) map_err Failed in
    do* println_each [
      "      name: " +:+ rd_name role; "   builtin: " +:+ yes_no (rd_builtin role);
      "      desc: " +:+ rd_description role] in
    do* println_each (entry_lines "      caps: " (rd_caps role)) in
    do* println_each (entry_lines "    scopes: "
                        ((λ s, si_scope_type s +:+ " = " +:+ si_pattern s) <$> rd_scopes role)) in
    Ret (Ok ())).

Definition roles_update (args : UpdateRoleArgs) : command (result () Exit) :=
  connect config_path opts (λ _ client,
    let? scopes := Ret (collect parse_scope (ura_scope args)) map_err Failed in
    let* updated := put_json (T := SimpleResponse) client ("permissions/roles/" +:+ ura_name args)
                      (mkUpdateRoleBody (ura_name args) (ura_caps args) scopes) in
    showing_conflict updated [] (λ _,
      do* println ("role '" +:+ ura_name args +:+ "' updated (" +:+ pretty (length (ura_caps args))
                   +:+ " capabilities, " +:+ pretty (length scopes) +:+ " scopes)") in
      Ret (Ok ()))).

(** The configuration is read before the confirmation is asked for. *)
Definition roles_delete (args : DeleteRoleArgs) : command (result () Exit) :=
  connect config_path opts (λ _ client, confirmed (dra_yes args) (
    do? http_delete (T := SimpleResponse) client ("permissions/roles/" +:+ dra_name args) map_err Failed in
    do* println ("role '" +:+ dra_name args +:+ "' deleted") in
    Ret (Ok ()))).
End Roles.

(** ** admin/users.rs *)

Record CreateUserArgs := mkCreateUser { cua_email : string; cua_name : option string; cua_role : list string }.
Record RolesSetArgs := mkRolesSet { rsa_email : string; rsa_role : list string }.
Record RoleArgs := mkRoleArgs { ra_email : string; ra_role : string }.

Record UserRoleItem := mkUserRole { uri_role : string; uri_scopes : list ScopeItem }.
Record UserWithRoles := mkUserWithRoles {
  uwr_email : string;
  uwr_name : string;
  uwr_active : bool;
  uwr_is_robot : bool;
  uwr_first_login_at : option Z;
  uwr_roles : list UserRoleItem
}.
Record UserRoleDetail := mkUserRoleDetail {
  urd_name : string; urd_description : string; urd_builtin : bool; urd_caps : list string }.
Record ReplaceRolesBody := mkReplaceRoles { rrb_roles : list string }.
Record AddRoleBody := mkAddRole { arb_role : string }.
Record CreateUserBody := mkCreateUserBody {
  cub_email : string; cub_name : option string; cub_roles : list string }.
Record DeactivateResponse := mkDeactivate {
  de_detail : option string; de_tokens_revoked : Z; de_api_keys_revoked : Z }.

Definition login_state `{ClientChrono} (user : UserWithRoles) : string :=
  if uwr_is_robot user then "n/a"
  else match uwr_first_login_at user with
       | None => "pending"
       | Some ts => default "?" (format_time "%Y-%m-%d" ts)
       end.

Section Users.
Context `{HUrl : UrlCrate} `{HHttp : !HttpCrate} `{HJson : JsonValue} `{HHost : Host} `{HChrono : ClientChrono}
  `{!Deserialize ConfigFile} `{!Deserialize (list UserWithRoles)} `{!Deserialize UserWithRoles}
  `{!Deserialize UserRoleDetail} `{!Deserialize SimpleResponse} `{!Deserialize DeactivateResponse}
  `{!Deserialize Value} `{!Serialize CreateUserBody} `{!Serialize ReplaceRolesBody} `{!Serialize AddRoleBody}.
Variables (config_path : option Path) (opts : ClientOpts).

Definition role_names (u : UserWithRoles) : list string := uri_role <$> uwr_roles u.

Definition users_list : command (result () Exit) :=
  connect config_path opts (λ _ client,
    let? users := http_get (T := list UserWithRoles) client "admin/entities?type=user" map_err Failed in
    match users with
    | [] => do* println "no users found" in Ret (Ok ())
    | _ =>
        do* print_table ["EMAIL"; "NAME"; "ACTIVE"; "LOGIN"; "ROLES"]
              ((λ u, [uwr_email u; uwr_name u; yes_no (uwr_active u); login_state u;
                      join_with ", " (role_names u)]) <$> users) in
        Ret (Ok ())
    end).

Definition users_create (args : CreateUserArgs) : command (result () Exit) :=
  connect config_path opts (λ _ client,
    let? user := http_post (T := UserWithRoles) client "admin/entities"
                   (mkCreateUserBody (cua_email args) (cua_name args) (cua_role args)) map_err Failed in
    do* println_each [
      "user '" +:+ uwr_email user +:+ "' provisioned"; "    name: " +:+ uwr_name user;
      "   login: " +:+ login_state user;
      "   roles: " +:+ match role_names user with [] => "(none)" | names => join_with ", " names end] in
    Ret (Ok ())).

Definition scope_lines (r : UserRoleItem) : list string :=
  ("    " +:+ uri_role r)
  :: match uri_scopes r with
     | [] => ["      (no scopes)"]
     | scopes => "      scopes:" ::
                 ((λ s, "        " +:+ si_scope_type s +:+ " = " +:+ si_pattern s) <$> scopes)
     end.

(** Capabilities in the order of the roles, each once. *)
Definition add_caps (all_caps caps : list string) : list string :=
  foldl (λ l c, if bool_decide (c ∈ l) then l else l ++ [c])%list all_caps caps.

(** A role that cannot be read is skipped. *)
Fixpoint collect_caps (client : CbcClient) (all_caps : list string) (roles : list string)
    : command (list string) :=
  match roles with
  | [] => Ret all_caps
  | role :: roles =>
      let* detail := http_get (T := UserRoleDetail) client ("permissions/roles/" +:+ role) in
      collect_caps client (match detail with Ok d => add_caps all_caps (urd_caps d) | Err _ => all_caps end) roles
  end.

Definition users_get (email : string) : command (result () Exit) :=
  if starts_with "robot+" email then
    do* eprintln ("'" +:+ email +:+ "' looks like a robot account — use 'cbc admin robots get <name>'") in
    Ret (Err (Failed (ErrOther "not a user account")))
  else
    connect config_path opts (λ _ client,
      let? users := http_get (T := list UserWithRoles) client "admin/entities?type=user" map_err Failed in
      match find_first (λ u, bool_decide (uwr_email u = email)) users with
      | None =>
          do* eprintln ("user '" +:+ email +:+ "' not found") in
          Ret (Err (Failed (ErrOther ("user '" +:+ email +:+ "' not found"))))
      | Some user =>
          if uwr_is_robot user then
            do* eprintln ("'" +:+ email +:+ "' is a robot account — use 'cbc admin robots get <name>'") in
            Ret (Err (Failed (ErrOther "not a user account")))
          else
            do* println_each [
              "   email: " +:+ uwr_email user; "    name: " +:+ uwr_name user;
              "  active: " +:+ yes_no (uwr_active user); "   login: " +:+ login_state user] in
            do* match uwr_roles user with
                | [] => println_each [""; "  roles: (none)"]
                | roles => do* println_each [""; "  roles:"] in
                           for_each roles (λ r, println_each (scope_lines r))
                end in
            let* all_caps := collect_caps client [] (role_names user) in
            do* match all_caps with
                | [] => println_each [""; "  effective caps: (none)"]
                | _ => println_each [""; "  effective caps:"; "    " +:+ join_with ", " all_caps]
                end in
            Ret (Ok ())
      end).

Definition users_activate (email : string) : command (result () Exit) :=
  connect config_path opts (λ _ client,
    do? put_empty (T := SimpleResponse) client ("admin/entity/" +:+ email +:+ "/activate") map_err Failed in
    do* println ("user '" +:+ email +:+ "' activated") in
    Ret (Ok ())).

Definition users_deactivate (email : string) : command (result () Exit) :=
  connect config_path opts (λ _ client,
    let* r := put_empty (T := DeactivateResponse) client ("admin/entity/" +:+ email +:+ "/deactivate") in
    showing_conflict r [] (λ resp,
      do* println_each [
        "user '" +:+ email +:+ "' deactivated"; "  tokens revoked: " +:+ pretty (de_tokens_revoked resp);
        "  api keys revoked: " +:+ pretty (de_api_keys_revoked resp)] in
      Ret (Ok ()))).

Definition users_roles_set (args : RolesSetArgs) : command (result () Exit) :=
  connect config_path opts (λ _ client,
    match rsa_role args with
    | [] => Ret (Err (Failed (ErrOther "at least one --role is required")))
    | roles =>
        do? put_json (T := Value) client ("admin/entity/" +:+ rsa_email args +:+ "/roles")
              (mkReplaceRoles roles) map_err Failed in
        do* println ("user '" +:+ rsa_email args +:+ "' roles set: " +:+ join_with ", " roles) in
        Ret (Ok ())
    end).

Definition users_roles_add (args : RoleArgs) : command (result () Exit) :=
  connect config_path opts (λ _ client,
    do? http_post (T := Value) client ("admin/entity/" +:+ ra_email args +:+ "/roles")
          (mkAddRole (ra_role args)) map_err Failed in
    do* println ("role '" +:+ ra_role args +:+ "' added to user '" +:+ ra_email args +:+ "'") in
    Ret (Ok ())).

Definition users_roles_remove (args : RoleArgs) : command (result () Exit) :=
  connect config_path opts (λ _ client,
    do? http_delete (T := SimpleResponse) client
          ("admin/entity/" +:+ ra_email args +:+ "/roles/" +:+ ra_role args) map_err Failed in
    do* println ("role '" +:+ ra_role args +:+ "' removed from '" +:+ ra_email args +:+ "'") in
    Ret (Ok ())).
End Users.
