(* ===== verification/CbcRobots.v ===== *)
(** * The client's commands on robot accounts (cbc, admin/robots.rs) *)

From stdpp Require Import prelude gmap strings list pretty.
From S2P Require Import Prelude Async Common FileSystem Cbc CbcBuilds CbcRoles.

Record CreateArgs := mkCreateArgs {
  ca_name : string;
  ca_expires : option string;
  ca_no_expires : bool;
  ca_description : option string;
  ca_role : list string
}.
Record SetDescriptionArgs := mkSetDescription { sda_name : string; sda_description : option string }.
Record NameConfirmedArgs := mkNameConfirmed { nca_name : string; nca_yes : bool }.
Record RolesArgs := mkRolesArgs { roa_name : string; roa_role : list string }.
Record RoleNameArgs := mkRoleName { rna_name : string; rna_role : string }.
Record DefaultChannelSetArgs := mkDefaultChannelSet { dcs_name : string; dcs_channel : Z }.
Record TokenNewArgs := mkTokenNew {
  tna_name : string; tna_expires : option string; tna_no_expires : bool; tna_renew : bool }.

Record CreateRobotBody := mkCreateRobot {
  crb_name : string; crb_description : option string; crb_expires : option string; crb_roles : list string }.
Record CreateRobotResponse := mkCreateRobotResponse {
  crr_name : string;
  crr_display_name : string;
  crr_email : string;
  crr_active : bool;
  crr_description : option string;
  crr_token : string;
  crr_token_prefix : string;
  crr_token_expires_at : option Z;
  crr_created_at : Z;
  crr_roles : list string;
  crr_revived : bool
}.
Record RobotListItem := mkRobotItem {
  rbi_name : string;
  rbi_display_name : string;
  rbi_email : string;
  rbi_description : option string;
  rbi_active : bool;
  rbi_created_at : Z;
  rbi_token_state : string;
  rbi_token_expires_at : option Z;
  rbi_last_used_at : option Z
}.
Record TokenStatusBody := mkTokenStatus {
  ts_state : string;
  ts_prefix : option string;
  ts_expires_at : option Z;
  ts_first_used_at : option Z;
  ts_last_used_at : option Z;
  ts_token_created_at : option Z
}.
Record RobotDetailResponse := mkRobotDetail {
  rod_name : string;
  rod_display_name : string;
  rod_email : string;
  rod_description : option string;
  rod_active : bool;
  rod_created_at : Z;
  rod_token_status : TokenStatusBody;
  rod_roles : list string;
  rod_effective_caps : list string
}.
Record SetDescriptionBody := mkDescriptionBody { sdbo_description : option string }.
Record RotateTokenBody := mkRotateToken { rtb_expires : option string; rtb_renew : bool }.
Record RotateTokenResponse := mkRotateResponse {
  rtr_token : string; rtr_token_prefix : string; rtr_expires_at : option Z }.
Record RobotDefaultChannelBody := mkRobotDefaultChannel { rdc_channel_id : option Z }.

Definition name_to_synthetic_email (name : string) : string := "robot+" +:+ name +:+ "@robots".

Definition build_expires_wire `{ClientChrono} (expires : option string) (no_expires : bool)
    : result (option string) Error :=
  if no_expires then Ok None
  else match expires with
       | None => Err (ErrOther "internal: one of --expires or --no-expires must be set")
       | Some date =>
           if is_iso_date date then Ok (Some date)
           else Err (ErrOther ("invalid date '" +:+ date
                       +:+ "': expected YYYY-MM-DD (UTC; valid through end of that UTC day)"))
       end.

(** The line of an expiry in the output of a new token. *)
Definition expires_line (expires_at : option Z) : string :=
  match expires_at with
  | Some exp => "  expires: " +:+ pretty exp +:+ " (unix timestamp)"
  | None => "  expires: never"
  end.

Definition token_lines (prefix token : string) : list string :=
  ["  token prefix: " +:+ prefix; "  token: " +:+ token; "";
   "  *** This token will not be shown again. Store it securely. ***"].

Section Robots.
Context `{HUrl : UrlCrate} `{HHttp : !HttpCrate} `{HJson : JsonValue} `{HHost : Host} `{HChrono : ClientChrono}
  `{!Deserialize ConfigFile} `{!Deserialize (list RobotListItem)} `{!Deserialize RobotDetailResponse}
  `{!Deserialize CreateRobotResponse} `{!Deserialize RotateTokenResponse} `{!Deserialize SimpleResponse}
  `{!Deserialize Value} `{!Serialize CreateRobotBody} `{!Serialize SetDescriptionBody}
  `{!Serialize RotateTokenBody} `{!Serialize ReplaceRolesBody} `{!Serialize AddRoleBody}
  `{!Serialize RobotDefaultChannelBody}.
Variables (config_path : option Path) (opts : ClientOpts).

Definition cmd_create (args : CreateArgs) : command (result () Exit) :=
  connect config_path opts (λ _ client,
    let? expires := Ret (build_expires_wire (ca_expires args) (ca_no_expires args)) map_err Failed in
    let* created := http_post (T := CreateRobotResponse) client "admin/robots"
                      (mkCreateRobot (ca_name args) (ca_description args) expires (ca_role args)) in
    showing_conflict created [] (λ resp,
      do* (if crr_revived resp
           then eprintln ("note: tombstoned robot '" +:+ crr_name resp +:+ "' has been revived") else Ret ()) in
      do* println_each ["robot '" +:+ crr_name resp +:+ "' created"; "  email: " +:+ crr_email resp] in
      do* match crr_roles resp with
          | [] => Ret ()
          | roles => println ("  roles: " +:+ join_with ", " roles)
          end in
      do* println_each ((expires_line (crr_token_expires_at resp) :: "" ::
                         token_lines (crr_token_prefix resp) (crr_token resp))) in
      Ret (Ok ()))).

Definition cmd_list : command (result () Exit) :=
  connect config_path opts (λ _ client,
    let? robots := http_get (T := list RobotListItem) client "admin/robots" map_err Failed in
    match robots with
    | [] => do* println "no robots found" in Ret (Ok ())
    | _ =>
        do* print_table ["NAME"; "ACTIVE"; "TOKEN"; "EXPIRES"; "EMAIL"]
              ((λ r, [rbi_name r; yes_no (rbi_active r); rbi_token_state r;
                      match rbi_token_expires_at r with Some exp => pretty exp | None => "never" end;
                      rbi_email r +:+ "  (" +:+ rbi_display_name r +:+ ")"]) <$> robots) in
        Ret (Ok ())
    end).

Definition print_robot (robot : RobotDetailResponse) : command () :=
  let st := rod_token_status robot in
  do* println_each [
    "          name: " +:+ rod_name robot; "  display name: " +:+ rod_display_name robot;
    "         email: " +:+ rod_email robot; "        active: " +:+ yes_no (rod_active robot)] in
  do* println_some (rod_description robot) (λ d, "   description: " +:+ d) in
  do* println_each [""; "  token status:"; "     state: " +:+ ts_state st] in
  do* println_some (ts_prefix st) (λ p, "    prefix: " +:+ p) in
  do* match ts_expires_at st with
      | Some exp => println ("    expires: " +:+ pretty exp +:+ " (unix timestamp)")
      | None => if bool_decide (ts_state st = "none") then Ret () else println "    expires: never"
      end in
  do* println_some (ts_first_used_at st) (λ v, "    first used: " +:+ pretty v +:+ " (unix timestamp)") in
  do* println_some (ts_last_used_at st) (λ v, "    last used:  " +:+ pretty v +:+ " (unix timestamp)") in
  do* match rod_roles robot with
      | [] => Ret ()
      | roles => println_each [""; "  roles: " +:+ join_with ", " roles]
      end in
  match rod_effective_caps robot with
  | [] => Ret ()
  | caps => println_each ("" :: "  effective caps:" :: ((λ c, "    - " +:+ c) <$> caps))
  end.

Definition robot_not_found (name : string) : command (result () Exit) :=
  do* eprintln ("robot '" +:+ name +:+ "' not found") in
  Ret (Err (Failed (ErrOther ("robot '" +:+ name +:+ "' not found")))).

Definition cmd_get (name : string) : command (result () Exit) :=
  connect config_path opts (λ _ client,
    let* r := http_get (T := RobotDetailResponse) client ("admin/robots/" +:+ name) in
    match r with
    | Ok robot => do* print_robot robot in Ret (Ok ())
    | Err (ErrApi 404 _) => robot_not_found name
    | Err e => Ret (Err (Failed e))
    end).

Definition cmd_set_description (args : SetDescriptionArgs) : command (result () Exit) :=
  connect config_path opts (λ _ client,
    do? put_json (T := SimpleResponse) client ("admin/robots/" +:+ sda_name args +:+ "/description")
          (mkDescriptionBody (sda_description args)) map_err Failed in
    do* println ("description updated for robot '" +:+ sda_name args +:+ "'") in
    Ret (Ok ())).

Definition cmd_enable (name : string) : command (result () Exit) :=
  connect config_path opts (λ _ client,
    let* r := put_empty (T := SimpleResponse) client
                ("admin/entity/" +:+ name_to_synthetic_email name +:+ "/activate") in
    showing_conflict r [] (λ _,
      do* println ("robot '" +:+ name +:+ "' enabled") in Ret (Ok ()))).

Definition cmd_disable (name : string) : command (result () Exit) :=
  connect config_path opts (λ _ client,
    let* r := put_empty (T := Value) client
                ("admin/entity/" +:+ name_to_synthetic_email name +:+ "/deactivate") in
    showing_conflict r [] (λ _,
      do* println ("robot '" +:+ name +:+ "' disabled") in Ret (Ok ()))).

Definition cmd_roles_set (args : RolesArgs) : command (result () Exit) :=
  connect config_path opts (λ _ client,
    do? put_json (T := Value) client
          ("admin/entity/" +:+ name_to_synthetic_email (roa_name args) +:+ "/roles")
          (mkReplaceRoles (roa_role args)) map_err Failed in
    do* println ("robot '" +:+ roa_name args +:+ "' roles set: " +:+ join_with ", " (roa_role args)) in
    Ret (Ok ())).

Definition cmd_roles_add (args : RoleNameArgs) : command (result () Exit) :=
  connect config_path opts (λ _ client,
    do? http_post (T := Value) client
          ("admin/entity/" +:+ name_to_synthetic_email (rna_name args) +:+ "/roles")
          (mkAddRole (rna_role args)) map_err Failed in
    do* println ("role '" +:+ rna_role args +:+ "' added to robot '" +:+ rna_name args +:+ "'") in
    Ret (Ok ())).

Definition cmd_roles_remove (args : RoleNameArgs) : command (result () Exit) :=
  connect config_path opts (λ _ client,
    do? http_delete (T := SimpleResponse) client
          ("admin/entity/" +:+ name_to_synthetic_email (rna_name args) +:+ "/roles/" +:+ rna_role args)
          map_err Failed in
    do* println ("role '" +:+ rna_role args +:+ "' removed from robot '" +:+ rna_name args +:+ "'") in
    Ret (Ok ())).

(** The detail of the answer, or a text without one. *)
Definition println_detail (resp : Value) (otherwise : string) : command () :=
  println (default otherwise (str_of resp "detail")).

Definition cmd_default_channel_set (args : DefaultChannelSetArgs) : command (result () Exit) :=
  connect config_path opts (λ _ client,
    let? resp := put_json (T := Value) client
                   ("admin/entity/" +:+ name_to_synthetic_email (dcs_name args) +:+ "/default-channel")
                   (mkRobotDefaultChannel (Some (dcs_channel args))) map_err Failed in
    do* println_detail resp ("default channel set for robot '" +:+ dcs_name args +:+ "'") in
    Ret (Ok ())).

Definition cmd_default_channel_clear (name : string) : command (result () Exit) :=
  connect config_path opts (λ _ client,
    let? resp := put_json (T := Value) client
                   ("admin/entity/" +:+ name_to_synthetic_email name +:+ "/default-channel")
                   (mkRobotDefaultChannel None) map_err Failed in
    do* println_detail resp ("default channel cleared for robot '" +:+ name +:+ "'") in
    Ret (Ok ())).

Definition cmd_token_new (args : TokenNewArgs) : command (result () Exit) :=
  connect config_path opts (λ _ client,
    let? expires := Ret (build_expires_wire (tna_expires args) (tna_no_expires args)) map_err Failed in
    let* r := http_post (T := RotateTokenResponse) client ("admin/robots/" +:+ tna_name args +:+ "/token")
                (mkRotateToken expires (tna_renew args)) in
    showing_conflict r ["hint: use --renew to replace an existing active token"] (λ resp,
      do* println_each (expires_line (rtr_expires_at resp)
                        :: token_lines (rtr_token_prefix resp) (rtr_token resp)) in
      Ret (Ok ()))).

Definition cmd_token_revoke (args : NameConfirmedArgs) : command (result () Exit) :=
  confirmed (nca_yes args) (connect config_path opts (λ _ client,
    let? resp := http_delete (T := Value) client ("admin/robots/" +:+ nca_name args +:+ "/token")
      map_err Failed in
    do* println_detail resp ("token(s) revoked for robot '" +:+ nca_name args +:+ "'") in
    Ret (Ok ()))).

Definition cmd_delete (args : NameConfirmedArgs) : command (result () Exit) :=
  confirmed (nca_yes args) (connect config_path opts (λ _ client,
    let* r := http_delete (T := Value) client ("admin/robots/" +:+ nca_name args) in
    match r with
    | Ok resp =>
        do* println_detail resp ("robot '" +:+ nca_name args +:+ "' tombstoned") in
        Ret (Ok ())
    | Err (ErrApi 404 _) => robot_not_found (nca_name args)
    | Err e => Ret (Err (Failed e))
    end)).
End Robots.
