(* ===== verification/CbcMain.v ===== *)
(** * The client as a whole (cbc, main.rs, admin/mod.rs)

    Logging in, the identity of the user, and the choice of the command. *)

From stdpp Require Import prelude gmap strings list pretty.
From S2P Require Import Prelude Async Common FileSystem Cbc.
From S2P Require CbcBuilds.
From S2P Require CbcLogs.
From S2P Require CbcPeriodic.
From S2P Require CbcWorkers.
From S2P Require CbcChannels.
From S2P Require CbcRoles.
From S2P Require CbcRobots.

(** ** The command line *)

Inductive BuildCommands :=
| BuildNew (a : CbcBuilds.BuildNewArgs)
| BuildList (a : CbcBuilds.BuildListArgs)
| BuildGet (a : CbcBuilds.BuildGetArgs)
| BuildRevoke (id : Z)
| BuildComponents
| LogsTail (a : CbcLogs.TailArgs)
| LogsFollow (id : Z)
| LogsGet (a : CbcLogs.GetArgs).

Inductive PeriodicCommands :=
| PeriodicNew (a : CbcPeriodic.PeriodicNewArgs)
| PeriodicList
| PeriodicGet (id : string)
| PeriodicUpdate (a : CbcPeriodic.PeriodicUpdateArgs)
| PeriodicDelete (a : CbcPeriodic.PeriodicDeleteArgs)
| PeriodicEnable (id : string)
| PeriodicDisable (id : string)
| PeriodicTrigger (a : CbcPeriodic.PeriodicTriggerArgs).

Inductive WorkerCommands :=
| WorkerList
| WorkerRegister (a : CbcWorkers.RegisterArgs)
| WorkerDeregister (a : CbcWorkers.DeregisterArgs)
| WorkerRegenerateToken (id : string).

Inductive RolesCommands :=
| RolesList
| RolesCreate (a : CbcRoles.CreateRoleArgs)
| RolesGet (name : string)
| RolesUpdate (a : CbcRoles.UpdateRoleArgs)
| RolesDelete (a : CbcRoles.DeleteRoleArgs).

Inductive UsersCommands :=
| UsersList
| UsersCreate (a : CbcRoles.CreateUserArgs)
| UsersGet (email : string)
| UsersActivate (email : string)
| UsersDeactivate (email : string)
| UsersRolesSet (a : CbcRoles.RolesSetArgs)
| UsersRolesAdd (a : CbcRoles.RoleArgs)
| UsersRolesRemove (a : CbcRoles.RoleArgs).

Inductive RobotsCommands :=
| RobotsCreate (a : CbcRobots.CreateArgs)
| RobotsList
| RobotsGet (name : string)
| RobotsSetDescription (a : CbcRobots.SetDescriptionArgs)
| RobotsEnable (name : string)
| RobotsDisable (name : string)
| RobotsRolesSet (a : CbcRobots.RolesArgs)
| RobotsRolesAdd (a : CbcRobots.RoleNameArgs)
| RobotsRolesRemove (a : CbcRobots.RoleNameArgs)
| RobotsDefaultChannelSet (a : CbcRobots.DefaultChannelSetArgs)
| RobotsDefaultChannelClear (name : string)
| RobotsTokenNew (a : CbcRobots.TokenNewArgs)
| RobotsTokenRevoke (a : CbcRobots.NameConfirmedArgs)
| RobotsDelete (a : CbcRobots.NameConfirmedArgs).

Inductive ChannelAdminCommands :=
| ChannelCreate (a : CbcChannels.ChannelCreateArgs)
| ChannelUpdate (a : CbcChannels.ChannelUpdateArgs)
| ChannelDelete (id : Z)
| ChannelTypeAdd (a : CbcChannels.TypeAddArgs)
| ChannelTypeUpdate (a : CbcChannels.TypeUpdateArgs)
| ChannelTypeDelete (a : CbcChannels.TypeDeleteArgs)
| ChannelSetDefaultType (a : CbcChannels.SetDefaultTypeArgs).

Inductive AdminCommands :=
| AdminRoles (c : RolesCommands)
| AdminUsers (c : UsersCommands)
| AdminRobots (c : RobotsCommands)
| AdminQueue
| AdminChannel (c : ChannelAdminCommands)
| AdminUserSetDefaultChannel (email : string) (channel_id : Z).

Inductive Commands :=
| Login (url : string)
| Whoami
| Build (c : BuildCommands)
| Periodic (c : PeriodicCommands)
| Worker (c : WorkerCommands)
| Admin (c : AdminCommands)
| ChannelList.

Record Cli := mkCli { cli_config : option Path; cli_opts : ClientOpts; cli_command : Commands }.

(** What the server says of the user. *)
Record WhoamiResponse := mkWhoamiResponse {
  wr_email : string;
  wr_name : string;
  wr_roles : list string;
  wr_effective_caps : list string
}.

(** base64, URL-safe and without padding, to bytes. *)
Class Base64 := { base64url_decode : string → result string string }.

(** [str::trim_end_matches] with a character. *)
Fixpoint trim_end_matches (c : Ascii.ascii) (s : string) : string :=
  match s with
  | EmptyString => EmptyString
  | String a s =>
      match trim_end_matches c s with
      | EmptyString => if Ascii.eqb a c then EmptyString else String a EmptyString
      | s => String a s
      end
  end.

(** serde's instances of all messages. *)
Class Codecs `{JsonValue} := {
  config_file_to_json :: Serialize ConfigFile;
  config_file_of_json :: Deserialize ConfigFile;
  value_of_json :: Deserialize Value;
  main_whoami_of_json :: Deserialize WhoamiResponse;
  simple_of_json :: Deserialize SimpleResponse;
  detail_of_json :: Deserialize DetailResponse;
  descriptor_of_text :: Deserialize Proto.BuildDescriptor;
  whoami_of_json :: Deserialize CbcBuilds.WhoamiResponse;
  submit_to_json :: Serialize CbcBuilds.SubmitBuildBody;
  submit_of_json :: Deserialize CbcBuilds.SubmitBuildResponse;
  build_of_json :: Deserialize CbcBuilds.BuildRecord;
  builds_of_json :: Deserialize (list CbcBuilds.BuildRecord);
  revoke_of_json :: Deserialize CbcBuilds.RevokeResponse;
  components_of_json :: Deserialize (list CbcBuilds.ComponentInfo);
  tail_of_json :: Deserialize CbcLogs.TailResponse;
  state_of_json :: Deserialize CbcLogs.BuildStateResponse;
  tasks_of_json :: Deserialize (list CbcPeriodic.PeriodicListItem);
  task_of_json :: Deserialize CbcPeriodic.PeriodicTaskResponse;
  task_detail_of_json :: Deserialize CbcPeriodic.PeriodicDetail;
  triggered_of_json :: Deserialize CbcPeriodic.TriggerPeriodicResponse;
  create_task_to_json :: Serialize CbcPeriodic.CreatePeriodicBody;
  trigger_to_json :: Serialize CbcPeriodic.TriggerPeriodicBody;
  workers_of_json :: Deserialize (list CbcWorkers.WorkerInfo);
  registered_of_json :: Deserialize CbcWorkers.RegisterWorkerResponse;
  register_to_json :: Serialize CbcWorkers.RegisterWorkerBody;
  deregistered_of_json :: Deserialize CbcWorkers.DeregisterResponse;
  channels_of_json :: Deserialize (list CbcChannels.ChannelResponse);
  channel_of_json :: Deserialize CbcChannels.ChannelItem;
  type_of_json :: Deserialize CbcChannels.TypeResponseItem;
  queue_of_json :: Deserialize CbcChannels.QueueStatus;
  create_channel_to_json :: Serialize CbcChannels.CreateChannelBody;
  update_channel_to_json :: Serialize CbcChannels.UpdateChannelBody;
  add_type_to_json :: Serialize CbcChannels.AddTypeBody;
  update_type_to_json :: Serialize CbcChannels.UpdateTypeBody;
  default_type_to_json :: Serialize CbcChannels.SetDefaultTypeBody;
  default_channel_to_json :: Serialize CbcChannels.SetDefaultChannelBody;
  roles_of_json :: Deserialize (list CbcRoles.RoleListItem);
  role_of_json :: Deserialize CbcRoles.RoleDetail;
  user_role_of_json :: Deserialize CbcRoles.UserRoleDetail;
  create_role_to_json :: Serialize CbcRoles.CreateRoleBody;
  update_role_to_json :: Serialize CbcRoles.UpdateRoleBody;
  users_of_json :: Deserialize (list CbcRoles.UserWithRoles);
  user_of_json :: Deserialize CbcRoles.UserWithRoles;
  deactivated_of_json :: Deserialize CbcRoles.DeactivateResponse;
  create_user_to_json :: Serialize CbcRoles.CreateUserBody;
  replace_roles_to_json :: Serialize CbcRoles.ReplaceRolesBody;
  add_role_to_json :: Serialize CbcRoles.AddRoleBody;
  robots_of_json :: Deserialize (list CbcRobots.RobotListItem);
  robot_of_json :: Deserialize CbcRobots.RobotDetailResponse;
  created_robot_of_json :: Deserialize CbcRobots.CreateRobotResponse;
  rotated_of_json :: Deserialize CbcRobots.RotateTokenResponse;
  create_robot_to_json :: Serialize CbcRobots.CreateRobotBody;
  description_to_json :: Serialize CbcRobots.SetDescriptionBody;
  rotate_to_json :: Serialize CbcRobots.RotateTokenBody;
  robot_channel_to_json :: Serialize CbcRobots.RobotDefaultChannelBody
}.

Section Main.
Context `{HUrl : UrlCrate} `{HHttp : !HttpCrate} `{HJson : JsonValue} `{HMore : !JsonMore} `{HHost : Host}
  `{HChrono : ClientChrono} `{HEvents : !CbcLogs.EventSourceCrate} `{HB64 : Base64}
  `{HCodecs : !Codecs}.

(** The token that is pasted: decoded, and text. *)
Definition decode_token (line : string) : result string Error :=
  let line := trim line in
  if bool_decide (line = "") then Err (ErrConfig "no token provided")
  else match base64url_decode line with
       | Err e => Err (ErrConfig ("invalid token encoding: " +:+ e))
       | Ok bytes => if valid_utf8 bytes then Ok bytes
                     else Err (ErrConfig "invalid token: invalid utf-8 sequence")
       end.

(** Opening the browser is left out: its result is ignored. *)
Definition cmd_login (url : string) (config_path : option Path) (o : ClientOpts)
    : command (result () Exit) :=
  let? client := Ret (unauthenticated url o) map_err Failed in
  do? http_get (T := Value) client "health"
    map_err (λ _, Failed (ErrConnection ("cannot reach server at " +:+ url))) in
  let login_url := trim_end_matches slash url +:+ "/api/auth/login?client=cli" in
  do* eprintln ("Open this URL in your browser to log in:" +:+ String lf "" +:+ "  " +:+ login_url
                +:+ String lf "") in
  do* eprint "Paste the token here: " in
  do? fs_call (λ w, (Ok (), w)) map_err (λ e, Failed (ErrOther e)) in
  let? line := read_line map_err (λ e, Failed (ErrOther ("cannot read token: " +:+ e))) in
  let? token := Ret (decode_token line) map_err Failed in
  let? client := Ret (client_new url token o) map_err Failed in
  let? whoami := http_get (T := Value) client "auth/whoami"
    map_err (λ _, Failed (ErrConfig "invalid token")) in
  let email := default "unknown" (v ← value_get whoami "email"; as_str v) in
  let? path := Ret (resolve_path config_path) map_err Failed in
  do? save (mkConfig url token) path map_err Failed in
  do* eprintln ("logged in as " +:+ email) in
  do* eprintln ("config saved to " +:+ display path) in
  Ret (Ok ()).

Definition cmd_whoami (config_path : option Path) (o : ClientOpts) : command (result () Exit) :=
  connect config_path o (λ config client,
    let* r := http_get (T := WhoamiResponse) client "auth/whoami" in
    match r with
    | Ok w =>
        do* println_each [
          "email: " +:+ wr_email w; "name:  " +:+ wr_name w;
          "roles: " +:+ CbcBuilds.join_with ", " (wr_roles w);
          "caps:  " +:+ CbcBuilds.join_with ", " (wr_effective_caps w)] in
        Ret (Ok ())
    | Err (ErrApi 401 _) =>
        do* eprintln ("session expired — run 'cbc login " +:+ host config +:+ "' to re-authenticate") in
        Ret (Err (Failed (ErrApi 401 "session expired")))
    | Err e => Ret (Err (Failed e))
    end).

Section Dispatch.
Variables (config_path : option Path) (opts : ClientOpts).

Definition run_build (c : BuildCommands) : command (result () Exit) :=
  match c with
  | BuildNew a => CbcBuilds.cmd_new config_path opts a
  | BuildList a => CbcBuilds.cmd_list config_path opts a
  | BuildGet a => CbcBuilds.cmd_get config_path opts a
  | BuildRevoke id => CbcBuilds.cmd_revoke config_path opts id
  | BuildComponents => CbcBuilds.cmd_components config_path opts
  | LogsTail a => CbcLogs.cmd_tail config_path opts a
  | LogsFollow id => CbcLogs.cmd_follow config_path opts id
  | LogsGet a => CbcLogs.cmd_get config_path opts a
  end.

Definition run_periodic (c : PeriodicCommands) : command (result () Exit) :=
  match c with
  | PeriodicNew a => CbcPeriodic.cmd_new config_path opts a
  | PeriodicList => CbcPeriodic.cmd_list config_path opts
  | PeriodicGet id => CbcPeriodic.cmd_get config_path opts id
  | PeriodicUpdate a => CbcPeriodic.cmd_update config_path opts a
  | PeriodicDelete a => CbcPeriodic.cmd_delete config_path opts a
  | PeriodicEnable id => CbcPeriodic.cmd_enable config_path opts id
  | PeriodicDisable id => CbcPeriodic.cmd_disable config_path opts id
  | PeriodicTrigger a => CbcPeriodic.cmd_trigger config_path opts a
  end.

Definition run_worker (c : WorkerCommands) : command (result () Exit) :=
  match c with
  | WorkerList => CbcWorkers.cmd_list config_path opts
  | WorkerRegister a => CbcWorkers.cmd_register config_path opts a
  | WorkerDeregister a => CbcWorkers.cmd_deregister config_path opts a
  | WorkerRegenerateToken id => CbcWorkers.cmd_regenerate_token config_path opts id
  end.

Definition run_roles (c : RolesCommands) : command (result () Exit) :=
  match c with
  | RolesList => CbcRoles.roles_list config_path opts
  | RolesCreate a => CbcRoles.roles_create config_path opts a
  | RolesGet name => CbcRoles.roles_get config_path opts name
  | RolesUpdate a => CbcRoles.roles_update config_path opts a
  | RolesDelete a => CbcRoles.roles_delete config_path opts a
  end.

Definition run_users (c : UsersCommands) : command (result () Exit) :=
  match c with
  | UsersList => CbcRoles.users_list config_path opts
  | UsersCreate a => CbcRoles.users_create config_path opts a
  | UsersGet email => CbcRoles.users_get config_path opts email
  | UsersActivate email => CbcRoles.users_activate config_path opts email
  | UsersDeactivate email => CbcRoles.users_deactivate config_path opts email
  | UsersRolesSet a => CbcRoles.users_roles_set config_path opts a
  | UsersRolesAdd a => CbcRoles.users_roles_add config_path opts a
  | UsersRolesRemove a => CbcRoles.users_roles_remove config_path opts a
  end.

Definition run_robots (c : RobotsCommands) : command (result () Exit) :=
  match c with
  | RobotsCreate a => CbcRobots.cmd_create config_path opts a
  | RobotsList => CbcRobots.cmd_list config_path opts
  | RobotsGet name => CbcRobots.cmd_get config_path opts name
  | RobotsSetDescription a => CbcRobots.cmd_set_description config_path opts a
  | RobotsEnable name => CbcRobots.cmd_enable config_path opts name
  | RobotsDisable name => CbcRobots.cmd_disable config_path opts name
  | RobotsRolesSet a => CbcRobots.cmd_roles_set config_path opts a
  | RobotsRolesAdd a => CbcRobots.cmd_roles_add config_path opts a
  | RobotsRolesRemove a => CbcRobots.cmd_roles_remove config_path opts a
  | RobotsDefaultChannelSet a => CbcRobots.cmd_default_channel_set config_path opts a
  | RobotsDefaultChannelClear name => CbcRobots.cmd_default_channel_clear config_path opts name
  | RobotsTokenNew a => CbcRobots.cmd_token_new config_path opts a
  | RobotsTokenRevoke a => CbcRobots.cmd_token_revoke config_path opts a
  | RobotsDelete a => CbcRobots.cmd_delete config_path opts a
  end.

Definition run_channel_admin (c : ChannelAdminCommands) : command (result () Exit) :=
  match c with
  | ChannelCreate a => CbcChannels.cmd_create config_path opts a
  | ChannelUpdate a => CbcChannels.cmd_update config_path opts a
  | ChannelDelete id => CbcChannels.cmd_delete config_path opts id
  | ChannelTypeAdd a => CbcChannels.cmd_type_add config_path opts a
  | ChannelTypeUpdate a => CbcChannels.cmd_type_update config_path opts a
  | ChannelTypeDelete a => CbcChannels.cmd_type_delete config_path opts a
  | ChannelSetDefaultType a => CbcChannels.cmd_set_default_type config_path opts a
  end.

Definition run_admin (c : AdminCommands) : command (result () Exit) :=
  match c with
  | AdminRoles c => run_roles c
  | AdminUsers c => run_users c
  | AdminRobots c => run_robots c
  | AdminQueue => CbcChannels.queue_run config_path opts
  | AdminChannel c => run_channel_admin c
  | AdminUserSetDefaultChannel email channel_id =>
      CbcChannels.set_user_default_channel config_path opts email channel_id
  end.
End Dispatch.

Definition run_cli (cli : Cli) : command (result () Exit) :=
  let o := cli_opts cli in
  do* for_each (warnings o) eprintln in
  match cli_command cli with
  | Login url => cmd_login url (cli_config cli) o
  | Whoami => cmd_whoami (cli_config cli) o
  | Build c => run_build (cli_config cli) o c
  | Periodic c => run_periodic (cli_config cli) o c
  | Worker c => run_worker (cli_config cli) o c
  | Admin c => run_admin (cli_config cli) o c
  | ChannelList => CbcChannels.cmd_list (cli_config cli) o
  end.

(** The exit status of the process. *)
Definition main (cli : Cli) : command Z :=
  let* r := run_cli cli in
  match r with
  | Ok _ => Ret 0%Z
  | Err (Failed e) => do* eprintln ("error: " +:+ error_to_string e) in Ret 1%Z
  | Err Panicked => Ret 101%Z
  end.
End Main.
