(* ===== verification/CbcSpec.v ===== *)
(** * What the client does with tokens, configuration and names

    The requests of a command follow its options, the configuration is replaced
    in one step, a pasted token is saved, and the ids of a listing name their
    tasks. *)

From stdpp Require Import prelude gmap strings list relations pretty.
From S2P Require Import Prelude Async Common FileSystem Cbc CbcBuilds CbcMain Proto.
From S2P Require CbcLogs.
From S2P Require CbcPeriodic.
From S2P Require CbcWorkers.
From S2P Require CbcChannels.
From S2P Require CbcRoles.
From S2P Require CbcRobots.

(** ** Where requests go *)

(** A path that is neither absolute nor has a scheme: its first segment, up to
    a slash or a question mark, is without a colon. *)
Fixpoint first_segment_ok (s : string) : bool :=
  match s with
  | EmptyString => true
  | String c s =>
      if Ascii.eqb c slash || Ascii.eqb c (Ascii.ascii_of_nat 63) then true
      else if Ascii.eqb c (Ascii.ascii_of_nat 58) || Ascii.eqb c (Ascii.ascii_of_nat 92) then false
      else first_segment_ok s
  end.
Definition relative_path (s : string) : bool :=
  match s with
  | EmptyString => false
  | String c _ => negb (Ascii.eqb c slash) && first_segment_ok s
  end.

Section Requests.
Context `{HUrl : UrlCrate} `{HHttp : !HttpCrate} `{HJson : JsonValue} `{HMore : !JsonMore} `{HHost : Host}
  `{HChrono : ClientChrono} `{HEvents : !CbcLogs.EventSourceCrate} `{HB64 : Base64} `{HCodecs : !Codecs}.

(** The scheme of the URL and the check of the certificate are what the options
    say. *)
Definition scheme_allowed (o : ClientOpts) (scheme : string) : Prop :=
  scheme = "https" ∨ scheme = "http" ∧ insecure_http o = true.
Definition follows (o : ClientOpts) (r : HttpRequest) : Prop :=
  scheme_allowed o (url_scheme (hr_url r)) ∧ hr_check_certs r = negb (no_tls_verify o).

Definition sent_ok (o : ClientOpts) (w : World) : Prop := Forall (follows o) (w_sent w).

Definition good_client (o : ClientOpts) (c : CbcClient) : Prop :=
  scheme_allowed o (url_scheme (base_url c)) ∧ cl_check_certs c = negb (no_tls_verify o).

(** The documented behaviour of [Url]: neither replacing the path nor joining a
    relative path changes the scheme. *)
Hypothesis set_path_scheme : ∀ p u, url_scheme (url_set_path p u) = url_scheme u.
Hypothesis join_scheme : ∀ u p u',
  relative_path p = true → url_join u p = Ok u' → url_scheme u' = url_scheme u.

Lemma client_good h t o c : client_new h t o = Ok c ∨ unauthenticated h o = Ok c → good_client o c.
Proof.
  assert (∀ base, parse_base_url h (insecure_http o) = Ok base → scheme_allowed o (url_scheme base)) as Hb.
  { intros base. unfold parse_base_url. destruct (url_parse _) as [u|]; [|done].
    destruct (negb _) eqn:Ha; [done|]. intros [= <-]. rewrite set_path_scheme.
    apply negb_false_iff in Ha. apply orb_true_iff in Ha as [->%bool_decide_eq_true_1|Ha]; [by left|].
    apply andb_true_iff in Ha as [->%bool_decide_eq_true_1 ?]. by right. }
  unfold client_new, unauthenticated. intros Hc.
  destruct (parse_base_url h (insecure_http o)) as [base|]; [|by destruct Hc].
  specialize (Hb base eq_refl). unfold build_client in Hc.
  destruct (header_value _), (client_build _); destruct Hc as [Hc|Hc]; try done; by injection Hc as <-.
Qed.

(** What leaves the sent requests alone. *)
Lemma keeps_sent {R} o (act : World → R * World) :
  (∀ w, w_sent (act w).2 = w_sent w) → keeps (sent_ok o) (atomic act).
Proof. intros H. apply keeps_atomic. intros w. unfold sent_ok. by rewrite H. Qed.

Lemma keeps_emit o t : keeps (sent_ok o) (emit t).
Proof. by apply keeps_sent. Qed.
Lemma keeps_println o t : keeps (sent_ok o) (println t).
Proof. apply keeps_emit. Qed.
Lemma keeps_eprint o t : keeps (sent_ok o) (eprint t).
Proof. by apply keeps_sent. Qed.
Lemma keeps_eprintln o t : keeps (sent_ok o) (eprintln t).
Proof. apply keeps_eprint. Qed.
Lemma keeps_print_table o h r : keeps (sent_ok o) (print_table h r).
Proof. apply keeps_emit. Qed.

Lemma keeps_each {A} o (l : list A) (f : A → command ()) :
  (∀ x, keeps (sent_ok o) (f x)) → keeps (sent_ok o) (for_each l f).
Proof. intros Hf w Hw. by apply run_for_each_inv; [intros x s _; apply Hf|]. Qed.

Lemma keeps_println_each o l : keeps (sent_ok o) (println_each l).
Proof. apply keeps_each, keeps_println. Qed.
Lemma keeps_println_some {A} o (x : option A) f : keeps (sent_ok o) (println_some x f).
Proof. destruct x; [apply keeps_println|apply keeps_ret]. Qed.

Lemma next_fault_sent w : w_sent (next_fault w).2 = w_sent w.
Proof. unfold next_fault. by destruct (w_faults w). Qed.

Lemma keeps_fs {A} o (f : World → result A string * World) :
  (∀ w, w_sent (f w).2 = w_sent w) → keeps (sent_ok o) (fs_call f).
Proof.
  intros Hf. apply keeps_sent. intros w. pose proof (next_fault_sent w) as Hw.
  destruct (next_fault w) as [[n|] w1]; simpl in *; [done|]. by rewrite Hf.
Qed.

(** What sends a request. *)
Lemma keeps_builder o c m p b :
  triple (sent_ok o) (request_builder c m p b)
    (λ r w, sent_ok o w ∧ match r with
                          | Ok req => relative_path p = true → good_client o c → follows o req
                          | Err _ => True end).
Proof.
  unfold request_builder. destruct (url_join (base_url c) p) as [u|e] eqn:Hu; [|by apply triple_ret].
  unfold debug_line. assert (∀ w, sent_ok o w → sent_ok o w ∧
    (relative_path p = true → good_client o c → follows o (request_of c m u b))) as Hw.
  { intros w Hw. split; [done|]. intros Hp [Hs Hc]. split; [|done]. simpl. by rewrite (join_scheme _ _ _ Hp Hu). }
  destruct (cl_debug c); [|by apply triple_ret].
  eapply triple_bind; [apply keeps_eprintln|]. intros ?. by apply triple_ret.
Qed.

Lemma keeps_send {A} o (f : list HttpRequest → A) r :
  triple (λ w, sent_ok o w ∧ follows o r)
    (atomic (λ w, let sent := (w_sent w ++ [r])%list in (f sent, set_sent sent w))) (λ _, sent_ok o).
Proof. intros w [Hw Hr]. rewrite run_atomic. unfold sent_ok. simpl. apply Forall_app. split; [exact Hw|by apply Forall_singleton]. Qed.

Lemma triple_pure {A} (P : World → Prop) (m : command A) Q (p : Prop) :
  (p → triple P m Q) → triple (λ w, P w ∧ p) m Q.
Proof. intros H w [Hw Hp]. by apply H. Qed.

Lemma keeps_exchange o c m p b :
  relative_path p = true → good_client o c → keeps (sent_ok o) (exchange c m p b).
Proof.
  intros Hp Hc. unfold exchange. eapply triple_or_fail; [apply keeps_builder| |by intros e s [? _]].
  intros req. apply triple_pure. intros Hreq.
  eapply (triple_or_fail _ _ _ _ (λ _, sent_ok o)); [|intros resp|by intros e s].
  { eapply triple_conseq; [apply (keeps_send o answer req)| |done]. intros w Hw. split; [done|by apply Hreq]. }
  apply keeps_bind; [|intros _; destruct (is_success _); apply keeps_ret].
  unfold debug_line. destruct (cl_debug c); [apply keeps_eprintln|apply keeps_ret].
Qed.

Lemma keeps_request {T} `{!Deserialize T} o c m p b :
  relative_path p = true → good_client o c → keeps (sent_ok o) (request (T := T) c m p b).
Proof.
  intros Hp Hc. unfold request. apply keeps_or_fail; [by apply keeps_exchange|]. intros resp. apply keeps_ret.
Qed.

(** ** The commands *)

Lemma keeps_config_load o p : keeps (sent_ok o) (load p).
Proof.
  unfold load. apply keeps_or_fail; [apply keeps_ret|]. intros path.
  apply keeps_or_fail; [|intros t; destruct (of_json t); apply keeps_ret].
  apply keeps_fs. intros w. by destruct (w_files w !! _) as [[|? c]|]; [|destruct (valid_utf8 c)|].
Qed.

Lemma keeps_connect {A} o p (k : Config → CbcClient → command (result A Exit)) :
  (∀ config c, good_client o c → keeps (sent_ok o) (k config c)) → keeps (sent_ok o) (connect p o k).
Proof.
  intros Hk. unfold connect. apply keeps_or_fail; [apply keeps_config_load|]. intros config.
  unfold or_fail. simpl. destruct (client_new _ _ _) as [c|e] eqn:Hc; [|apply keeps_ret].
  apply Hk. eapply client_good. by left.
Qed.

Lemma keeps_confirmed {A} o yes (k : command (result A Exit)) :
  keeps (sent_ok o) k → keeps (sent_ok o) (confirmed yes k).
Proof.
  intros Hk. unfold confirmed. destruct yes; [done|]. apply keeps_bind; [apply keeps_eprintln|].
  intros _. apply keeps_ret.
Qed.

Lemma keeps_conflict {A} o (r : result A Error) hint k :
  (∀ a, keeps (sent_ok o) (k a)) → keeps (sent_ok o) (CbcRoles.showing_conflict r hint k).
Proof.
  intros Hk. unfold CbcRoles.showing_conflict. destruct r as [a|[]]; [apply Hk|apply keeps_ret..| |apply keeps_ret].
  repeat case_match; try apply keeps_ret;
    (apply keeps_bind; [apply keeps_eprintln|]; intros _; apply keeps_bind;
     [apply keeps_each, keeps_eprintln|]; intros _; apply keeps_ret).
Qed.

Lemma list_path_relative user state : relative_path (list_path user state) = true.
Proof. by destruct user, state. Qed.

Ltac sends :=
  repeat first
    [ apply keeps_ret | apply keeps_println | apply keeps_eprintln | apply keeps_eprint
    | apply keeps_println_each | apply keeps_println_some | apply keeps_print_table
    | apply keeps_connect; intros ??? | apply keeps_confirmed | apply keeps_conflict; intros ?
    | apply keeps_request; [first [reflexivity|apply list_path_relative]|assumption] | apply keeps_exchange; [reflexivity|assumption]
    | apply keeps_or_fail; [|intros ?] | apply keeps_bind; [|intros ?]
    | apply keeps_each; intros ?
    | match goal with |- keeps _ (match ?x with _ => _ end) => destruct x end
    | progress unfold http_get, http_post, put_json, put_empty, http_delete, get_stream ].

Lemma keeps_periodic o p c : keeps (sent_ok o) (run_periodic p o c).
Proof.
  destruct c; simpl;
    unfold CbcPeriodic.cmd_new, CbcPeriodic.cmd_list, CbcPeriodic.cmd_get, CbcPeriodic.cmd_update,
      CbcPeriodic.cmd_delete, CbcPeriodic.cmd_enable, CbcPeriodic.cmd_disable, CbcPeriodic.cmd_trigger,
      CbcPeriodic.resolve_periodic_id, CbcPeriodic.descriptor_field, CbcPeriodic.print_stored_descriptor; sends.
Qed.

Lemma keeps_components o l : keeps (sent_ok o) (print_components l).
Proof. induction l as [|c l IH]; simpl; sends; done. Qed.

Lemma keeps_follow o n l : keeps (sent_ok o) (CbcLogs.follow_events n l).
Proof.
  revert n. induction l as [|[|event data|e] l IH]; intros n; cbn [CbcLogs.follow_events];
    [apply keeps_ret|apply IH| |].
  - destruct (bool_decide _); [apply keeps_ret|]. apply keeps_bind; [apply keeps_println|intros _; apply IH].
  - cbv zeta. destruct (_ <=? _); [apply keeps_eprintln|apply IH].
Qed.

Lemma keeps_chunks o f n l : keeps (sent_ok o) (CbcLogs.write_chunks f n l).
Proof.
  revert n. induction l as [|c l IH]; intros n; cbn [CbcLogs.write_chunks]; [apply keeps_ret|].
  apply keeps_or_fail; [|intros _; apply IH]. apply keeps_sent. intros w.
  pose proof (next_fault_sent w) as Hw. destruct (next_fault w) as [[k|] w1]; simpl in *; rewrite <- Hw;
    by destruct (w_files w1 !! f) as [[]|].
Qed.

Lemma keeps_caps o c l roles : good_client o c → keeps (sent_ok o) (CbcRoles.collect_caps c l roles).
Proof.
  intros Hc. revert l. induction roles as [|r roles IH]; intros l; cbn [CbcRoles.collect_caps]; [apply keeps_ret|].
  apply keeps_bind; [by sends|]. intros d. apply IH.
Qed.

(** Following opens its stream with a request of its own. *)
Lemma keeps_follow_command o p id : keeps (sent_ok o) (CbcLogs.cmd_follow p o id).
Proof.
  unfold CbcLogs.cmd_follow. apply keeps_connect. intros config c Hc.
  eapply triple_or_fail; [apply keeps_builder| |by intros e w [? _]].
  intros req. apply triple_pure. intros Hreq.
  eapply (triple_or_fail _ _ _ _ (λ _, sent_ok o)); [|intros items|by intros e w].
  { eapply triple_conseq; [apply (keeps_send o CbcLogs.event_source req)| |done].
    intros w Hw. split; [done|by apply Hreq]. }
  apply keeps_bind; [apply keeps_follow|]. intros _. sends.
Qed.

Lemma keeps_build o p c : keeps (sent_ok o) (run_build p o c).
Proof.
  destruct c; simpl;
    unfold cmd_new, cmd_list, cmd_get, cmd_revoke, cmd_components, CbcLogs.cmd_tail, CbcLogs.cmd_get,
      print_descriptor, print_report;
    try apply keeps_follow_command; sends; try apply keeps_components; try apply keeps_chunks.
  apply keeps_fs. intros w. by destruct (w_files w !! _) as [[]|].
Qed.

Lemma keeps_worker o p c : keeps (sent_ok o) (run_worker p o c).
Proof.
  destruct c; simpl;
    unfold CbcWorkers.cmd_list, CbcWorkers.cmd_register, CbcWorkers.cmd_deregister,
      CbcWorkers.cmd_regenerate_token, CbcWorkers.resolve_worker_id; sends.
Qed.

Lemma keeps_roles o p c : keeps (sent_ok o) (run_roles p o c).
Proof.
  destruct c; simpl;
    unfold CbcRoles.roles_list, CbcRoles.roles_create, CbcRoles.roles_get, CbcRoles.roles_update,
      CbcRoles.roles_delete; sends.
Qed.

Lemma keeps_users o p c : keeps (sent_ok o) (run_users p o c).
Proof.
  destruct c; simpl;
    unfold CbcRoles.users_list, CbcRoles.users_create, CbcRoles.users_get, CbcRoles.users_activate,
      CbcRoles.users_deactivate, CbcRoles.users_roles_set, CbcRoles.users_roles_add,
      CbcRoles.users_roles_remove; sends; by apply keeps_caps.
Qed.

Lemma keeps_robots o p c : keeps (sent_ok o) (run_robots p o c).
Proof.
  destruct c; simpl;
    unfold CbcRobots.cmd_create, CbcRobots.cmd_list, CbcRobots.cmd_get, CbcRobots.cmd_set_description,
      CbcRobots.cmd_enable, CbcRobots.cmd_disable, CbcRobots.cmd_roles_set, CbcRobots.cmd_roles_add,
      CbcRobots.cmd_roles_remove, CbcRobots.cmd_default_channel_set, CbcRobots.cmd_default_channel_clear,
      CbcRobots.cmd_token_new, CbcRobots.cmd_token_revoke, CbcRobots.cmd_delete, CbcRobots.print_robot,
      CbcRobots.robot_not_found, CbcRobots.println_detail; sends.
Qed.

Lemma keeps_channels o p c : keeps (sent_ok o) (run_channel_admin p o c).
Proof.
  destruct c; simpl;
    unfold CbcChannels.cmd_create, CbcChannels.cmd_update, CbcChannels.cmd_delete, CbcChannels.cmd_type_add,
      CbcChannels.cmd_type_update, CbcChannels.cmd_type_delete, CbcChannels.cmd_set_default_type; sends.
Qed.

Lemma keeps_admin o p c : keeps (sent_ok o) (run_admin p o c).
Proof.
  destruct c; simpl; [apply keeps_roles|apply keeps_users|apply keeps_robots| |apply keeps_channels|];
    unfold CbcChannels.queue_run, CbcChannels.set_user_default_channel; sends.
Qed.

Lemma keeps_rename o a b : keeps (sent_ok o) (rename a b).
Proof.
  apply keeps_fs. intros w. destruct (w_files w !! display a) as [[]|]; [done| |done].
  by destruct (w_files w !! display b) as [[]|].
Qed.

Lemma keeps_write o p t : keeps (sent_ok o) (write_new p t).
Proof.
  apply keeps_sent. intros w. pose proof (next_fault_sent w) as Hw.
  destruct (next_fault w) as [[k|] w1]; simpl in *; rewrite <- Hw; by destruct (w_files w1 !! display p) as [[]|].
Qed.

Lemma keeps_save o c p : keeps (sent_ok o) (save c p).
Proof.
  unfold save, write_and_rename. sends.
  - apply keeps_fs. intros w. by destruct (make_dirs _ _ _).
  - apply keeps_sent. done.
  - apply keeps_fs. intros w. by destruct (w_files w !! _).
  - apply keeps_write.
  - apply keeps_rename.
  - apply keeps_fs. intros w. by destruct (w_files w !! _) as [[]|].
Qed.

Lemma keeps_login o url p : keeps (sent_ok o) (cmd_login url p o).
Proof.
  unfold cmd_login. unfold or_fail at 1. simpl.
  destruct (unauthenticated url o) as [c|] eqn:Hc; [|apply keeps_ret].
  assert (good_client o c) by (eapply (client_good _ ""); by right).
  apply keeps_or_fail; [by sends|intros _]. apply keeps_bind; [sends|intros _].
  apply keeps_bind; [sends|intros _]. apply keeps_or_fail; [by apply keeps_fs|intros _].
  apply keeps_or_fail; [apply keeps_fs; intros w; by destruct (w_stdin w)|intros line].
  apply keeps_or_fail; [sends|intros token].
  unfold or_fail at 1. simpl. destruct (client_new url token o) as [c'|] eqn:Hc'; [|apply keeps_ret].
  assert (good_client o c') by (eapply client_good; by left).
  apply keeps_or_fail; [by sends|intros whoami]. cbv zeta. apply keeps_or_fail; [sends|intros path].
  apply keeps_or_fail; [apply keeps_save|intros _]. sends.
Qed.

Lemma on_wire_elem r sent :
  r ∈ on_wire sent → ∃ n r0, sent !! n = Some r0 ∧ (r = r0 ∨ r ∈ redirects (take (S n) sent)).
Proof.
  unfold on_wire. intros (l & Hr & Hl)%list_elem_of_join. apply list_elem_of_lookup_1 in Hl as [n Hn].
  rewrite list_lookup_imap in Hn. apply fmap_Some in Hn as (r0 & H0 & ->). exists n, r0. split; [done|].
  by apply elem_of_cons in Hr.
Qed.

(** C10: Every request that a command makes, whatever its options and arguments and
    whatever the server answers, is for an https URL, or for an http URL when
    [--insecure-http] is given, and asks for the certificate to be checked unless
    [--no-tls-verify] is given. Of the redirects that the HTTP library then follows
    by itself, only the second is true: they check the certificate as the request
    does that they answer, but the program sets no redirect policy, so a server can
    send them to an http URL whatever the options say. *)
Theorem requests_follow_options (w : World) (cli : Cli) (Hw : w_sent w = [])
    (Hredirects : ∀ sent r0 r, last sent = Some r0 → r ∈ redirects sent → hr_check_certs r = hr_check_certs r0) :
  let sent := w_sent (run (main cli) w).2 in
  Forall (λ r, (url_scheme (hr_url r) = "https"
                ∨ url_scheme (hr_url r) = "http" ∧ insecure_http (cli_opts cli) = true)
               ∧ hr_check_certs r = negb (no_tls_verify (cli_opts cli))) sent ∧
  Forall (λ r, hr_check_certs r = negb (no_tls_verify (cli_opts cli))) (on_wire sent).
Proof.
  assert (keeps (sent_ok (cli_opts cli)) (main cli)) as Hm.
  { unfold main, run_cli, cmd_whoami. apply keeps_bind.
    - apply keeps_bind; [apply keeps_each, keeps_eprintln|]. intros _.
      destruct (cli_command cli); [apply keeps_login| |apply keeps_build|apply keeps_periodic|apply keeps_worker
        |apply keeps_admin|unfold CbcChannels.cmd_list]; sends.
    - intros [?|[]]; sends. }
  assert (sent_ok (cli_opts cli) (run (main cli) w).2) as Hall.
  { apply (Hm w). unfold sent_ok. by rewrite Hw. }
  cbv zeta. split; [exact Hall|]. apply Forall_forall. intros r (n & r0 & H0 & Hr)%on_wire_elem.
  unfold sent_ok in Hall. rewrite Forall_lookup in Hall. destruct (Hall n r0 H0) as [_ Hc].
  destruct Hr as [->|Hr]; [done|]. rewrite <- Hc. eapply Hredirects, Hr.
  by rewrite (take_S_r _ _ _ H0), last_snoc.
Qed.
End Requests.
