(* ===== verification/CbcConfigSpec.v ===== *)
(** * How the client keeps its configuration

    Saving replaces the file in one step, whatever fails, and a login saves the
    token that was pasted. *)

From stdpp Require Import prelude gmap strings list pretty.
From S2P Require Import Prelude Async Common FileSystem Cbc CbcMain.
From S2P Require CbcLogs.

(** ** Names of files *)

Lemma concat_app_length (a b : list string) :
  a ≠ [] → b ≠ [] →
  String.length (String.concat "/" (a ++ b)) =
  String.length (String.concat "/" a) + 1 + String.length (String.concat "/" b).
Proof.
  intros Ha Hb. induction a as [|x a IH]; [done|]. destruct a as [|y a].
  - destruct b as [|z b]; [done|]. cbn [app String.concat]. rewrite !string_app_length. simpl. lia.
  - specialize (IH ltac:(done)). cbn [app] in IH |- *. cbn [String.concat] in IH |- *.
    rewrite !string_app_length in *. cbn [String.length] in *. lia.
Qed.

(** A path that ends in a file name. *)
Definition file_path (p : Path) : Prop := ∃ d f, p = d ++ [Normal f] ∧ f ≠ "".

Lemma display_shorter a b f : a ≠ [] → f ≠ "" →
  String.length (display a) < String.length (display (a ++ b ++ [Normal f])).
Proof.
  intros Ha Hf.
  assert (0 < String.length f) by (destruct f; [done|simpl; lia]).
  assert (∀ l, l ≠ [] → String.length (String.concat "/" (FileSystem.component_text <$> l)) <
    String.length (String.concat "/" (FileSystem.component_text <$> l ++ b ++ [Normal f]))) as Hc.
  { intros l Hl. rewrite fmap_app, concat_app_length; [lia|by destruct l|by destruct b]. }
  assert (display (a ++ b ++ [Normal f]) =
          String.concat "/" (FileSystem.component_text <$> a ++ b ++ [Normal f])) as ->.
  { destruct a as [|[] [|? ?]]; try done. by destruct b. }
  destruct a as [|[] [|c a]]; [done|..]; try by apply Hc.
  cbn [app fmap list_fmap FileSystem.component_text display]. rewrite fmap_app.
  destruct b as [|c b]; cbn [app fmap list_fmap String.concat]; rewrite ?string_app_length; simpl; [lia|].
  destruct (FileSystem.component_text <$> b) as [|? ?] eqn:Hb; simpl; rewrite ?string_app_length; simpl; lia.
Qed.

Lemma display_name_inj d f g : f ≠ "" → display (d ++ [Normal (f +:+ g)]) = display (d ++ [Normal f]) → g = "".
Proof.
  intros Hf H%(f_equal String.length). assert (f +:+ g ≠ "") by by destruct f.
  assert (String.length g = 0); [|by destruct g].
  destruct d as [|c d]; [unfold display in H; simpl in H; rewrite string_app_length in H; lia|].
  assert (∀ x, x ≠ "" → String.length (display ((c :: d) ++ [Normal x])) =
    String.length (String.concat "/" (FileSystem.component_text <$> c :: d)) + 1 + String.length x) as Hx.
  { intros x Hx. assert (display ((c :: d) ++ [Normal x]) =
      String.concat "/" (FileSystem.component_text <$> (c :: d) ++ [Normal x])) as ->
      by (destruct c, d; done).
    rewrite fmap_app, concat_app_length; [simpl; lia|done|done]. }
  rewrite !Hx in H by done. rewrite string_app_length in H. lia.
Qed.

Section Saving.
Context `{HUrl : UrlCrate} `{HHost : Host} `{HS : !Serialize ConfigFile} `{HD : !Deserialize ConfigFile}.

(** The file of a configuration. *)
Definition saved (c : Config) : Entry := File CONFIG_MODE (to_json (mkConfigFile (host c) (token c))).

(** The directories that are made are not the file. *)
Lemma make_dirs_other todo done0 files files' p :
  (∀ a b, todo = a ++ b → a ≠ [] → display (done0 ++ a) ≠ p) →
  make_dirs done0 todo files = Some files' → files' !! p = files !! p.
Proof.
  revert done0 files. induction todo as [|c todo IH]; intros done0 files Hp; simpl; [by intros [= ->]|].
  assert (∀ fs, make_dirs (done0 ++ [c]) todo fs = Some files' → files' !! p = fs !! p) as Hnext.
  { intros fs. apply IH. intros a b -> Ha. rewrite <- app_assoc. by apply (Hp (c :: a) b). }
  destruct (files !! display (done0 ++ [c])) as [[]|]; [apply Hnext|done|].
  intros H%Hnext. rewrite H, lookup_insert_ne; [done|]. by apply (Hp [c] todo).
Qed.

Lemma next_fault_files w : w_files (next_fault w).2 = w_files w.
Proof. unfold next_fault. by destruct (w_faults w). Qed.

(** What a call of the file system does: it fails and changes no file, or it is
    carried out. *)
Lemma run_fs {A} (f : World → result A string * World) w :
  ∃ w1, w_files w1 = w_files w ∧
    (run (fs_call f) w = (Err os_error, w1) ∨ run (fs_call f) w = f w1).
Proof.
  exists (next_fault w).2. split; [apply next_fault_files|]. unfold fs_call. rewrite run_atomic.
  destruct (next_fault w) as [[n|] w1]; simpl; [by left|by right].
Qed.

Definition untouched (p : Path) (w w' : World) : Prop := w_files w' !! display p = w_files w !! display p.

Lemma create_dirs_untouched d f w :
  f ≠ "" → untouched (d ++ [Normal f]) w (run (create_dir_all d) w).2.
Proof.
  intros Hf. unfold create_dir_all, untouched.
  destruct (run_fs (λ w, match make_dirs [] d (w_files w) with
    | Some files => (Ok (), set_files files w) | None => (Err os_error, w) end) w) as (w1 & Hw & [->| ->]).
  { simpl. by rewrite Hw. }
  rewrite <- Hw. destruct (make_dirs [] d (w_files w1)) as [files|] eqn:Hm; [|done]. simpl.
  eapply make_dirs_other, Hm. intros a b -> Ha Heq. simpl in Heq.
  pose proof (display_shorter a b f Ha Hf) as Hl. rewrite Heq, app_assoc in Hl. lia.
Qed.

Lemma open_new_cases p m w :
  let r := run (open_new p m) w in
  (∃ e, r.1 = Err e ∧ w_files r.2 = w_files w) ∨
  (r.1 = Ok () ∧ w_files w !! display p = None ∧ w_files r.2 = <[display p := File m ""]> (w_files w)).
Proof.
  unfold open_new.
  destruct (run_fs (λ w, match w_files w !! display p with
    | Some _ => (Err os_error, w)
    | None => (Ok (), set_files (<[display p := File m ""]> (w_files w)) w) end) w) as (w1 & Hw & [->| ->]); simpl.
  { left. by eexists. }
  rewrite <- Hw. destruct (w_files w1 !! display p) eqn:E; [left; by eexists|by right].
Qed.

Lemma write_new_cases p t m w :
  w_files w !! display p = Some (File m "") →
  let r := run (write_new p t) w in
  ∃ t', w_files r.2 = <[display p := File m t']> (w_files w) ∧ (r.1 = Ok () → t' = t).
Proof.
  intros Hp. unfold write_new. rewrite run_atomic. pose proof (next_fault_files w) as Hw.
  destruct (next_fault w) as [[n|] w1]; simpl in *; rewrite Hw, Hp; simpl; rewrite ?Hw;
    (eexists; split; [done|]); done.
Qed.

Lemma rename_cases a b m c w :
  w_files w !! display a = Some (File m c) → display a ≠ display b →
  let r := run (rename a b) w in
  (∃ e, r.1 = Err e ∧ w_files r.2 = w_files w) ∨
  (r.1 = Ok () ∧ w_files r.2 !! display b = Some (File m c) ∧ w_files r.2 !! display a = None).
Proof.
  intros Ha Hab. unfold rename.
  destruct (run_fs (λ w, match w_files w !! display a, w_files w !! display b with
    | Some (File m c), (None | Some (File _ _)) =>
        (Ok (), set_files (<[display b := File m c]> (delete (display a) (w_files w))) w)
    | _, _ => (Err os_error, w) end) w) as (w1 & Hw & [->| ->]); simpl.
  { left. by eexists. }
  rewrite Hw, Ha. destruct (w_files w !! display b) as [[]|]; simpl; [left; by eexists|..];
    (right; split_and!; [done|by rewrite lookup_insert_eq|]);
    rewrite lookup_insert_ne by done; by rewrite lookup_delete_eq.
Qed.

Lemma remove_untouched a b w :
  display a ≠ display b → untouched b w (run (remove_file a) w).2.
Proof.
  intros Hab. unfold remove_file, untouched.
  destruct (run_fs (λ w, match w_files w !! display a with
    | Some (File _ _) => (Ok true, set_files (delete (display a) (w_files w)) w)
    | None => (Ok false, w)
    | Some Directory => (Err os_error, w) end) w) as (w1 & Hw & [->| ->]); simpl; [by rewrite Hw|].
  rewrite <- Hw. destruct (w_files w1 !! display a) as [[]|]; simpl; [done| |done].
  by rewrite lookup_delete_ne.
Qed.

Lemma temp_path_run d f w : f ≠ "" →
  ∃ g, g ≠ "" ∧ run (temp_path_for (d ++ [Normal f])) w =
    (d ++ [Normal (f +:+ g)], set_temp_counter (S (w_temp_counter w)) w).
Proof.
  intros Hf. exists ("." +:+ pretty process_id +:+ "." +:+ pretty (w_temp_counter w) +:+ ".tmp"). split; [done|].
  unfold temp_path_for. rewrite run_atomic. unfold parent_dir, parent. rewrite last_snoc. f_equal.
  rewrite removelast_last. destruct d as [|x d]; [done|]. unfold join. simpl. done.
Qed.

(** What a reader can see of the file at any time. *)
Definition old_or_new (p : Path) (c : Config) (w w' : World) : Prop :=
  untouched p w w' ∨ w_files w' !! display p = Some (saved c).

Definition settled (p : Path) (c : Config) (w : World) (r : result () Error * World) : Prop :=
  match r.1 with Ok _ => w_files r.2 !! display p = Some (saved c) | Err _ => untouched p w r.2 end.

Lemma write_and_rename_spec tmp p c w :
  display tmp ≠ display p → w_files w !! display tmp = Some (File CONFIG_MODE "") →
  let m := write_and_rename tmp p (to_json (mkConfigFile (host c) (token c))) in
  Forall (old_or_new p c w) (states_of m w) ∧ settled p c w (run m w).
Proof.
  intros Hne Htmp. unfold write_and_rename.
  destruct (write_new_cases tmp (to_json (mkConfigFile (host c) (token c))) _ w Htmp) as (t & Hw & Ht).
  assert (untouched p w (run (write_new tmp (to_json (mkConfigFile (host c) (token c)))) w).2) as Hu.
  { unfold untouched. rewrite Hw. by rewrite lookup_insert_ne. }
  assert (Forall (old_or_new p c w) (states_of (write_new tmp (to_json (mkConfigFile (host c) (token c)))) w)) as Hst.
  { apply states_atomic; [by left|by left]. }
  rewrite run_bind. destruct (run (write_new tmp _) w) as [r w1] eqn:Hrun. simpl in Hw, Ht, Hu.
  destruct r as [[]|e]; simpl.
  - rewrite run_or_fail. destruct (rename_cases tmp p CONFIG_MODE t w1) as [(e & He & Hf)|(He & Hf & _)].
    { by rewrite Hw, lookup_insert_eq. } { done. }
    + assert (untouched p w (run (rename tmp p) w1).2) as Hu' by (unfold untouched in *; by rewrite Hf).
      split; [|by rewrite He].
      apply states_bind; [done|]. rewrite Hrun. simpl. apply states_or_fail; [|by rewrite He|by left].
      apply states_atomic; [by left|]. by left.
    + rewrite (Ht eq_refl) in Hf. split; [|by rewrite He]. apply states_bind; [done|]. rewrite Hrun. simpl.
      apply states_or_fail; [|intros a _; apply states_ret; by right|by right].
      apply states_atomic; [by left|]. by right.
  - split; [|done]. apply states_bind; [done|]. rewrite Hrun. simpl. apply states_ret. by left.
Qed.

Lemma file_untouched_trans p w1 w2 w3 : untouched p w1 w2 → untouched p w2 w3 → untouched p w1 w3.
Proof. unfold untouched. congruence. Qed.

Lemma old_or_new_after p c w1 w2 w3 : untouched p w1 w2 → old_or_new p c w2 w3 → old_or_new p c w1 w3.
Proof. intros Hu [?|?]; [left; by eapply file_untouched_trans|by right]. Qed.

(** From the creation of the temporary file on. *)
Definition save_in (c : Config) (tmp p : Path) : command (result () Error) :=
  do? open_new tmp CONFIG_MODE
    map_err (λ e, ErrConfig ("cannot create temp file " +:+ display tmp +:+ ": " +:+ e)) in
  let* r := write_and_rename tmp p (to_json (mkConfigFile (host c) (token c))) in
  match r with
  | Ok _ => Ret (Ok ())
  | Err err =>
      let* removed := remove_file tmp in
      do* match removed with
          | Ok _ => Ret ()
          | Err e => eprintln ("warning: failed to clean up temp file " +:+ display tmp +:+ ": " +:+ e)
          end in
      Ret (Err err)
  end.

Lemma save_in_spec tmp p c w :
  display tmp ≠ display p →
  Forall (old_or_new p c w) (states_of (save_in c tmp p) w) ∧ settled p c w (run (save_in c tmp p) w).
Proof.
  intros Hne. unfold save_in. rewrite run_or_fail.
  assert (untouched p w (run (open_new tmp CONFIG_MODE) w).2) as Hu.
  { destruct (open_new_cases tmp CONFIG_MODE w) as [(e & _ & Hf)|(_ & _ & Hf)]; unfold untouched; rewrite Hf; [done|].
    by rewrite lookup_insert_ne. }
  assert (Forall (old_or_new p c w) (states_of (open_new tmp CONFIG_MODE) w)) as Hst
    by (apply states_atomic; by left).
  destruct (open_new_cases tmp CONFIG_MODE w) as [(e & He & _)|(He & _ & Hf)].
  { rewrite He. split; [|done]. apply states_or_fail; [done|by rewrite He|by left]. }
  rewrite He. set (w1 := (run (open_new tmp CONFIG_MODE) w).2) in *.
  destruct (write_and_rename_spec tmp p c w1 Hne) as [Hs1 Hr1]; [by rewrite Hf, lookup_insert_eq|].
  set (m := write_and_rename tmp p _) in *.
  assert (Forall (old_or_new p c w) (states_of m w1)) as Hs2.
  { eapply Forall_impl; [exact Hs1|]. intros w'. by apply old_or_new_after. }
  rewrite run_bind. split.
  - apply states_or_fail; [done| |by left]. intros [] _. apply states_bind; [done|]. fold w1.
    unfold settled in Hr1. destruct (run m w1) as [[[]|err] w2]; simpl in *; [apply states_ret; by right|].
    assert (untouched p w w2) by by eapply file_untouched_trans.
    assert (untouched p w (run (remove_file tmp) w2).2) by by eapply file_untouched_trans, remove_untouched.
    apply states_bind; [apply states_atomic; by left|].
    destruct (run (remove_file tmp) w2) as [[[]|e] w3]; simpl in *; (apply states_bind; [|apply states_ret; by left]);
      [apply states_ret; by left..|]. apply states_atomic; by left.
  - unfold settled in *. destruct (run m w1) as [[[]|err] w2]; simpl in *; [done|].
    assert (untouched p w (run (remove_file tmp) w2).2)
      by (eapply file_untouched_trans, remove_untouched, Hne; by eapply file_untouched_trans).
    rewrite run_bind. destruct (run (remove_file tmp) w2) as [[[]|e] w3]; simpl in *; done.
Qed.

Lemma save_spec w c d f : f ≠ "" →
  let path := d ++ [Normal f] in
  Forall (old_or_new path c w) (states_of (save c path) w) ∧ settled path c w (run (save c path) w).
Proof.
  intros Hf. set (path := d ++ [Normal f]). cbv zeta.
  assert (∀ w1, untouched path w w1 →
    let m := (let* tmp_path := temp_path_for path in save_in c tmp_path path) in
    Forall (old_or_new path c w) (states_of m w1) ∧ settled path c w (run m w1)) as Hrest.
  { intros w1 Hu. cbv zeta. destruct (temp_path_run d f w1 Hf) as (g & Hg & Ht).
    destruct (save_in_spec (d ++ [Normal (f +:+ g)]) path c (set_temp_counter (S (w_temp_counter w1)) w1))
      as [Hs Hr]; [intros H; by apply Hg, (display_name_inj d f)|].
    fold path in Ht. rewrite run_bind. split.
    - apply states_bind; rewrite ?Ht; simpl.
      + apply states_atomic; [by left|]. left. change (untouched path w (run (temp_path_for path) w1).2).
        by rewrite Ht.
      + eapply Forall_impl; [exact Hs|]. intros w'. by apply old_or_new_after.
    - rewrite Ht. simpl. unfold settled in *. destruct (run (save_in c _ path) _) as [[[]|e] w2]; simpl in *; [done|].
      by eapply file_untouched_trans. }
  change (save c path) with (or_fail
    match parent_dir path with
    | Some d => or_fail (create_dir_all d)
                  (λ e, ErrConfig ("cannot create directory " +:+ display d +:+ ": " +:+ e)) (λ _, Ret (Ok ()))
    | None => Ret (Ok ())
    end id (λ _ : (), let* tmp_path := temp_path_for path in save_in c tmp_path path)).
  set (mk := match parent_dir path with Some _ => _ | None => _ end).
  assert (Forall (old_or_new path c w) (states_of mk w) ∧ untouched path w (run mk w).2) as [Hs Hu].
  { unfold mk, parent_dir, parent, path. rewrite last_snoc. rewrite removelast_last.
    destruct d as [|x d]; [split; [apply states_ret; by left|done]|].
    pose proof (create_dirs_untouched (x :: d) f w Hf) as Hd. rewrite run_or_fail. split.
    - apply states_or_fail; [apply states_atomic; by left|intros [] _; apply states_ret; by left|by left].
    - by destruct (run (create_dir_all (x :: d)) w) as [[[]|e] w1]. }
  rewrite run_or_fail. destruct (Hrest _ Hu) as [Hs' Hr']. split.
  - apply states_or_fail; [done|by intros [] _|by left].
  - by destruct (run mk w) as [[[]|e] w1].
Qed.

(** C11: Saving the configuration replaces the file in one step. Whichever calls of
    the file system fail, and however much of the text a failing write writes,
    at every moment the file is what it was before or the complete new file,
    readable by its owner only; it is the new one if saving succeeds, and what it
    was before if saving fails. *)
Theorem save_atomic (w : World) (c : Config) (d : Path) (f : string) (Hf : f ≠ "") :
  let path := d ++ [Normal f] in
  let before := w_files w !! display path in
  let new := Some (File 384 (to_json (mkConfigFile (host c) (token c)))) in
  Forall (λ w', w_files w' !! display path = before ∨ w_files w' !! display path = new)
    (states_of (save c path) w) ∧
  match run (save c path) w with
  | (Ok _, w') => w_files w' !! display path = new
  | (Err _, w') => w_files w' !! display path = before
  end.
Proof.
  destruct (save_spec w c d f Hf) as [H1 H2]. split; [exact H1|]. unfold settled in H2.
  by destruct (run (save c (d ++ [Normal f])) w) as [[[]|e] w'].
Qed.
End Saving.

(** ** Logging in *)

Section LoggingIn.
Context `{HUrl : UrlCrate} `{HHttp : !HttpCrate} `{HJson : JsonValue} `{HHost : Host} `{HB64 : Base64}
  `{HCodecs : !Codecs}.

(** What a command leaves alone until the configuration is saved: the file and
    the input. *)
Definition same_files (w w' : World) : Prop := w_files w' = w_files w.

Lemma debug_same c l w :
  let w' := (run (debug_line c l) w).2 in
  w_files w' = w_files w ∧ w_stdin w' = w_stdin w ∧ w_sent w' = w_sent w.
Proof. unfold debug_line. by destruct (cl_debug c). Qed.

Lemma exchange_run c m p b w :
  let r := run (exchange c m p b) w in
  w_files r.2 = w_files w ∧ w_stdin r.2 = w_stdin w ∧
  match r.1 with
  | Ok resp => ∃ req, w_sent r.2 = w_sent w ++ [req] ∧ hr_authorization req = cl_authorization c ∧
                 answer (w_sent r.2) = Ok resp ∧ is_success (hp_status resp) = true
  | Err _ => True
  end.
Proof.
  unfold exchange, request_builder. rewrite run_or_fail.
  destruct (url_join (base_url c) p) as [u|e]; [|done]. rewrite run_bind.
  destruct (debug_same c (method_text m +:+ " " +:+ url_text u) w) as (H1 & H2 & H3).
  destruct (run (debug_line c _) w) as [[] w1]. simpl in H1, H2, H3. rewrite run_ret. cbn [fst snd].
  rewrite run_or_fail. unfold send. rewrite run_atomic. cbn [fst snd].
  set (sent := (w_sent w1 ++ [request_of c m u b])%list). destruct (answer sent) as [resp|e] eqn:Ha; [|done].
  rewrite run_bind. destruct (debug_same c ("  -> " +:+ status_text (hp_status resp)) (set_sent sent w1)) as (H4 & H5 & H6).
  destruct (run (debug_line c _) (set_sent sent w1)) as [[] w2]. simpl in H4, H5, H6.
  cbn [fst snd]. destruct (is_success (hp_status resp)) eqn:Hs; cbv iota; rewrite run_ret; cbn [fst snd]; (split; [congruence|]);
    (split; [congruence|]); [|done].
  exists (request_of c m u b). rewrite H6, <- H3. by split_and!.
Qed.

Lemma request_run {T} `{!Deserialize T} c m p b w :
  let r := run (request (T := T) c m p b) w in
  w_files r.2 = w_files w ∧ w_stdin r.2 = w_stdin w ∧
  match r.1 with
  | Ok _ => ∃ req resp, w_sent r.2 = w_sent w ++ [req] ∧ hr_authorization req = cl_authorization c ∧
              answer (w_sent r.2) = Ok resp ∧ is_success (hp_status resp) = true
  | Err _ => True
  end.
Proof.
  unfold request. rewrite run_or_fail. pose proof (exchange_run c m p b w) as (H1 & H2 & H3).
  destruct (run (exchange c m p b) w) as [[resp|e] w1]; simpl in *; [|done].
  split; [done|]. split; [done|]. destruct H3 as (req & H3). destruct (match _ with Ok _ => _ | Err _ => _ end); [|done].
  by exists req, resp.
Qed.

Lemma client_authorization h t o c : client_new h t o = Ok c →
  ∃ value, header_value ("Bearer " +:+ t) = Ok value ∧ cl_authorization c = Some value.
Proof.
  unfold client_new, build_client. destruct (parse_base_url _ _); [|done].
  destruct (header_value _) as [v|]; [|done]. destruct (client_build _); [|done]. intros [= <-]. by exists v.
Qed.

(** Printing changes neither the files nor what was sent or is to be read. *)
Lemma run_eprint t w :
  let w' := (run (eprint t) w).2 in
  w_files w' = w_files w ∧ w_stdin w' = w_stdin w ∧ w_sent w' = w_sent w ∧ w_faults w' = w_faults w.
Proof. done. Qed.

(** The end of a login: the token is known, and the server is asked. *)
Definition finish_login (url token : string) (path : Path) (client : CbcClient) : command (result () Exit) :=
  let? whoami := http_get (T := Value) client "auth/whoami"
    map_err (λ _, Failed (ErrConfig "invalid token")) in
  let email := default "unknown" (v ← value_get whoami "email"; as_str v) in
  do? save (mkConfig url token) path map_err Failed in
  do* eprintln ("logged in as " +:+ email) in
  do* eprintln ("config saved to " +:+ display path) in
  Ret (Ok ()).

(** What a login with the token has done when it succeeds. *)
Record logged_in (w' : World) (url token : string) (path : Path) : Prop := mkLoggedIn {
  li_sent : ∃ value req resp, header_value ("Bearer " +:+ token) = Ok value ∧
    last (w_sent w') = Some req ∧ hr_authorization req = Some value ∧
    answer (w_sent w') = Ok resp ∧ is_success (hp_status resp) = true;
  li_saved : w_files w' !! display path = Some (saved (mkConfig url token))
}.

Lemma load_saved w c d f :
  (∀ c : ConfigFile, of_json (to_json c) = Ok c ∧ valid_utf8 (to_json c) = true) →
  w_files w !! display (d ++ [Normal f]) = Some (saved c) → w_faults w = [] →
  run (load (Some (d ++ [Normal f]))) w = (Ok c, w).
Proof.
  intros Hj Hp Hw. unfold load. rewrite run_or_fail, run_ret. cbn [fst snd resolve_path]. rewrite run_or_fail.
  unfold read_to_string, fs_call. rewrite run_atomic. unfold next_fault. rewrite Hw, Hp. unfold saved.
  destruct (Hj (mkConfigFile (host c) (token c))) as [H1 ->]. cbn [fst snd]. rewrite H1. by destruct c.
Qed.

Lemma save_sent c p w :
  w_sent (run (save c p) w).2 = w_sent w.
Proof.
  assert (∀ sent, keeps (λ w, w_sent w = sent) (save c p)) as Hk; [|by apply Hk].
  intros sent. unfold save, write_and_rename.
  assert (∀ A (f : World → result A string * World), (∀ w, w_sent (f w).2 = w_sent w) →
    keeps (λ w, w_sent w = sent) (fs_call f)) as Hfs.
  { intros A f Hf. apply keeps_atomic. intros w1 <-. unfold next_fault.
    destruct (w_faults w1) as [|[n|] fs]; simpl; [by rewrite Hf|done|by rewrite Hf]. }
  repeat first
    [ apply keeps_ret | apply keeps_or_fail; [|intros ?] | apply keeps_bind; [|intros ?]
    | apply keeps_atomic; intros ? <-; done
    | apply Hfs; intros w1; repeat case_match; done
    | match goal with |- keeps _ (match ?x with _ => _ end) => destruct x end ].
  apply keeps_atomic. intros w1 <-. unfold next_fault. destruct (w_faults w1) as [|[n|] fs]; simpl;
    by destruct (w_files w1 !! _) as [[]|].
Qed.

Lemma finish_login_spec w url token o client d f :
  f ≠ "" → client_new url token o = Ok client →
  match run (finish_login url token (d ++ [Normal f]) client) w with
  | (Ok _, w') => logged_in w' url token (d ++ [Normal f])
  | (Err _, w') => untouched (d ++ [Normal f]) w w'
  end.
Proof.
  intros Hf Hc. unfold finish_login. rewrite run_or_fail.
  pose proof (request_run (T := Value) client GET "auth/whoami" None w) as (H1 & _ & H3). unfold http_get.
  destruct (run (request client GET "auth/whoami" None) w) as [[whoami|e] w1]; cbn [fst snd] in *;
    [|unfold untouched; by rewrite H1].
  destruct H3 as (req & resp & Hsent & Hauth & Hans & Hok). rewrite run_or_fail.
  destruct (save_spec w1 (mkConfig url token) d f Hf) as [_ Hsave]. unfold settled in Hsave.
  pose proof (save_sent (mkConfig url token) (d ++ [Normal f]) w1) as Hs.
  destruct (run (save (mkConfig url token) (d ++ [Normal f])) w1) as [[[]|e] w2]; cbn [fst snd] in *.
  - rewrite run_bind. simpl. split; [|exact Hsave].
    destruct (client_authorization _ _ _ _ Hc) as (value & Hv & Ha). exists value, req, resp. simpl.
    rewrite Hs, Hsent, last_snoc, <- Hsent. split_and!; congruence.
  - unfold untouched in *. by rewrite Hsave, H1.
Qed.

(** C12: A login that succeeds has read a token from the input, has sent it to the
    server as the bearer of its last request, which the server answered with
    success, and has saved it with the URL, for its owner only: the commands that
    follow load exactly this configuration. A login that fails leaves the
    configuration as it was. *)
Theorem login_saves_token (w : World) (o : ClientOpts) (url line : string) (rest : list string) (d : Path) (f : string)
    (Hf : f ≠ "") (Hin : w_stdin w = line :: rest)
    (Hjson : ∀ c : ConfigFile, of_json (to_json c) = Ok c ∧ valid_utf8 (to_json c) = true) :
  let path := d ++ [Normal f] in
  match run (cmd_login url (Some path) o) w with
  | (Ok _, w') =>
      ∃ token value req resp,
        decode_token line = Ok token ∧ header_value ("Bearer " +:+ token) = Ok value ∧
        last (w_sent w') = Some req ∧ hr_authorization req = Some value ∧
        answer (w_sent w') = Ok resp ∧ is_success (hp_status resp) = true ∧
        w_files w' !! display path = Some (File 384 (to_json (mkConfigFile url token))) ∧
        (w_faults w' = [] → run (load (Some path)) w' = (Ok (mkConfig url token), w'))
  | (Err _, w') => w_files w' !! display path = w_files w !! display path
  end.
Proof.
  intros path. unfold cmd_login. rewrite run_or_fail, run_ret. cbn [fst snd].
  destruct (unauthenticated url o) as [c0|e]; [|done]. rewrite run_or_fail.
  pose proof (request_run (T := Value) c0 GET "health" None w) as (H1 & H2 & _).
  change (http_get (T := Value) c0 "health") with (request (T := Value) c0 GET "health" None).
  destruct (run (request c0 GET "health" None) w) as [[health|e] w1]; cbn [fst snd] in *; [|by rewrite H1].
  cbv zeta. rewrite run_bind. cbn [fst snd]. rewrite run_bind. cbn [fst snd].
  set (w2 := (run (eprint "Paste the token here: ") _).2).
  assert (w_files w2 = w_files w ∧ w_stdin w2 = line :: rest) as [H3 H4] by (simpl; split; congruence).
  rewrite run_or_fail. unfold fs_call at 1 2 3. rewrite run_atomic.
  assert (w_files (next_fault w2).2 = w_files w ∧ w_stdin (next_fault w2).2 = line :: rest) as [H5 H6].
  { unfold next_fault. by destruct (w_faults w2). }
  destruct (next_fault w2) as [[n|] w3]; cbn [fst snd] in *; [by rewrite H5|].
  rewrite run_or_fail. unfold read_line, fs_call. rewrite run_atomic.
  assert (w_files (next_fault w3).2 = w_files w ∧ w_stdin (next_fault w3).2 = line :: rest) as [H7 H8].
  { unfold next_fault. by destruct (w_faults w3). }
  destruct (next_fault w3) as [[n|] w4]; cbn [fst snd] in *; [by rewrite H7|].
  rewrite H8. cbn [fst snd]. rewrite run_or_fail, run_ret. cbn [fst snd].
  destruct (decode_token line) as [token|e] eqn:Hdec; cbn [fst snd]; [|by simpl; rewrite H7].
  rewrite run_or_fail, run_ret. cbn [fst snd].
  destruct (client_new url token o) as [client|e] eqn:Hc; cbn [fst snd]; [|by simpl; rewrite H7].
  pose proof (finish_login_spec (set_stdin rest w4) url token o client d f Hf Hc) as Hfin.
  match goal with |- match ?r with _ => _ end =>
    change r with (run (finish_login url token path client) (set_stdin rest w4)) end.
  fold path in Hfin. destruct (run (finish_login _ _ _ _) _) as [[[]|e] w'].
  - destruct Hfin as [(value & req & resp & Hv & Hl & Ha & Hr & Hok) Hsaved].
    exists token, value, req, resp. split_and!; try done. by apply load_saved.
  - unfold untouched in Hfin. rewrite Hfin. simpl. by rewrite H7.
Qed.
End LoggingIn.
