(* ===== verification/CbcNamesSpec.v ===== *)
(** * Names of tasks and changes of tasks in the client

    The short id that a listing shows names its task, and what an update of a
    task keeps of the stored descriptor. *)

From stdpp Require Import prelude gmap strings list pretty.
From S2P Require Import Prelude Async Common FileSystem Cbc CbcBuilds CbcPeriodic Proto.

(** ** Short ids *)

(** The lengths of the components of a UUID. *)
Definition uuid_shape (id : string) : Prop :=
  String.length <$> split_on dash id = [8; 4; 4; 4; 12].

Lemma split_on_cons_ne c s : split_on c s ≠ [].
Proof. induction s as [|a s IH]; simpl; [done|]. destruct (split_on c s); [done|]. by case_match. Qed.

Lemma split_on_dash s : split_on dash (String dash s) = "" :: split_on dash s.
Proof.
  simpl. destruct (split_on dash s) eqn:E; [by apply split_on_cons_ne in E|]. done.
Qed.

Lemma split_on_other a s x xs : Ascii.eqb a dash = false → split_on dash s = x :: xs →
  split_on dash (String a s) = String a x :: xs.
Proof. intros Ha Hs. simpl. rewrite Hs. by rewrite Ha. Qed.

(** Of two ids of the same shape, the one that has the truncated form of the
    other as a prefix has the same truncated form. *)
Lemma truncate_prefix a b n :
  String.length <$> split_on dash a = String.length <$> split_on dash b →
  starts_with (truncate_components a n) b = true →
  truncate_components b n = truncate_components a n.
Proof.
  unfold starts_with. revert b n. induction a as [|c a IH]; intros b n Hs.
  { destruct b as [|d b]; [done|]. simpl in Hs. destruct (split_on dash b) eqn:E; [by apply split_on_cons_ne in E|].
    by destruct (Ascii.eqb d dash). }
  destruct (split_on dash a) as [|x xs] eqn:Ea; [by apply split_on_cons_ne in Ea|].
  destruct b as [|d b].
  { simpl in Hs. rewrite Ea in Hs. by destruct (Ascii.eqb c dash). }
  destruct (split_on dash b) as [|y ys] eqn:Eb; [by apply split_on_cons_ne in Eb|].
  destruct (Ascii.eqb c dash) eqn:Ec, (Ascii.eqb d dash) eqn:Ed.
  - apply Ascii.eqb_eq in Ec as ->, Ed as ->. rewrite !split_on_dash, Ea, Eb in Hs. injection Hs as Hx Hxs.
    simpl. destruct n as [|[|n]]; [done|done|]. intros Hp. f_equal. apply IH.
    + rewrite ?Ea, Eb. simpl. by rewrite Hx, Hxs.
    + done.
  - apply Ascii.eqb_eq in Ec as ->. rewrite split_on_dash, Ea, (split_on_other _ _ _ _ Ed Eb) in Hs. done.
  - apply Ascii.eqb_eq in Ed as ->. rewrite split_on_dash, Eb, (split_on_other _ _ _ _ Ec Ea) in Hs. done.
  - rewrite (split_on_other _ _ _ _ Ec Ea), (split_on_other _ _ _ _ Ed Eb) in Hs. injection Hs as Hx Hxs.
    simpl. rewrite Ec, Ed. simpl. destruct (Ascii.ascii_dec c d) as [<-|]; [|done]. intros Hp. f_equal. apply IH; [|done].
    rewrite ?Ea, Eb. simpl. by rewrite Hx, Hxs.
Qed.

(** A truncated id is a prefix, and the id itself once all components are kept. *)
Lemma truncate_is_prefix id n : starts_with (truncate_components id n) id = true.
Proof.
  unfold starts_with. revert n. induction id as [|c s IH]; intros n; [done|]. simpl.
  destruct (Ascii.eqb c dash); [destruct n as [|[|n]]; [done|done|]|]; simpl;
    (destruct (Ascii.ascii_dec c c); [apply IH|done]).
Qed.

Lemma truncate_all id n : length (split_on dash id) ≤ n → truncate_components id n = id.
Proof.
  revert n. induction id as [|c s IH]; intros n Hn; [done|].
  destruct (split_on dash s) as [|x xs] eqn:E; [by apply split_on_cons_ne in E|].
  destruct (Ascii.eqb c dash) eqn:Hc.
  - apply Ascii.eqb_eq in Hc as ->. rewrite split_on_dash, E in Hn. simpl in *.
    destruct n as [|[|n]]; [lia|lia|]. f_equal. apply IH. lia.
  - rewrite (split_on_other _ _ _ _ Hc E) in Hn. simpl in *. rewrite Hc. f_equal. apply IH. done.
Qed.

Lemma uuid_components id : uuid_shape id → length (split_on dash id) = 5.
Proof. intros H%(f_equal length). by rewrite length_fmap in H. Qed.

Lemma first_unique_spec ids ns :
  match first_unique ids ns with
  | Some n => ∃ before after, ns = before ++ n :: after ∧ NoDup ((λ id, truncate_components id n) <$> ids) ∧
                ∀ m, m ∈ before → ¬ NoDup ((λ id, truncate_components id m) <$> ids)
  | None => ∀ m, m ∈ ns → ¬ NoDup ((λ id, truncate_components id m) <$> ids)
  end.
Proof.
  induction ns as [|n ns IH]; cbn [first_unique]; [by intros m ?%not_elem_of_nil|].
  case_bool_decide as Hn; [exists [], ns; split_and!; [done|done|by intros m ?%not_elem_of_nil]|].
  destruct (first_unique ids ns) as [k|].
  - destruct IH as (before & after & -> & Hk & Hb). exists (n :: before), after. split_and!; [done|done|].
    intros m [->|Hm]%elem_of_cons; [done|by apply Hb].
  - intros m [->|Hm]%elem_of_cons; [done|by apply IH].
Qed.

(** The number of components that is chosen separates the ids, and no smaller
    one does. *)
Lemma min_unique_separates ids :
  NoDup ids → (∀ id, id ∈ ids → uuid_shape id) →
  let n := min_unique_components ids in
  NoDup ((λ id, truncate_components id n) <$> ids) ∧
  ∀ m, 1 ≤ m → m < n → ¬ NoDup ((λ id, truncate_components id m) <$> ids).
Proof.
  intros Hn Hs.
  assert (NoDup ((λ id, truncate_components id 5) <$> ids)) as H5.
  { rewrite (list_fmap_ext _ id ids); [by rewrite list_fmap_id|]. intros i x Hx%list_elem_of_lookup_2.
    change (truncate_components x 5 = x). apply truncate_all. by rewrite (uuid_components x (Hs x Hx)). }
  unfold min_unique_components. pose proof (first_unique_spec ids [1; 2; 3; 4; 5]) as Hf.
  destruct (first_unique ids [1; 2; 3; 4; 5]) as [n|]; [|by destruct (Hf 5); [set_solver|]].
  destruct Hf as (before & after & Hb & Hnd & Hm). split; [done|]. intros m H1 H2. apply Hm.
  do 5 (try (destruct before as [|? before]; [|cbn [app] in Hb; injection Hb as <- Hb])).
  all: try (apply (f_equal length) in Hb; rewrite length_app in Hb; simpl in Hb; lia).
  all: cbn [app] in Hb; injection Hb as <- _.
  all: simpl in H2; destruct m as [|[|[|[|[|m]]]]]; first [lia|set_solver].
Qed.

(** C13: The id that the listing of the tasks shows for a task, cut to as few
    components as keep the ids apart, is accepted by the other commands as the
    name of exactly that task; with fewer components two tasks would be shown
    under the same id. *)
Theorem listed_id_resolves (tasks : list PeriodicListItem) (t : PeriodicListItem)
    (Hids : NoDup (li_id <$> tasks)) (Hshape : ∀ x, x ∈ tasks → uuid_shape (li_id x)) (Ht : t ∈ tasks) :
  let n := min_unique_components (li_id <$> tasks) in
  resolve_from_fetch (Ok tasks) (truncate_components (li_id t) n) = Ok (li_id t) ∧
  ∀ m, 1 ≤ m → m < n → ∃ x y, x ∈ tasks ∧ y ∈ tasks ∧ li_id x ≠ li_id y ∧
    truncate_components (li_id x) m = truncate_components (li_id y) m.
Proof.
  intros n.
  destruct (min_unique_separates (li_id <$> tasks)) as [Hn Hmin]; [done|by intros id (x & -> & Hx)%list_elem_of_fmap; apply Hshape|].
  fold n in Hn, Hmin. split.
  - apply list_elem_of_split in Ht as (l1 & l2 & ->). simpl.
    assert (∀ x, x ∈ l1 ++ l2 → starts_with (truncate_components (li_id t) n) (li_id x) = false) as Hother.
    { intros x Hx. apply not_true_is_false. intros Hp. apply truncate_prefix in Hp.
      - rewrite <- list_fmap_compose, fmap_app, fmap_cons in Hn. apply NoDup_app in Hn as (_ & H1 & [H2 _]%NoDup_cons).
        apply elem_of_app in Hx as [Hx|Hx].
        + apply (H1 (truncate_components (li_id x) n)); [apply list_elem_of_fmap; by exists x|]. rewrite Hp. by left.
        + apply H2. apply list_elem_of_fmap. by exists x.
      - rewrite (Hshape t), (Hshape x); [done|..]; rewrite ?elem_of_app, ?elem_of_cons in *; naive_solver. }
    assert (List.filter (λ x, starts_with (truncate_components (li_id t) n) (li_id x)) (l1 ++ t :: l2) = [t]) as ->; [|done].
    rewrite List.filter_app. simpl. rewrite truncate_is_prefix.
    assert (∀ l, (∀ x, x ∈ l → x ∈ l1 ++ l2) →
      List.filter (λ x, starts_with (truncate_components (li_id t) n) (li_id x)) l = []) as Hnil.
    { induction l as [|x l IH]; [done|]. intros Hl. simpl. rewrite Hother by (apply Hl; by left).
      apply IH. intros y Hy. apply Hl. by right. }
    rewrite !Hnil; [done|..]; intros x Hx; rewrite elem_of_app; auto.
  - intros m H1 H2. destruct (decide (NoDup ((λ id, truncate_components id m) <$> (li_id <$> tasks)))) as [|Hd]; [by edestruct Hmin|].
    clear -Hids Hd. induction tasks as [|x l IH]; [by destruct Hd; constructor|].
    rewrite fmap_cons in Hids. apply NoDup_cons in Hids as [Hx Hl].
    destruct (decide (truncate_components (li_id x) m ∈ (λ id, truncate_components id m) <$> (li_id <$> l))) as [Hin|Hin].
    + rewrite <- list_fmap_compose in Hin. apply list_elem_of_fmap in Hin as (y & Heq & Hy). exists x, y. split_and!; [by left|by right| |done].
      intros He. apply Hx. rewrite He. apply list_elem_of_fmap. by exists y.
    + destruct IH as (a & b & ? & ? & ?); [done| |exists a, b; split_and!; [by right|by right|naive_solver..]].
      intros Hnd. apply Hd. rewrite !fmap_cons. by constructor.
Qed.

(** ** Changes of tasks *)

Lemma split_once_app c s t : split_once c s = None → split_once c (s +:+ String c t) = Some (s, t).
Proof.
  induction s as [|a s IH]; simpl; [by rewrite Ascii.eqb_refl|].
  destruct (Ascii.eqb a c); [done|]. destruct (split_once c s); [done|]. intros _. by rewrite IH.
Qed.

(** What an update keeps of a component: its name and its reference. *)
Definition without_repo (c : BuildComponent) : BuildComponent := mkComponent (bc_name c) (bc_git_ref c) None.

Lemma parse_displayed_components cs :
  Forall (λ c, split_once at_sign (bc_name c) = None) cs →
  parse_components (component_display <$> cs) = Ok (without_repo <$> cs).
Proof.
  intros H. unfold parse_components. induction H as [|c cs Hc _ IH]; [done|]. cbn [fmap list_fmap collect].
  change (component_display c) with (bc_name c +:+ String at_sign (bc_git_ref c)).
  rewrite (split_once_app _ _ _ Hc), IH. done.
Qed.

Section Updates.
Context `{HJson : JsonValue}.

(** The JSON value holds the descriptor as serde writes it. *)
Record json_of (v : Value) (d : BuildDescriptor) : Prop := {
  json_version : str_of v "version" = Some (bd_version d);
  json_channel : str_of v "channel" = bd_channel d;
  json_version_type : str_of v "version_type" = version_type_to_string <$> bd_version_type d;
  json_image_name : nested v "dst_image" "name" = Some (di_name (bd_dst_image d));
  json_image_tag : nested v "dst_image" "tag" = Some (di_tag (bd_dst_image d));
  json_components : stored_components v = Some (component_display <$> bd_components d);
  json_distro : nested v "build" "distro" = Some (bt_distro (bd_build d));
  json_os_version : nested v "build" "os_version" = Some (bt_os_version (bd_build d));
  json_arch : nested v "build" "arch" = Some (arch_to_string (bt_arch (bd_build d)))
}.

Lemma parse_stored_version_type o :
  transpose parse_version_type (version_type_to_string <$> o) = Ok o.
Proof. by destruct o as [[]|]. Qed.

Lemma parse_stored_arch x : parse_arch (arch_to_string x) = Ok x.
Proof. by destruct x. Qed.

(** An update of a task that touches its descriptor, but neither names its
    components nor gives repositories, sends back the stored descriptor with the
    given fields, signed by who makes the update - and with every component's
    repository removed and the artifact type set to rpm, although no option
    asked for either. *)
Theorem update_drops_repositories (a : PeriodicUpdateArgs) (stored : Value) (d : BuildDescriptor)
    (whoami : WhoamiResponse) (Hstored : json_of stored d)
    (Hnames : Forall (λ c, split_once at_sign (bc_name c) = None) (bd_components d))
    (Hc : pu_components a = None) (Hr : pu_repo_override a = None)
    (Ht : pu_version_type a = None) (Ha : pu_arch a = None) :
  ∃ d', merged_descriptor a stored whoami = Ok d' ∧
    bd_version d' = default (bd_version d) (pu_version a) ∧
    bd_channel d' = (let c := default (default "" (bd_channel d)) (pu_channel a) in
                     if bool_decide (c = "") then None else Some c) ∧
    bd_version_type d' = bd_version_type d ∧
    bd_signed_off_by d' = mkSignedOffBy (wh_name whoami) (wh_email whoami) ∧
    bd_dst_image d' = mkDestImage (default (di_name (bd_dst_image d)) (pu_image_name a))
                                  (default (di_tag (bd_dst_image d)) (pu_image_tag a)) ∧
    bd_components d' = (λ c, mkComponent (bc_name c) (bc_git_ref c) None) <$> bd_components d ∧
    bd_build d' = mkTarget (default (bt_distro (bd_build d)) (pu_distro a))
                           (default (bt_os_version (bd_build d)) (pu_os_version a))
                           "rpm" (bt_arch (bd_build d)).
Proof.
  unfold merged_descriptor. rewrite Hc, Hr, Ht, Ha.
  rewrite (json_version _ _ Hstored), (json_channel _ _ Hstored), (json_version_type _ _ Hstored).
  rewrite (json_image_name _ _ Hstored), (json_image_tag _ _ Hstored), (json_components _ _ Hstored).
  rewrite (json_distro _ _ Hstored), (json_os_version _ _ Hstored), (json_arch _ _ Hstored).
  cbv zeta. cbn [from_option]. unfold id. rewrite parse_stored_version_type, parse_stored_arch.
  rewrite (parse_displayed_components _ Hnames). cbn [apply_repo_overrides].
  eexists. split; [done|]. simpl. split_and!; done.
Qed.
End Updates.
