(* ===== verification/CbcWitnesses.v ===== *)
(** * Concrete clients

    Instances of the third-party code of the client (URLs, HTTP, JSON values,
    dates) and runs of commands that satisfy the hypotheses of the theorems on
    the client. *)

From stdpp Require Import prelude countable gmap strings list pretty.
From S2P Require Import Prelude Async Common FileSystem Cbc CbcBuilds CbcPeriodic CbcMain.
From S2P Require Import CbcSpec CbcConfigSpec CbcNamesSpec Proto.
From S2P Require CbcLogs.

(** ** URLs: scheme, authority and path *)

Record SampleUrl := mkUrl { su_scheme : string; su_authority : string; su_path : string }.

Definition slash_char : Ascii.ascii := Ascii.ascii_of_nat 47.

Definition split_path (s : string) : string * string :=
  match split_once slash_char s with Some (a, p) => (a, "/" +:+ p) | None => (s, "/") end.

Definition sample_parse (s : string) : result SampleUrl string :=
  match strip_prefix "https://" s, strip_prefix "http://" s with
  | Some r, _ => Ok (mkUrl "https" (split_path r).1 (split_path r).2)
  | None, Some r => Ok (mkUrl "http" (split_path r).1 (split_path r).2)
  | None, None => Err "relative URL without a base"
  end.

#[export] Instance sample_urls : UrlCrate := {|
  Url := SampleUrl;
  url_parse := sample_parse;
  url_scheme := su_scheme;
  url_path := su_path;
  url_set_path p u := mkUrl (su_scheme u) (su_authority u) p;
  url_join u p := Ok (mkUrl (su_scheme u) (su_authority u) (su_path u +:+ p));
  url_text u := su_scheme u +:+ "://" +:+ su_authority u +:+ su_path u
|}.

(** A server that answers every request with success and its path, the host
    [moved] by way of a redirect to http, which is another port and so loses the
    authorization. *)
#[export] Instance sample_http : HttpCrate := {|
  header_value s := Ok s;
  client_build _ := Ok ();
  status_text n := pretty n;
  redirects sent :=
    match last sent with
    | Some r =>
        if bool_decide (su_authority (hr_url r) = "moved" ∧ su_scheme (hr_url r) = "https")
        then [@mkRequest sample_urls (hr_method r) (mkUrl "http" "moved" (su_path (hr_url r)))
                None (hr_check_certs r) (hr_body r)]
        else []
    | None => []
    end;
  answer sent :=
    match last sent with
    | Some r => Ok (mkResponse 200 [url_path (hr_url r)] None)
    | None => Err "no request"
    end
|}.

(** ** JSON values *)

Inductive Json :=
| JNull
| JBool (b : bool)
| JInt (n : Z)
| JStr (s : string)
| JArr (l : list Json)
| JObj (fields : list (string * Json)).

Definition json_get (v : Json) (key : string) : option Json :=
  match v with
  | JObj fields => snd <$> List.find (λ f, bool_decide (f.1 = key)) fields
  | _ => None
  end.

#[export] Instance client_json : JsonValue := {|
  Value := Json;
  value_string := JStr;
  is_object v := match v with JObj _ => true | _ => false end;
  value_get := json_get;
  as_array v := match v with JArr l => Some l | _ => None end;
  as_str v := match v with JStr s => Some s | _ => None end;
  value_to_string v := match v with JStr s => s | _ => "null" end;
  value_from_str s := None;
  descriptor_from_value _ := Err "unused"
|}.

(** A descriptor as serde writes it. *)
Definition json_option (o : option string) : Json := match o with Some s => JStr s | None => JNull end.

Definition component_json (c : BuildComponent) : Json :=
  JObj [("name", JStr (bc_name c)); ("ref", JStr (bc_git_ref c)); ("repo", json_option (bc_repo c))].

Definition descriptor_json (d : BuildDescriptor) : Json :=
  JObj [("version", JStr (bd_version d)); ("channel", json_option (bd_channel d));
    ("version_type", json_option (version_type_to_string <$> bd_version_type d));
    ("signed_off_by", JObj [("user", JStr (so_user (bd_signed_off_by d)));
                            ("email", JStr (so_email (bd_signed_off_by d)))]);
    ("dst_image", JObj [("name", JStr (di_name (bd_dst_image d))); ("tag", JStr (di_tag (bd_dst_image d)))]);
    ("components", JArr (component_json <$> bd_components d));
    ("build", JObj [("distro", JStr (bt_distro (bd_build d))); ("os_version", JStr (bt_os_version (bd_build d)));
                    ("artifact_type", JStr (bt_artifact_type (bd_build d)));
                    ("arch", JStr (arch_to_string (bt_arch (bd_build d))))])].

#[export] Instance client_json_more : JsonMore := {|
  value_null := JNull;
  value_int := JInt;
  value_object := JObj;
  as_bool v := match v with JBool b => Some b | _ => None end;
  descriptor_to_value d := Ok (descriptor_json d)
|}.

(** ** The configuration as text: an injection of pairs of strings in digits *)

Fixpoint digits (p : positive) : string :=
  match p with
  | xH => ""
  | xO p => String (Ascii.ascii_of_nat 48) (digits p)
  | xI p => String (Ascii.ascii_of_nat 49) (digits p)
  end.

Fixpoint of_digits (s : string) : positive :=
  match s with
  | EmptyString => xH
  | String c s => if Ascii.eqb c (Ascii.ascii_of_nat 48) then xO (of_digits s) else xI (of_digits s)
  end.

Lemma of_digits_digits p : of_digits (digits p) = p.
Proof. by induction p as [p IH|p IH|]; simpl; rewrite ?IH. Qed.

Lemma digits_valid p : valid_utf8 (digits p) = true.
Proof.
  apply bool_decide_eq_true. induction p as [p IH|p IH|]; [| |done]; simpl; by rewrite IH.
Qed.

Definition config_to_text (c : ConfigFile) : string := digits (encode (cf_host c, cf_token c)).
Definition config_of_text (s : string) : result ConfigFile string :=
  match decode (of_digits s) with
  | Some (h, t) => Ok (mkConfigFile h t)
  | None => Err "invalid config"
  end.

Lemma config_text_roundtrip c : config_of_text (config_to_text c) = Ok c.
Proof. unfold config_of_text, config_to_text. rewrite of_digits_digits, decode_encode. by destruct c. Qed.

(** ** The rest of the outside *)

#[export] Instance sample_host : Host := {|
  dirs_config_dir := Some [RootDir; FileSystem.Normal "home"]; process_id := 42; os_error := "os error"
|}.

#[export] Instance sample_client_chrono : ClientChrono := {| format_time _ _ := None; is_iso_date _ := true |}.

#[export] Instance sample_base64 : Base64 := {| base64url_decode := Ok |}.

#[export] Instance sample_events : CbcLogs.EventSourceCrate := {|
  CbcLogs.event_source _ := Ok []; CbcLogs.one_decimal a b := pretty (a / b)%Z
|}.

#[export] Instance sample_codecs : Codecs := {|
  config_file_to_json := config_to_text;
  config_file_of_json := config_of_text;
  value_of_json := λ s, Ok (JStr s);
  main_whoami_of_json := λ s, Ok (mkWhoamiResponse s s [] []);
  simple_of_json := λ s, Ok (mkSimple (Some s));
  detail_of_json := λ _, Err "unused";
  descriptor_of_text := λ _, Err "unused";
  whoami_of_json := λ _, Err "unused";
  submit_to_json := λ _, "{}";
  submit_of_json := λ _, Err "unused";
  build_of_json := λ _, Err "unused";
  builds_of_json := λ _, Err "unused";
  revoke_of_json := λ _, Err "unused";
  components_of_json := λ _, Err "unused";
  tail_of_json := λ _, Err "unused";
  state_of_json := λ _, Err "unused";
  tasks_of_json := λ _, Err "unused";
  task_of_json := λ _, Err "unused";
  task_detail_of_json := λ _, Err "unused";
  triggered_of_json := λ _, Err "unused";
  create_task_to_json := λ _, "{}";
  trigger_to_json := λ _, "{}";
  workers_of_json := λ _, Err "unused";
  registered_of_json := λ _, Err "unused";
  register_to_json := λ _, "{}";
  deregistered_of_json := λ _, Err "unused";
  channels_of_json := λ _, Err "unused";
  channel_of_json := λ _, Err "unused";
  type_of_json := λ _, Err "unused";
  queue_of_json := λ _, Err "unused";
  create_channel_to_json := λ _, "{}";
  update_channel_to_json := λ _, "{}";
  add_type_to_json := λ _, "{}";
  update_type_to_json := λ _, "{}";
  default_type_to_json := λ _, "{}";
  default_channel_to_json := λ _, "{}";
  roles_of_json := λ _, Err "unused";
  role_of_json := λ _, Err "unused";
  user_role_of_json := λ _, Err "unused";
  create_role_to_json := λ _, "{}";
  update_role_to_json := λ _, "{}";
  users_of_json := λ _, Err "unused";
  user_of_json := λ _, Err "unused";
  deactivated_of_json := λ _, Err "unused";
  create_user_to_json := λ _, "{}";
  replace_roles_to_json := λ _, "{}";
  add_role_to_json := λ _, "{}";
  robots_of_json := λ _, Err "unused";
  robot_of_json := λ _, Err "unused";
  created_robot_of_json := λ _, Err "unused";
  rotated_of_json := λ _, Err "unused";
  create_robot_to_json := λ _, "{}";
  description_to_json := λ _, "{}";
  rotate_to_json := λ _, "{}";
  robot_channel_to_json := λ _, "{}"
|}.

(** ** Runs *)

Definition config_path : Path := [RootDir; FileSystem.Normal "home"; FileSystem.Normal "config.json"].

(** A client that has logged in to a server over http. *)
Definition client_world : World :=
  mkWorld _ {[ "/home/config.json" := File CONFIG_MODE (config_to_text (mkConfigFile "http://h" "t")) ]}
    [] [] [] [] 0 [].

Definition plain_cli : Cli := mkCli (Some config_path) (mkOpts false true true) Whoami.

Lemma sample_set_path_scheme p u : url_scheme (url_set_path p u) = url_scheme u.
Proof. done. Qed.
Lemma sample_join_scheme u p u' : relative_path p = true → url_join u p = Ok u' → url_scheme u' = url_scheme u.
Proof. by intros _ [= <-]. Qed.

Lemma sample_redirects_check (sent : list HttpRequest) r0 r :
  last sent = Some r0 → r ∈ redirects sent → hr_check_certs r = hr_check_certs r0.
Proof.
  simpl. intros ->. case_bool_decide; [|by intros ?%elem_of_nil]. by intros ->%list_elem_of_singleton.
Qed.

(** With [--insecure-http] and [--no-tls-verify] one request leaves over http. *)
Lemma requests_follow_options_witness :
  let sent := w_sent (run (main plain_cli) client_world).2 in
  (λ r, (url_text (hr_url r), hr_check_certs r)) <$> sent = [("http://h/api/auth/whoami", false)] ∧
  Forall (λ r, (url_scheme (hr_url r) = "https"
                ∨ url_scheme (hr_url r) = "http" ∧ insecure_http (cli_opts plain_cli) = true)
               ∧ hr_check_certs r = negb (no_tls_verify (cli_opts plain_cli))) sent.
Proof.
  cbv zeta. split; [vm_compute; reflexivity|].
  apply (requests_follow_options sample_set_path_scheme sample_join_scheme client_world plain_cli).
  - reflexivity.
  - exact sample_redirects_check.
Defined.

(** A server can redirect a client to http that was not allowed http: the client
    asks over https, and the library follows in the clear. *)
Definition moved_world : World :=
  mkWorld _ {[ "/home/config.json" := File CONFIG_MODE (config_to_text (mkConfigFile "https://moved" "t")) ]}
    [] [] [] [] 0 [].
Definition secure_cli : Cli := mkCli (Some config_path) (mkOpts false false false) Whoami.

Lemma redirects_are_not_bound :
  insecure_http (cli_opts secure_cli) = false ∧
  (λ r, url_text (hr_url r)) <$> on_wire (w_sent (run (main secure_cli) moved_world).2)
    = ["https://moved/api/auth/whoami"; "http://moved/api/auth/whoami"].
Proof. split; vm_compute; reflexivity. Qed.

(** Creating the temporary file works, writing it fails after three bytes. *)
Definition failing_world : World := set_faults [None; None; Some 3] client_world.

Lemma save_atomic_witness :
  (∃ e, (run (save (mkConfig "https://new" "u") config_path) failing_world).1 = Err e) ∧
  let path := [RootDir; FileSystem.Normal "home"] ++ [FileSystem.Normal "config.json"] in
  let before := w_files failing_world !! display path in
  let new := Some (File 384 (to_json (mkConfigFile "https://new" "u"))) in
  Forall (λ w', w_files w' !! display path = before ∨ w_files w' !! display path = new)
    (states_of (save (mkConfig "https://new" "u") path) failing_world) ∧
  match run (save (mkConfig "https://new" "u") path) failing_world with
  | (Ok _, w') => w_files w' !! display path = new
  | (Err _, w') => w_files w' !! display path = before
  end.
Proof.
  split; [eexists; vm_compute; reflexivity|].
  apply (save_atomic failing_world (mkConfig "https://new" "u") [RootDir; FileSystem.Normal "home"] "config.json").
  discriminate.
Defined.

(** A login in which a token is pasted. *)
Definition login_world : World := set_stdin [" token "] client_world.

Lemma login_saves_token_witness :
  (run (cmd_login "https://h" (Some config_path) (mkOpts false false false)) login_world).1 = Ok () ∧
  let path := [RootDir; FileSystem.Normal "home"] ++ [FileSystem.Normal "config.json"] in
  match run (cmd_login "https://h" (Some path) (mkOpts false false false)) login_world with
  | (Ok _, w') =>
      ∃ token value req resp,
        decode_token " token " = Ok token ∧ header_value ("Bearer " +:+ token) = Ok value ∧
        last (w_sent w') = Some req ∧ hr_authorization req = Some value ∧
        answer (w_sent w') = Ok resp ∧ is_success (hp_status resp) = true ∧
        w_files w' !! display path = Some (File 384 (to_json (mkConfigFile "https://h" token))) ∧
        (w_faults w' = [] → run (load (Some path)) w' = (Ok (mkConfig "https://h" token), w'))
  | (Err _, w') => w_files w' !! display path = w_files login_world !! display path
  end.
Proof.
  split; [vm_compute; reflexivity|].
  apply (login_saves_token login_world (mkOpts false false false) "https://h" " token " []
           [RootDir; FileSystem.Normal "home"] "config.json").
  - discriminate.
  - reflexivity.
  - intros c. split; [apply config_text_roundtrip|apply digits_valid].
Defined.

(** Two tasks whose ids agree in the first component. *)
Definition sample_tasks : list PeriodicListItem := [
  mkListItem "aaaaaaaa-0000-4000-8000-000000000000" true "0 2 * * *" None;
  mkListItem "aaaaaaaa-1111-4000-8000-000000000000" false "0 3 * * *" None ].

Lemma listed_id_resolves_witness :
  let t := mkListItem "aaaaaaaa-0000-4000-8000-000000000000" true "0 2 * * *" None in
  min_unique_components (li_id <$> sample_tasks) = 2 ∧
  let n := min_unique_components (li_id <$> sample_tasks) in
  resolve_from_fetch (Ok sample_tasks) (truncate_components (li_id t) n) = Ok (li_id t) ∧
  ∀ m, 1 ≤ m → m < n → ∃ x y, x ∈ sample_tasks ∧ y ∈ sample_tasks ∧ li_id x ≠ li_id y ∧
    truncate_components (li_id x) m = truncate_components (li_id y) m.
Proof.
  split; [vm_compute; reflexivity|].
  apply listed_id_resolves.
  - vm_compute. repeat constructor; set_solver.
  - intros x Hx. unfold sample_tasks in Hx. rewrite !elem_of_cons, elem_of_nil in Hx.
    destruct Hx as [->|[->|[]]]; reflexivity.
  - by left.
Defined.

(** A task that builds a fork, from its own repository, as a container. *)
Definition fork : BuildDescriptor :=
  mkDescriptor "19.2.3" (Some "ces-devel") (Some Dev) (mkSignedOffBy "Jo" "jo@clyso.com")
    (mkDestImage "ceph/ceph" "19.2.3") [mkComponent "ceph" "main" (Some "https://git/fork")]
    (mkTarget "rockylinux" "el9" "container" Aarch64).

Definition stored_fork : @Value client_json := descriptor_json fork.

Definition new_tag : PeriodicUpdateArgs :=
  mkPeriodicUpdateArgs "aaaaaaaa" None None None None None None None None None None (Some "nightly")
    None None None.

Lemma update_drops_repositories_witness :
  ∃ d', merged_descriptor new_tag stored_fork (mkWhoami "ed@clyso.com" "Ed") = Ok d' ∧
    bd_version d' = default (bd_version fork) (pu_version new_tag) ∧
    bd_channel d' = (let c := default (default "" (bd_channel fork)) (pu_channel new_tag) in
                     if bool_decide (c = "") then None else Some c) ∧
    bd_version_type d' = bd_version_type fork ∧
    bd_signed_off_by d' = mkSignedOffBy "Ed" "ed@clyso.com" ∧
    bd_dst_image d' = mkDestImage (default (di_name (bd_dst_image fork)) (pu_image_name new_tag))
                                  (default (di_tag (bd_dst_image fork)) (pu_image_tag new_tag)) ∧
    bd_components d' = (λ c, mkComponent (bc_name c) (bc_git_ref c) None) <$> bd_components fork ∧
    bd_build d' = mkTarget (default (bt_distro (bd_build fork)) (pu_distro new_tag))
                           (default (bt_os_version (bd_build fork)) (pu_os_version new_tag))
                           "rpm" (bt_arch (bd_build fork)).
Proof.
  apply (update_drops_repositories new_tag stored_fork fork (mkWhoami "ed@clyso.com" "Ed")).
  - split; reflexivity.
  - repeat constructor.
  - reflexivity.
  - reflexivity.
  - reflexivity.
  - reflexivity.
Defined.
