(* ===== verification/EndToEnd.v ===== *)
(** * From the output of a build to the terminal of a user

    The worker numbers and batches what a build prints, the server appends the
    batches to the log file and streams it, the client prints the stream. The
    three models composed, and applied to a concrete build. *)

From stdpp Require Import prelude gmap strings list pretty.
From S2P Require Import Prelude Async Proto Common Queue Db App Logs.
From S2P Require Import LogsSpec Dispatch Handler DispatchSpec LogReaders LogReadersSpec Samples.
From S2P Require WorkerOutput.
From S2P Require Cbc.
From S2P Require CbcLogs.
From S2P Require WorkerSamples.
From S2P Require CbcWitnesses.

(** ** What connects the models *)

(** The worker's messages as the frames of its connection. *)
Definition frames (msgs : list WorkerMessage) : list Incoming := (λ m, InText (Ok m)) <$> msgs.

(** A text that the lines of an event stream can carry as it is: it is not empty
    and has neither a line feed nor a carriage return, which both end a line of
    the format. A progress bar that redraws itself with carriage returns is not
    such a text. *)
Definition plain_text (t : string) : bool :=
  match String.list_ascii_of_string t with
  | [] => false
  | l => forallb (λ c, negb (Ascii.eqb c lf) && negb (Ascii.eqb c (Ascii.ascii_of_nat 13))) l
  end.

(** What is between the two: the server's library encodes its events, the client's
    library decodes them. Over a connection that is not cut, events with a plain
    text arrive one by one under their name; nothing is assumed of others. *)
Class EventWire := mkEventWire {
  wire : list SseEvent → list CbcLogs.EsItem;
  wire_delivers evs :
    Forall (λ e, plain_text (sse_data e) = true) evs →
    wire evs = (λ e, CbcLogs.EsMessage (sse_name e) (sse_data e)) <$> evs
}.

(** The terminal with more lines on it. *)
Definition printed `{Cbc.UrlCrate} (lines : list string) (w : Cbc.World) : Cbc.World :=
  Cbc.set_stdout (Cbc.w_stdout w ++ ((λ l, l +:+ String lf "") <$> lines)) w.

(** ** The server's side *)

Lemma line_entries_app seq off a b :
  line_entries seq off (a ++ b) =
  line_entries seq off a ++
  line_entries (seq + Z.of_nat (length a)) (off + Z.of_nat (String.length (lines_text a))) b.
Proof.
  revert seq off. induction a as [|l a IH]; intros seq off; simpl.
  - by rewrite !Z.add_0_r.
  - rewrite IH, (string_app_length (l +:+ newline)), !Nat2Z.inj_succ, !Nat2Z.inj_add.
    do 2 f_equal. f_equal; lia.
Qed.

Section Server.
Context `{HEnv : Env} `{HHash : HashIter} `{HSerde : Serde}.

(** A running build of the connection, whose log has the lines so far. *)
Record receiving (i : Z) (cid : ConnectionId) (lines : list string) (s : AppState) : Prop := mkReceiving {
  rc_no_faults : faults s = [];
  rc_build : is_Some (t_builds (pool s) !! i);
  rc_owner : is_Some (active_build_for_connection i cid (queue s));
  rc_row : ∃ row, t_build_logs (pool s) !! i = Some row ∧ bl_log_path row = log_path_of i ∧ bl_finished row = false;
  rc_file : file_content i s = lines_text lines;
  rc_index : default [] (seq_indices s !! i) = line_entries 0 0 lines
}.

Lemma claim_receiving i cid lines s :
  receiving i cid lines s → receiving i cid lines (claim_assignment cid i s).2.
Proof.
  intros [Hf Hb [ab Ha] Hrow Hfile Hidx]. unfold claim_assignment. rewrite Ha.
  split; try done. simpl. unfold active_build_for_connection in *. simpl. rewrite lookup_insert_eq.
  destruct (q_active (queue s) !! i) as [ab0|]; [|done]. case_bool_decide; [|done].
  injection Ha as ->. simpl. rewrite bool_decide_eq_true_2 by done. eauto.
Qed.

(** A batch that continues the log. *)
Lemma output_received i cid name w lines l s :
  receiving i cid lines s → l ≠ [] → (Z.of_nat (length lines + length l) < 2 ^ 63)%Z →
  receiving i cid (lines ++ l)
    (run (handle_worker_message cid name w (BuildOutput (mkBuildId i) (Z.of_nat (length lines)) l)) s).2.
Proof.
  intros Hs Hl Hn. destruct (rc_owner _ _ _ _ Hs) as [ab Ha]. cbn [handle_worker_message].
  rewrite (run_authorized_owned _ (mkBuildId i) _ _ _ _ Ha). cbn [build_id_0].
  destruct (claim_receiving _ _ _ _ Hs) as [Hf Hb Ho (row & Hrow & Hpath & Hfin) Hfile Hidx].
  set (s1 := (claim_assignment cid i s).2) in *.
  destruct (run_write_build_output i cid (Z.of_nat (length lines)) l s1 Hf Hl) as (_ & Hc & _ & Hx & Hp & Hff & Hq).
  rewrite run_bind. set (s2 := (run (write_build_output _ _ _ _) s1).2) in *.
  assert (update_log i (λ r, mkBuildLogRow (bl_log_path r) (cast_i64 (Z.of_nat (String.length (file_content i s1)) +
    Z.of_nat (String.length (lines_text l)))) (bl_finished r) (clock s1)) (pool s1) = pool s2) as Hpool by done.
  unfold update_log in Hpool. rewrite Hrow in Hpool.
  split; simpl.
  - done.
  - by rewrite <- Hpool.
  - by rewrite Hq.
  - rewrite <- Hpool. simpl. rewrite lookup_insert_eq. by eexists.
  - by rewrite Hc, Hfile, lines_text_app.
  - rewrite Hx, lookup_insert_eq. simpl. rewrite Hidx, Hfile, wrap_entries by lia. by rewrite line_entries_app.
Qed.

(** The batches of the worker, up to any of them. *)
Lemma batches_received i cid name w msgs k : ∀ lines rest s,
  WorkerOutput.batches (mkBuildId i) (Z.of_nat (length lines)) msgs rest →
  receiving i cid lines s → (Z.of_nat (length lines + length rest) < 2 ^ 63)%Z →
  ∃ n, receiving i cid (lines ++ take n rest) (run (receive_loop cid name w (frames (take k msgs))) s).2 ∧
       (length msgs ≤ k → take n rest = rest) ∧ (0 < k → rest ≠ [] → take n rest ≠ []).
Proof.
  revert k. induction msgs as [|m msgs IH]; intros k lines rest s Hm Hs Hn.
  { simpl in Hm. subst rest. exists 0. rewrite take_nil, app_nil_r. by rewrite take_nil. }
  destruct k as [|k].
  { exists 0. change (take 0 rest) with (@nil string). rewrite app_nil_r. split_and!; [done|simpl; lia|lia]. }
  destruct m; try done. simpl in Hm. destruct Hm as (-> & -> & Hl & rest' & -> & Hm).
  rewrite length_app in Hn.
  destruct (IH k (lines ++ lines0) rest' (run (handle_worker_message cid name w
    (BuildOutput (mkBuildId i) (Z.of_nat (length lines)) lines0)) s).2) as (n & Hr & Hall & _).
  { by rewrite length_app, Nat2Z.inj_add. }
  { apply output_received; [done|done|lia]. }
  { rewrite length_app. lia. }
  exists (length lines0 + n). rewrite take_app_add, app_assoc. cbn [take frames fmap list_fmap receive_loop].
  rewrite run_bind. split_and!; [done| |].
  - intros Hk. rewrite Hall; [done|simpl in Hk; lia].
  - intros _ _. by destruct lines0.
Qed.
(** ** After the end *)

(** A build whose log is finished and has the lines. *)
Definition archived_rows (i : Z) (d : Db) : Prop :=
  is_Some (t_builds d !! i) ∧
  ∃ row, t_build_logs d !! i = Some row ∧ bl_log_path row = log_path_of i ∧ bl_finished row = true.

Definition archived (i : Z) (lines : list string) (s : AppState) : Prop :=
  faults s = [] ∧ archived_rows i (pool s) ∧ log_files s !! i = Some (lines_text lines).

Lemma update_build_archived i j f d : archived_rows i d → archived_rows i (update_build j f d).2.
Proof.
  intros [Hb Hr]. unfold update_build. destruct (t_builds d !! j) as [r|] eqn:Hj; [|done]. split; [|done]. simpl.
  destruct (decide (i = j)) as [->|]; [rewrite lookup_insert_eq; by eexists|by rewrite lookup_insert_ne].
Qed.

Lemma log_finished_archived i j t d : archived_rows i d → archived_rows i (set_build_log_finished j t d).2.
Proof.
  intros [Hb (row & Hr & Hp & Hf)]. unfold set_build_log_finished, update_log. simpl.
  destruct (t_build_logs d !! j) as [l|] eqn:Hj; [|by split; eauto]. split; [done|]. simpl.
  destruct (decide (i = j)) as [->|]; [rewrite lookup_insert_eq|rewrite lookup_insert_ne by done; by eauto].
  eexists. split; [done|]. by simplify_eq.
Qed.

Lemma keeps_exec {A} i lines (st : stmt A) s :
  (∀ t d, archived_rows i d → archived_rows i (st t d).2) → archived i lines s → archived i lines (exec_stmt st s).2.
Proof.
  intros Hst (Hf & Hr & Hl). unfold exec_stmt, next_fault. rewrite Hf. specialize (Hst (clock s) _ Hr).
  destruct (st (clock s) (pool s)) as [r d]. done.
Qed.

Lemma keeps_archived_query {A} i lines (st : stmt A) :
  (∀ t d, archived_rows i d → archived_rows i (st t d).2) → keeps (archived i lines) (query st).
Proof. intros Hst. apply keeps_atomic. intros s. by apply keeps_exec. Qed.

Lemma keeps_queue {A} i lines (f : BuildQueue → A * BuildQueue) : keeps (archived i lines) (with_queue f).
Proof. apply keeps_atomic. intros s Hs. by destruct (f (queue s)). Qed.

Lemma keeps_act i lines (f : AppState → AppState) :
  (∀ s, faults (f s) = faults s ∧ pool (f s) = pool s ∧ log_files (f s) = log_files s) →
  keeps (archived i lines) (atomic (λ s, ((), f s))).
Proof. intros Hf. apply keeps_atomic. intros s (H1 & H2 & H3). destruct (Hf s) as (E1 & E2 & E3).
  unfold archived. simpl. by rewrite E1, E2, E3. Qed.

Lemma chan_send_archived i lines c f s : archived i lines s → archived i lines (chan_send c f s).2.
Proof. unfold chan_send. destruct (channels s !! c) as [[[] ?]|]; done. Qed.

Lemma keeps_dispatch_section i lines : keeps (archived i lines) (atomic dispatch_under_lock).
Proof.
  apply keeps_atomic. intros s Hs. unfold dispatch_under_lock. destruct (next_pending (queue s)) as [[b|] q]; [|done].
  destruct (find_worker _ q) as [[c r]|]; [|done]. unfold alloc at 1.
  match goal with |- context [exec_stmt ?st ?x] => assert (archived i lines (exec_stmt st x).2) as Hx end.
  { apply keeps_exec; [|done]. intros t d. apply update_build_archived. }
  destruct (exec_stmt _ _) as [[[]|e] s2]; [done..|done].
Qed.

Lemma keeps_try_dispatch i lines : keeps (archived i lines) try_dispatch.
Proof.
  unfold try_dispatch. apply keeps_bind; [apply keeps_dispatch_section|]. intros [info|e]; [|apply keeps_ret].
  apply keeps_bind.
  { unfold pack_for. destruct (bc_name <$> _) as [|? ?]; [apply keeps_ret|]. apply keeps_atomic.
    intros s0 Hs. unfold next_fault. by rewrite (proj1 Hs). }
  intros [[bytes hex]|e].
  - apply keeps_bind.
    + unfold send_and_recover. apply keeps_bind.
      * apply keeps_atomic. intros s Hs. unfold send_frames. destruct (worker_senders s !! _) as [tx|]; [|done].
        cbn [foldl]. pose proof (chan_send_archived i lines tx
          (TextFrame (BuildNew (dp_build_id info) (dp_trace_id info) (dp_priority info) (dp_descriptor info) hex)) s Hs) as H1.
        destruct (chan_send tx _ s) as [[] s1]; [|done].
        pose proof (chan_send_archived i lines tx (BinaryFrame bytes) s1 H1) as H2. by destruct (chan_send tx _ s1) as [[] s2].
      * intros [[]|e]; [apply keeps_ret|]. apply keeps_bind; [|intros ?; apply keeps_ret].
        unfold handle_dispatch_send_failure, rollback_active_to_queued. apply keeps_bind; [|intros ?; apply keeps_ret].
        apply keeps_bind; [apply keeps_queue|]. intros [ab|]; [|apply keeps_ret].
        repeat (apply keeps_bind; [|intros ?]); try apply keeps_ret; try apply keeps_queue; try (by apply keeps_act).
        apply keeps_archived_query. intros t d. apply update_build_archived.
    + intros [[]|e]; [|apply keeps_ret]. apply keeps_bind; [|intros ?; apply keeps_ret].
      unfold spawn_ack_timer. apply keeps_bind; [apply keeps_queue|]. intros [t|]; [by apply keeps_act|apply keeps_ret].
  - apply keeps_bind; [|intros ?; apply keeps_ret]. unfold cleanup_terminal_state.
    repeat (apply keeps_bind; [|intros ?]); try apply keeps_queue; try (by apply keeps_act);
      apply keeps_archived_query; intros t d; [apply update_build_archived|apply log_finished_archived].
Qed.

(** The report that the build has finished. *)
Lemma finished_received i cid name w lines st err rep s :
  receiving i cid lines s → lines ≠ [] →
  archived i lines (run (handle_worker_message cid name w (BuildFinished (mkBuildId i) st err rep)) s).2.
Proof.
  intros Hs Hl. destruct (rc_owner _ _ _ _ Hs) as [ab Ha]. cbn [handle_worker_message].
  rewrite (run_authorized_owned _ (mkBuildId i) _ _ _ _ Ha). cbn [build_id_0].
  destruct (claim_receiving _ _ _ _ Hs) as [Hf Hb _ (row & Hrow & Hpath & _) Hfile _].
  set (s1 := (claim_assignment cid i s).2) in *.
  assert (log_files s1 !! i = Some (lines_text lines)) as Hlog.
  { unfold file_content in Hfile. destruct (log_files s1 !! i) as [t|]; simpl in Hfile; [by subst|].
    by destruct lines as [|[] ?]. }
  cbv zeta. generalize (if bool_decide (st = FinSuccess) then rep else None). intros report.
  rewrite run_bind.
  assert (keeps (archived i lines) (do* query (update_last_seen w) in Ret ())) as Hseen.
  { apply keeps_bind; [|intros ?; apply keeps_ret]. apply keeps_archived_query. intros t d Hd. unfold update_last_seen.
    by destruct (t_workers d !! w). }
  apply Hseen. unfold handle_build_finished, finish_build_log.
  rewrite run_bind, run_query, exec_stmt_no_fault by done. unfold set_build_finished.
  set (s2 := upd_pool _ s1). cbn [snd].
  assert (is_Some (t_builds (pool s2) !! i) ∧ t_build_logs (pool s2) !! i = Some row) as [Hb2 Hrow2].
  { subst s2. simpl. unfold update_build. destruct Hb as [b Hb]. rewrite Hb. simpl.
    rewrite lookup_insert_eq. split; [by eexists|done]. }
  rewrite run_bind. set (s3 := (run (modify_queue _) s2).2). rewrite run_bind.
  assert (archived i lines (run (do* atomic (λ s : AppState, ((), upd_seq_indices (delete i (seq_indices s)) s)) in
    do* query (set_build_log_finished i) in Ret ()) s3).2) as Hx.
  { rewrite run_bind, run_bind, run_query, exec_stmt_no_fault by done. set (s4 := (run (atomic _) s3).2).
    assert (pool s4 = pool s2) as Hpool by done. split_and!; [done| |done].
    rewrite run_ret. cbn [fst snd]. unfold set_build_log_finished, update_log. cbn [fst snd]. rewrite Hpool, Hrow2.
    split; [done|]. simpl. rewrite lookup_insert_eq. by eexists. }
  match goal with |- archived i lines (run ?m _).2 => assert (keeps (archived i lines) m) as Hm; [|by apply Hm] end.
  repeat first [apply keeps_ret|apply keeps_try_dispatch|apply keeps_bind; [|intros ?]|by apply keeps_act].
Qed.
End Server.

(** ** The client's side *)

Section Client.
Context `{HUrl : Cbc.UrlCrate} `{HWire : EventWire}.

Lemma printed_nil w : printed [] w = w.
Proof. unfold printed. rewrite app_nil_r. by destruct w. Qed.

Lemma printed_cons l lines w : printed (l :: lines) w = printed lines (printed [l] w).
Proof. unfold printed. simpl. by rewrite <- app_assoc. Qed.

Lemma numbered_plain n lines fin :
  fin = [] ∨ fin = [EventDone] → Forall (λ l, plain_text l = true) lines →
  Forall (λ e, plain_text (sse_data e) = true) (numbered n lines ++ fin).
Proof.
  intros Hfin Hp. apply Forall_app. split.
  - revert n. induction Hp as [|l lines Hl Hp IH]; intros n; [constructor|]. rewrite numbered_cons. by constructor.
  - destruct Hfin as [->| ->]; [constructor|]. constructor; [reflexivity|constructor].
Qed.

(** Output events are printed line by line; the end stops the client. *)
Lemma follow_prints retries n lines fin w :
  fin = [] ∨ fin = [EventDone] → Forall (λ l, plain_text l = true) lines →
  run (CbcLogs.follow_events retries (wire (numbered n lines ++ fin))) w = ((), printed lines w).
Proof.
  intros Hfin Hp. rewrite (wire_delivers _ (numbered_plain n lines fin Hfin Hp)). clear Hp.
  revert retries n w. induction lines as [|l lines IH]; intros retries n w.
  - rewrite printed_nil. by destruct Hfin as [->| ->].
  - rewrite numbered_cons. cbn [app fmap list_fmap sse_name sse_data CbcLogs.follow_events].
    rewrite bool_decide_eq_false_2 by done. rewrite run_bind, (printed_cons l lines).
    by rewrite IH.
Qed.
End Client.

(** ** The composition *)

Section EndToEnd.
Context `{HEnv : Env} `{HHash : HashIter} `{HSerde : Serde} `{HJson : WorkerOutput.JsonValue}
  `{HUrl : Cbc.UrlCrate} `{HWire : EventWire}.

Lemma receiving_has_log i cid lines s :
  receiving i cid lines s → lines ≠ [] → Forall clean_line lines → (Z.of_nat (length lines) < 2 ^ 63)%Z →
  ∃ row, bl_finished row = false ∧ has_log s i row lines.
Proof.
  intros [Hf Hb _ (row & Hrow & Hpath & Hfin) Hfile _] Hl Hc Hn. exists row. split; [done|]. split; try done.
  unfold file_content in Hfile. destruct (log_files s !! i) as [t|]; simpl in Hfile; [by subst|].
  by destruct lines as [|[] ?].
Qed.

Lemma archived_has_log i lines s :
  archived i lines s → Forall clean_line lines → (Z.of_nat (length lines) < 2 ^ 63)%Z →
  ∃ row, bl_finished row = true ∧ has_log s i row lines.
Proof. intros (Hf & (Hb & row & Hrow & Hpath & Hfin) & Hfile) Hc Hn. by exists row. Qed.

(** C4: What a build prints is what users see. A build that is assigned to a
    connection prints lines until its output ends, none of them empty or with a
    carriage return in it (the event stream does not carry those as they are);
    the worker batches and numbers them, and the server receives the batches.
    Whoever follows the log after any number of batches, over a connection that is
    not cut, sees a non-empty beginning of the output on the terminal, line by
    line, and all of it once the last batch has arrived; and when the worker has
    reported the end of the build, following the log prints all of the output and
    stops. *)
Theorem output_reaches_terminal (s : AppState) (i : Z) (cid : ConnectionId) (name wid : string)
    (row : BuildLogRow) (events : list WorkerOutput.StdoutEvent) (fuel : nat) (w : Cbc.World)
    (He : WorkerOutput.ends_with WorkerOutput.Eof events)
    (Hf : faults s = []) (Hb : is_Some (t_builds (pool s) !! i))
    (Ha : is_Some (active_build_for_connection i cid (queue s)))
    (Hrow : t_build_logs (pool s) !! i = Some row) (Hpath : bl_log_path row = log_path_of i)
    (Hfin : bl_finished row = false) (Hfile : log_files s !! i = None) (Hidx : seq_indices s !! i = None)
    (Hne : WorkerOutput.log_of events ≠ []) (Hc : Forall clean_line (WorkerOutput.log_of events))
    (Hp : Forall (λ l, plain_text l = true) (WorkerOutput.log_of events))
    (Hn : (Z.of_nat (length (WorkerOutput.log_of events)) < 2 ^ 63)%Z) :
  let output := WorkerOutput.log_of events in
  let '(msgs, outcome) := WorkerOutput.stream_output (mkBuildId i) events [] WorkerOutput.stream_start in
  let received k := (run (receive_loop cid name wid (frames (take k msgs))) s).2 in
  let follow s := (run (sse_follow (S fuel) i None) s).1 in
  let shows evs lines :=
    run (CbcLogs.follow_events 0 (CbcLogs.EsOpen :: wire evs)) w = ((), printed lines w) in
  (∀ k, 0 < k → ∃ evs n, follow (received k) = Ok evs ∧ shows evs (take n output) ∧
     take n output ≠ [] ∧ (length msgs ≤ k → take n output = output)) ∧
  ∃ status error report, outcome = Some (Ok (status, error, report)) ∧
    ∃ evs, follow (run (receive_loop cid name wid (frames [BuildFinished (mkBuildId i) status error report]))
                     (received (length msgs))).2 = Ok (evs ++ [EventDone]) ∧
           shows (evs ++ [EventDone]) output.
Proof.
  cbv zeta. pose proof (WorkerOutput.stream_output_spec (mkBuildId i) events 0 WorkerOutput.stream_start) as Hspec.
  destruct (WorkerOutput.stream_output _ _ _ _) as [msgs outcome]. destruct Hspec as [Hm Ho]; [by split|done|].
  set (output := WorkerOutput.log_of events) in *.
  assert (receiving i cid [] s) as Hs.
  { split; try done; [by exists row|unfold file_content; by rewrite Hfile|by rewrite Hidx]. }
  assert (∀ k, ∃ n, receiving i cid (take n output) (run (receive_loop cid name wid (frames (take k msgs))) s).2 ∧
    (length msgs ≤ k → take n output = output) ∧ (0 < k → take n output ≠ [])) as Hk.
  { intros k. destruct (batches_received i cid name wid msgs k [] output s Hm Hs Hn) as (n & H1 & H2 & H3).
    exists n. split_and!; auto. }
  split.
  - intros k H0. destruct (Hk k) as (n & Hr & Hall & Hpos). specialize (Hpos H0).
    destruct (receiving_has_log _ _ _ _ Hr Hpos) as (row' & Hrf & Hlog); [by apply Forall_take|rewrite length_take; lia|].
    exists (numbered 0 (take n output)), n. rewrite (follow_open fuel i row' (take n output)) by done.
    split_and!; [done| |done|done]. cbn [CbcLogs.follow_events].
    rewrite <- (app_nil_r (numbered _ _)). apply follow_prints; [by left|by apply Forall_take].
  - destruct (Hk (length msgs)) as (n & Hr & Hall & _). rewrite (Hall (le_n _)) in Hr. subst outcome.
    destruct (WorkerOutput.final_outcome _) as [[status error] report]. exists status, error, report. split; [done|].
    exists (numbered 0 output). split.
    + cbn [frames fmap list_fmap receive_loop]. rewrite run_bind.
      destruct (archived_has_log i output _ (finished_received i cid name wid output status error report _ Hr Hne))
        as (row' & Hrf & Hlog); [done..|].
      rewrite run_ret. cbn [snd]. by rewrite (follow_finished (S fuel) i row' output).
    + cbn [CbcLogs.follow_events]. apply follow_prints; [by right|done].
Qed.
End EndToEnd.

(** ** A build from its output to the terminal

    The concrete server, worker and client together. *)

#[local] Existing Instance WorkerSamples.sample_json.
#[local] Existing Instance CbcWitnesses.sample_urls.

#[local] Instance sample_wire : EventWire := {|
  wire evs := (λ e, CbcLogs.EsMessage (sse_name e) (sse_data e)) <$> evs;
  wire_delivers evs _ := eq_refl
|}.

(** What the build prints, with a pause in between, and what the worker sends. *)
Definition sample_output : list WorkerOutput.StdoutEvent :=
  [WorkerOutput.Line "compiling"; WorkerOutput.FlushTimer; WorkerOutput.Line "done"; WorkerOutput.Eof].

Definition sample_batches : list WorkerMessage :=
  [BuildOutput (mkBuildId 1) 0 ["compiling"]; BuildOutput (mkBuildId 1) 1 ["done"]].

Definition received_batches (k : nat) : AppState :=
  (run (receive_loop "c1" "builder-1" "w1" (frames (take k sample_batches))) s_started).2.

Definition ended : AppState :=
  (run (receive_loop "c1" "builder-1" "w1" (frames [BuildFinished (mkBuildId 1) FinFailure None None]))
     (received_batches 2)).2.

Lemma output_reaches_terminal_witness :
  (∃ evs n, (run (sse_follow 5 1 None) (received_batches 1)).1 = Ok evs ∧
     run (CbcLogs.follow_events 0 (CbcLogs.EsOpen :: wire evs)) CbcWitnesses.client_world
       = ((), printed (take n ["compiling"; "done"]) CbcWitnesses.client_world) ∧
     take n ["compiling"; "done"] ≠ []) ∧
  ∃ evs, (run (sse_follow 5 1 None) ended).1 = Ok (evs ++ [EventDone]) ∧
     run (CbcLogs.follow_events 0 (CbcLogs.EsOpen :: wire (evs ++ [EventDone]))) CbcWitnesses.client_world
       = ((), printed ["compiling"; "done"] CbcWitnesses.client_world).
Proof.
  pose proof (output_reaches_terminal s_started 1 "c1" "builder-1" "w1"
    (default (mkBuildLogRow "" 0 true 0) (t_build_logs (pool s_started) !! 1%Z)) sample_output 4
    CbcWitnesses.client_world) as H.
  destruct H as [H1 (status & error & report & Ho & H2)].
  - exact Logic.I || reflexivity.
  - vm_compute. reflexivity.
  - vm_compute. eexists. reflexivity.
  - vm_compute. eexists. reflexivity.
  - vm_compute. reflexivity.
  - vm_compute. reflexivity.
  - vm_compute. reflexivity.
  - vm_compute. reflexivity.
  - vm_compute. reflexivity.
  - discriminate.
  - repeat (constructor; [split; [split|]; vm_compute; reflexivity|]). constructor.
  - repeat (constructor; [vm_compute; reflexivity|]). constructor.
  - vm_compute. reflexivity.
  - vm_compute in Ho. injection Ho as <- <- <-. split; [|exact H2].
    destruct (H1 1 ltac:(lia)) as (evs & n & Ha & Hb & Hc & _). exists evs, n.
    split; [exact Ha|split; [exact Hb|exact Hc]].
Defined.
