(* ===== verification/MetricsWitnesses.v ===== *)
(** * Metrics on concrete inputs

    A recorder, and the theorems on the metrics applied to the sample server and
    the sample worker. *)

From stdpp Require Import prelude gmap strings list.
From S2P Require Import Prelude Blocking Proto Queue App Metrics.
From S2P Require Import Samples.
From S2P Require Supervisor.
From S2P Require WorkerMetrics.
From S2P Require WorkerSamples.

(** A recorder that keeps the three kinds of series in maps. *)
Record Series := mkSeries {
  sr_gauges : gmap Key f64; sr_counters : gmap Key Z; sr_samples : gmap Key (list f64)
}.

Definition series_apply (op : MetricOp) (r : Series) : Series :=
  match op with
  | SetGauge k v => mkSeries (<[k := v]> (sr_gauges r)) (sr_counters r) (sr_samples r)
  | Increment k n =>
      mkSeries (sr_gauges r) (<[k := (default 0 (sr_counters r !! k) + n)%Z]> (sr_counters r)) (sr_samples r)
  | Absolute k v =>
      mkSeries (sr_gauges r) (<[k := (default 0 (sr_counters r !! k) `max` v)%Z]> (sr_counters r)) (sr_samples r)
  | RecordSample k v =>
      mkSeries (sr_gauges r) (sr_counters r) (<[k := (default [] (sr_samples r !! k) ++ [v])%list]> (sr_samples r))
  end.

#[local] Instance series_recorder : Recorder := {
  Registry := Series;
  apply_op := series_apply;
  gauge r k := sr_gauges r !! k;
  counter r k := sr_counters r !! k;
  samples r k := default [] (sr_samples r !! k)
}.

Lemma lookup_insert_default {A} (m : gmap Key A) (k k' : Key) (v : A) :
  <[k' := v]> m !! k = if bool_decide (k = k') then Some v else m !! k.
Proof. case_bool_decide as Hk; [subst; apply lookup_insert_eq|by apply lookup_insert_ne]. Qed.

#[local] Instance series_laws : RecorderLaws.
Proof.
  split; intros [k' v|k' v|k' v|k' v] r k; cbn; try done;
    rewrite lookup_insert_default; case_bool_decide; by subst.
Qed.

Definition no_series : Registry := mkSeries ∅ ∅ ∅.

(** The queue with one build of high priority and one worker. *)
Definition q_ready : BuildQueue := queue s_ready.

Lemma gauges_match_queue_witness :
  gauge (apply_ops (emit_server_gauges q_ready 5 2) no_series)
    (queued_key (priority_label High, arch_to_string X86_64)) = Some (f64_of_u64 1) ∧
  gauge (apply_ops (emit_server_gauges q_ready 5 2) no_series) (workers_key ("dead", "unknown")) = Some (f64_of_u64 0).
Proof.
  destruct (gauges_match_queue q_ready 5 2 no_series) as (H1 & _ & H3 & _).
  specialize (H1 High X86_64). specialize (H3 ("dead", "unknown")).
  assert (length (filter (λ b, build_key b = (High, X86_64)) (pending q_ready)) = 1) as E1 by (vm_compute; reflexivity).
  assert (length (filter (λ ws, worker_series ws = ("dead", "unknown")) (map_to_list (q_workers q_ready)).*2) = 0) as E3
    by (vm_compute; reflexivity).
  rewrite E1 in H1. rewrite E3 in H3. split; [exact H1|]. apply H3. apply (worker_series_baseline Dead).
Defined.

(** Two processes of one worker: the exits of the second do not show. *)
Definition push_of (exits : Z) : WorkerMessage :=
  Metrics 0 (mkHostMetrics (f64_of_u64 0) (f64_of_u64 0) 0 0 0 0 0 [] 0 0)
    (mkAppMetrics None (mkSubprocessExitCounts exits 0 0) 0 0 0).

Lemma exits_are_largest_report_witness :
  counter (ingest_all [("w1", push_of 7); ("w2", push_of 9); ("w1", push_of 2)] no_series)
    (exits_key "w1" "success") = Some 7%Z.
Proof. exact (exits_are_largest_report _ no_series "w1" FinSuccess). Defined.

(** ** The sampler *)

Definition sample_readings : WorkerMetrics.SystemReadings :=
  WorkerMetrics.mkReadings (f64_of_u64 250) (f64_of_u64 1) 100 50 50 0 0 [WorkerMetrics.mkDisk "/" 10 12 5 6].

Definition stats_output : string :=
  "cache_size_kibibyte 4" +:+ String (Ascii.ascii_of_nat 10) "max_cache_size_kibibyte 8".

(** A tick at a second; ccache is asked if it is due. *)
Definition tick_at (second : Z) : WorkerMetrics.Tick :=
  let now := (second * WorkerMetrics.NANOS_PER_SEC)%Z in
  WorkerMetrics.mkTick now (Some (WorkerMetrics.mkCommandOutput true stats_output)) now sample_readings now.

Lemma sample_bounds_witness :
  fs_used_bytes <$> filesystems (WorkerMetrics.sample sample_readings) = [0%Z] ∧
  WorkerMetrics.u64 (disk_read_bytes_total (WorkerMetrics.sample sample_readings)).
Proof.
  split; [reflexivity|]. eapply (WorkerMetrics.sample_bounds sample_readings).
  repeat constructor; vm_compute; discriminate.
Defined.

(** Room for one message, and three ticks. *)
Definition nearly_full : list WorkerMessage := replicate 63 (BuildStarted (mkBuildId 1)).
Definition sampled_worker : Supervisor.Worker :=
  WorkerSamples.building (Some 0) {[0 := Supervisor.mkOutbound true nearly_full]}
    (WorkerSamples.sample_build Supervisor.Started None) [].

Lemma sampler_accounts_for_ticks_witness :
  ∃ m s', brun (WorkerMetrics.run_sampler 0 60000000000 (tick_at <$> [0; 30; 60]%Z) None None)
      (sampled_worker, WorkerMetrics.statics_init) =
    Some (false, (Supervisor.set_outbound (<[0 := Supervisor.mkOutbound true (nearly_full ++ [m])]>
                    (Supervisor.w_channels sampled_worker)) sampled_worker, s')) ∧
    WorkerMetrics.PUSH_DROPS s' = 2%Z.
Proof.
  destruct (WorkerMetrics.sampler_accounts_for_ticks 0 60000000000 (tick_at <$> [0; 30; 60]%Z) nearly_full
    sampled_worker WorkerMetrics.statics_init) as [(msgs & s' & Hrun & Hlen & _ & Hdrops & _) _].
  - reflexivity.
  - reflexivity.
  - apply Nat.leb_le. reflexivity.
  - split; [discriminate|reflexivity].
  - destruct msgs as [|m [|]]; [discriminate Hlen| |discriminate Hlen].
    exists m, s'. split; [exact Hrun|]. exact Hdrops.
Defined.

Lemma full_channel_stalls_sampler_witness :
  ∃ ts, deadlocked ((Supervisor.set_locked true
    (WorkerSamples.building (Some 3) WorkerSamples.full_channel
       (WorkerSamples.sample_build Supervisor.Started None) []), WorkerMetrics.statics_init), ts).
Proof.
  destruct (WorkerMetrics.full_channel_stalls_sampler (HCodec := WorkerSamples.sample_codec)
    (HConfig := WorkerSamples.sample_spool) 3 60 (tick_at 0) []
    (WorkerSamples.sample_build Supervisor.Started None) 0 ["hello"]
    (replicate 64 WorkerSamples.sample_output)
    (WorkerSamples.building (Some 3) WorkerSamples.full_channel
       (WorkerSamples.sample_build Supervisor.Started None) [])
    WorkerMetrics.statics_init eq_refl eq_refl eq_refl eq_refl eq_refl) as (ts & _ & Hd).
  exists ts. exact Hd.
Defined.
